(* ===== verification/_CoqProject ===== *)
-Q . S2P
Prelude.v
Py.v
RcHeap.v
RcGraph.v
Rtp.v
Synth.v
JBuf.v
JBufProofs.v
JBufOrder.v
PyJBuf.v
PyFrames.v
PyFramesInv.v
PyFramesSpec.v
SPMC.v
SendQueue.v
Sync.v
Utils.v
PySynth.v
Stream.v
Sched.v
Proc.v
ProcObj.v
ProcInv.v
ProcSteps.v
ProcCalls.v
ProcMethods.v
ProcRun.v
ProcLive.v
ProcSpec.v
ServerArgs.v
Server.v
ServerMem.v
ServerInv.v
ServerCalls.v
ServerCreate.v
ServerRun.v
ServerLive.v
ServerDrain.v
ServerStop.v
ServerSpec.v
