(* ===== verification/Prelude.v ===== *)
(** Verification of librtpsynth.

    librtpsynth is a small C library for RTP media streams with Python bindings:
    a packet generator, a parser, a jitter buffer, a lock-free queue, and two
    extension types that run a worker thread, a callback scheduler and an RTP
    server. This library translates that code into executable definitions and
    proves what the code promises. Nothing is assumed: what the code gets from
    outside (the memory allocator, clocks, sockets, name resolution, the random
    source, callbacks) is an argument of the definitions.

    ** How code is modelled

    - A piece of C is a function into [outcome] (this file): a value, a failed
      assertion ([Aborted]), undefined behaviour ([Undefined]: an access outside
      a block or to something freed, a signed overflow), or a loop bound that was
      too small ([OutOfFuel]). Theorems state [Done], so they exclude the others.
    - Integers are [Z] with their wrap-around written out ([u16], [u32], [u64],
      [s32], [s64]); bytes are [Z] in lists; memory blocks are read and written
      with bounds.
    - Python exceptions are values ([pyres] of Py); objects with reference counts
      live in a store (RcHeap), where touching a deallocated object is undefined
      and [heap_ok] says that every count is the number of holders. Where objects
      hold references to one another (RcGraph) the last reference to one drops
      those in its fields, and [graph_ok] counts holders inside the store too.
    - A method that gives the interpreter lock away to wait for a worker thread is
      cut there into a [..._begin] and a [..._end]. Threads are step relations:
      [SPMC.spmc_steps], [Sync.wstep], [Server.sreach], [ProcObj.preach].

    ** The files

    - Prelude: outcomes, machine integers, memory blocks, shared lemmas and tactics.
    - Py, RcHeap, RcGraph: Python's exceptions, argument conversion, reference
      counts, deallocation of objects that refer to each other.
    - Rtp: src/src/rtp.c, rtp.h, rtp_info.h - profiles, sample counts, the parser.
    - Synth: src/src/rtpsynth.c, rsth_timeops.h - the generator.
    - JBuf, JBufProofs, JBufOrder: src/src/rtpjbuf.c - the jitter buffer; its
      invariant and the specification [covers] of what it delivers; sequence
      number recovery, reordering, whole lives of a buffer.
    - PyJBuf: src/python/RtpJBuf_mod.c - the Python type around it, with the table
      that keeps the [bytes] objects alive whose addresses the buffer holds, and
      the opaque objects that came with them.
    - PyFrames, PyFramesInv, PyFramesSpec: the same file - the frame and wrapper
      types as objects on a store, what each operation keeps, and the theorems:
      any program that uses them ([fop_exec], [freach]), the link to the values of
      PyJBuf ([read_wrapper]), the counters.
    - SPMC: src/src/SPMCQueue.c - the ring buffer, sequentially and with every
      atomic access of a producer and any number of consumers a step.
    - SendQueue: the class of bounded queues the server is written against, and
      the instance that SPMC gives.
    - Sync: src/src/rtp_sync.c - command queue, waiter, deadlines.
    - Utils: src/python/RtpUtils_mod.c - mu-law and resampling in IEEE doubles.
    - PySynth, Stream: src/python/RtpSynth_mod.c; and generator, network and
      jitter buffer together.
    - Sched, Proc: src/python/RtpProc_mod.c - the array of channels with the
      intrusive schedule through it; commands, due callbacks, methods.
    - ProcObj: the same file - the scheduler among counted objects, its worker cut
      into atomic steps ([proc_pc], [proc_exec]) and interleaved with the threads of the
      program; [proc_enabled] says what may happen, [preach] are the runs.
    - ProcInv, ProcSteps, ProcCalls, ProcMethods, ProcRun: its invariant ([psys_ok])
      and that the worker, the program and the methods keep it.
    - ProcLive, ProcSpec: the bound on the work before an answer, the theorems about
      the scheduler, and runs that show what it does not protect itself from.
    - ServerArgs, Server: src/python/RtpServer_mod.c - addresses and ticks; the
      channels, commands, worker and methods, and their interleavings: [exec] does
      one step of the worker or one call of the program, [enabled] says when it may
      happen, [sreach] are the runs from a new server on.
    - ServerMem, ServerInv: the memory of the server ([mem_ok]), the invariant of its
      runs ([sys_inv]) and that the worker keeps it.
    - ServerCalls, ServerCreate, ServerRun: the program's calls up to where they wait,
      [create_channel], the other steps; every step keeps the invariant.
    - ServerLive, ServerDrain, ServerStop, ServerSpec: the bound on the work before
      an answer, what is sent, the deallocation, and the theorems about the server.

    The generator's packets are parsed by Rtp; the jitter buffer parses with it;
    PyJBuf calls JBuf and owns the objects; Sched is used by Proc, and the table of
    Sched and the commands of Proc by ProcObj; Proc and Server
    use the command queue and waiter of Sync in the form proved there (a FIFO, a
    status delivered exactly once); Server uses its queues through [SendQueue].

    ** What the theorems show

    - Parser and generator: the parser accepts exactly the wire forms of
      well-formed packets and describes them ([parse_ok_iff]), never reads outside
      its buffer ([parse_safe]), names the part that was cut ([parse_truncated]);
      what the generator makes is parsed back ([next_pkt_parsed]).
    - Jitter buffer: calls never abort ([jbuf_call_safe]); over a whole life what
      comes out is a gapless ordered account of the numbers ([jbuf_delivers_in_order]);
      no frame leaks or comes back twice ([udp_in_conserves]); bursts are reordered
      across wraps ([jbuf_reorders]); and for the Python type, that objects stay
      alive as long as needed and no longer ([py_udp_in_sound], [py_life_releases]).
    - Frames and wrappers: on the store they are the values PyJBuf speaks of,
      whichever allocation fails ([build_wrapper_refines]); a program that uses the
      types finds exact counts and nothing is left over ([frames_counted]); and the
      counters tell what is alive ([counters_tell_alive]).
    - Queue: the ring refines a FIFO under every interleaving ([spmc_refines_fifo])
      and no thread faults ([spmc_no_fault]).
    - Scheduler: the table refines a sorted agenda also when the array moves
      ([table_refines_agenda]); commands, due callbacks and close do what they are
      for ([worker_command_effect], [due_callbacks_run], [close_reports_error]).
      With threads: no run faults ([proc_safe]); counts are exact ([proc_counts]);
      every caller is answered within a bound ([proc_answers]); a closed channel is
      not called again ([closed_never_called]); and a worker that has ended leaves
      nothing undone ([proc_exit_clean]).
    - Server: no run faults ([server_safe]); counts are exact and everything is
      freed in the end ([server_counts]); the table and the poll cache are in
      order ([server_well_formed]); commands refine a set of channels
      ([server_commands]); every caller is answered within a bound
      ([server_answers]); queues are sent in order and completely
      ([drain_sends_all]); the outcomes of [send_pkt] and of a failing
      [create_channel] ([send_pkt_outcomes], [create_fails_clean]); the ticks
      ([server_tick_schedule]); the deallocation ends ([server_stops]); and the one
      leak there is ([callback_close_leaks]).
    - Audio helpers and end-to-end streams: [ulaw_accuracy], [ulaw_round_trip],
      [ulaw_buffers], [py_next_pkt_wire], [stream_through_jbuf].

    ** Bounds

    - A jitter buffer counts logical numbers in 64 bits; theorems about lives assume
      fewer than 2^32 - 1 of them ([LSEQ_BUDGET]) and a capacity of at least 3 (2
      and 1 are broken, see the lemmas of JBufOrder). Recovery of the 16-bit number
      is exact within [WRAP_WINDOW] = 535. Packets have at most [MAX_PACKET] = 2^25
      bytes, so that header arithmetic fits an [int].
    - Ring indices never wrap for fewer than [IDX_BUDGET] = 2^63 pushes, and the
      server's queues for as many ([SEND_BUDGET]). Channel arrays of the scheduler
      have fewer than [CHANNEL_BUDGET] = 2^40 entries, and its numbers for channels
      are all different up to [ID_BUDGET] = 2^64 - 1; no block is larger than
      [PTRDIFF_MAX]. Clock readings of the server lie below [CLOCK_MAX] = 2^63.
    - Fuel: loops over lists take the length of the list; [drain_channel] and
      [free_send_queue] the number of items there are; [grow_cap] 64 doublings;
      the tick loop the number of periods missed. Each is proved to be enough.
      [Proc.run_due] can go on for ever in the code; [due_callbacks_run] gives the
      condition under which it does not and [past_deadlines_starve] the run on which
      it does.

    ** Atomicity in the server

    Between two program points of [srv_pc] the worker touches shared state either
    under [cmd_lock], under the interpreter lock, or as the single consumer of a
    ring; a Python method runs under the interpreter lock up to its wait. These are
    the steps of [exec]. A command is completed and freed in one step, because the
    only thing a freed command can still give back is a reference the caller does
    not look at. [wait_for_commands] is the state [WWait] and the step [LWake]: with
    a deadline it may end at any time, without one only when a command is there.

    ** Atomicity in the scheduler

    The worker of [ProcObj] is cut where it gives a lock away: between commands,
    between due channels, around a callback, and where it waits. A callback may do
    anything the program may do between its begin and its end. A command is
    completed and freed in one step; a slot of the table is cleared before the
    references in it are dropped; dropping runs deallocation functions of this
    module only, not code of the program; an exception is one reference. Four uses
    break the scheduler and are kept out of [proc_enabled]: the last reference
    given back on the worker's own thread, shutdown by a callback, two shutdowns at
    a time, and a deallocation without memory for its command. ProcSpec has a run
    for each ([worker_drops_itself], [callback_shutdown_frees],
    [shutdown_joins_twice], [dealloc_without_memory_frees]).

    ** Not modelled

    - Memory ordering weaker than sequential consistency; failures of
      [pthread_mutex_lock] and the order in which the interpreter lock and [cmd_lock]
      are taken; freeing of raw memory (only that nothing freed is used, for objects
      with counts, channels, items and array addresses).
    - Reference counts of the server object and its packet callbacks, and of [None]
      in PyJBuf (PyFrames counts it); the memory of a send queue. That a server is
      deallocated only without channels is a hypothesis of [server_stops].
    - Objects of the program that form cycles with frames: the types have no support
      for the garbage collector, such objects are never freed. Code of the program
      that runs when one of its objects is freed ([reinit_exposes_freed] shows where
      it would see a freed object).
    - Type objects, module initialisation; the Windows shims (src/src/winnet.h); the
      Python wrappers, tests and build scripts.

    Next: the buffer of PyJBuf on the store of PyFrames; the server's own reference
    count, kept as the scheduler's is. *)
From stdpp Require Import prelude list.
From Stdlib Require Import ZArith Lia.
Local Open Scope Z_scope.

Declare Scope c_scope.
Delimit Scope c_scope with C.

(** What running a piece of C can come to: a value, a call of [abort] (a failed
    assertion), behaviour the C standard leaves undefined (an access outside a
    memory block, a signed overflow, a division by zero), or a loop bound of
    the model that was too small. *)
Inductive outcome (A : Type) : Type :=
| Done (a : A)
| Aborted
| Undefined
| OutOfFuel.
Arguments Done {A} _.
Arguments Aborted {A}.
Arguments Undefined {A}.
Arguments OutOfFuel {A}.

#[export] Instance outcome_ret : MRet outcome := @Done.
#[export] Instance outcome_bind : MBind outcome := λ A B f m,
  match m with
  | Done a => f a
  | Aborted => Aborted
  | Undefined => Undefined
  | OutOfFuel => OutOfFuel
  end.

(** [assert] / [d_assert]: continue, or abort the process. *)
Definition d_assert (b : bool) : outcome unit := if b then Done () else Aborted.

(** A side condition of the C standard: continue, or undefined behaviour. *)
Definition ub_unless (b : bool) : outcome unit := if b then Done () else Undefined.

(** An outcome that produces a value satisfying [P]: neither an abort, nor
    undefined behaviour, nor a loop the model could not finish. *)
Definition succeeds {A} (P : A → Prop) (m : outcome A) : Prop :=
  match m with Done a => P a | _ => False end.

Lemma succeeds_done {A} (P : A → Prop) m :
  succeeds P m ↔ ∃ a, m = Done a ∧ P a.
Proof.
  destruct m; cbn; split; try done; [by eauto|..]; by intros (? & [= ->] & ?).
Qed.

Lemma succeeds_bind {A B} (P : B → Prop) (f : A → outcome B) m :
  succeeds P (m ≫= f) ↔ succeeds (λ a, succeeds P (f a)) m.
Proof. by destruct m. Qed.

Lemma succeeds_impl {A} (P Q : A → Prop) m :
  succeeds P m → (∀ a, P a → Q a) → succeeds Q m.
Proof. destruct m; cbn; eauto. Qed.

Lemma bind_done {A B} (f : A → outcome B) m b :
  m ≫= f = Done b ↔ ∃ a, m = Done a ∧ f a = Done b.
Proof.
  destruct m; cbn; split; try done; [by eauto|..]; by intros (? & [= ->] & ?).
Qed.

Lemma d_assert_true b : b = true → d_assert b = Done ().
Proof. by intros ->. Qed.

Lemma bind_assert_done {A} b (k : unit → outcome A) x :
  d_assert b ≫= k = Done x ↔ b = true ∧ k () = Done x.
Proof. destruct b; cbn; split; [done|by intros [_ ?]|done|by intros [? _]]. Qed.
Lemma bind_unless_done {A} b (k : unit → outcome A) x :
  ub_unless b ≫= k = Done x ↔ b = true ∧ k () = Done x.
Proof. destruct b; cbn; split; [done|by intros [_ ?]|done|by intros [? _]]. Qed.
Lemma bind_assert_true {A} b (k : unit → outcome A) :
  b = true → d_assert b ≫= k = k ().
Proof. by intros ->. Qed.
Lemma bind_unless_true {A} b (k : unit → outcome A) :
  b = true → ub_unless b ≫= k = k ().
Proof. by intros ->. Qed.

(** Run a hypothesis [m = Done x] forward through its binds. *)
Ltac run_in H :=
  repeat first
  [ rewrite bind_assert_done in H;
    let E := fresh "Eassert" in destruct H as [E H]
  | rewrite bind_unless_done in H;
    let E := fresh "Eub" in destruct H as [E H]
  | rewrite bind_done in H;
    let E := fresh "Erun" in let a := fresh "a" in destruct H as (a & E & H) ].

(** * Machine integers *)

Definition u8 (z : Z) : Z := z mod 256.
Definition u16 (z : Z) : Z := z mod 65536.
Definition u32 (z : Z) : Z := z mod 4294967296.
Definition u64 (z : Z) : Z := z mod 18446744073709551616.
Definition s16 (z : Z) : Z := (z + 32768) mod 65536 - 32768.
Definition s32 (z : Z) : Z := (z + 2147483648) mod 4294967296 - 2147483648.
Definition INT_MIN : Z := -2147483648.
Definition INT_MAX : Z := 2147483647.
Definition U64_MAX : Z := 18446744073709551615.

(** Signed 32-bit arithmetic, undefined on overflow. *)
Definition in_int (z : Z) : bool := (INT_MIN <=? z) && (z <=? INT_MAX).
Definition int_chk (z : Z) : outcome Z := if in_int z then Done z else Undefined.

Lemma u32_small z : 0 ≤ z < 4294967296 → u32 z = z.
Proof. intros; unfold u32; by apply Z.mod_small. Qed.
Lemma u64_small z : 0 ≤ z < 18446744073709551616 → u64 z = z.
Proof. intros; unfold u64; by apply Z.mod_small. Qed.
Lemma u16_small z : 0 ≤ z < 65536 → u16 z = z.
Proof. intros; unfold u16; by apply Z.mod_small. Qed.
Lemma u32_range z : 0 ≤ u32 z < 4294967296.
Proof. unfold u32; by apply Z.mod_pos_bound. Qed.
Lemma u64_range z : 0 ≤ u64 z < 18446744073709551616.
Proof. unfold u64; by apply Z.mod_pos_bound. Qed.
Lemma u16_range z : 0 ≤ u16 z < 65536.
Proof. unfold u16; by apply Z.mod_pos_bound. Qed.
Lemma s32_small z : INT_MIN ≤ z ≤ INT_MAX → s32 z = z.
Proof. unfold s32, INT_MIN, INT_MAX; intros. rewrite Z.mod_small; lia. Qed.
Lemma int_chk_ok z : INT_MIN ≤ z ≤ INT_MAX → int_chk z = Done z.
Proof.
  intros [H1 H2]. unfold int_chk, in_int.
  by rewrite (proj2 (Z.leb_le _ _) H1), (proj2 (Z.leb_le _ _) H2).
Qed.

Create HintDb cint.
Create Rewrite HintDb cint.
#[export] Hint Rewrite u16_small u32_small u64_small s32_small int_chk_ok
  using (unfold INT_MIN, INT_MAX in *; lia) : cint.
#[export] Hint Resolve u16_range u32_range u64_range : cint.

(** Turn the boolean comparisons a definition branches on into propositions. *)
Ltac zbool :=
  repeat match goal with
  | H : (_ <? _) = true |- _ => apply Z.ltb_lt in H
  | H : (_ <? _) = false |- _ => apply Z.ltb_ge in H
  | H : (_ <=? _) = true |- _ => apply Z.leb_le in H
  | H : (_ <=? _) = false |- _ => apply Z.leb_gt in H
  | H : (_ =? _) = true |- _ => apply Z.eqb_eq in H
  | H : (_ =? _) = false |- _ => apply Z.eqb_neq in H
  | H : (_ && _) = true |- _ => apply andb_prop in H as [? ?]
  | H : (_ || _) = false |- _ => apply orb_false_elim in H as [? ?]
  | H : negb _ = true |- _ => apply negb_true_iff in H
  | H : negb _ = false |- _ => apply negb_false_iff in H
  end.

(** A disjunction of equality tests, as a disjunction of equations. *)
Ltac zor :=
  repeat match goal with
  | H : (_ || _) = true |- _ => rewrite orb_true_iff, !Z.eqb_eq in H
  end.

(** Decide a boolean comparison in the goal by arithmetic. *)
Ltac zdec :=
  repeat match goal with
  | |- context [?a <? ?b] =>
      first [ rewrite (proj2 (Z.ltb_lt a b)) by lia
            | rewrite (proj2 (Z.ltb_ge a b)) by lia ]
  | |- context [?a <=? ?b] =>
      first [ rewrite (proj2 (Z.leb_le a b)) by lia
            | rewrite (proj2 (Z.leb_gt a b)) by lia ]
  | |- context [?a =? ?b] =>
      first [ rewrite (proj2 (Z.eqb_eq a b)) by lia
            | rewrite (proj2 (Z.eqb_neq a b)) by lia ]
  end.

(** [lia] after eliminating divisions and remainders by constants. *)
Ltac zlia := Z.div_mod_to_equations; lia.

(** * Memory blocks of bytes *)

Definition byte_ok (b : Z) : Prop := 0 ≤ b < 256.
Definition bytes_ok (l : list Z) : Prop := Forall byte_ok l.
Definition zlen {A} (l : list A) : Z := Z.of_nat (length l).

(** [p[i]] for a block [buf]: reading outside it is undefined. *)
Definition rd8 (buf : list Z) (i : Z) : outcome Z :=
  if 0 <=? i then
    match buf !! Z.to_nat i with Some b => Done b | None => Undefined end
  else Undefined.

(** [ntohs] / [ntohl] of the 16/32-bit word stored at [p + i]. *)
Definition rd16 (buf : list Z) (i : Z) : outcome Z :=
  b0 ← rd8 buf i; b1 ← rd8 buf (i + 1); Done (b0 * 256 + b1).
Definition rd32 (buf : list Z) (i : Z) : outcome Z :=
  w0 ← rd16 buf i; w1 ← rd16 buf (i + 2); Done (w0 * 65536 + w1).

(** The bytes [htons] / [htonl] store. *)
Definition be16 (z : Z) : list Z := [u8 (z / 256); u8 z].
Definition be32 (z : Z) : list Z := be16 (z / 65536) ++ be16 z.

(** Overwrite [bs] at offset [off]; [n] is the [size_t] length the C call
    passes, so that a negative length shows up as the huge value it becomes. *)
Definition mem_write (buf : list Z) (off : Z) (bs : list Z) : outcome (list Z) :=
  if (0 <=? off) && (off + zlen bs <=? zlen buf) then
    Done (take (Z.to_nat off) buf ++ bs ++ drop (Z.to_nat (off + zlen bs)) buf)
  else Undefined.
Definition memset (buf : list Z) (off c n : Z) : outcome (list Z) :=
  if off + n <=? zlen buf then mem_write buf off (replicate (Z.to_nat n) c)
  else Undefined.
Definition mem_read (buf : list Z) (off n : Z) : outcome (list Z) :=
  if (0 <=? off) && (0 <=? n) && (off + n <=? zlen buf) then
    Done (take (Z.to_nat n) (drop (Z.to_nat off) buf))
  else Undefined.
(** Copying within one block, through a temporary as [memmove] specifies. *)
Definition memmove (buf : list Z) (dst src n : Z) : outcome (list Z) :=
  bs ← mem_read buf src n; mem_write buf dst bs.

Lemma zlen_app {A} (l1 l2 : list A) : zlen (l1 ++ l2) = zlen l1 + zlen l2.
Proof. unfold zlen. rewrite length_app. lia. Qed.
Lemma zlen_cons {A} (x : A) l : zlen (x :: l) = 1 + zlen l.
Proof. unfold zlen. cbn [length]. lia. Qed.
Lemma zlen_nil {A} : zlen (@nil A) = 0.
Proof. done. Qed.
Lemma zlen_nonneg {A} (l : list A) : 0 ≤ zlen l.
Proof. unfold zlen. lia. Qed.
Lemma zlen_replicate {A} n (x : A) : zlen (replicate n x) = Z.of_nat n.
Proof. unfold zlen. by rewrite length_replicate. Qed.
Lemma zlen_be16 z : zlen (be16 z) = 2.
Proof. done. Qed.
Lemma zlen_be32 z : zlen (be32 z) = 4.
Proof. done. Qed.
Create Rewrite HintDb zlen.
#[export] Hint Rewrite @zlen_app @zlen_cons @zlen_nil @zlen_replicate
  zlen_be16 zlen_be32 : zlen.

(** Linear arithmetic over lengths of concatenations. *)
Ltac zlen_facts :=
  autorewrite with zlen in *;
  repeat match goal with
  | |- context [zlen ?l] =>
      assert_fails (assert (0 ≤ zlen l) by assumption); pose proof (zlen_nonneg l)
  | H : context [zlen ?l] |- _ =>
      assert_fails (assert (0 ≤ zlen l) by assumption); pose proof (zlen_nonneg l)
  end.
Ltac zlen := zlen_facts; lia.

Lemma rd8_app_r l1 l2 i :
  zlen l1 ≤ i → rd8 (l1 ++ l2) i = rd8 l2 (i - zlen l1).
Proof.
  intros H. pose proof (zlen_nonneg l1). unfold rd8. zdec.
  rewrite lookup_app_r by (unfold zlen in *; lia).
  by replace (Z.to_nat (i - zlen l1)) with (Z.to_nat i - length l1)%nat
    by (unfold zlen; lia).
Qed.

Lemma rd8_app_l l1 l2 i : i < zlen l1 → rd8 (l1 ++ l2) i = rd8 l1 i.
Proof.
  intros H. unfold rd8. destruct (0 <=? i) eqn:E; [zbool|done].
  rewrite lookup_app_l by (unfold zlen in *; lia). done.
Qed.

Lemma rd8_in_bounds buf i :
  0 ≤ i < zlen buf → ∃ b, rd8 buf i = Done b ∧ b ∈ buf.
Proof.
  intros H. unfold rd8. zdec.
  destruct (lookup_lt_is_Some_2 buf (Z.to_nat i)) as [b Hb];
    [unfold zlen in *; lia|].
  rewrite Hb. exists b; split; [done|]. by eapply list_elem_of_lookup_2.
Qed.

Lemma rd8_ok buf i :
  bytes_ok buf → 0 ≤ i < zlen buf → ∃ b, rd8 buf i = Done b ∧ byte_ok b.
Proof.
  intros Hok Hi. destruct (rd8_in_bounds buf i Hi) as (b & ? & Hb).
  exists b; split; [done|]. by apply (proj1 (Forall_forall _ _) Hok).
Qed.

Lemma be16_bytes z : bytes_ok (be16 z).
Proof. repeat constructor; unfold byte_ok, u8; by apply Z.mod_pos_bound. Qed.
Lemma be32_bytes z : bytes_ok (be32 z).
Proof. apply Forall_app; split; apply be16_bytes. Qed.
#[export] Hint Resolve be16_bytes be32_bytes : cint.

Lemma rd16_ok buf i :
  bytes_ok buf → 0 ≤ i → i + 2 ≤ zlen buf →
  ∃ w, rd16 buf i = Done w ∧ 0 ≤ w < 65536.
Proof.
  intros Hok H1 H2. unfold rd16.
  destruct (rd8_ok buf i) as (a & -> & Ha); [done|lia|].
  destruct (rd8_ok buf (i + 1)) as (b & -> & Hb); [done|lia|].
  eexists; split; [done|]. unfold byte_ok in *. lia.
Qed.

Lemma rd32_ok buf i :
  bytes_ok buf → 0 ≤ i → i + 4 ≤ zlen buf →
  ∃ w, rd32 buf i = Done w ∧ 0 ≤ w < 4294967296.
Proof.
  intros Hok H1 H2. unfold rd32.
  destruct (rd16_ok buf i) as (a & -> & Ha); [done|lia|lia|].
  destruct (rd16_ok buf (i + 2)) as (b & -> & Hb); [done|lia|lia|].
  eexists; split; [done|]. lia.
Qed.

Lemma rd16_app_r l1 l2 i :
  zlen l1 ≤ i → rd16 (l1 ++ l2) i = rd16 l2 (i - zlen l1).
Proof.
  intros H. unfold rd16. rewrite !rd8_app_r by lia.
  by replace (i + 1 - zlen l1) with (i - zlen l1 + 1) by lia.
Qed.
Lemma rd32_app_r l1 l2 i :
  zlen l1 ≤ i → rd32 (l1 ++ l2) i = rd32 l2 (i - zlen l1).
Proof.
  intros H. unfold rd32. rewrite !rd16_app_r by lia.
  by replace (i + 2 - zlen l1) with (i - zlen l1 + 2) by lia.
Qed.

Lemma rd16_be16 z l : 0 ≤ z < 65536 → rd16 (be16 z ++ l) 0 = Done z.
Proof.
  intros H. change (rd16 (be16 z ++ l) 0)
    with (@Done Z (u8 (z / 256) * 256 + u8 z)).
  f_equal. unfold u8. zlia.
Qed.
Lemma rd32_be32 z l : 0 ≤ z < 4294967296 → rd32 (be32 z ++ l) 0 = Done z.
Proof.
  intros H. change (rd32 (be32 z ++ l) 0) with (@Done Z
    ((u8 (z / 65536 / 256) * 256 + u8 (z / 65536)) * 65536 +
     (u8 (z / 256) * 256 + u8 z))).
  f_equal. unfold u8. zlia.
Qed.

Lemma mem_write_ok buf off bs :
  0 ≤ off → off + zlen bs ≤ zlen buf →
  mem_write buf off bs =
    Done (take (Z.to_nat off) buf ++ bs ++ drop (Z.to_nat (off + zlen bs)) buf).
Proof. intros. unfold mem_write. zdec. done. Qed.

Lemma mem_write_prefix pre old bs rest :
  zlen old = zlen bs →
  mem_write (pre ++ old ++ rest) (zlen pre) bs = Done (pre ++ bs ++ rest).
Proof.
  intros E. pose proof (zlen_nonneg pre). pose proof (zlen_nonneg rest).
  rewrite mem_write_ok by (autorewrite with zlen; lia).
  rewrite take_app_length' by (unfold zlen; lia).
  rewrite drop_app_ge by (unfold zlen in *; lia).
  rewrite drop_app_length' by (unfold zlen in *; lia). done.
Qed.

Lemma rd8_app_mid pre mid post i :
  0 ≤ i < zlen mid → rd8 (pre ++ mid ++ post) (zlen pre + i) = rd8 mid i.
Proof.
  intros H. rewrite rd8_app_r, rd8_app_l by lia. f_equal. lia.
Qed.

(** * Finite ranges: a boolean property checked on each value of a range *)

Definition all_below (n : Z) (P : Z → bool) : bool := forallb P (seqZ 0 n).

Lemma all_below_spec n P z : all_below n P = true → 0 ≤ z < n → P z = true.
Proof.
  unfold all_below. rewrite forallb_forall. intros H Hz. apply H.
  rewrite <- list_elem_of_In, elem_of_seqZ. lia.
Qed.

(** Splitting a list at an offset. *)
Lemma split_at {A} (l : list A) n :
  0 ≤ n ≤ zlen l → ∃ l1 l2, l = l1 ++ l2 ∧ zlen l1 = n.
Proof.
  intros H. exists (take (Z.to_nat n) l), (drop (Z.to_nat n) l).
  rewrite take_drop. split; [done|]. unfold zlen in *.
  rewrite length_take. lia.
Qed.

Lemma split_last {A} (l : list A) :
  0 < zlen l → ∃ l1 x, l = l1 ++ [x].
Proof.
  intros H. destruct (exists_last (l:=l)) as (l1 & x & ->); [|by eauto].
  intros ->. by apply (Z.lt_irrefl 0).
Qed.

Lemma bytes_ok_app l1 l2 : bytes_ok (l1 ++ l2) ↔ bytes_ok l1 ∧ bytes_ok l2.
Proof. apply Forall_app. Qed.

Lemma be16_of_bytes a b : byte_ok a → byte_ok b → be16 (a * 256 + b) = [a; b].
Proof.
  unfold byte_ok, be16, u8. intros.
  replace ((a * 256 + b) / 256) with a by zlia.
  rewrite Z.mod_small by lia.
  replace ((a * 256 + b) mod 256) with b by zlia. done.
Qed.

(** Concrete byte lists. *)
Ltac bytes_tac :=
  repeat first [apply Forall_nil_2 | apply Forall_cons_2; [done|]].

Lemma be16_mod z : be16 z = be16 (z mod 65536).
Proof. unfold be16, u8. f_equal; [|f_equal]; zlia. Qed.

Lemma be32_of_bytes a b c d :
  byte_ok a → byte_ok b → byte_ok c → byte_ok d →
  be32 ((a * 256 + b) * 65536 + (c * 256 + d)) = [a; b; c; d].
Proof.
  intros Ha Hb Hc Hd. unfold be32.
  replace (((a * 256 + b) * 65536 + (c * 256 + d)) / 65536) with (a * 256 + b)
    by (unfold byte_ok in *; zlia).
  rewrite be16_of_bytes by done. rewrite be16_mod.
  replace (((a * 256 + b) * 65536 + (c * 256 + d)) mod 65536) with (c * 256 + d)
    by (unfold byte_ok in *; zlia).
  by rewrite be16_of_bytes.
Qed.

Definition has {A} (o : option A) : bool :=
  match o with Some _ => true | None => false end.
