(* ===== verification/Py.v ===== *)
(** What the Python extension modules use of the C API of Python: objects as the
    modules look at them, exceptions, and the conversions of arguments. *)
From stdpp Require Import prelude list.
From Stdlib Require Import ZArith Lia.
From S2P Require Import Prelude.
Local Open Scope Z_scope.

Inductive exn : Set :=
| TypeError | ValueError | OverflowError | MemoryError | RuntimeError
| BufferError | SystemError | CallbackError
| OSError | RtpQueueFullError
| AttributeError.

#[export] Instance exn_eq_dec : EqDecision exn.
Proof. solve_decision. Defined.

(** An object: an [int], an object with the buffer protocol (item size and
    bytes), [None], or anything else. *)
Inductive pyobj : Set :=
| PyInt (z : Z)
| PyBuffer (itemsize : Z) (bytes : list Z)
| PyNone
| PyOther.

(** What a method returns: an object, or [NULL] with an exception set. *)
Inductive pyres (A : Type) : Type :=
| Ret (a : A)
| Raise (e : exn).
Arguments Ret {A} _.
Arguments Raise {A} _.

#[export] Instance pyres_ret : MRet pyres := @Ret.
#[export] Instance pyres_bind : MBind pyres := λ A B f m,
  match m with Ret a => f a | Raise e => Raise e end.

Definition LLONG_MIN : Z := -9223372036854775808.
Definition LLONG_MAX : Z := 9223372036854775807.
Definition in_llong (z : Z) : bool := (LLONG_MIN <=? z) && (z <=? LLONG_MAX).

(** [PyLong_AsLongLong] on an [int]. *)
Definition PyLong_AsLongLong (z : Z) : pyres Z :=
  if in_llong z then Ret z else Raise OverflowError.

(** The ["i"] unit of [PyArg_ParseTuple]. *)
Definition arg_int (o : pyobj) : pyres Z :=
  match o with
  | PyInt z => if in_int z then Ret z else Raise OverflowError
  | _ => Raise TypeError
  end.

(** [PyObject_GetBuffer]. *)
Definition PyObject_GetBuffer (o : pyobj) : pyres (Z * list Z) :=
  match o with PyBuffer itemsize bytes => Ret (itemsize, bytes) | _ => Raise TypeError end.
