(* ===== verification/RcHeap.v ===== *)
(** Reference-counted objects of the Python interpreter, as the extension modules
    handle them: [Py_INCREF], [Py_DECREF] and the reading of an object, on a
    store of cells. Touching an object that was deallocated is undefined. The
    representation predicate relates the counts to the list of all references
    held, whoever holds them. *)
From stdpp Require Import prelude list gmap.
From Stdlib Require Import ZArith Lia.
From S2P Require Import Prelude.
Local Open Scope Z_scope.

Record cell (A : Type) : Type := { rc : Z; val : A }.
Arguments rc {A} _.
Arguments val {A} _.
Arguments Build_cell {A} _ _.

(** One reference less. *)
Fixpoint remove_one (a : Z) (l : list Z) : list Z :=
  match l with
  | [] => []
  | b :: l => if b =? a then l else b :: remove_one a l
  end.

Lemma remove_one_perm a l : a ∈ l → l ≡ₚ a :: remove_one a l.
Proof.
  induction l as [|b l IH]; [by intros ?%elem_of_nil|]. cbn. intros Hin.
  destruct (b =? a) eqn:E; zbool; [by subst|].
  apply elem_of_cons in Hin as [->|Hin]; [done|]. rewrite IH at 1 by done. constructor.
Qed.

Definition opt_list (o : option Z) : list Z := match o with Some a => [a] | None => [] end.

(** Permutations of lists of addresses, by counting. *)
Ltac perm_count :=
  apply (Permutation_count_occ Z.eq_dec); let x := fresh "x" in intros x;
  repeat match goal with
  | H : _ ≡ₚ _ |- _ => pose proof (proj1 (Permutation_count_occ Z.eq_dec _ _) H x); clear H
  end;
  repeat first [rewrite count_occ_app in * | progress cbn [count_occ app] in *];
  repeat match goal with
  | |- context [Z.eq_dec ?a ?b] => destruct (Z.eq_dec a b)
  | H : context [Z.eq_dec ?a ?b] |- _ => destruct (Z.eq_dec a b)
  end; lia.

(** An argument a method wants [bytes] from: a [bytes] object, or an object
    [PyObject_Bytes] makes one of, at a new address, unless it fails. *)
Inductive bytes_arg : Set :=
| ArgBytes (a : Z)
| ArgObject (made : option (Z * list Z)).

Section Heap.
Context {A : Type}.

Definition py_read (h : gmap Z (cell A)) (a : Z) : outcome A :=
  match h !! a with Some c => Done (val c) | None => Undefined end.

Definition py_incref (h : gmap Z (cell A)) (a : Z) : outcome (gmap Z (cell A)) :=
  match h !! a with
  | Some c => Done (<[a := {| rc := rc c + 1; val := val c |}]> h)
  | None => Undefined
  end.

(** The object goes with its last reference. *)
Definition py_decref (h : gmap Z (cell A)) (a : Z) : outcome (gmap Z (cell A)) :=
  match h !! a with
  | Some c =>
      Done (if rc c =? 1 then delete a h
            else <[a := {| rc := rc c - 1; val := val c |}]> h)
  | None => Undefined
  end.

Fixpoint py_decref_all (h : gmap Z (cell A)) (l : list Z) : outcome (gmap Z (cell A)) :=
  match l with
  | [] => Done h
  | a :: l => h ← py_decref h a; py_decref_all h l
  end.

Lemma py_read_some h a c : h !! a = Some c → py_read h a = Done (val c).
Proof. unfold py_read. by intros ->. Qed.

(** ** The references to a store *)

Definition refs_to (a : Z) (l : list Z) : Z := Z.of_nat (count_occ Z.eq_dec l a).

(** [l] lists every reference to an object of [h], once for each holder. *)
Definition heap_ok (h : gmap Z (cell A)) (l : list Z) : Prop :=
  ∀ a, match h !! a with
       | Some c => rc c = refs_to a l ∧ 0 < rc c
       | None => a ∉ l
       end.

Lemma refs_to_pos a l : 0 < refs_to a l ↔ a ∈ l.
Proof.
  unfold refs_to. rewrite list_elem_of_In, (count_occ_In Z.eq_dec). lia.
Qed.

Lemma refs_to_cons a b l : refs_to a (b :: l) = (if decide (a = b) then 1 else 0) + refs_to a l.
Proof. unfold refs_to. cbn. destruct (Z.eq_dec b a); case_decide; subst; done || lia. Qed.

#[export] Instance refs_to_perm a : Proper (Permutation ==> eq) (refs_to a).
Proof. intros l l' H. unfold refs_to. by rewrite (proj1 (Permutation_count_occ Z.eq_dec l l') H). Qed.

#[export] Instance heap_ok_perm h : Proper (Permutation ==> iff) (heap_ok h).
Proof.
  assert (∀ l l', l ≡ₚ l' → heap_ok h l → heap_ok h l') as H.
  { intros l l' E Hok a. specialize (Hok a). destruct (h !! a); [by rewrite <- E|].
    by rewrite <- E. }
  intros l l' E. split; apply H; [done|by symmetry].
Qed.

Lemma heap_ok_empty : heap_ok ∅ [].
Proof. intros a. rewrite lookup_empty. apply not_elem_of_nil. Qed.

Lemma heap_ok_nil h : heap_ok h [] → h = ∅.
Proof.
  intros Hh. apply map_empty. intros a. specialize (Hh a). destruct (h !! a) as [c|]; [|done].
  destruct Hh as [E ?]. unfold refs_to in E. cbn in E. lia.
Qed.

Lemma heap_ok_elem h l a : heap_ok h l → a ∈ l ↔ is_Some (h !! a).
Proof.
  intros Hok. specialize (Hok a). destruct (h !! a) as [c|].
  - split; [by eexists|]. intros _. apply refs_to_pos. lia.
  - split; [done|]. by intros [? ?].
Qed.

Lemma heap_ok_alive h l a : heap_ok h l → a ∈ l → ∃ v, py_read h a = Done v.
Proof.
  intros Hok [c Hc]%(heap_ok_elem _ _ _ Hok). unfold py_read. rewrite Hc. by eexists.
Qed.

Lemma incref_ok h l a :
  heap_ok h l → a ∈ l →
  ∃ h', py_incref h a = Done h' ∧ heap_ok h' (a :: l) ∧ ∀ b, py_read h' b = py_read h b.
Proof.
  intros Hok [c Hc]%(heap_ok_elem _ _ _ Hok). unfold py_incref, py_read. rewrite Hc.
  eexists. split; [done|]. split.
  - intros b. rewrite refs_to_cons. destruct (decide (b = a)) as [->|Hne].
    + rewrite lookup_insert_eq. specialize (Hok a). rewrite Hc in Hok. cbn. lia.
    + rewrite lookup_insert_ne by done. specialize (Hok b).
      destruct (h !! b); [lia|]. by rewrite not_elem_of_cons.
  - intros b. destruct (decide (b = a)) as [->|Hne]; [by rewrite lookup_insert_eq, Hc|].
    by rewrite lookup_insert_ne.
Qed.

(** A new object comes with one reference. *)
Lemma make_ok h l a v :
  heap_ok h l → h !! a = None → heap_ok (<[a := {| rc := 1; val := v |}]> h) (a :: l).
Proof.
  intros Hok Ha b. rewrite refs_to_cons. destruct (decide (b = a)) as [->|Hne].
  - rewrite lookup_insert_eq. cbn. specialize (Hok a). rewrite Ha in Hok.
    pose proof (refs_to_pos a l). unfold refs_to in *. split; [|done].
    destruct (decide (0 < Z.of_nat (count_occ Z.eq_dec l a))) as [H'|]; [by apply H in H'|lia].
  - rewrite lookup_insert_ne by done. specialize (Hok b).
    destruct (h !! b); [lia|]. by rewrite not_elem_of_cons.
Qed.

(** Changing an object keeps its count. *)
Lemma set_val_ok h l a c v :
  heap_ok h l → h !! a = Some c → heap_ok (<[a := {| rc := rc c; val := v |}]> h) l.
Proof.
  intros Hok Ha b. destruct (decide (b = a)) as [->|Hne].
  - rewrite lookup_insert_eq. specialize (Hok a). by rewrite Ha in Hok.
  - rewrite lookup_insert_ne by done. apply Hok.
Qed.

(** Nothing is created and nothing changes; objects may go. *)
Definition keeps (h h' : gmap Z (cell A)) : Prop :=
  ∀ b v, py_read h' b = Done v → py_read h b = Done v.

#[export] Instance keeps_preorder : PreOrder keeps.
Proof. split; [by intros h b v|]. intros h1 h2 h3 H1 H2 b v H. by apply H1, H2. Qed.

Lemma keeps_read h h' l b : keeps h h' → heap_ok h' l → b ∈ l → py_read h' b = py_read h b.
Proof. intros Hk Hok Hb. destruct (heap_ok_alive _ _ _ Hok Hb) as [v Hv]. by rewrite Hv, (Hk _ _ Hv). Qed.

Lemma decref_ok h l a :
  heap_ok h (a :: l) → ∃ h', py_decref h a = Done h' ∧ heap_ok h' l ∧ keeps h h'.
Proof.
  intros Hok. pose proof (Hok a) as Ha. unfold py_decref.
  destruct (h !! a) as [c|] eqn:Hc; [|by apply not_elem_of_cons in Ha as [? _]].
  rewrite refs_to_cons, decide_True in Ha by done.
  eexists. split; [done|]. split.
  - intros b. destruct (rc c =? 1) eqn:E; zbool; destruct (decide (b = a)) as [->|Hne].
    + rewrite lookup_delete_eq, <- refs_to_pos. lia.
    + rewrite lookup_delete_ne by done. specialize (Hok b). rewrite refs_to_cons, decide_False in Hok by done.
      destruct (h !! b); [done|]. by apply not_elem_of_cons in Hok as [_ ?].
    + rewrite lookup_insert_eq. cbn. lia.
    + rewrite lookup_insert_ne by done. specialize (Hok b).
      rewrite refs_to_cons, decide_False in Hok by done.
      destruct (h !! b); [done|]. by apply not_elem_of_cons in Hok as [_ ?].
  - intros b v. unfold py_read. destruct (rc c =? 1), (decide (b = a)) as [->|Hne].
    + by rewrite lookup_delete_eq.
    + by rewrite lookup_delete_ne.
    + by rewrite lookup_insert_eq, Hc.
    + by rewrite lookup_insert_ne.
Qed.

Lemma decref_all_ok h l l' :
  heap_ok h (l ++ l') →
  ∃ h', py_decref_all h l = Done h' ∧ heap_ok h' l' ∧ keeps h h'.
Proof.
  revert h. induction l as [|a l IH]; intros h Hok; cbn [app py_decref_all]; [by exists h|].
  destruct (decref_ok h _ a Hok) as (h1 & -> & Hok1 & Hr1). cbn [mbind outcome_bind].
  destruct (IH h1 Hok1) as (h' & -> & Hok' & Hr'). exists h'. split; [done|]. split; [done|].
  by etrans.
Qed.
End Heap.
