(* ===== verification/RcGraph.v ===== *)
(** Reference-counted objects that hold references to each other: the last
    reference to an object takes the references in its fields with it, and runs
    its deallocation function. The counts are those of [RcHeap], where a holder
    is now an object or something outside of the store. *)
From stdpp Require Import prelude list gmap.
From Stdlib Require Import ZArith Lia.
From S2P Require Import Prelude RcHeap.
Local Open Scope Z_scope.

Section Graph.
Context {A W : Type}.
(** The references an object holds, in the order its deallocation drops them;
    and what else the deallocation does to the state around the store. *)
Context (fields : A → list Z) (finalize : Z → A → W → W).



(** [Py_DECREF] for each reference of [todo]. What the deallocation of an object
    drops comes before the rest. Every turn uses up one reference. *)
Fixpoint drop_refs (fuel : nat) (h : gmap Z (cell A)) (w : W) (todo : list Z) : outcome (gmap Z (cell A) * W) :=
  match todo with
  | [] => Done (h, w)
  | a :: todo =>
      match fuel with
      | O => OutOfFuel
      | S fuel =>
          match h !! a with
          | None => Undefined
          | Some c =>
              if rc c =? 1 then
                drop_refs fuel (delete a h) (finalize a (val c) w) (fields (val c) ++ todo)
              else drop_refs fuel (<[a := {| rc := rc c - 1; val := val c |}]> h) w todo
          end
      end
  end.

(** The objects, and all the references they hold. *)
Definition objs (h : gmap Z (cell A)) : list (Z * A) := (λ x, (x.1, val x.2)) <$> map_to_list h.
Definition inner (h : gmap Z (cell A)) : list Z := objs h ≫= (λ x, fields x.2).

(** Enough for [drop_refs]: the references there are. *)
Definition drop_fuel (h : gmap Z (cell A)) (todo : list Z) : nat := (length todo + length (inner h))%nat.

Definition py_drop (h : gmap Z (cell A)) (w : W) (todo : list Z) : outcome (gmap Z (cell A) * W) :=
  drop_refs (drop_fuel h todo) h w todo.

(** Every count is the number of references, from [roots] and from objects. *)
Definition graph_ok (h : gmap Z (cell A)) (roots : list Z) : Prop := heap_ok h (roots ++ inner h).

(** No object leads back to itself. *)
Definition acyclic (h : gmap Z (cell A)) : Prop :=
  ∃ rank : Z → nat, ∀ a c b, h !! a = Some c → b ∈ fields (val c) → (rank b < rank a)%nat.

(** ** The objects of changed stores *)

Lemma elem_of_objs h a v : (a, v) ∈ objs h ↔ py_read h a = Done v.
Proof.
  unfold objs, py_read. rewrite list_elem_of_fmap. split.
  - intros ([b c] & [= -> ->] & Hin%elem_of_map_to_list). cbn. by rewrite Hin.
  - destruct (h !! a) as [c|] eqn:E; [|done]. intros [= <-].
    exists (a, c). split; [done|]. by apply elem_of_map_to_list.
Qed.

Lemma objs_insert h a c : h !! a = None → objs (<[a := c]> h) ≡ₚ (a, val c) :: objs h.
Proof. intros Ha. unfold objs. by rewrite map_to_list_insert. Qed.

Lemma objs_delete h a c : h !! a = Some c → objs h ≡ₚ (a, val c) :: objs (delete a h).
Proof.
  intros Ha. rewrite <- (objs_insert (delete a h) a c) by apply lookup_delete_eq.
  by rewrite insert_delete_eq, insert_id.
Qed.

Lemma objs_replace h a c d : h !! a = Some c → objs (<[a := d]> h) ≡ₚ (a, val d) :: objs (delete a h).
Proof.
  intros Ha. rewrite <- insert_delete_eq. apply objs_insert, lookup_delete_eq.
Qed.

(** A count changes. *)
Lemma objs_recount h a c n : h !! a = Some c → objs (<[a := {| rc := n; val := val c |}]> h) ≡ₚ objs h.
Proof. intros Ha. by rewrite (objs_replace _ _ _ _ Ha), (objs_delete _ _ _ Ha). Qed.

Lemma inner_perm h h' : objs h ≡ₚ objs h' → inner h ≡ₚ inner h'.
Proof. intros H. unfold inner. by rewrite H. Qed.

Lemma inner_cons h h' a v : objs h ≡ₚ (a, v) :: objs h' → inner h ≡ₚ fields v ++ inner h'.
Proof. intros H. unfold inner. by rewrite H. Qed.

Lemma elem_of_inner h b : b ∈ inner h ↔ ∃ a c, h !! a = Some c ∧ b ∈ fields (val c).
Proof.
  unfold inner. rewrite list_elem_of_bind. split.
  - intros ([a v] & Hb & Ha%elem_of_objs). unfold py_read in Ha.
    destruct (h !! a) as [c|] eqn:Hc; [|done]. injection Ha as <-. eauto.
  - intros (a & c & Ha & Hb). exists (a, val c). split; [done|]. apply elem_of_objs.
    unfold py_read. by rewrite Ha.
Qed.

(** ** Exact counts *)

#[export] Instance graph_ok_perm h : Proper (Permutation ==> iff) (graph_ok h).
Proof. intros l l' E. unfold graph_ok. by rewrite E. Qed.

Lemma graph_ok_empty : graph_ok ∅ [].
Proof. apply (@heap_ok_empty A). Qed.

Lemma graph_alive h l a : graph_ok h l → a ∈ l → ∃ c, h !! a = Some c.
Proof.
  intros Hok Ha. apply (heap_ok_elem _ _ a Hok). apply elem_of_app. by left.
Qed.

Lemma graph_alive_field h l a c b :
  graph_ok h l → h !! a = Some c → b ∈ fields (val c) → ∃ d, h !! b = Some d.
Proof.
  intros Hok Ha Hb. apply (heap_ok_elem _ _ b Hok). apply elem_of_app. right.
  apply elem_of_inner. eauto.
Qed.

Lemma graph_incref h l a :
  graph_ok h l → a ∈ l ++ inner h →
  ∃ h', py_incref h a = Done h' ∧ graph_ok h' (a :: l) ∧ objs h' ≡ₚ objs h ∧
    ∀ b, py_read h' b = py_read h b.
Proof.
  intros Hok Ha. destruct (incref_ok h _ a Hok Ha) as (h' & E & Hok' & Hr).
  assert (objs h' ≡ₚ objs h) as Ho.
  { unfold py_incref in E. destruct (h !! a) as [c|] eqn:Ec; [|done]. injection E as <-.
    by apply objs_recount. }
  exists h'. split; [done|]. split; [|done]. unfold graph_ok. by rewrite (inner_perm _ _ Ho).
Qed.

(** A new object takes the references of its fields over. *)
Lemma graph_make h l a v :
  graph_ok h (fields v ++ l) → h !! a = None →
  graph_ok (<[a := {| rc := 1; val := v |}]> h) (a :: l).
Proof.
  intros Hok Ha. unfold graph_ok.
  rewrite (inner_cons _ h a v) by (by apply objs_insert).
  pose proof (make_ok h _ a v Hok Ha) as H.
  eapply heap_ok_perm; [|exact H]. cbn. constructor. rewrite <- !app_assoc.
  rewrite !app_assoc. f_equiv. apply Permutation_app_comm.
Qed.

(** An object's fields change hands with the rest. *)
Lemma graph_set h l l' a c v :
  graph_ok h l → h !! a = Some c → fields (val c) ++ l ≡ₚ fields v ++ l' →
  graph_ok (<[a := {| rc := rc c; val := v |}]> h) l'.
Proof.
  intros Hok Ha Hp. unfold graph_ok.
  apply (set_val_ok _ _ _ _ v); [|done].
  eapply heap_ok_perm; [|exact Hok].
  pose proof (inner_cons _ _ a v (objs_replace _ _ _ {| rc := rc c; val := v |} Ha)).
  pose proof (inner_cons h _ a (val c) (objs_delete _ _ _ Ha)). perm_count.
Qed.

(** ** Dropping references *)

(** Fold the deallocations over objects. *)
Definition finalize_all (gone : list (Z * A)) (w : W) : W :=
  fold_left (λ w x, finalize x.1 x.2 w) gone w.

Lemma drop_refs_ok fuel h w todo rest :
  graph_ok h (todo ++ rest) → (drop_fuel h todo ≤ fuel)%nat →
  ∃ h' gone, drop_refs fuel h w todo = Done (h', finalize_all gone w) ∧
    graph_ok h' rest ∧ keeps h h' ∧ objs h ≡ₚ gone ++ objs h'.
Proof.
  revert h w todo. induction fuel as [|fuel IH]; intros h w todo Hok Hf.
  { destruct todo as [|a todo]; [|unfold drop_fuel in Hf; cbn in Hf; lia]. by exists h, []. }
  destruct todo as [|a todo]; [by exists h, []|]. cbn [drop_refs].
  destruct (graph_alive _ _ a Hok) as [c Hc]; [by left|]. rewrite Hc.
  pose proof (decref_ok h _ a Hok) as (h1 & Hdec & Hok1 & Hk1). unfold py_decref in Hdec.
  rewrite Hc in Hdec. injection Hdec as Hdec.
  destruct (rc c =? 1) eqn:E; subst h1.
  - pose proof (objs_delete _ _ _ Hc) as Ho. pose proof (inner_cons _ _ _ _ Ho) as Hi.
    destruct (IH (delete a h) (finalize a (val c) w) (fields (val c) ++ todo))
      as (h' & gone & -> & Hok' & Hk' & Ho').
    + unfold graph_ok. eapply heap_ok_perm; [|exact Hok1]. clear - Hi. perm_count.
    + unfold drop_fuel in *. rewrite Hi in Hf. cbn in Hf. rewrite length_app in *. lia.
    + exists h', ((a, val c) :: gone). split; [done|]. split; [done|].
      split; [by etrans|]. rewrite Ho, Ho'. done.
  - pose proof (objs_recount h a c (rc c - 1) Hc) as Ho. pose proof (inner_perm _ _ Ho) as Hi.
    destruct (IH (<[a := {| rc := rc c - 1; val := val c |}]> h) w todo)
      as (h' & gone & -> & Hok' & Hk' & Ho').
    + unfold graph_ok. eapply heap_ok_perm; [|exact Hok1]. cbn. by rewrite Hi.
    + unfold drop_fuel in *. rewrite Hi. cbn in Hf. lia.
    + exists h', gone. split; [done|]. split; [done|]. split; [by etrans|].
      rewrite <- Ho, Ho'. done.
Qed.

(** A change of the other state that deallocations do not see. *)
Lemma drop_refs_map (g : W → W) fuel h w todo :
  (∀ a v w, finalize a v (g w) = g (finalize a v w)) →
  drop_refs fuel h (g w) todo = ('(h', w') ← drop_refs fuel h w todo; Done (h', g w')).
Proof.
  intros Hg. revert h w todo. induction fuel as [|fuel IH]; intros h w [|a todo]; cbn [drop_refs]; try done.
  destruct (h !! a) as [c|]; [|done]. destruct (rc c =? 1); [rewrite Hg|]; apply IH.
Qed.

(** Whatever happens to objects, the other state sees their deallocations only. *)
Lemma drop_refs_done fuel h w todo h' w' :
  drop_refs fuel h w todo = Done (h', w') → ∃ gone, w' = finalize_all gone w.
Proof.
  revert h w todo. induction fuel as [|fuel IH]; intros h w [|a todo]; cbn [drop_refs]; try done;
    [by intros [= <- <-]; exists []..|].
  destruct (h !! a) as [c|]; [|done]. destruct (rc c =? 1).
  - intros (gone & ->)%IH. by exists ((a, val c) :: gone).
  - apply IH.
Qed.

(** Nothing comes back. *)
Lemma drop_refs_none fuel h w todo h' w' b :
  drop_refs fuel h w todo = Done (h', w') → h !! b = None → h' !! b = None.
Proof.
  revert h w todo. induction fuel as [|fuel IH]; intros h w [|a todo]; cbn [drop_refs]; try done;
    [by intros [= <- <-]..|].
  destruct (h !! a) as [c|] eqn:Ha; [|done]. intros E Hb.
  assert (b ≠ a) as Hne by congruence.
  destruct (rc c =? 1); apply (IH _ _ _ E); by rewrite ?lookup_delete_ne, ?lookup_insert_ne.
Qed.

(** The value of an object that stays does not matter. *)
Lemma drop_refs_revalue fuel h w todo h' w' self n v v' c' :
  drop_refs fuel (<[self := {| rc := n; val := v |}]> h) w todo = Done (h', w') → h' !! self = Some c' →
  drop_refs fuel (<[self := {| rc := n; val := v' |}]> h) w todo =
    Done (<[self := {| rc := rc c'; val := v' |}]> h', w').
Proof.
  revert h n w todo. induction fuel as [|fuel IH]; intros h n w [|a todo]; cbn [drop_refs]; try done.
  1,2: intros [= <- <-]; rewrite lookup_insert_eq; intros [= <-]; by rewrite insert_insert_eq.
  destruct (decide (a = self)) as [->|Hne].
  - rewrite !lookup_insert_eq. cbn [rc val]. destruct (n =? 1); rewrite ?insert_insert_eq; [|apply IH].
    intros E Hc'. pose proof (drop_refs_none _ _ _ _ _ _ self E (lookup_delete_eq _ _)). congruence.
  - rewrite !lookup_insert_ne by done. destruct (h !! a) as [c|]; [|done].
    destruct (rc c =? 1).
    + rewrite !delete_insert_ne by done. apply IH.
    + rewrite !(insert_insert_ne h a self) by done. apply IH.
Qed.

Lemma py_drop_ok h w todo rest :
  graph_ok h (todo ++ rest) →
  ∃ h' gone, py_drop h w todo = Done (h', finalize_all gone w) ∧
    graph_ok h' rest ∧ keeps h h' ∧ objs h ≡ₚ gone ++ objs h'.
Proof. intros Hok. by apply drop_refs_ok. Qed.

(** ** Acyclic stores *)

Lemma acyclic_objs h h' : (∀ b v, py_read h' b = Done v → py_read h b = Done v) → acyclic h → acyclic h'.
Proof.
  intros Hr (rank & H). exists rank. intros a c b Ha Hb.
  pose proof (Hr a (val c)) as Hv. unfold py_read in Hv. rewrite Ha in Hv. specialize (Hv eq_refl).
  destruct (h !! a) as [d|] eqn:Ed; [|done]. injection Hv as Hv. apply (H a d b Ed). by rewrite Hv.
Qed.

(** An object nobody can refer to yet. *)
Lemma acyclic_make h l a c :
  graph_ok h l → acyclic h → h !! a = None → a ∉ fields (val c) → acyclic (<[a := c]> h).
Proof.
  intros Hok (rank & H) Ha Hna.
  exists (λ x, if decide (x = a) then S (list_max (rank <$> fields (val c))) else rank x).
  intros x d b. destruct (decide (x = a)) as [->|Hne].
  - rewrite lookup_insert_eq. intros [= <-] Hb. rewrite decide_False by (by intros ->).
    apply Nat.lt_succ_r.
    pose proof (proj1 (list_max_le (rank <$> fields (val c)) _) (le_n _)) as Hm.
    rewrite Forall_forall in Hm. apply Hm. by apply list_elem_of_fmap_2.
  - rewrite lookup_insert_ne by done. intros Hx Hb. rewrite decide_False; [by eapply H|].
    intros ->. destruct (graph_alive_field _ _ _ _ _ Hok Hx Hb) as [d' Hd']. congruence.
Qed.

(** An object that gives up references. *)
Lemma acyclic_set_sub h a c n v :
  acyclic h → h !! a = Some c → fields v ⊆ fields (val c) → acyclic (<[a := {| rc := n; val := v |}]> h).
Proof.
  intros (rank & H) Ha Hv. exists rank. intros x d b. destruct (decide (x = a)) as [->|Hne].
  - rewrite lookup_insert_eq. intros [= <-] Hb. apply (H a c b Ha), Hv, Hb.
  - rewrite lookup_insert_ne by done. apply H.
Qed.

(** An object that refers to objects without references of their own. *)
Lemma acyclic_set_leaf h a n v :
  acyclic h → a ∉ fields v →
  (∀ b c, b ∈ fields v → h !! b = Some c → fields (val c) = []) →
  acyclic (<[a := {| rc := n; val := v |}]> h).
Proof.
  intros (rank & H) Hna Hleaf. set (h' := <[a := _]> h).
  exists (λ x, match h' !! x with
               | Some c => if fields (val c) is [] then 0%nat else S (rank x)
               | None => 0%nat
               end).
  intros x d b Hx Hb. rewrite Hx. destruct (fields (val d)) as [|y l] eqn:Ed; [by apply not_elem_of_nil in Hb|].
  destruct (decide (x = a)) as [->|Hne].
  - unfold h' in Hx. rewrite lookup_insert_eq in Hx. injection Hx as <-. cbn in Ed.
    assert (b ≠ a) as Hba by (intros ->; by rewrite Ed in Hna).
    unfold h'. rewrite lookup_insert_ne by done. destruct (h !! b) as [e|] eqn:Eb; [|lia].
    rewrite (Hleaf b e); [lia|by rewrite Ed|done].
  - unfold h' in Hx. rewrite lookup_insert_ne in Hx by done. rewrite <- Ed in Hb.
    pose proof (H x d b Hx Hb). destruct (h' !! b) as [e|]; [|lia]. destruct (fields (val e)); lia.
Qed.

(** Exact counts, no cycle and no holder outside: no object. *)
Lemma acyclic_empty h : graph_ok h [] → acyclic h → h = ∅.
Proof.
  intros Hok (rank & H). apply map_empty. intros a. apply eq_None_not_Some. intros Ha.
  assert (∀ n, ∃ b c, h !! b = Some c ∧ (n ≤ rank b)%nat) as Hall.
  { destruct Ha as [c0 Hc0]. induction n as [|n (b & c & Hb & Hn)].
    { exists a, c0. split; [done|]. lia. }
    pose proof (proj2 (heap_ok_elem _ _ b Hok) (mk_is_Some _ _ Hb)) as Hi.
    apply elem_of_inner in Hi as (x & d & Hx & Hd).
    exists x, d. split; [done|]. specialize (H x d b Hx Hd). lia. }
  destruct (Hall (S (list_max (rank <$> (objs h).*1)))) as (b & c & Hb & Hn).
  pose proof (proj1 (list_max_le (rank <$> (objs h).*1) _) (le_n _)) as Hm.
  rewrite Forall_forall in Hm. specialize (Hm (rank b)).
  assert (rank b ≤ list_max (rank <$> (objs h).*1))%nat; [apply Hm|lia].
  apply list_elem_of_fmap_2. apply (list_elem_of_fmap_2 fst _ (b, val c)), elem_of_objs.
  unfold py_read. by rewrite Hb.
Qed.
(** What happened to a store, at [news] only, left no object there that nobody has. *)
Lemma graph_no_stray (news : list Z) h h' l l' :
  graph_ok h l → graph_ok h' l' → acyclic h' → l' ⊆ l → (∀ a, a ∈ news → h !! a = None) →
  (∀ b v, b ∉ news → py_read h' b = Done v → py_read h b = Done v) → keeps h h'.
Proof.
  intros Hg Hg' [rank Hrank] Hsub Hnews Hr b v Hb.
  destruct (decide (b ∈ news)) as [Hin|]; [|by apply Hr]. exfalso.
  assert (∀ n, ∃ b, b ∈ news ∧ is_Some (h' !! b) ∧ (n ≤ rank b)%nat) as Hall.
  { induction n as [|n (x & Hx & Hs & Hn)].
    { exists b. split; [done|]. split; [|lia]. unfold py_read in Hb. by destruct (h' !! b). }
    apply (heap_ok_elem _ _ x Hg') in Hs. apply elem_of_app in Hs as [Hs|Hs].
    { destruct (graph_alive _ _ _ Hg (Hsub _ Hs)) as [c Hc]. by rewrite Hnews in Hc. }
    apply elem_of_inner in Hs as (y & c & Hy & Hf). exists y.
    split; [|split; [by eexists|specialize (Hrank y c x Hy Hf); lia]].
    destruct (decide (y ∈ news)) as [|Hny]; [done|].
    pose proof (Hr y (val c) Hny (py_read_some _ _ _ Hy)) as Hv.
    unfold py_read in Hv. destruct (h !! y) as [d|] eqn:Ed; [|done]. injection Hv as Hv.
    destruct (graph_alive_field _ _ y d x Hg Ed) as [e He]; [by rewrite Hv|].
    by rewrite Hnews in He. }
  destruct (Hall (S (list_max (rank <$> news)))) as (x & Hx & _ & Hn).
  pose proof (proj1 (list_max_le (rank <$> news) _) (le_n _)) as Hm. rewrite Forall_forall in Hm.
  specialize (Hm (rank x) (list_elem_of_fmap_2 rank _ _ Hx)). lia.
Qed.
End Graph.
