(* ===== verification/Rtp.v ===== *)
(** RTP headers and the packet parser: src/src/rtp.h, src/src/rtp_info.h and
    src/src/rtp.c. A packet is a block of bytes; the parser reads it through
    [rd8] / [rd16] / [rd32], so an access outside the block is visible. *)
From stdpp Require Import prelude list strings.
From Stdlib Require Import ZArith Lia.
From S2P Require Import Prelude.
Local Open Scope Z_scope.

(** * Data *)

Inductive rtp_type : Set :=
| RTP_UNKN | RTP_PCMU | RTP_GSM | RTP_G723 | RTP_DVI4_8000 | RTP_DVI4_16000
| RTP_LPC | RTP_PCMA | RTP_G722 | RTP_L16_MONO | RTP_L16_STEREO | RTP_QCELP
| RTP_CN | RTP_MPA | RTP_G728 | RTP_DVI4_11025 | RTP_DVI4_22050 | RTP_G729
| RTP_TSE | RTP_TSE_CISCO.

Definition rtp_type_value (t : rtp_type) : Z :=
  match t with
  | RTP_UNKN => -1 | RTP_PCMU => 0 | RTP_GSM => 3 | RTP_G723 => 4
  | RTP_DVI4_8000 => 5 | RTP_DVI4_16000 => 6 | RTP_LPC => 7 | RTP_PCMA => 8
  | RTP_G722 => 9 | RTP_L16_MONO => 10 | RTP_L16_STEREO => 11
  | RTP_QCELP => 12 | RTP_CN => 13 | RTP_MPA => 14 | RTP_G728 => 15
  | RTP_DVI4_11025 => 16 | RTP_DVI4_22050 => 17 | RTP_G729 => 18
  | RTP_TSE => 100 | RTP_TSE_CISCO => 101
  end.

(** [enum rtp_pt_kind]; the C enum gives [RTP_PTK_UNK] the value of
    [RTP_PTK_AUDIO]. *)
Inductive rtp_pt_kind : Set :=
  RTP_PTK_AUDIO | RTP_PTK_VIDEO | RTP_PTK_SIGN | RTP_PTK_RES.
Definition RTP_PTK_UNK : rtp_pt_kind := RTP_PTK_AUDIO.

Record rtp_profile : Set := {
  ts_rate : Z;
  sample_rate : Z;
  nchannels : Z;
  pt_kind : rtp_pt_kind;
}.

Inductive rtp_parser_err_t : Set :=
| RTP_PARSER_NOTPARSED | RTP_PARSER_OK | RTP_PARSER_PTOOSHRT
| RTP_PARSER_IHDRVER | RTP_PARSER_PTOOSHRTXS | RTP_PARSER_PTOOSHRTXH
| RTP_PARSER_PTOOSHRTPS | RTP_PARSER_PTOOSHRTP | RTP_PARSER_IPS.

Definition rtp_parser_err_value (e : rtp_parser_err_t) : Z :=
  match e with
  | RTP_PARSER_NOTPARSED => 0 | RTP_PARSER_OK => 1 | RTP_PARSER_PTOOSHRT => -1
  | RTP_PARSER_IHDRVER => -2 | RTP_PARSER_PTOOSHRTXS => -3
  | RTP_PARSER_PTOOSHRTXH => -4 | RTP_PARSER_PTOOSHRTPS => -5
  | RTP_PARSER_PTOOSHRTP => -6 | RTP_PARSER_IPS => -7
  end.

#[export] Instance rtp_type_eq_dec : EqDecision rtp_type.
Proof. solve_decision. Defined.
#[export] Instance rtp_parser_err_eq_dec : EqDecision rtp_parser_err_t.
Proof. solve_decision. Defined.

(** [rtp_profile] is the address of an entry of [rtp_profiles]: its index, or
    [None] while the pointer has not been set. *)
Record rtp_info : Set := {
  data_size : Z;
  data_offset : Z;
  nsamples : Z;
  ts : Z;
  seq : Z;
  ssrc : Z;
  appendable : Z;
  rtp_profile_idx : option Z;
}.

(** [memset] of an [rtp_info] to zero. *)
Definition rtp_info_zero : rtp_info :=
  {| data_size := 0; data_offset := 0; nsamples := 0; ts := 0; seq := 0;
     ssrc := 0; appendable := 0; rtp_profile_idx := None |}.

(** * The header bit fields

    [struct rtp_hdr] as it lies in memory (both byte orders of the C
    declaration put the fields in the same bits of the wire bytes). *)

Definition SIZEOF_RTP_HDR : Z := 12.
Definition SIZEOF_RTP_HDR_EXT : Z := 4.

Definition hdr_version (b0 : Z) : Z := Z.shiftr b0 6.
Definition hdr_p (b0 : Z) : Z := Z.land (Z.shiftr b0 5) 1.
Definition hdr_x (b0 : Z) : Z := Z.land (Z.shiftr b0 4) 1.
Definition hdr_cc (b0 : Z) : Z := Z.land b0 15.
Definition hdr_mbt (b1 : Z) : Z := Z.shiftr b1 7.
Definition hdr_pt (b1 : Z) : Z := Z.land b1 127.

(** [RTP_HDR_LEN]: the fixed header and the CSRC list. *)
Definition RTP_HDR_LEN (b0 : Z) : Z := SIZEOF_RTP_HDR + hdr_cc b0 * 4.

(** [SEQ_DIST] and [ts_less]; the latter compares modulo 2^32. *)
Definition SEQ_DIST (seq1 seq2 : Z) : Z :=
  if seq1 <=? seq2 then seq2 - seq1 else seq2 + 65536 - seq1.
Definition ts_less (ts1 ts2 : Z) : bool := 2147483648 <? u32 (ts1 - ts2).

(** * Profiles *)

Definition RTP_PROFILE_AUDIO (s nc : Z) : rtp_profile :=
  {| ts_rate := s; sample_rate := s; nchannels := nc; pt_kind := RTP_PTK_AUDIO |}.
Definition rtp_profile_res : rtp_profile :=
  {| ts_rate := 0; sample_rate := 0; nchannels := 0; pt_kind := RTP_PTK_RES |}.
(** Entries the initialiser does not list are zero. *)
Definition rtp_profile_zero : rtp_profile :=
  {| ts_rate := 0; sample_rate := 0; nchannels := 0; pt_kind := RTP_PTK_UNK |}.

Definition rtp_profiles : list rtp_profile :=
  [ RTP_PROFILE_AUDIO 8000 1; rtp_profile_res; rtp_profile_res;
    RTP_PROFILE_AUDIO 8000 1; RTP_PROFILE_AUDIO 8000 1;
    RTP_PROFILE_AUDIO 8000 1; RTP_PROFILE_AUDIO 16000 1;
    RTP_PROFILE_AUDIO 8000 1; RTP_PROFILE_AUDIO 8000 1;
    RTP_PROFILE_AUDIO 8000 1; RTP_PROFILE_AUDIO 44100 1;
    RTP_PROFILE_AUDIO 44100 2; RTP_PROFILE_AUDIO 8000 1;
    RTP_PROFILE_AUDIO 8000 1; RTP_PROFILE_AUDIO 90000 2;
    RTP_PROFILE_AUDIO 8000 1; RTP_PROFILE_AUDIO 11025 1;
    RTP_PROFILE_AUDIO 22050 1; RTP_PROFILE_AUDIO 8000 1 ]
  ++ replicate 109 rtp_profile_zero.

(** [rtp_packet_parse_errstr]: aborts on the one value that is not a result. *)
Definition rtp_packet_parse_errstr (ecode : rtp_parser_err_t) : outcome string :=
  match ecode with
  | RTP_PARSER_OK => Done "no error"
  | RTP_PARSER_PTOOSHRT => Done "packet is too short for RTP header"
  | RTP_PARSER_IHDRVER => Done "incorrect RTP header version"
  | RTP_PARSER_PTOOSHRTXS => Done "packet is too short for extended RTP header size"
  | RTP_PARSER_PTOOSHRTXH => Done "packet is too short for extended RTP header"
  | RTP_PARSER_PTOOSHRTPS => Done "packet is too short for RTP padding size"
  | RTP_PARSER_PTOOSHRTP => Done "packet is too short for RTP padding"
  | RTP_PARSER_IPS => Done "invalid RTP padding size"
  | RTP_PARSER_NOTPARSED => Aborted
  end%string.

(** * Sample counts *)

Definition RTP_NSAMPLES_UNKNOWN : Z := -1.

Definition g723_len (ch : Z) : Z :=
  match Z.land ch 3 with
  | 2 => 4
  | 0 => 24
  | 1 => 20
  | _ => RTP_NSAMPLES_UNKNOWN
  end.

(** The loop of [g723_samples]: [buf] is the whole packet and [data] the offset
    of the payload in it. Every frame is at least four bytes, so [maxlen] + 1
    rounds are enough (see [g723_loop_fuel]). *)
Fixpoint g723_loop (fuel : nat) (buf : list Z) (data maxlen pos samples : Z)
    : outcome Z :=
  if pos <? maxlen then
    match fuel with
    | O => OutOfFuel
    | S fuel =>
        samples ← int_chk (samples + 240);
        ch ← rd8 buf (data + pos);
        let n := g723_len ch in
        if n =? RTP_NSAMPLES_UNKNOWN then Done RTP_NSAMPLES_UNKNOWN
        else pos ← int_chk (pos + n); g723_loop fuel buf data maxlen pos samples
    end
  else Done samples.

Definition g723_samples (buf : list Z) (data maxlen : Z) : outcome Z :=
  g723_loop (S (Z.to_nat maxlen)) buf data maxlen 0 0.

Definition rtp_calc_samples (codec_id nbytes : Z) (buf : list Z) (data : Z)
    : outcome Z :=
  if (codec_id =? rtp_type_value RTP_PCMU) || (codec_id =? rtp_type_value RTP_PCMA)
  then Done (s32 nbytes)
  else if codec_id =? rtp_type_value RTP_G729 then
    Done (s32 (u64 (nbytes / 10 * 80 + (if nbytes mod 10 =? 0 then 0 else 80))))
  else if codec_id =? rtp_type_value RTP_GSM then
    Done (s32 (u64 (160 * (nbytes / 33))))
  else if codec_id =? rtp_type_value RTP_G723 then
    g723_samples buf data (s32 nbytes)
  else if codec_id =? rtp_type_value RTP_G722 then Done (s32 nbytes)
  else Done RTP_NSAMPLES_UNKNOWN.

(** * The parser *)

(** The assignments every call starts with. *)
Definition rinfo_reset (r : rtp_info) : rtp_info :=
  {| data_size := 0; data_offset := 0; nsamples := RTP_NSAMPLES_UNKNOWN;
     ts := ts r; seq := seq r; ssrc := ssrc r; appendable := 1;
     rtp_profile_idx := rtp_profile_idx r |}.

Definition set_data_offset (off : Z) (r : rtp_info) : rtp_info :=
  {| data_size := data_size r; data_offset := off; nsamples := nsamples r;
     ts := ts r; seq := seq r; ssrc := ssrc r; appendable := appendable r;
     rtp_profile_idx := rtp_profile_idx r |}.

(** The header extension: the new data offset, or [None] when the packet ends
    before the extension's own header. *)
Definition parse_ext (buf : list Z) (size b0 off : Z) : outcome (option Z) :=
  if hdr_x b0 =? 0 then Done (Some off)
  else if size <? off + SIZEOF_RTP_HDR_EXT then Done None
  else
    len ← rd16 buf (off + 2);
    Done (Some (u32 (off + (SIZEOF_RTP_HDR_EXT + len * 4)))).

(** The padding size, or the error the padding checks return. *)
Definition parse_padding (buf : list Z) (size b0 off : Z)
    : outcome (rtp_parser_err_t + Z) :=
  if hdr_p b0 =? 0 then Done (inr 0)
  else if off =? size then Done (inl RTP_PARSER_PTOOSHRTPS)
  else
    padding_size ← rd8 buf (size - 1);
    if padding_size =? 0 then Done (inl RTP_PARSER_IPS)
    else Done (inr padding_size).

(** The stores of a successful parse, after the length checks. *)
Definition parse_fill (buf : list Z) (size padding_size : Z) (r : rtp_info)
    : outcome rtp_info :=
  b1 ← rd8 buf 1;
  seq ← rd16 buf 2;
  ts ← rd32 buf 4;
  ssrc ← rd32 buf 8;
  let off := data_offset r in
  let data_size := u64 (size - off - padding_size) in
  if data_size =? 0 then
    Done {| data_size := data_size; data_offset := off; nsamples := nsamples r;
            ts := ts; seq := seq; ssrc := ssrc; appendable := appendable r;
            rtp_profile_idx := Some (hdr_pt b1) |}
  else
    nsamples ← rtp_calc_samples (hdr_pt b1) data_size buf off;
    Done {| data_size := data_size; data_offset := off; nsamples := nsamples;
            ts := ts; seq := seq; ssrc := ssrc;
            appendable := (if (hdr_pt b1 =? rtp_type_value RTP_G729)
                              && negb (data_size mod 10 =? 0)
                           then 0 else appendable r);
            rtp_profile_idx := Some (hdr_pt b1) |}.

Definition rtp_packet_parse_raw (buf : list Z) (size : Z) (rinfo : rtp_info)
    : outcome (rtp_parser_err_t * rtp_info) :=
  let r := rinfo_reset rinfo in
  if size <? SIZEOF_RTP_HDR then Done (RTP_PARSER_PTOOSHRT, r)
  else
  b0 ← rd8 buf 0;
  if negb (hdr_version b0 =? 2) then Done (RTP_PARSER_IHDRVER, r)
  else
  let hlen := RTP_HDR_LEN b0 in
  ext ← parse_ext buf size b0 hlen;
  match ext with
  | None => Done (RTP_PARSER_PTOOSHRTXS, set_data_offset hlen r)
  | Some off =>
      let r := set_data_offset off r in
      if size <? off then Done (RTP_PARSER_PTOOSHRTXH, r)
      else
      pad ← parse_padding buf size b0 off;
      match pad with
      | inl e => Done (e, r)
      | inr padding_size =>
          if size <? u32 (off + padding_size) then Done (RTP_PARSER_PTOOSHRTP, r)
          else
          r ← parse_fill buf size padding_size r;
          Done (RTP_PARSER_OK, r)
      end
  end.

(** * The packet format, as a specification

    What RFC 3550 lets a packet contain: the parser is compared with
    [serialize] below. CSRC and extension data are kept as bytes. *)

Record packet : Set := {
  pk_marker : bool;
  pk_pt : Z;
  pk_seq : Z;
  pk_ts : Z;
  pk_ssrc : Z;
  pk_csrc : list Z;                      (* four bytes per source *)
  pk_ext : option (list Z * list Z);     (* profile bytes, extension words *)
  pk_payload : list Z;
  pk_pad : option (list Z);              (* filler before the count byte *)
}.

Definition pk_byte0 (p : packet) : Z :=
  128 + (if has (pk_pad p) then 32 else 0) + (if has (pk_ext p) then 16 else 0)
  + zlen (pk_csrc p) / 4.
Definition pk_byte1 (p : packet) : Z := (if pk_marker p then 128 else 0) + pk_pt p.

Definition ext_bytes (e : option (list Z * list Z)) : list Z :=
  match e with
  | None => []
  | Some (prof, words) => prof ++ be16 (zlen words / 4) ++ words
  end.
Definition pad_bytes (o : option (list Z)) : list Z :=
  match o with None => [] | Some filler => filler ++ [zlen filler + 1] end.

Definition fixed_header (p : packet) : list Z :=
  [pk_byte0 p; pk_byte1 p] ++ be16 (pk_seq p) ++ be32 (pk_ts p) ++ be32 (pk_ssrc p).

Definition serialize (p : packet) : list Z :=
  fixed_header p ++ pk_csrc p ++ ext_bytes (pk_ext p) ++ pk_payload p
  ++ pad_bytes (pk_pad p).

Definition ext_wf (e : option (list Z * list Z)) : Prop :=
  match e with
  | None => True
  | Some (prof, words) =>
      zlen prof = 2 ∧ zlen words mod 4 = 0 ∧ zlen words < 4 * 65536
      ∧ bytes_ok prof ∧ bytes_ok words
  end.
Definition pad_wf (o : option (list Z)) : Prop :=
  match o with None => True | Some filler => zlen filler ≤ 254 ∧ bytes_ok filler end.

Record packet_wf (p : packet) : Prop := {
  wf_pt : 0 ≤ pk_pt p < 128;
  wf_seq : 0 ≤ pk_seq p < 65536;
  wf_ts : 0 ≤ pk_ts p < 4294967296;
  wf_ssrc : 0 ≤ pk_ssrc p < 4294967296;
  wf_csrc : zlen (pk_csrc p) mod 4 = 0 ∧ zlen (pk_csrc p) ≤ 60
            ∧ bytes_ok (pk_csrc p);
  wf_ext : ext_wf (pk_ext p);
  wf_payload : bytes_ok (pk_payload p);
  wf_pad : pad_wf (pk_pad p);
}.

(** The number of samples the payload stands for on its own. *)
Definition payload_samples (pt : Z) (payload : list Z) : Z :=
  if zlen payload =? 0 then RTP_NSAMPLES_UNKNOWN
  else match rtp_calc_samples pt (zlen payload) payload 0 with
       | Done n => n
       | _ => RTP_NSAMPLES_UNKNOWN
       end.

Definition packet_offset (p : packet) : Z :=
  SIZEOF_RTP_HDR + zlen (pk_csrc p) + zlen (ext_bytes (pk_ext p)).

Definition packet_info (p : packet) : rtp_info :=
  {| data_size := zlen (pk_payload p);
     data_offset := packet_offset p;
     nsamples := payload_samples (pk_pt p) (pk_payload p);
     ts := pk_ts p; seq := pk_seq p; ssrc := pk_ssrc p;
     appendable := (if (pk_pt p =? rtp_type_value RTP_G729)
                       && negb (zlen (pk_payload p) mod 10 =? 0) then 0 else 1);
     rtp_profile_idx := Some (pk_pt p) |}.

(** The largest datagram the theorems consider: far above the 65535 bytes of
    a UDP packet, and small enough that no sample count overflows an [int]. *)
Definition MAX_PACKET : Z := 33554432.

(** * Bit fields *)

Lemma byte0_fields (pad ext : bool) cc :
  0 ≤ cc < 16 →
  let b0 := 128 + (if pad then 32 else 0) + (if ext then 16 else 0) + cc in
  hdr_version b0 = 2 ∧ hdr_p b0 = (if pad then 1 else 0)
  ∧ hdr_x b0 = (if ext then 1 else 0) ∧ hdr_cc b0 = cc ∧ byte_ok b0.
Proof.
  intros Hcc b0.
  assert (all_below 16 (λ c,
    let b := 128 + (if pad then 32 else 0) + (if ext then 16 else 0) + c in
    (hdr_version b =? 2) && (hdr_p b =? if pad then 1 else 0)
    && (hdr_x b =? if ext then 1 else 0) && (hdr_cc b =? c)) = true) as H
    by (destruct pad, ext; reflexivity).
  apply (all_below_spec _ _ cc) in H; [|done]. cbv beta zeta in H. fold b0 in H.
  zbool. split_and!; try done. unfold byte_ok, b0. destruct pad, ext; lia.
Qed.

Lemma byte1_fields (m : bool) pt :
  0 ≤ pt < 128 →
  let b1 := (if m then 128 else 0) + pt in
  hdr_pt b1 = pt ∧ hdr_mbt b1 = (if m then 1 else 0) ∧ byte_ok b1.
Proof.
  intros Hpt b1.
  assert (all_below 128 (λ c, let b := (if m then 128 else 0) + c in
    (hdr_pt b =? c) && (hdr_mbt b =? if m then 1 else 0)) = true) as H
    by (destruct m; reflexivity).
  apply (all_below_spec _ _ pt) in H; [|done]. cbv beta zeta in H. fold b1 in H.
  zbool. split_and!; try done. unfold byte_ok, b1. destruct m; lia.
Qed.

(** A first byte with version 2 is determined by its other fields. *)
Lemma byte0_inv b :
  byte_ok b → hdr_version b = 2 →
  b = 128 + hdr_p b * 32 + hdr_x b * 16 + hdr_cc b
  ∧ (hdr_p b = 0 ∨ hdr_p b = 1) ∧ (hdr_x b = 0 ∨ hdr_x b = 1)
  ∧ 0 ≤ hdr_cc b < 16.
Proof.
  intros Hb Hv.
  assert (all_below 256 (λ b, negb (hdr_version b =? 2) ||
    ((b =? 128 + hdr_p b * 32 + hdr_x b * 16 + hdr_cc b)
     && ((hdr_p b =? 0) || (hdr_p b =? 1)) && ((hdr_x b =? 0) || (hdr_x b =? 1))
     && (0 <=? hdr_cc b) && (hdr_cc b <? 16))) = true) as H by reflexivity.
  apply (all_below_spec _ _ b) in H; [|done]. cbv beta in H. rewrite Hv in H.
  cbn [Z.eqb Pos.eqb negb orb] in H. zbool.
  zor. split_and!; try done; lia.
Qed.

Lemma byte1_inv b :
  byte_ok b →
  b = hdr_mbt b * 128 + hdr_pt b ∧ (hdr_mbt b = 0 ∨ hdr_mbt b = 1)
  ∧ 0 ≤ hdr_pt b < 128.
Proof.
  intros Hb.
  assert (all_below 256 (λ b, (b =? hdr_mbt b * 128 + hdr_pt b)
     && ((hdr_mbt b =? 0) || (hdr_mbt b =? 1)) && (0 <=? hdr_pt b)
     && (hdr_pt b <? 128)) = true) as H by reflexivity.
  apply (all_below_spec _ _ b) in H; [|done]. cbv beta in H. zbool.
  zor. split_and!; try done; lia.
Qed.

(** * Sample counts *)

(** G.723 payloads as a sequence of frames: [g723_scan l (Some n)] when [l] is
    cut into [n] frames by the size each frame's first byte announces (the last
    may be cut short), [g723_scan l None] when a frame starts with a reserved
    size code. *)
Inductive g723_scan : list Z → option Z → Prop :=
| scan_end : g723_scan [] (Some 0)
| scan_reserved ch rest :
    g723_len ch = RTP_NSAMPLES_UNKNOWN → g723_scan (ch :: rest) None
| scan_frame ch rest o :
    g723_len ch ≠ RTP_NSAMPLES_UNKNOWN →
    g723_scan (drop (Z.to_nat (g723_len ch)) (ch :: rest)) o →
    g723_scan (ch :: rest) (Z.add 1 <$> o).

Lemma g723_len_range ch :
  g723_len ch = RTP_NSAMPLES_UNKNOWN ∨ 4 ≤ g723_len ch ≤ 24.
Proof.
  unfold g723_len. assert (0 ≤ Z.land ch 3 < 4) as H.
  { change 3 with (Z.ones 2). rewrite Z.land_ones by lia.
    by apply Z.mod_pos_bound. }
  destruct (Z.land ch 3) as [|p|p]; [right; lia| |lia].
  destruct p as [[]|[]|]; cbn in *; try lia; auto; right; lia.
Qed.

Lemma g723_loop_spec payload fuel pos samples :
  let maxlen := zlen payload in
  0 ≤ pos ≤ maxlen + 24 → (Z.to_nat (maxlen - pos) < fuel)%nat →
  0 ≤ samples → maxlen ≤ MAX_PACKET →
  samples + 60 * (maxlen - pos) + 1680 ≤ INT_MAX →
  ∃ o, g723_scan (drop (Z.to_nat pos) payload) o ∧
    g723_loop fuel payload 0 maxlen pos samples =
      Done (match o with Some n => samples + 240 * n | None => RTP_NSAMPLES_UNKNOWN end).
Proof.
  intros maxlen. revert pos samples.
  induction fuel as [|fuel IH]; intros pos samples Hpos Hfuel Hs Hm Hb; [lia|].
  cbn [g723_loop]. destruct (pos <? maxlen) eqn:E; zbool.
  - assert (∃ ch, payload !! Z.to_nat pos = Some ch) as [ch Hch].
    { apply lookup_lt_is_Some_2. unfold maxlen, zlen in *. lia. }
    rewrite int_chk_ok by (unfold INT_MIN, INT_MAX in *; lia).
    cbn [mbind outcome_bind]. unfold rd8. zdec.
    replace (0 + pos) with pos by lia. rewrite Hch. cbn [mbind outcome_bind].
    destruct (g723_len_range ch) as [Hk|Hk].
    + rewrite Hk. exists None. split; [|done].
      rewrite (drop_S _ _ _ Hch). by constructor.
    + assert (g723_len ch ≠ RTP_NSAMPLES_UNKNOWN) as Hne
        by (unfold RTP_NSAMPLES_UNKNOWN; lia).
      rewrite (proj2 (Z.eqb_neq _ _) Hne).
      rewrite int_chk_ok by (unfold INT_MIN, INT_MAX, MAX_PACKET in *; lia).
      cbn [mbind outcome_bind].
      destruct (IH (pos + g723_len ch) (samples + 240)) as (o & Ho & Heq);
        [lia..|].
      exists (Z.add 1 <$> o). split.
      * rewrite (drop_S _ _ _ Hch). apply scan_frame; [done|].
        rewrite <- (drop_S _ _ _ Hch), drop_drop.
        by replace (Z.to_nat pos + Z.to_nat (g723_len ch))%nat
          with (Z.to_nat (pos + g723_len ch)) by lia.
      * rewrite Heq. destruct o; cbn [fmap option_fmap option_map]; f_equal; lia.
  - exists (Some 0). rewrite drop_ge by (unfold maxlen, zlen in *; lia).
    split; [constructor|]. f_equal; lia.
Qed.

Lemma g723_samples_scan payload :
  zlen payload ≤ MAX_PACKET →
  ∃ o, g723_scan payload o ∧
    g723_samples payload 0 (zlen payload) =
      Done (match o with Some n => 240 * n | None => RTP_NSAMPLES_UNKNOWN end).
Proof.
  intros H. pose proof (zlen_nonneg payload).
  destruct (g723_loop_spec payload (S (Z.to_nat (zlen payload))) 0 0)
    as (o & Ho & Heq); [lia|lia|lia|done|unfold INT_MAX, MAX_PACKET in *; lia|].
  exists o. by split.
Qed.

Lemma g723_loop_shift pre payload post fuel pos samples :
  0 ≤ pos →
  g723_loop fuel (pre ++ payload ++ post) (zlen pre) (zlen payload) pos samples =
  g723_loop fuel payload 0 (zlen payload) pos samples.
Proof.
  revert pos samples. induction fuel as [|fuel IH]; intros pos samples Hp; [done|].
  cbn [g723_loop]. destruct (pos <? zlen payload) eqn:E; [zbool|done].
  destruct (int_chk (samples + 240)); try done. cbn [mbind outcome_bind].
  rewrite rd8_app_mid by lia. replace (0 + pos) with pos by lia.
  destruct (rd8 payload pos) as [ch| | |]; try done. cbn [mbind outcome_bind].
  destruct (g723_len ch =? RTP_NSAMPLES_UNKNOWN) eqn:E2; [done|zbool].
  unfold int_chk. destruct (in_int (pos + g723_len ch)); [|done].
  cbn [mbind outcome_bind]. apply IH. destruct (g723_len_range ch); lia.
Qed.

Lemma calc_samples_shift pt pre payload post :
  zlen payload ≤ MAX_PACKET →
  rtp_calc_samples pt (zlen payload) (pre ++ payload ++ post) (zlen pre) =
  rtp_calc_samples pt (zlen payload) payload 0.
Proof.
  intros H. pose proof (zlen_nonneg payload). unfold rtp_calc_samples, g723_samples.
  rewrite s32_small by (unfold INT_MIN, INT_MAX, MAX_PACKET in *; lia).
  by rewrite g723_loop_shift by done.
Qed.

Lemma calc_samples_done pt payload :
  zlen payload ≤ MAX_PACKET →
  ∃ n, rtp_calc_samples pt (zlen payload) payload 0 = Done n.
Proof.
  intros H. pose proof (zlen_nonneg payload). unfold rtp_calc_samples.
  repeat (case_match; [by eauto|]). case_match; [|by case_match; eauto].
  rewrite s32_small by (unfold INT_MIN, INT_MAX, MAX_PACKET in *; lia).
  destruct (g723_samples_scan payload H) as (o & _ & ->). eauto.
Qed.

Lemma payload_samples_eq pt payload :
  zlen payload ≤ MAX_PACKET → zlen payload ≠ 0 →
  rtp_calc_samples pt (zlen payload) payload 0 = Done (payload_samples pt payload).
Proof.
  intros H H0. destruct (calc_samples_done pt payload H) as [n Hn].
  unfold payload_samples. by rewrite (proj2 (Z.eqb_neq _ _) H0), Hn.
Qed.

(** * Parsing what [serialize] produces *)

Section Parse_serialize.
Context (p : packet) (Hwf : packet_wf p).
Context (Hmax : zlen (serialize p) ≤ MAX_PACKET).

Lemma csrc_count :
  0 ≤ zlen (pk_csrc p) / 4 < 16 ∧ zlen (pk_csrc p) / 4 * 4 = zlen (pk_csrc p).
Proof.
  destruct (wf_csrc p Hwf) as (H1 & H2 & _). pose proof (zlen_nonneg (pk_csrc p)).
  zlia.
Qed.

Lemma byte0_spec :
  hdr_version (pk_byte0 p) = 2
  ∧ hdr_p (pk_byte0 p) = (if has (pk_pad p) then 1 else 0)
  ∧ hdr_x (pk_byte0 p) = (if has (pk_ext p) then 1 else 0)
  ∧ RTP_HDR_LEN (pk_byte0 p) = SIZEOF_RTP_HDR + zlen (pk_csrc p).
Proof.
  destruct csrc_count as [H1 H2].
  destruct (byte0_fields (has (pk_pad p)) (has (pk_ext p)) _ H1)
    as (Hv & Hp & Hx & Hc & _).
  unfold RTP_HDR_LEN. unfold pk_byte0 in *. rewrite Hc. split_and!; try done. lia.
Qed.

Lemma zlen_serialize :
  zlen (serialize p) =
    packet_offset p + zlen (pk_payload p) + zlen (pad_bytes (pk_pad p)).
Proof.
  unfold serialize, packet_offset, fixed_header, SIZEOF_RTP_HDR.
  zlen.
Qed.

Lemma packet_offset_bounds :
  SIZEOF_RTP_HDR ≤ packet_offset p ≤ MAX_PACKET.
Proof.
  pose proof zlen_serialize. pose proof (zlen_nonneg (pk_payload p)).
  pose proof (zlen_nonneg (pad_bytes (pk_pad p))).
  pose proof (zlen_nonneg (pk_csrc p)). pose proof (zlen_nonneg (ext_bytes (pk_ext p))).
  unfold packet_offset in *. lia.
Qed.

Lemma parse_ext_serialize :
  parse_ext (serialize p) (zlen (serialize p)) (pk_byte0 p)
    (RTP_HDR_LEN (pk_byte0 p)) = Done (Some (packet_offset p)).
Proof.
  destruct byte0_spec as (_ & _ & Hx & ->). unfold parse_ext. rewrite Hx.
  pose proof zlen_serialize as Hlen. pose proof packet_offset_bounds as Hoff.
  pose proof (wf_ext p Hwf) as Hext. pose proof (zlen_nonneg (pk_payload p)).
  pose proof (zlen_nonneg (pad_bytes (pk_pad p))).
  unfold packet_offset, serialize in *.
  destruct (pk_ext p) as [[prof words]|]; cbn [has ext_bytes] in *.
  - destruct Hext as (Hp2 & Hw4 & Hwl & _ & _). pose proof (zlen_nonneg words).
    autorewrite with zlen in *. cbn [Z.eqb].
    set (hd := fixed_header p ++ pk_csrc p ++ prof).
    assert (zlen hd = SIZEOF_RTP_HDR + zlen (pk_csrc p) + 2) as Hhd.
    { unfold hd, fixed_header, SIZEOF_RTP_HDR. zlen. }
    assert (zlen (fixed_header p) = SIZEOF_RTP_HDR) as Hfh by done.
    rewrite Hfh in *. unfold SIZEOF_RTP_HDR_EXT, MAX_PACKET in *. zdec.
    replace (fixed_header p ++ pk_csrc p ++ (prof ++ be16 (zlen words / 4) ++ words)
        ++ pk_payload p ++ pad_bytes (pk_pad p))
      with (hd ++ be16 (zlen words / 4)
        ++ (words ++ pk_payload p ++ pad_bytes (pk_pad p)))
      by (unfold hd; rewrite <- !(assoc_L (++)); done).
    rewrite rd16_app_r by lia.
    replace (SIZEOF_RTP_HDR + zlen (pk_csrc p) + 2 - zlen hd) with 0 by lia.
    rewrite rd16_be16 by zlia. cbn [mbind outcome_bind].
    replace (zlen words / 4 * 4) with (zlen words) by zlia.
    pose proof (zlen_nonneg (pk_csrc p)). unfold SIZEOF_RTP_HDR in *.
    rewrite u32_small by lia. do 2 f_equal. lia.
  - cbn [Z.eqb]. do 2 f_equal. zlen.
Qed.

Lemma parse_padding_serialize :
  parse_padding (serialize p) (zlen (serialize p)) (pk_byte0 p) (packet_offset p)
    = Done (inr (zlen (pad_bytes (pk_pad p)))).
Proof.
  destruct byte0_spec as (_ & Hp & _ & _). unfold parse_padding. rewrite Hp.
  pose proof zlen_serialize as Hlen. pose proof (zlen_nonneg (pk_payload p)).
  pose proof (wf_pad p Hwf) as Hpad. pose proof packet_offset_bounds as Hoff.
  unfold SIZEOF_RTP_HDR in Hoff.
  destruct (pk_pad p) as [filler|] eqn:E; cbn [has pad_bytes] in *; [|done].
  cbn [Z.eqb]. pose proof (zlen_nonneg filler). autorewrite with zlen in *.
  zdec. unfold serialize. rewrite E. cbn [pad_bytes].
  set (pre := fixed_header p ++ pk_csrc p ++ ext_bytes (pk_ext p) ++ pk_payload p
    ++ filler).
  assert (fixed_header p ++ pk_csrc p ++ ext_bytes (pk_ext p) ++ pk_payload p
    ++ filler ++ [zlen filler + 1] = pre ++ [zlen filler + 1]) as ->
    by (unfold pre; by rewrite <- !(assoc_L (++))).
  replace (zlen (pre ++ [zlen filler + 1]) - 1) with (zlen pre)
    by zlen.
  rewrite rd8_app_r, Z.sub_diag by lia.
  change (rd8 [zlen filler + 1] 0) with (Done (zlen filler + 1)).
  cbn [mbind outcome_bind]. zdec. done.
Qed.

Lemma parse_fill_serialize (r : rtp_info) :
  data_offset r = packet_offset p → nsamples r = RTP_NSAMPLES_UNKNOWN →
  appendable r = 1 →
  parse_fill (serialize p) (zlen (serialize p)) (zlen (pad_bytes (pk_pad p))) r
    = Done (packet_info p).
Proof.
  intros Hoff Hns Happ. pose proof packet_offset_bounds.
  pose proof (wf_pt p Hwf) as Hpt. pose proof (zlen_nonneg (pk_payload p)).
  destruct (byte1_fields (pk_marker p) _ Hpt) as (Hpt' & _ & _).
  fold (pk_byte1 p) in Hpt'.
  pose proof zlen_serialize as Hlen. pose proof (zlen_nonneg (pad_bytes (pk_pad p))).
  unfold parse_fill. rewrite Hlen, Hoff.
  replace (packet_offset p + zlen (pk_payload p) + zlen (pad_bytes (pk_pad p))
    - packet_offset p - zlen (pad_bytes (pk_pad p))) with (zlen (pk_payload p)) by lia.
  rewrite u64_small by (unfold SIZEOF_RTP_HDR, MAX_PACKET in *; lia).
  assert (rd8 (serialize p) 1 = Done (pk_byte1 p)) as -> by done.
  assert (rd16 (serialize p) 2 = Done (pk_seq p)) as ->.
  { unfold serialize, fixed_header. rewrite <- !(assoc_L (++)).
    rewrite rd16_app_r by done. apply rd16_be16, (wf_seq p Hwf). }
  assert (rd32 (serialize p) 4 = Done (pk_ts p)) as ->.
  { unfold serialize, fixed_header. rewrite <- !(assoc_L (++)).
    rewrite !rd32_app_r by done. apply rd32_be32, (wf_ts p Hwf). }
  assert (rd32 (serialize p) 8 = Done (pk_ssrc p)) as ->.
  { unfold serialize, fixed_header. rewrite <- !(assoc_L (++)).
    rewrite !rd32_app_r by done. apply rd32_be32, (wf_ssrc p Hwf). }
  cbn [mbind outcome_bind]. rewrite Hpt', Hns, Happ. unfold packet_info.
  destruct (zlen (pk_payload p) =? 0) eqn:E; zbool.
  - unfold payload_samples. rewrite E. cbn [Z.eqb negb Z.modulo Z.div_eucl].
    by rewrite andb_false_r.
  - assert (rtp_calc_samples (pk_pt p) (zlen (pk_payload p)) (serialize p)
      (packet_offset p) = Done (payload_samples (pk_pt p) (pk_payload p))) as ->;
      [|done].
    rewrite <- payload_samples_eq by (unfold SIZEOF_RTP_HDR in *; lia).
    rewrite <- (calc_samples_shift (pk_pt p)
      (fixed_header p ++ pk_csrc p ++ ext_bytes (pk_ext p)) (pk_payload p)
      (pad_bytes (pk_pad p))) by (unfold SIZEOF_RTP_HDR in *; lia).
    f_equal; [unfold serialize; by rewrite <- !(assoc_L (++))|].
    unfold packet_offset, fixed_header, SIZEOF_RTP_HDR. zlen.
Qed.

Lemma parse_serialize rinfo :
  rtp_packet_parse_raw (serialize p) (zlen (serialize p)) rinfo =
    Done (RTP_PARSER_OK, packet_info p).
Proof.
  pose proof packet_offset_bounds as Hoff. pose proof zlen_serialize as Hlen.
  pose proof (zlen_nonneg (pk_payload p)).
  pose proof (zlen_nonneg (pad_bytes (pk_pad p))).
  unfold rtp_packet_parse_raw, SIZEOF_RTP_HDR in *. zdec.
  assert (rd8 (serialize p) 0 = Done (pk_byte0 p)) as -> by done.
  destruct byte0_spec as (Hv & _ & _ & _). cbn [mbind outcome_bind].
  rewrite Hv. cbn [Z.eqb Pos.eqb negb]. rewrite parse_ext_serialize.
  cbn [mbind outcome_bind]. zdec. rewrite parse_padding_serialize.
  cbn [mbind outcome_bind]. rewrite u32_small by (unfold MAX_PACKET in *; lia).
  zdec. by rewrite parse_fill_serialize.
Qed.
End Parse_serialize.

(** * Every accepted buffer is a serialized packet *)

Lemma header_split buf :
  bytes_ok buf → SIZEOF_RTP_HDR ≤ zlen buf →
  ∃ b0 b1 sq t sc rest,
    buf = ([b0; b1] ++ be16 sq ++ be32 t ++ be32 sc) ++ rest
    ∧ byte_ok b0 ∧ byte_ok b1 ∧ 0 ≤ sq < 65536 ∧ 0 ≤ t < 4294967296
    ∧ 0 ≤ sc < 4294967296 ∧ bytes_ok rest.
Proof.
  intros Hok Hlen. destruct (split_at buf 12) as (hd & rest & -> & Hhd);
    [unfold SIZEOF_RTP_HDR in *; lia|].
  apply bytes_ok_app in Hok as [Hok Hrest].
  assert (length hd = 12%nat) as Hl by (unfold zlen in *; lia).
  destruct hd as [|a0 [|a1 [|a2 [|a3 [|a4 [|a5 [|a6 [|a7 [|a8 [|a9 [|a10
    [|a11 [|? ?]]]]]]]]]]]]]; try done.
  unfold bytes_ok in Hok. rewrite !Forall_cons in Hok. destruct_and! Hok.
  exists a0, a1, (a2 * 256 + a3), ((a4 * 256 + a5) * 65536 + (a6 * 256 + a7)),
    ((a8 * 256 + a9) * 65536 + (a10 * 256 + a11)), rest.
  rewrite be16_of_bytes, !be32_of_bytes by eassumption.
  split; [reflexivity|]. unfold byte_ok in *. split_and!; try done; lia.
Qed.

(** Undoing the header extension. *)
Lemma ext_split b0 rest hd off :
  byte_ok b0 → hdr_version b0 = 2 → bytes_ok rest →
  zlen hd = RTP_HDR_LEN b0 →
  zlen (hd ++ rest) ≤ MAX_PACKET →
  parse_ext (hd ++ rest) (zlen (hd ++ rest)) b0 (zlen hd) = Done (Some off) →
  off ≤ zlen (hd ++ rest) →
  ∃ e rest', rest = ext_bytes e ++ rest' ∧ ext_wf e
    ∧ hdr_x b0 = (if has e then 1 else 0) ∧ off = zlen hd + zlen (ext_bytes e).
Proof.
  intros Hb Hv Hok Hhd Hmax Hp Hoff.
  destruct (byte0_inv b0 Hb Hv) as (_ & _ & Hx & _).
  pose proof (zlen_nonneg hd). unfold parse_ext in Hp.
  destruct (hdr_x b0 =? 0) eqn:Ex; zbool.
  { exists None, rest. injection Hp as <-. cbn. autorewrite with zlen.
    split_and!; try done. lia. }
  destruct Hx as [?|Hx]; [done|].
  rewrite zlen_app in *. unfold SIZEOF_RTP_HDR_EXT in *.
  destruct (_ <? _) eqn:E in Hp; [done|zbool].
  destruct (split_at rest 4) as (x4 & words & -> & Hx4); [lia|].
  apply bytes_ok_app in Hok as [Hok4 Hokw].
  assert (length x4 = 4%nat) as Hl by (unfold zlen in *; lia).
  destruct x4 as [|a0 [|a1 [|a2 [|a3 [|? ?]]]]]; try done.
  unfold bytes_ok in Hok4. rewrite !Forall_cons in Hok4. destruct_and! Hok4.
  rewrite rd16_app_r in Hp by lia.
  replace (zlen hd + 2 - zlen hd) with 2 in Hp by lia.
  assert (rd16 ([a0; a1; a2; a3] ++ words) 2 = Done (a2 * 256 + a3)) as Hr by done.
  set (n := a2 * 256 + a3) in *.
  assert (be16 n = [a2; a3]) as Hn by (by apply be16_of_bytes).
  assert (0 ≤ n < 65536) by (unfold n, byte_ok in *; lia).
  rewrite Hr in Hp. cbn [mbind outcome_bind] in Hp. rewrite zlen_app, Hx4 in *.
  rewrite u32_small in Hp by (unfold MAX_PACKET in *; lia). injection Hp as <-.
  destruct (split_at words (n * 4)) as (w & tl & -> & Hw); [lia|].
  apply bytes_ok_app in Hokw as [??].
  exists (Some ([a0; a1], w)), tl. cbn [ext_bytes has ext_wf].
  rewrite Hw. replace (n * 4 / 4) with n by zlia. rewrite Hn.
  autorewrite with zlen. split_and!; try done; try zlia.
  by apply Forall_cons_2; [|apply Forall_singleton].
Qed.

(** Undoing the padding. *)
Lemma padding_split b0 pre rest k :
  byte_ok b0 → hdr_version b0 = 2 → bytes_ok rest →
  parse_padding (pre ++ rest) (zlen (pre ++ rest)) b0 (zlen pre) = Done (inr k) →
  u32 (zlen pre + k) ≤ zlen (pre ++ rest) →
  zlen (pre ++ rest) ≤ MAX_PACKET →
  ∃ payload o, rest = payload ++ pad_bytes o ∧ pad_wf o
    ∧ hdr_p b0 = (if has o then 1 else 0).
Proof.
  intros Hb Hv Hok Hp Hk Hmax.
  destruct (byte0_inv b0 Hb Hv) as (_ & Hpp & _ & _).
  pose proof (zlen_nonneg pre). unfold parse_padding in Hp.
  destruct (hdr_p b0 =? 0) eqn:Ep; zbool.
  { exists rest, None. cbn. rewrite app_nil_r. done. }
  destruct Hpp as [?|Hpp]; [done|]. rewrite zlen_app in *.
  destruct (zlen pre =? _) eqn:E in Hp; [done|zbool].
  pose proof (zlen_nonneg rest).
  destruct (split_last rest) as (r & b & ->); [lia|].
  apply bytes_ok_app in Hok as [Hokr Hokb].
  assert (byte_ok b) as Hbb by (by inversion Hokb).
  rewrite rd8_app_r in Hp by zlen.
  rewrite rd8_app_r in Hp by zlen.
  replace (zlen pre + zlen (r ++ [b]) - 1 - zlen pre - zlen r) with 0 in Hp
    by zlen.
  change (rd8 [b] 0) with (Done b) in Hp. cbn [mbind outcome_bind] in Hp.
  destruct (b =? 0) eqn:Eb; [done|]. injection Hp as <-. zbool.
  autorewrite with zlen in *. unfold byte_ok, MAX_PACKET in *.
  rewrite u32_small in Hk by lia.
  destruct (split_at r (zlen r - (b - 1))) as (payload & filler & -> & Hpl); [lia|].
  apply bytes_ok_app in Hokr as [??]. autorewrite with zlen in *.
  exists payload, (Some filler). cbn [pad_bytes has pad_wf].
  replace (zlen filler + 1) with b by lia.
  rewrite (assoc_L (++)). split_and!; try done. lia.
Qed.

Lemma parse_padding_err buf size b0 off e :
  parse_padding buf size b0 off = Done (inl e) →
  e = RTP_PARSER_PTOOSHRTPS ∨ e = RTP_PARSER_IPS.
Proof.
  unfold parse_padding. case_match; [done|]. case_match; [intros; simplify_eq; auto|].
  destruct (rd8 _ _); cbn [mbind outcome_bind]; try done.
  case_match; intros; simplify_eq; auto.
Qed.

(** The two flag bytes of a header and the rest of its packet. *)
Lemma serialize_fields b0 b1 sq t sc csrc e payload o :
  byte_ok b0 → byte_ok b1 → hdr_version b0 = 2 →
  zlen csrc = hdr_cc b0 * 4 → hdr_x b0 = (if has e then 1 else 0) → hdr_p b0 = (if has o then 1 else 0) →
  serialize {| pk_marker := hdr_mbt b1 =? 1; pk_pt := hdr_pt b1; pk_seq := sq; pk_ts := t; pk_ssrc := sc;
               pk_csrc := csrc; pk_ext := e; pk_payload := payload; pk_pad := o |} =
  [b0; b1] ++ be16 sq ++ be32 t ++ be32 sc ++ csrc ++ ext_bytes e ++ payload ++ pad_bytes o.
Proof.
  intros Hb0 Hb1 Hv Hcsrc Hx Hp. destruct (byte0_inv b0 Hb0 Hv) as (Eb0 & _ & _ & Hcc).
  destruct (byte1_inv b1 Hb1) as (Eb1 & Hm & Hpt).
  unfold serialize, fixed_header, pk_byte0, pk_byte1. cbn.
  rewrite Hcsrc. replace (hdr_cc b0 * 4 / 4) with (hdr_cc b0) by zlia.
  replace (128 + (if has o then 32 else 0) + (if has e then 16 else 0) + hdr_cc b0)
    with b0 by (rewrite Eb0 at 1; rewrite Hp, Hx; destruct (has o), (has e); lia).
  replace ((if hdr_mbt b1 =? 1 then 128 else 0) + hdr_pt b1) with b1
    by (destruct Hm as [Hm|Hm]; rewrite Hm in *; cbn; lia).
  done.
Qed.

Lemma parse_ok_serialized buf rinfo r :
  bytes_ok buf → zlen buf ≤ MAX_PACKET →
  rtp_packet_parse_raw buf (zlen buf) rinfo = Done (RTP_PARSER_OK, r) →
  ∃ p, packet_wf p ∧ serialize p = buf.
Proof.
  intros Hok Hmax H. unfold rtp_packet_parse_raw in H.
  destruct (_ <? _) eqn:E in H; [done|zbool].
  destruct (header_split buf Hok E)
    as (b0 & b1 & sq & t & sc & rest & -> & Hb0 & Hb1 & Hsq & Ht & Hsc & Hrest).
  set (hd0 := [b0; b1] ++ be16 sq ++ be32 t ++ be32 sc) in *.
  assert (rd8 (hd0 ++ rest) 0 = Done b0) as Hr by done. rewrite Hr in H.
  cbn [mbind outcome_bind] in H.
  destruct (negb _) eqn:Hv in H; [done|zbool].
  destruct (byte0_inv b0 Hb0 Hv) as (Eb0 & _ & _ & Hcc).
  destruct (byte1_inv b1 Hb1) as (Eb1 & Hm & Hpt).
  assert (zlen hd0 = SIZEOF_RTP_HDR) as Hhd0 by done.
  destruct (parse_ext _ _ _ _) as [[off|]| | |] eqn:Eext; try done.
  cbn [mbind outcome_bind] in H.
  destruct (_ <? off) eqn:Eoff in H; [done|zbool].
  assert (RTP_HDR_LEN b0 ≤ zlen (hd0 ++ rest)) as Hcs.
  { unfold parse_ext in Eext. destruct (hdr_x b0 =? 0).
    - injection Eext as <-. done.
    - unfold SIZEOF_RTP_HDR_EXT in Eext.
      destruct (_ <? _) eqn:E4 in Eext; [done|]. zbool. lia. }
  rewrite zlen_app in Hcs. unfold RTP_HDR_LEN in Hcs, Eext.
  destruct (split_at rest (hdr_cc b0 * 4)) as (csrc & rest1 & -> & Hcsrc); [lia|].
  apply bytes_ok_app in Hrest as [Hokc Hrest].
  rewrite !(assoc_L (++)) in *.
  set (hd1 := hd0 ++ csrc) in *.
  assert (zlen hd1 = SIZEOF_RTP_HDR + hdr_cc b0 * 4) as Hhd1
    by (unfold hd1; rewrite zlen_app; lia).
  rewrite <- Hhd1 in Eext.
  destruct (ext_split b0 rest1 hd1 off) as (e & rest2 & -> & Hewf & Hx & Hoff);
    try done.
  apply bytes_ok_app in Hrest as [_ Hrest].
  rewrite !(assoc_L (++)) in *. set (hd2 := hd1 ++ ext_bytes e) in *.
  assert (off = zlen hd2) as -> by (unfold hd2; rewrite zlen_app; lia).
  destruct (parse_padding _ _ _ _) as [[?|k]| | |] eqn:Epad; try done.
  { cbn [mbind outcome_bind] in H.
    by destruct (parse_padding_err _ _ _ _ _ Epad); simplify_eq. }
  cbn [mbind outcome_bind] in H. destruct (_ <? u32 _) eqn:Ek in H; [done|zbool].
  destruct (padding_split b0 hd2 rest2 k) as (payload & o & -> & Howf & Hp); try done.
  apply bytes_ok_app in Hrest as [Hokp _].
  exists {| pk_marker := hdr_mbt b1 =? 1; pk_pt := hdr_pt b1; pk_seq := sq;
    pk_ts := t; pk_ssrc := sc; pk_csrc := csrc; pk_ext := e; pk_payload := payload;
    pk_pad := o |}.
  split.
  - split; cbn; try done. rewrite Hcsrc. split_and!; try done; zlia.
  - rewrite (serialize_fields b0 b1) by done. unfold hd2, hd1, hd0. by rewrite <- !(assoc_L (++)).
Qed.

(** * The parser is total and safe *)

Lemma parse_fill_done buf padding off r :
  bytes_ok buf → zlen buf ≤ MAX_PACKET → SIZEOF_RTP_HDR ≤ off →
  0 ≤ padding → off + padding ≤ zlen buf → data_offset r = off →
  ∃ r', parse_fill buf (zlen buf) padding r = Done r'
    ∧ data_offset r' = off ∧ data_size r' = zlen buf - off - padding
    ∧ ∃ i, rtp_profile_idx r' = Some i ∧ 0 ≤ i < 128.
Proof.
  intros Hok Hmax Hoff Hpad Hle Hr. unfold SIZEOF_RTP_HDR, MAX_PACKET in *.
  unfold parse_fill.
  destruct (rd8_ok buf 1) as (b1 & -> & Hb1); [done|lia|].
  destruct (rd16_ok buf 2) as (sq & -> & _); [done|lia..|].
  destruct (rd32_ok buf 4) as (t & -> & _); [done|lia..|].
  destruct (rd32_ok buf 8) as (sc & -> & _); [done|lia..|].
  cbn [mbind outcome_bind]. rewrite Hr, u64_small by lia.
  destruct (byte1_inv b1 Hb1) as (_ & _ & Hpt).
  destruct (_ =? 0) eqn:E.
  { eexists. split; [done|]. cbn. split_and!; try done. by eexists. }
  zbool. destruct (split_at buf off) as (pre & rest & -> & Hpre); [lia|].
  destruct (split_at rest (zlen rest - padding)) as (payload & post & -> & Hpl);
    [zlen|].
  autorewrite with zlen in *.
  replace (zlen pre + (zlen payload + zlen post) - off - padding)
    with (zlen payload) in * by lia.
  rewrite <- Hpre, calc_samples_shift by (unfold MAX_PACKET; zlen).
  destruct (calc_samples_done (hdr_pt b1) payload) as [n ->];
    [unfold MAX_PACKET; zlen|].
  eexists. split; [done|]. cbn. split_and!; try done. by eexists.
Qed.

Lemma parse_total buf rinfo :
  bytes_ok buf → zlen buf ≤ MAX_PACKET →
  ∃ e r, rtp_packet_parse_raw buf (zlen buf) rinfo = Done (e, r)
    ∧ e ≠ RTP_PARSER_NOTPARSED
    ∧ if decide (e = RTP_PARSER_OK) then
        SIZEOF_RTP_HDR ≤ data_offset r ∧ 0 ≤ data_size r
        ∧ data_offset r + data_size r ≤ zlen buf
        ∧ ∃ i, rtp_profile_idx r = Some i ∧ 0 ≤ i < 128
      else
        data_size r = 0 ∧ nsamples r = RTP_NSAMPLES_UNKNOWN
        ∧ ts r = ts rinfo ∧ seq r = seq rinfo ∧ ssrc r = ssrc rinfo
        ∧ rtp_profile_idx r = rtp_profile_idx rinfo.
Proof.
  intros Hok Hmax. unfold rtp_packet_parse_raw.
  destruct (_ <? _) eqn:E; [by eexists _, _|zbool]. unfold SIZEOF_RTP_HDR in *.
  destruct (rd8_ok buf 0) as (b0 & -> & Hb0); [done|lia|]. cbn [mbind outcome_bind].
  destruct (negb _) eqn:Hv; [by eexists _, _|zbool].
  destruct (byte0_inv b0 Hb0 Hv) as (_ & _ & _ & Hcc).
  assert (∃ o, parse_ext buf (zlen buf) b0 (RTP_HDR_LEN b0) = Done o
    ∧ if o is Some off then 12 ≤ off < 4294967040 else True) as (o & -> & Ho).
  { unfold parse_ext, RTP_HDR_LEN, SIZEOF_RTP_HDR, SIZEOF_RTP_HDR_EXT, MAX_PACKET in *.
    case_match; [eexists; split; [done|cbn; lia]|]. case_match; [by eexists|zbool].
    destruct (rd16_ok buf (12 + hdr_cc b0 * 4 + 2)) as (len & -> & Hlen);
      [done|lia..|]. cbn [mbind outcome_bind]. eexists; split; [done|].
    rewrite u32_small by lia. cbn; lia. }
  cbn [mbind outcome_bind]. destruct o as [off|]; [|by eexists _, _].
  destruct (_ <? off) eqn:Eo; [by eexists _, _|zbool].
  assert (∃ r, parse_padding buf (zlen buf) b0 off = Done r
    ∧ if r is inr k then 0 ≤ k < 256 else True) as (r & Hpad & Hr).
  { unfold parse_padding. case_match; [eexists; split; [done|cbn; lia]|].
    case_match; [by eexists|]. zbool.
    destruct (rd8_ok buf (zlen buf - 1)) as (k & -> & Hk); [done|lia|].
    cbn [mbind outcome_bind]. case_match; [by eexists|]. eexists; split; [done|].
    unfold byte_ok in Hk. cbn; lia. }
  rewrite Hpad. cbn [mbind outcome_bind]. destruct r as [e|k].
  { destruct (parse_padding_err _ _ _ _ _ Hpad); subst e; by eexists _, _. }
  rewrite u32_small by lia.
  destruct (_ <? off + k) eqn:Ek; [by eexists _, _|zbool].
  destruct (parse_fill_done buf k off
    (set_data_offset off (rinfo_reset rinfo))) as (r & -> & H1 & H2 & H3);
    try done; [unfold SIZEOF_RTP_HDR; lia|lia|].
  eexists _, _. split; [done|]. split; [done|]. rewrite decide_True by done.
  rewrite H1, H2. split_and!; try done; lia.
Qed.

(** * Truncated packets *)

Lemma rd8_take n buf i : i < Z.of_nat n → rd8 (take n buf) i = rd8 buf i.
Proof.
  intros H. unfold rd8. destruct (0 <=? i) eqn:E; [zbool|done].
  by rewrite lookup_take_lt by lia.
Qed.
Lemma rd16_take n buf i : i + 1 < Z.of_nat n → rd16 (take n buf) i = rd16 buf i.
Proof. intros H. unfold rd16. by rewrite !rd8_take by lia. Qed.

(** What a packet cut off inside its header is reported as. *)
Definition truncation_error (p : packet) (n : Z) : rtp_parser_err_t :=
  if n <? SIZEOF_RTP_HDR then RTP_PARSER_PTOOSHRT
  else if has (pk_ext p)
          && (n <? SIZEOF_RTP_HDR + zlen (pk_csrc p) + SIZEOF_RTP_HDR_EXT)
  then RTP_PARSER_PTOOSHRTXS
  else RTP_PARSER_PTOOSHRTXH.

Lemma parse_truncated_lem p rinfo (n : nat) :
  packet_wf p → zlen (serialize p) ≤ MAX_PACKET → Z.of_nat n < packet_offset p →
  fst <$> (match rtp_packet_parse_raw (take n (serialize p)) (Z.of_nat n) rinfo with
           | Done x => Some x | _ => None end)
    = Some (truncation_error p (Z.of_nat n)).
Proof.
  intros Hwf Hmax Hn. unfold rtp_packet_parse_raw, truncation_error.
  destruct (_ <? _) eqn:E; [done|zbool]. unfold SIZEOF_RTP_HDR in E.
  rewrite rd8_take by lia.
  assert (rd8 (serialize p) 0 = Done (pk_byte0 p)) as -> by done.
  destruct (byte0_spec p Hwf) as (Hv & _ & Hx & Hl). cbn [mbind outcome_bind].
  rewrite Hv. cbn [Z.eqb Pos.eqb negb].
  pose proof (parse_ext_serialize p Hwf Hmax) as Hext.
  unfold parse_ext in *. rewrite Hl in *. rewrite Hx in *.
  destruct (has (pk_ext p)) eqn:Eh; cbn [Z.eqb andb] in *.
  - destruct (_ <? _) eqn:E2 in Hext; [done|].
    destruct (Z.of_nat n <? _) eqn:E3; [done|]. zbool.
    unfold SIZEOF_RTP_HDR_EXT in E3. rewrite rd16_take by lia.
    destruct (rd16 _ _) as [w| | |]; try done. cbn [mbind outcome_bind] in *.
    injection Hext as ->. by zdec.
  - cbn [mbind outcome_bind] in *. injection Hext as ->. by zdec.
Qed.

(** * Properties *)

(** C4: the parser accepts exactly the well-formed RTP packets. A buffer of
    bytes is answered with [RTP_PARSER_OK] and the info [r] if and only if it is
    the wire form of some packet (fixed header, CSRC list, optional extension,
    payload, optional padding), and [r] then holds that packet's payload offset
    and size, sequence number, timestamp, SSRC, payload type and sample count. *)
Theorem parse_ok_iff (buf : list Z) (rinfo r : rtp_info)
    (Hok : bytes_ok buf) (Hmax : zlen buf ≤ MAX_PACKET) :
  rtp_packet_parse_raw buf (zlen buf) rinfo = Done (RTP_PARSER_OK, r)
  ↔ ∃ p, packet_wf p ∧ serialize p = buf ∧ r = packet_info p.
Proof.
  split.
  - intros H. destruct (parse_ok_serialized buf rinfo r Hok Hmax H) as (p & Hp & <-).
    exists p. split_and!; try done. rewrite (parse_serialize p Hp Hmax) in H. congruence.
  - intros (p & Hp & <- & ->). by apply parse_serialize.
Qed.

(** C32: the parser is memory safe and total. On every buffer of bytes it
    returns a proper result code (so [rtp_packet_parse_errstr] has a message for
    it) without reading outside the buffer. On success the payload lies inside
    the buffer after the fixed header and the profile pointer designates an
    entry of [rtp_profiles]; on failure no sample count or payload is reported
    and the caller's timestamp, sequence number, SSRC and profile are kept. *)
Theorem parse_safe (buf : list Z) (rinfo : rtp_info)
    (Hok : bytes_ok buf) (Hmax : zlen buf ≤ MAX_PACKET) :
  ∃ e r, rtp_packet_parse_raw buf (zlen buf) rinfo = Done (e, r)
    ∧ (∃ msg, rtp_packet_parse_errstr e = Done msg)
    ∧ (e = RTP_PARSER_OK →
        SIZEOF_RTP_HDR ≤ data_offset r ∧ 0 ≤ data_size r
        ∧ data_offset r + data_size r ≤ zlen buf
        ∧ ∃ i, rtp_profile_idx r = Some i ∧ is_Some (rtp_profiles !! Z.to_nat i))
    ∧ (e ≠ RTP_PARSER_OK →
        data_size r = 0 ∧ nsamples r = RTP_NSAMPLES_UNKNOWN
        ∧ ts r = ts rinfo ∧ seq r = seq rinfo ∧ ssrc r = ssrc rinfo
        ∧ rtp_profile_idx r = rtp_profile_idx rinfo).
Proof.
  destruct (parse_total buf rinfo Hok Hmax) as (e & r & He & Hne & Hr).
  exists e, r. split; [done|]. split; [destruct e; first [done|by eexists]|].
  split; intros H; [rewrite decide_True in Hr by done|by rewrite decide_False in Hr].
  destruct Hr as (H1 & H2 & H3 & i & Hi & Hi'). split_and!; try done.
  exists i. split; [done|]. apply lookup_lt_is_Some_2.
  change (length rtp_profiles) with 128%nat. lia.
Qed.

(** A packet cut off anywhere inside its header is rejected, and the
    error tells where: inside the fixed header, between it and the end of the
    extension's own header, or inside the CSRC list or the extension data. *)
Theorem parse_truncated (p : packet) (rinfo : rtp_info) (n : nat)
    (Hwf : packet_wf p) (Hmax : zlen (serialize p) ≤ MAX_PACKET)
    (Hn : Z.of_nat n < packet_offset p) :
  ∃ r, rtp_packet_parse_raw (take n (serialize p)) (Z.of_nat n) rinfo
    = Done (truncation_error p (Z.of_nat n), r).
Proof.
  pose proof (parse_truncated_lem p rinfo n Hwf Hmax Hn) as H.
  destruct (rtp_packet_parse_raw _ _ _) as [[e r]| | |]; try done.
  injection H as ->. by exists r.
Qed.

(** The sample count of a G.723 payload is 240 per frame, where the frames
    are cut by the size code in each frame's first byte, and unknown if one
    of the frames has the reserved size code; the loop terminates on every
    payload. *)
Theorem g723_samples_spec (payload : list Z) (Hmax : zlen payload ≤ MAX_PACKET) :
  ∃ o, g723_scan payload o ∧
    rtp_calc_samples (rtp_type_value RTP_G723) (zlen payload) payload 0 =
      Done (match o with Some n => 240 * n | None => RTP_NSAMPLES_UNKNOWN end).
Proof.
  destruct (g723_samples_scan payload Hmax) as (o & Ho & Heq). exists o.
  split; [done|]. rewrite <- Heq. unfold rtp_calc_samples. cbn [rtp_type_value].
  cbn [Z.eqb Pos.eqb orb]. pose proof (zlen_nonneg payload).
  by rewrite s32_small by (unfold INT_MIN, INT_MAX, MAX_PACKET in *; lia).
Qed.

(** ** Witnesses *)

(** A PCMU packet with two CSRC entries, an extension of one word, a payload of
    three bytes and two bytes of padding. *)
Definition sample_packet : packet :=
  {| pk_marker := true; pk_pt := 0; pk_seq := 65535; pk_ts := 4000000000;
     pk_ssrc := 305419896; pk_csrc := [1;2;3;4;5;6;7;8];
     pk_ext := Some ([190; 222], [9; 9; 9; 9]); pk_payload := [17; 34; 51];
     pk_pad := Some [0] |}.

Lemma sample_packet_wf : packet_wf sample_packet.
Proof. split; cbn; repeat split; try done; bytes_tac. Qed.

Lemma parse_ok_iff_witness :
  rtp_packet_parse_raw (serialize sample_packet) (zlen (serialize sample_packet))
    rtp_info_zero = Done (RTP_PARSER_OK, packet_info sample_packet).
Proof.
  apply (parse_ok_iff (serialize sample_packet) rtp_info_zero
    (packet_info sample_packet)).
  - bytes_tac.
  - done.
  - exists sample_packet. split_and!; [apply sample_packet_wf|done|done].
Defined.

Lemma parse_safe_witness :
  ∃ e r, rtp_packet_parse_raw [128; 0; 0] 3 rtp_info_zero = Done (e, r)
    ∧ ∃ msg, rtp_packet_parse_errstr e = Done msg.
Proof.
  destruct (parse_safe [128; 0; 0] rtp_info_zero) as (e & r & H & Hmsg & _);
    [bytes_tac|done|].
  exists e, r. exact (conj H Hmsg).
Defined.

Lemma parse_truncated_witness :
  ∃ r, rtp_packet_parse_raw (take 22 (serialize sample_packet)) 22 rtp_info_zero
    = Done (RTP_PARSER_PTOOSHRTXS, r).
Proof.
  apply (parse_truncated sample_packet rtp_info_zero 22 sample_packet_wf);
    [done|reflexivity].
Defined.

Lemma g723_samples_spec_witness :
  ∃ o, g723_scan (2 :: replicate 3 0 ++ 1 :: replicate 19 0) o ∧
    rtp_calc_samples (rtp_type_value RTP_G723) 24
      (2 :: replicate 3 0 ++ 1 :: replicate 19 0) 0 =
      Done (match o with Some n => 240 * n | None => RTP_NSAMPLES_UNKNOWN end).
Proof.
  apply (g723_samples_spec (2 :: replicate 3 0 ++ 1 :: replicate 19 0)). done.
Defined.
