(* ===== verification/Synth.v ===== *)
(** The RTP packet generator: src/src/rtpsynth.c, src/src/rtpsynth.h and
    src/src/rsth_timeops.h. The random source and the readings of the monotonic
    clock are arguments; the header template is the byte array the C code keeps,
    on a little-endian host. *)
From stdpp Require Import prelude list.
From Stdlib Require Import ZArith Lia.
From S2P Require Import Prelude Rtp.
Local Open Scope Z_scope.

(** * Time *)

Record timespec : Set := { tv_sec : Z; tv_nsec : Z }.

Definition NSEC_IN_SEC : Z := 1000000000.

Definition timespecsub (vvp uvp : timespec) : timespec :=
  let sec := tv_sec vvp - tv_sec uvp in
  let nsec := tv_nsec vvp - tv_nsec uvp in
  if nsec <? 0 then {| tv_sec := sec - 1; tv_nsec := nsec + NSEC_IN_SEC |}
  else {| tv_sec := sec; tv_nsec := nsec |}.

Definition timespec2un64time (s : timespec) : Z :=
  u64 (u64 (tv_sec s) * NSEC_IN_SEC + u64 (tv_nsec s)).

(** [clock_gettime]: on failure the destination is left alone. *)
Definition clock_gettime (reading : option timespec) (dst : timespec) : timespec :=
  default dst reading.

(** * The generator's state *)

Record rsynth_seq : Set := { sq_ts : Z; sq_seq : Z }.

Record rsynth_inst : Set := {
  srate : Z;
  ptime : Z;
  l : rsynth_seq;
  ts_inc : Z;
  last_ts : timespec;
  model : list Z;
}.

(** Bit-field stores into the header template. *)
Definition set_version (b v : Z) : Z := Z.lor (Z.land b 63) (Z.shiftl (Z.land v 3) 6).
Definition set_mbt (b v : Z) : Z := Z.lor (Z.land b 127) (Z.shiftl (Z.land v 1) 7).
Definition set_pt (b v : Z) : Z := Z.lor (Z.land b 128) (Z.land v 127).

Definition byte_at (m : list Z) (i : nat) : Z := nth i m 0.
Definition le32 (z : Z) : list Z := rev (be32 z).

Definition with_model (m : list Z) (r : rsynth_inst) : rsynth_inst :=
  {| srate := srate r; ptime := ptime r; l := l r; ts_inc := ts_inc r;
     last_ts := last_ts r; model := m |}.
Definition with_l (q : rsynth_seq) (r : rsynth_inst) : rsynth_inst :=
  {| srate := srate r; ptime := ptime r; l := q; ts_inc := ts_inc r;
     last_ts := last_ts r; model := model r |}.
Definition with_last_ts (t : timespec) (r : rsynth_inst) : rsynth_inst :=
  {| srate := srate r; ptime := ptime r; l := l r; ts_inc := ts_inc r;
     last_ts := t; model := model r |}.

(** * The random source

    [random] stands for the C library's generator, acting on some state; the
    global hook is either the default or a function with its argument. *)
Section Random.
Context {world : Type} (random : world → Z * world).

Definition rsynth_randfunc_t : Type := Z → world → Z * world.

Definition rsynth_default_randfunc : rsynth_randfunc_t := λ _ w,
  let (r, w) := random w in (u32 r, w).

Record rand_hook : Type := {
  rsynth_randfunc : rsynth_randfunc_t;
  rsynth_randfunc_arg : Z;
}.

Definition rsynth_set_randfunc (func : option rsynth_randfunc_t) (arg : Z) : rand_hook :=
  match func with
  | None => {| rsynth_randfunc := rsynth_default_randfunc; rsynth_randfunc_arg := 0 |}
  | Some f => {| rsynth_randfunc := f; rsynth_randfunc_arg := arg |}
  end.

Definition rand_val (h : rand_hook) (w : world) : Z * world :=
  let (r, w) := rsynth_randfunc h (rsynth_randfunc_arg h) w in (u32 r, w).

(** [rsynth_ctor]: [None] when [malloc] fails; [80 * ptime] is [int]
    arithmetic. *)
Definition rsynth_ctor (h : rand_hook) (alloc : bool) (srate ptime : Z)
    (clock : option timespec) (w : world) : outcome (option rsynth_inst * world) :=
  if negb alloc then Done (None, w)
  else
    prod ← int_chk (80 * ptime);
    let ts_inc := Z.quot prod 10 in
    let (ssrc, w) := rand_val h w in
    let (rts, w) := rand_val h w in
    let (rseq, w) := rand_val h w in
    let m := [set_version 0 2; set_mbt 0 1; 0; 0; 0; 0; 0; 0] ++ le32 ssrc in
    Done (Some {| srate := srate; ptime := ptime;
      l := {| sq_ts := Z.land rts 4294967294; sq_seq := Z.land rseq 65535 |};
      ts_inc := ts_inc;
      last_ts := clock_gettime clock {| tv_sec := 0; tv_nsec := 0 |};
      model := m |}, w).
End Random.

(** * Generating packets *)

(** Making room for the header: zero the payload area, or move the payload the
    caller put at the start of the buffer behind the header. *)
Definition place_payload (buf : list Z) (hl plen blen filled : Z) : outcome (list Z) :=
  if filled =? 0 then memset buf SIZEOF_RTP_HDR 0 (u64 (blen - SIZEOF_RTP_HDR))
  else
    buf ← memmove buf hl 0 (u64 plen);
    memset buf (hl + plen) 0 (u32 (blen - hl - plen)).

(** The header: the template, then payload type, sequence number, timestamp. *)
Definition write_header (buf m : list Z) (pt : Z) (q : rsynth_seq) : outcome (list Z) :=
  buf ← mem_write buf 0 m;
  b1 ← rd8 buf 1;
  buf ← mem_write buf 1 [set_pt b1 pt];
  buf ← mem_write buf 2 (be16 (u16 (sq_seq q)));
  mem_write buf 4 (be32 (u32 (sq_ts q))).

Definition rsynth_next_pkt_pa (rip : rsynth_inst) (plen pt : Z) (buf : list Z)
    (blen filled : Z) (clock : option timespec)
    : outcome (Z * rsynth_inst * list Z) :=
  let hl := RTP_HDR_LEN (byte_at (model rip) 0) in
  let rs := u32 (hl + plen) in
  if blen <? rs then Done (-1, rip, buf)
  else
    buf ← place_payload buf hl plen blen filled;
    buf ← write_header buf (model rip) pt (l rip);
    let rip := with_model (<[1%nat := set_mbt (byte_at (model rip) 1) 0]> (model rip)) rip in
    let rip := with_l {| sq_ts := u64 (sq_ts (l rip) + ts_inc rip);
                         sq_seq := u64 (sq_seq (l rip) + 1) |} rip in
    Done (s32 rs, with_last_ts (clock_gettime clock (last_ts rip)) rip, buf).

(** [rsynth_next_pkt]: [mem] is the block [malloc] returned, of the size asked
    for and with arbitrary contents, or [None]. *)
Definition next_pkt_size (rip : rsynth_inst) (plen : Z) : Z :=
  u64 (RTP_HDR_LEN (byte_at (model rip) 0) + plen).

Definition rsynth_next_pkt (rip : rsynth_inst) (plen pt : Z) (mem : option (list Z))
    (clock : option timespec) : outcome (rsynth_inst * option (list Z)) :=
  match mem with
  | None => Done (rip, None)
  | Some block =>
      r ← rsynth_next_pkt_pa rip plen pt block (u32 (next_pkt_size rip plen)) 0 clock;
      let '(_, rip, block) := r in Done (rip, Some block)
  end.

Definition rsynth_skip (rip : rsynth_inst) (npkts : Z) : outcome rsynth_inst :=
  d ← int_chk (ts_inc rip * npkts);
  Done (with_l {| sq_ts := u64 (sq_ts (l rip) + d); sq_seq := sq_seq (l rip) |} rip).

(** Returns the old state of the marker bit, which is one bit wide. *)
Definition rsynth_set_mbt (rip : rsynth_inst) (new_st : Z) : Z * rsynth_inst :=
  let b1 := byte_at (model rip) 1 in
  (hdr_mbt b1, with_model (<[1%nat := set_mbt b1 new_st]> (model rip)) rip).

(** [rsp] is only written: the result's first component. *)
Definition rsynth_resync (rip : rsynth_inst) (clock : option timespec)
    (uninit : timespec) : rsynth_seq * rsynth_inst :=
  let curr_ts := timespecsub (clock_gettime clock uninit) (last_ts rip) in
  let adv := u64 (timespec2un64time curr_ts * srate rip) / NSEC_IN_SEC in
  (l rip,
   with_l {| sq_ts := u64 (sq_ts (l rip) + adv); sq_seq := sq_seq (l rip) |} rip).

(** * The generator's invariant *)

Record synth_wf (r : rsynth_inst) : Prop := {
  swf_byte0 : byte_at (model r) 0 = 128;          (* version 2, nothing else *)
  swf_len : zlen (model r) = 12;
  swf_bytes : bytes_ok (model r);
  swf_ts : 0 ≤ sq_ts (l r) < 18446744073709551616;
  swf_seq : 0 ≤ sq_seq (l r) < 18446744073709551616;
}.

(** The SSRC a receiver reads from the template. *)
Definition synth_ssrc (r : rsynth_inst) : Z :=
  match rd32 (model r) 8 with Done z => z | _ => 0 end.

(** The packet the next call emits, in the vocabulary of the parser. *)
Definition synth_packet (r : rsynth_inst) (pt : Z) (payload : list Z) : packet :=
  {| pk_marker := hdr_mbt (byte_at (model r) 1) =? 1; pk_pt := pt;
     pk_seq := sq_seq (l r) mod 65536; pk_ts := sq_ts (l r) mod 4294967296;
     pk_ssrc := synth_ssrc r; pk_csrc := []; pk_ext := None;
     pk_payload := payload; pk_pad := None |}.

(** The state after one packet. *)
Definition synth_advance (r : rsynth_inst) (clock : option timespec) : rsynth_inst :=
  {| srate := srate r; ptime := ptime r;
     l := {| sq_ts := u64 (sq_ts (l r) + ts_inc r); sq_seq := u64 (sq_seq (l r) + 1) |};
     ts_inc := ts_inc r; last_ts := clock_gettime clock (last_ts r);
     model := <[1%nat := set_mbt (byte_at (model r) 1) 0]> (model r) |}.

(** * Bit fields of the template *)

Lemma set_pt_spec b pt :
  byte_ok b → 0 ≤ pt < 128 →
  set_pt b pt = (if hdr_mbt b =? 1 then 128 else 0) + pt.
Proof.
  intros Hb Hpt. unfold set_pt.
  assert (all_below 256 (λ b, Z.land b 128 =? (if hdr_mbt b =? 1 then 128 else 0))
    = true) as H1 by reflexivity.
  apply (all_below_spec _ _ b) in H1; [|done]. cbv beta in H1. zbool. rewrite H1.
  assert (all_below 128 (λ p, (Z.lor 128 (Z.land p 127) =? 128 + p)
    && (Z.lor 0 (Z.land p 127) =? p)) = true) as H2 by reflexivity.
  apply (all_below_spec _ _ pt) in H2; [|done]. cbv beta in H2. zbool.
  destruct (hdr_mbt b =? 1); lia.
Qed.

(** Storing the marker bit keeps the payload type and the range of a byte. *)
Lemma set_mbt_spec b v :
  byte_ok b → hdr_mbt (set_mbt b v) = v mod 2 ∧ byte_ok (set_mbt b v).
Proof.
  intros Hb. unfold set_mbt.
  assert (Z.land v 1 = v mod 2) as -> by (by apply (Z.land_ones v 1)).
  assert (all_below 256 (λ b, (hdr_mbt (Z.lor (Z.land b 127) (Z.shiftl 0 7)) =? 0)
    && (hdr_mbt (Z.lor (Z.land b 127) (Z.shiftl 1 7)) =? 1)
    && (0 <=? Z.lor (Z.land b 127) (Z.shiftl 0 7))
    && (Z.lor (Z.land b 127) (Z.shiftl 0 7) <? 256)
    && (0 <=? Z.lor (Z.land b 127) (Z.shiftl 1 7))
    && (Z.lor (Z.land b 127) (Z.shiftl 1 7) <? 256)) = true) as H by reflexivity.
  apply (all_below_spec _ _ b) in H; [|done]. cbv beta in H. zbool.
  assert (v mod 2 = 0 ∨ v mod 2 = 1) as [->| ->] by zlia;
    unfold byte_ok; split; lia.
Qed.

Lemma model_shape r :
  synth_wf r →
  ∃ b1 s0 s1 t0 t1 t2 t3 c0 c1 c2 c3,
    model r = [128; b1; s0; s1; t0; t1; t2; t3; c0; c1; c2; c3]
    ∧ byte_ok b1 ∧ be32 (synth_ssrc r) = [c0; c1; c2; c3]
    ∧ 0 ≤ synth_ssrc r < 4294967296.
Proof.
  intros [H0 Hl Hb _ _]. assert (length (model r) = 12%nat) as Hl'
    by (unfold zlen in Hl; lia).
  unfold synth_ssrc. destruct (model r) as [|a0 [|a1 [|a2 [|a3 [|a4 [|a5 [|a6 [|a7
    [|a8 [|a9 [|a10 [|a11 [|? ?]]]]]]]]]]]]]; try done.
  cbn in H0. subst a0. unfold bytes_ok in Hb. rewrite !Forall_cons in Hb.
  destruct_and! Hb.
  change (rd32 _ 8) with (Done ((a8 * 256 + a9) * 65536 + (a10 * 256 + a11))).
  eexists _, _, _, _, _, _, _, _, _, _, _. split; [done|]. split; [done|].
  split; [by apply be32_of_bytes|]. unfold byte_ok in *. lia.
Qed.

(** * One packet *)

Lemma place_payload_ok buf plen blen filled :
  0 ≤ plen → SIZEOF_RTP_HDR + plen ≤ blen → blen = zlen buf → blen ≤ MAX_PACKET →
  place_payload buf SIZEOF_RTP_HDR plen blen filled =
    Done (take 12 buf
      ++ (if filled =? 0 then replicate (Z.to_nat plen) 0
          else take (Z.to_nat plen) buf)
      ++ replicate (Z.to_nat (blen - SIZEOF_RTP_HDR - plen)) 0).
Proof.
  unfold SIZEOF_RTP_HDR, MAX_PACKET. intros H1 H2 -> H3. unfold place_payload.
  assert (Z.to_nat 12 = 12%nat) as E12 by done.
  destruct (filled =? 0).
  - unfold SIZEOF_RTP_HDR. rewrite u64_small by lia. unfold memset. zdec.
    rewrite mem_write_ok by (autorewrite with zlen; lia). rewrite E12.
    autorewrite with zlen. rewrite drop_ge, app_nil_r by (unfold zlen; lia).
    rewrite <- replicate_add. do 3 f_equal. lia.
  - rewrite u64_small, u32_small by lia. unfold memmove, mem_read. zdec.
    cbn [andb mbind outcome_bind]. rewrite drop_0.
    assert (zlen (take (Z.to_nat plen) buf) = plen) as Hp.
    { unfold zlen in *. rewrite length_take. lia. }
    rewrite mem_write_ok by lia. cbn [mbind outcome_bind].
    rewrite E12, Hp.
    set (buf' := take 12 buf ++ take (Z.to_nat plen) buf
      ++ drop (Z.to_nat (12 + plen)) buf).
    assert (zlen buf' = zlen buf) as Hlen.
    { unfold buf', zlen in *. rewrite !length_app, !length_take, length_drop. lia. }
    unfold memset. rewrite Hlen. zdec.
    rewrite mem_write_ok by (autorewrite with zlen; lia). autorewrite with zlen.
    rewrite drop_ge, app_nil_r by (unfold zlen in *; lia).
    unfold buf'. rewrite (assoc_L (++)).
    rewrite take_app_length'; [by rewrite <- (assoc_L (++))|].
    unfold zlen in *. rewrite length_app, !length_take. lia.
Qed.

(** Rewrite a store of [bs] over [old] behind the prefix [pre]. *)
Ltac write_at pre old bs rest :=
  let H := fresh in
  pose proof (mem_write_prefix pre old bs rest eq_refl) as H;
  cbn [app] in H; cbn [app];
  match type of H with ?a = _ =>
    match a with mem_write ?b ?i ?c =>
      let n := eval vm_compute in i in change i with n in H
    end end;
  rewrite H; clear H; cbn [app mbind outcome_bind].

Lemma write_header_ok r pt hd12 rest :
  synth_wf r → 0 ≤ pt < 128 → zlen hd12 = 12 →
  write_header (hd12 ++ rest) (model r) pt (l r) =
    Done (fixed_header (synth_packet r pt []) ++ rest).
Proof.
  intros Hwf Hpt Hhd.
  destruct (model_shape r Hwf) as
    (b1&s0&s1&t0&t1&t2&t3&c0&c1&c2&c3&Hm&Hb1&Hc&_).
  unfold write_header. rewrite Hm.
  rewrite (mem_write_prefix [] hd12 _ rest) by done. cbn [app mbind outcome_bind].
  change (rd8 _ 1) with (Done b1). cbn [mbind outcome_bind].
  write_at [128] [b1] [set_pt b1 pt]
    (s0 :: s1 :: t0 :: t1 :: t2 :: t3 :: c0 :: c1 :: c2 :: c3 :: rest).
  write_at [128; set_pt b1 pt] [s0; s1] (be16 (u16 (sq_seq (l r))))
    (t0 :: t1 :: t2 :: t3 :: c0 :: c1 :: c2 :: c3 :: rest).
  write_at (128 :: set_pt b1 pt :: be16 (u16 (sq_seq (l r)))) [t0; t1; t2; t3]
    (be32 (u32 (sq_ts (l r)))) (c0 :: c1 :: c2 :: c3 :: rest).
  unfold fixed_header, pk_byte0, pk_byte1, synth_packet. cbn [pk_pad pk_ext pk_csrc
    pk_pt pk_marker pk_seq pk_ts pk_ssrc has].
  rewrite Hc, Hm. cbn [byte_at nth]. rewrite set_pt_spec by done.
  unfold u16, u32. done.
Qed.

(** A successful call: the packet in its wire form at the start of the buffer,
    zeros behind it, and the state advanced. *)
Lemma next_pkt_pa_ok r plen pt buf blen filled clock :
  synth_wf r → 0 ≤ pt < 128 → 0 ≤ plen → SIZEOF_RTP_HDR + plen ≤ blen →
  blen = zlen buf → blen ≤ MAX_PACKET →
  rsynth_next_pkt_pa r plen pt buf blen filled clock =
    Done (SIZEOF_RTP_HDR + plen, synth_advance r clock,
      serialize (synth_packet r pt
        (if filled =? 0 then replicate (Z.to_nat plen) 0
         else take (Z.to_nat plen) buf))
      ++ replicate (Z.to_nat (blen - SIZEOF_RTP_HDR - plen)) 0).
Proof.
  intros Hwf Hpt H1 H2 H3 H4. unfold rsynth_next_pkt_pa.
  rewrite (swf_byte0 r Hwf). change (RTP_HDR_LEN 128) with SIZEOF_RTP_HDR.
  assert (SIZEOF_RTP_HDR = 12) as E by done. unfold MAX_PACKET in H4.
  rewrite u32_small by lia. zdec. rewrite place_payload_ok by done.
  cbn [mbind outcome_bind].
  rewrite write_header_ok; [|done|done|unfold zlen in *; rewrite length_take; lia].
  cbn [mbind outcome_bind]. rewrite s32_small by (unfold INT_MIN, INT_MAX; lia).
  unfold serialize. cbn [synth_packet pk_csrc pk_ext pk_payload pk_pad ext_bytes
    pad_bytes app]. rewrite app_nil_r. by rewrite <- (assoc_L (++)).
Qed.

Lemma synth_packet_wf r pt payload :
  synth_wf r → 0 ≤ pt < 128 → bytes_ok payload →
  packet_wf (synth_packet r pt payload).
Proof.
  intros Hwf Hpt Hb. destruct (model_shape r Hwf) as
    (?&?&?&?&?&?&?&?&?&?&?&_&_&_&Hs).
  split; cbn; try done; try (apply Z.mod_pos_bound; lia).
  split_and!; try done. constructor.
Qed.

Lemma synth_advance_wf r clock : synth_wf r → synth_wf (synth_advance r clock).
Proof.
  intros Hwf. destruct (model_shape r Hwf) as
    (b1&s0&s1&t0&t1&t2&t3&c0&c1&c2&c3&Hm&Hb1&Hc&_).
  pose proof (swf_bytes r Hwf) as Hb.
  split; cbn [synth_advance model l sq_ts sq_seq]; try apply u64_range;
    rewrite Hm in *; cbn [byte_at nth insert list_insert alter list_alter]; try done.
  unfold bytes_ok in *. rewrite !Forall_cons in *. destruct_and! Hb.
  split_and!; try done. by apply set_mbt_spec.
Qed.

(** * The constructor *)

Lemma land_low_mask z : 0 ≤ Z.land z 65535 < 65536.
Proof.
  change 65535 with (Z.ones 16). rewrite Z.land_ones by lia.
  by apply Z.mod_pos_bound.
Qed.

Lemma land_even_mask z :
  0 ≤ z < 4294967296 →
  0 ≤ Z.land z 4294967294 < 4294967296 ∧ Z.even (Z.land z 4294967294) = true.
Proof.
  intros H. split.
  - assert (0 ≤ Z.land z 4294967294 ≤ z); [|lia].
    apply Z.ldiff_le; [lia|]. apply Z.bits_inj'. intros i Hi.
    rewrite Z.ldiff_spec, Z.land_spec, Z.bits_0.
    destruct (Z.testbit z i), (Z.testbit 4294967294 i); done.
  - rewrite <- Z.negb_odd, <- Z.bit0_odd, Z.land_spec. by rewrite andb_false_r.
Qed.

Section Ctor.
Context {world : Type} (random : world → Z * world).

Lemma rand_val_range (h : rand_hook (world:=world)) w : 0 ≤ fst (rand_val h w) < 4294967296.
Proof. unfold rand_val. destruct (rsynth_randfunc _ _ _). apply u32_range. Qed.

Lemma ctor_ok (h : rand_hook (world:=world)) srate ptime clock w :
  INT_MIN ≤ 80 * ptime ≤ INT_MAX →
  ∃ r w', rsynth_ctor h true srate ptime clock w = Done (Some r, w')
    ∧ synth_wf r ∧ ts_inc r = Z.quot (80 * ptime) 10 ∧ model r !! 1%nat = Some 128
    ∧ 0 ≤ sq_seq (l r) < 65536 ∧ 0 ≤ sq_ts (l r) < 4294967296
    ∧ Z.even (sq_ts (l r)) = true.
Proof.
  intros Hp. unfold rsynth_ctor. cbn [negb]. rewrite int_chk_ok by done.
  cbn [mbind outcome_bind].
  pose proof (rand_val_range h w) as H1. destruct (rand_val h w) as [ssrc w1].
  pose proof (rand_val_range h w1) as H2. destruct (rand_val h w1) as [rts w2].
  destruct (rand_val h w2) as [rseq w3]. cbn [fst] in *.
  destruct (land_even_mask rts H2) as [H3 H4]. pose proof (land_low_mask rseq).
  eexists _, _. split; [done|]. cbn [l sq_seq sq_ts ts_inc model].
  split_and!; try done; try lia. split; cbn [model l sq_ts sq_seq]; try done; try lia.
  apply bytes_ok_app; split; [bytes_tac|].
  unfold le32, bytes_ok. apply Forall_rev, be32_bytes.
Qed.
End Ctor.

(** * Elapsed time *)

Definition ns_of (t : timespec) : Z := tv_sec t * NSEC_IN_SEC + tv_nsec t.
Definition normal_ts (t : timespec) : Prop :=
  0 ≤ tv_sec t ∧ 0 ≤ tv_nsec t < NSEC_IN_SEC.

Lemma timespecsub_elapsed a b :
  normal_ts a → normal_ts b → ns_of b ≤ ns_of a →
  ns_of a - ns_of b < 18446744073709551616 →
  timespec2un64time (timespecsub a b) = ns_of a - ns_of b.
Proof.
  unfold normal_ts, ns_of, timespec2un64time, timespecsub, NSEC_IN_SEC.
  intros Ha Hb Hle Hlt.
  case_match; zbool; cbn [tv_sec tv_nsec];
    rewrite (u64_small (_ - _)) by lia;
    rewrite (u64_small (tv_nsec a - tv_nsec b)) ||
      rewrite (u64_small (tv_nsec a - tv_nsec b + 1000000000)); try lia;
    rewrite u64_small; lia.
Qed.

(** Asked for less than no payload, a call that has to move the payload passes
    a length near 2^64 to [memmove]. *)
Lemma negative_payload_undefined r plen pt buf blen filled clock :
  synth_wf r → - SIZEOF_RTP_HDR ≤ plen < 0 → SIZEOF_RTP_HDR + plen ≤ blen →
  blen = zlen buf → blen ≤ MAX_PACKET → filled ≠ 0 →
  rsynth_next_pkt_pa r plen pt buf blen filled clock = Undefined.
Proof.
  intros Hwf Hp Hb -> Hm Hf. unfold rsynth_next_pkt_pa.
  rewrite (swf_byte0 r Hwf). change (RTP_HDR_LEN 128) with SIZEOF_RTP_HDR.
  unfold SIZEOF_RTP_HDR, MAX_PACKET in *. rewrite u32_small by lia. zdec.
  unfold place_payload. rewrite (proj2 (Z.eqb_neq _ _) Hf).
  unfold memmove, mem_read.
  assert (u64 plen = plen + 18446744073709551616) as ->.
  { unfold u64. symmetry. apply (Z.mod_unique _ _ (-1)); lia. }
  zdec. by rewrite andb_false_r.
Qed.

(** * Properties *)

(** C5: a generated packet is the packet the generator's state describes. Given
    room for the 12-byte header and [plen] bytes, [rsynth_next_pkt_pa] returns
    12 + [plen] and leaves in the buffer a datagram that the library's own parser
    accepts, with the state's sequence number modulo 2^16, its timestamp modulo
    2^32, the template's SSRC, the requested payload type, and as payload the
    bytes the caller had put at the start of the buffer (zeros when [filled] is
    0); the state then moves on by one packet. *)
Theorem next_pkt_parsed (r : rsynth_inst) (plen pt : Z) (buf : list Z)
    (filled : Z) (clock : option timespec) (rinfo : rtp_info)
    (Hwf : synth_wf r) (Hpt : 0 ≤ pt < 128) (Hplen : 0 ≤ plen)
    (Hroom : SIZEOF_RTP_HDR + plen ≤ zlen buf) (Hmax : zlen buf ≤ MAX_PACKET)
    (Hbuf : bytes_ok buf) :
  let payload := if filled =? 0 then replicate (Z.to_nat plen) 0
                 else take (Z.to_nat plen) buf in
  ∃ buf', rsynth_next_pkt_pa r plen pt buf (zlen buf) filled clock
      = Done (SIZEOF_RTP_HDR + plen, synth_advance r clock, buf')
    ∧ zlen buf' = zlen buf
    ∧ rtp_packet_parse_raw (take (Z.to_nat (SIZEOF_RTP_HDR + plen)) buf')
        (SIZEOF_RTP_HDR + plen) rinfo
      = Done (RTP_PARSER_OK, packet_info (synth_packet r pt payload))
    ∧ synth_wf (synth_advance r clock).
Proof.
  intros payload. eexists. split; [by apply next_pkt_pa_ok|].
  fold payload.
  assert (bytes_ok payload ∧ zlen payload = plen) as [Hpb Hpl].
  { unfold payload, bytes_ok. case_match; split.
    - apply Forall_replicate. done.
    - autorewrite with zlen. lia.
    - by apply Forall_take.
    - unfold zlen, SIZEOF_RTP_HDR in *. rewrite length_take. lia. }
  pose proof (synth_packet_wf r pt payload Hwf Hpt Hpb) as Hp.
  assert (zlen (serialize (synth_packet r pt payload)) = SIZEOF_RTP_HDR + plen) as Hs.
  { rewrite zlen_serialize by done. unfold packet_offset. cbn [synth_packet pk_csrc
      pk_ext pk_payload pk_pad ext_bytes pad_bytes]. rewrite Hpl.
    autorewrite with zlen. lia. }
  split; [|split; [|by apply synth_advance_wf]].
  - rewrite zlen_app, Hs, zlen_replicate. lia.
  - rewrite take_app_length' by (unfold zlen in Hs; lia). rewrite <- Hs.
    apply parse_serialize; [done|lia].
Qed.

(** A buffer too small for header and payload is refused with -1 and
    nothing changes; but a negative payload length is not refused when the
    payload is in the buffer: the call then makes [memmove] run far outside
    it. *)
Theorem next_pkt_bounds (r : rsynth_inst) (plen pt : Z) (buf : list Z)
    (filled : Z) (clock : option timespec)
    (Hwf : synth_wf r) (Hmax : zlen buf ≤ MAX_PACKET) :
  (0 ≤ plen → SIZEOF_RTP_HDR + plen ≤ INT_MAX → zlen buf < SIZEOF_RTP_HDR + plen →
    rsynth_next_pkt_pa r plen pt buf (zlen buf) filled clock = Done (-1, r, buf))
  ∧ (filled ≠ 0 → - SIZEOF_RTP_HDR ≤ plen < 0 → SIZEOF_RTP_HDR + plen ≤ zlen buf →
    rsynth_next_pkt_pa r plen pt buf (zlen buf) filled clock = Undefined).
Proof.
  split.
  - intros H1 H2 H3. unfold rsynth_next_pkt_pa. rewrite (swf_byte0 r Hwf).
    change (RTP_HDR_LEN 128) with SIZEOF_RTP_HDR.
    unfold SIZEOF_RTP_HDR, INT_MAX in *. rewrite u32_small by lia. by zdec.
  - intros. by apply negative_payload_undefined.
Qed.

(** A new generator is well formed for every random source: version 2, the
    marker bit set for the first packet, a 16-bit initial sequence number and an
    even 32-bit initial timestamp. The timestamp increment is 8 units per
    millisecond of [ptime] whatever the sample rate is. *)
Theorem ctor_initial {world : Type} (h : rand_hook (world:=world))
    (srate ptime : Z) (clock : option timespec) (w : world)
    (Hp : INT_MIN ≤ 80 * ptime ≤ INT_MAX) :
  ∃ r w', rsynth_ctor h true srate ptime clock w = Done (Some r, w')
    ∧ synth_wf r
    ∧ fst (rsynth_set_mbt r 1) = 1
    ∧ 0 ≤ sq_seq (l r) < 65536
    ∧ 0 ≤ sq_ts (l r) < 4294967296 ∧ Z.even (sq_ts (l r)) = true
    ∧ ts_inc r = 8 * ptime.
Proof.
  destruct (ctor_ok h srate ptime clock w Hp)
    as (r & w' & Hr & Hwf & Hi & Hm & Hseq & Hts & Hev).
  exists r, w'. split_and!; try done; try lia.
  - unfold rsynth_set_mbt, byte_at. cbn [fst].
    by rewrite (nth_lookup_Some _ _ _ _ Hm).
  - rewrite Hi. replace (80 * ptime) with (8 * ptime * 10) by lia.
    by apply Z.quot_mul.
Qed.

(** Resynchronising moves the timestamp by the wall-clock time since the
    last packet, in units of the sample rate (rounded down), hands out the old
    counters and touches nothing else. The reference point is not moved, so a
    second call at the same instant advances the timestamp by as much again. *)
Theorem resync_elapsed (r : rsynth_inst) (now uninit : timespec)
    (Hwf : synth_wf r) (Hnow : normal_ts now) (Hlast : normal_ts (last_ts r))
    (Hord : ns_of (last_ts r) ≤ ns_of now) (Hrate : 0 ≤ srate r)
    (Hlt : ns_of now - ns_of (last_ts r) < 18446744073709551616)
    (Hprod : (ns_of now - ns_of (last_ts r)) * srate r < 18446744073709551616) :
  let adv := (ns_of now - ns_of (last_ts r)) * srate r / NSEC_IN_SEC in
  let '(old, r1) := rsynth_resync r (Some now) uninit in
  let '(_, r2) := rsynth_resync r1 (Some now) uninit in
  old = l r
  ∧ r1 = with_l {| sq_ts := u64 (sq_ts (l r) + adv); sq_seq := sq_seq (l r) |} r
  ∧ r2 = with_l {| sq_ts := u64 (sq_ts (l r) + 2 * adv); sq_seq := sq_seq (l r) |} r.
Proof.
  intros adv. unfold rsynth_resync. cbn [clock_gettime default from_option id].
  cbn [with_l last_ts srate l sq_ts sq_seq].
  rewrite timespecsub_elapsed by done.
  rewrite (u64_small ((ns_of now - ns_of (last_ts r)) * srate r))
    by (split; [apply Z.mul_nonneg_nonneg|]; lia).
  fold adv. split_and!; try done.
  assert (u64 (u64 (sq_ts (l r) + adv) + adv) = u64 (sq_ts (l r) + 2 * adv)) as ->;
    [|done].
  unfold u64. rewrite Zplus_mod_idemp_l. f_equal. lia.
Qed.

(** ** Witnesses *)

Definition sample_synth : rsynth_inst :=
  {| srate := 8000; ptime := 20; l := {| sq_ts := 4294967280; sq_seq := 65535 |};
     ts_inc := 160; last_ts := {| tv_sec := 10; tv_nsec := 500000000 |};
     model := [128; 128; 0; 0; 0; 0; 0; 0; 1; 2; 3; 4] |}.

Lemma sample_synth_wf : synth_wf sample_synth.
Proof. split; try done. bytes_tac. Qed.

Lemma next_pkt_parsed_witness :
  ∃ buf', rsynth_next_pkt_pa sample_synth 3 0 (7 :: 8 :: 9 :: replicate 17 0) 20 1 None
      = Done (15, synth_advance sample_synth None, buf')
    ∧ rtp_packet_parse_raw (take 15 buf') 15 rtp_info_zero
      = Done (RTP_PARSER_OK, packet_info (synth_packet sample_synth 0 [7; 8; 9])).
Proof.
  destruct (next_pkt_parsed sample_synth 3 0 (7 :: 8 :: 9 :: replicate 17 0) 1 None
    rtp_info_zero sample_synth_wf) as (buf' & H1 & _ & H2 & _);
    [done|done|done|done|bytes_tac|].
  exists buf'. exact (conj H1 H2).
Defined.

Lemma next_pkt_bounds_witness :
  rsynth_next_pkt_pa sample_synth (-1) 0 (replicate 31 0) 31 1 None = Undefined.
Proof.
  refine (proj2 (next_pkt_bounds sample_synth (-1) 0 (replicate 31 0) 1 None
    sample_synth_wf _) _ _ _); done.
Defined.

Lemma ctor_initial_witness :
  ∃ r w', rsynth_ctor (rsynth_set_randfunc (λ n : nat, (Z.of_nat n, S n)) None 0)
      true 16000 20 None 5%nat = Done (Some r, w') ∧ ts_inc r = 160.
Proof.
  destruct (ctor_initial (rsynth_set_randfunc (λ n : nat, (Z.of_nat n, S n)) None 0)
    16000 20 None 5%nat) as (r & w' & H & _ & _ & _ & _ & _ & Hi); [done|].
  exists r, w'. exact (conj H Hi).
Defined.

Lemma resync_elapsed_witness :
  snd (rsynth_resync sample_synth (Some {| tv_sec := 11; tv_nsec := 0 |})
    {| tv_sec := 0; tv_nsec := 0 |})
  = with_l {| sq_ts := u64 (4294967280 + 4000); sq_seq := 65535 |} sample_synth.
Proof.
  pose proof (resync_elapsed sample_synth {| tv_sec := 11; tv_nsec := 0 |}
    {| tv_sec := 0; tv_nsec := 0 |} sample_synth_wf) as H.
  destruct H as (_ & H & _); [done..|]. exact H.
Defined.
