(* ===== verification/JBuf.v ===== *)
(** The jitter buffer: src/src/rtpjbuf.c and src/src/rtpjbuf.h. The linked list
    [jb.head] is a list of RTP frames, each owned by the list it is on; a frame's
    [data] is the address of the caller's datagram, a number here. A failed
    [d_assert] is [Aborted]. *)
From stdpp Require Import prelude list.
From Stdlib Require Import ZArith Lia.
From S2P Require Import Prelude Rtp.
Local Open Scope Z_scope.

(** * Data *)

Record rtp_packet : Set := {
  rp_info : rtp_info;
  lseq : Z;
  jbcnt : Z;
  rp_data : Z;
}.

Record ers_frame : Set := {
  lseq_start : Z;
  lseq_end : Z;
  ts_diff : Z;
}.

(** [struct rtp_frame]: the type tag with its union member. *)
Inductive rtp_frame : Set :=
| RFT_RTP (rp : rtp_packet)
| RFT_ERS (ers : ers_frame).

Record rjb_udp_in_r : Set := {
  error : Z;
  ready : list rtp_frame;
  drop_ : list rtp_frame;
}.

Definition RJB_ENOMEM : Z := rtp_parser_err_value RTP_PARSER_IPS - 1000.
Definition LRS_DEFAULT : Z := U64_MAX.
Definition LMS_DEFAULT : Z := LRS_DEFAULT.

Record rtpjbuf_stats : Set := {
  drop_dup : Z;
  drop_late : Z;
  drop_perror : Z;
  seq_wup : Z;
}.

Record rtpjbuf_inst : Set := {
  last_lseq : Z;
  last_ts : Z;
  last_max_lseq : Z;
  lseq_mask : Z;
  head : list rtp_packet;
  size : Z;
  capacity : Z;
  jbs : rtpjbuf_stats;
  ers_buf : ers_frame;
}.

Definition stats_zero : rtpjbuf_stats :=
  {| drop_dup := 0; drop_late := 0; drop_perror := 0; seq_wup := 0 |}.
Definition ers_zero : ers_frame := {| lseq_start := 0; lseq_end := 0; ts_diff := 0 |}.

(** Field updates. *)
Definition set_last (q t : Z) (st : rtpjbuf_inst) : rtpjbuf_inst :=
  {| last_lseq := q; last_ts := t; last_max_lseq := last_max_lseq st;
     lseq_mask := lseq_mask st; head := head st; size := size st;
     capacity := capacity st; jbs := jbs st; ers_buf := ers_buf st |}.
Definition set_last_max (m : Z) (st : rtpjbuf_inst) : rtpjbuf_inst :=
  {| last_lseq := last_lseq st; last_ts := last_ts st; last_max_lseq := m;
     lseq_mask := lseq_mask st; head := head st; size := size st;
     capacity := capacity st; jbs := jbs st; ers_buf := ers_buf st |}.
Definition set_mask (m : Z) (st : rtpjbuf_inst) : rtpjbuf_inst :=
  {| last_lseq := last_lseq st; last_ts := last_ts st;
     last_max_lseq := last_max_lseq st; lseq_mask := m; head := head st;
     size := size st; capacity := capacity st; jbs := jbs st;
     ers_buf := ers_buf st |}.
Definition set_jb (h : list rtp_packet) (n : Z) (st : rtpjbuf_inst) : rtpjbuf_inst :=
  {| last_lseq := last_lseq st; last_ts := last_ts st;
     last_max_lseq := last_max_lseq st; lseq_mask := lseq_mask st; head := h;
     size := n; capacity := capacity st; jbs := jbs st; ers_buf := ers_buf st |}.
Definition set_jbs (s : rtpjbuf_stats) (st : rtpjbuf_inst) : rtpjbuf_inst :=
  {| last_lseq := last_lseq st; last_ts := last_ts st;
     last_max_lseq := last_max_lseq st; lseq_mask := lseq_mask st;
     head := head st; size := size st; capacity := capacity st; jbs := s;
     ers_buf := ers_buf st |}.
Definition set_ers (e : ers_frame) (st : rtpjbuf_inst) : rtpjbuf_inst :=
  {| last_lseq := last_lseq st; last_ts := last_ts st;
     last_max_lseq := last_max_lseq st; lseq_mask := lseq_mask st;
     head := head st; size := size st; capacity := capacity st; jbs := jbs st;
     ers_buf := e |}.

Definition count_dup (s : rtpjbuf_stats) : rtpjbuf_stats :=
  {| drop_dup := u64 (drop_dup s + 1); drop_late := drop_late s;
     drop_perror := drop_perror s; seq_wup := seq_wup s |}.
Definition count_late (s : rtpjbuf_stats) : rtpjbuf_stats :=
  {| drop_dup := drop_dup s; drop_late := u64 (drop_late s + 1);
     drop_perror := drop_perror s; seq_wup := seq_wup s |}.
Definition count_perror (s : rtpjbuf_stats) : rtpjbuf_stats :=
  {| drop_dup := drop_dup s; drop_late := drop_late s;
     drop_perror := u64 (drop_perror s + 1); seq_wup := seq_wup s |}.
Definition count_wup (s : rtpjbuf_stats) : rtpjbuf_stats :=
  {| drop_dup := drop_dup s; drop_late := drop_late s;
     drop_perror := drop_perror s; seq_wup := u64 (seq_wup s + 1) |}.

Definition set_jbcnt (n : Z) (p : rtp_packet) : rtp_packet :=
  {| rp_info := rp_info p; lseq := lseq p; jbcnt := n; rp_data := rp_data p |}.

(** * Operations *)

Definition rtpjbuf_ctor (alloc : bool) (capacity : Z) : option rtpjbuf_inst :=
  if alloc then
    Some {| last_lseq := LRS_DEFAULT; last_ts := 0; last_max_lseq := LMS_DEFAULT;
            lseq_mask := 0; head := []; size := 0; capacity := capacity;
            jbs := stats_zero; ers_buf := ers_zero |}
  else None.

(** [rtpjbuf_dtor]: the frames it frees, in order (the instance after them). *)
Definition rtpjbuf_dtor (st : rtpjbuf_inst) : list rtp_packet := head st.

(** Walking to the end of the list: the frames before the last one, and it. *)
Fixpoint walk_tail (fp : rtp_packet) (next : list rtp_packet)
    : list rtp_packet * rtp_packet :=
  match next with
  | [] => ([], fp)
  | nx :: next' => let (pre, t) := walk_tail nx next' in (fp :: pre, t)
  end.

Definition purge_stale_tail (st : rtpjbuf_inst) : rtpjbuf_inst * list rtp_packet :=
  match head st with
  | [] => (st, [])
  | h :: rest =>
      if size st <? u32 (capacity st - 1) then (st, [])
      else
        let (pre, t) := walk_tail h rest in
        let t := set_jbcnt (u64 (jbcnt t + 1)) t in
        if jbcnt t <? capacity st then (set_jb (pre ++ [t]) (size st) st, [])
        else
          let st := set_jb pre (u32 (size st - 1)) st in
          let st :=
            if last_max_lseq st =? lseq t then
              set_last_max (match last pre with
                            | Some prev => lseq prev
                            | None => LMS_DEFAULT
                            end) st
            else st in
          (st, [t])
  end.

(** [insert_ers_frame]: the frames put in front of [fp] (none or one). *)
Definition ers_ts_diff (last_ts ts : Z) : outcome Z :=
  if ts <? last_ts then
    let ts_diff64 := u64 (4294967296 + ts - last_ts) in
    _ ← d_assert (ts_diff64 <? 4294967296);
    Done (u32 ts_diff64)
  else Done (u32 (ts - last_ts)).

Definition insert_ers_frame (st : rtpjbuf_inst) (fp : rtp_packet)
    : outcome (rtpjbuf_inst * list rtp_frame) :=
  if u64 (last_lseq st + 1) =? lseq fp then Done (st, [])
  else
    let start := u64 (last_lseq st + 1) in
    let end_ := u64 (lseq fp - 1) in
    ts_diff ← ers_ts_diff (last_ts st) (ts (rp_info fp));
    let lseq_diff := u32 (end_ - start + 1) in
    let den := u32 (lseq_diff + 1) in
    _ ← ub_unless (negb (den =? 0));
    let e := {| lseq_start := start; lseq_end := end_;
                ts_diff := u32 (ts_diff * lseq_diff) / den |} in
    Done (set_ers e st, [RFT_ERS e]).

Definition save_last (st : rtpjbuf_inst) (rp : rtp_packet) : outcome rtpjbuf_inst :=
  _ ← d_assert ((last_lseq st =? LRS_DEFAULT) || (last_lseq st <? lseq rp));
  Done (set_last (lseq rp) (ts (rp_info rp)) st).

(** The run of consecutive frames at the front, and what is left. *)
Fixpoint take_run (ifp : rtp_packet) (next : list rtp_packet)
    : list rtp_packet * rtp_packet * list rtp_packet :=
  match next with
  | [] => ([], ifp, [])
  | nx :: next' =>
      if u64 (lseq ifp + 1) =? lseq nx then
        let '(run, lst, rem) := take_run nx next' in (ifp :: run, lst, rem)
      else ([], ifp, next)
  end.

Definition ok_result (rdy drp : list rtp_frame) : rjb_udp_in_r :=
  {| error := 0; ready := rdy; drop_ := drp |}.

(** Lines 265-285: hand out the run at the front of the list. *)
Definition deliver_run (st : rtpjbuf_inst) (warm_up : bool) (drp : list rtp_frame)
    : outcome (rtpjbuf_inst * rjb_udp_in_r) :=
  match head st with
  | [] => Undefined
  | fp :: rest =>
      let '(run, ifp, rem) := take_run fp rest in
      let st := set_jb rem (u32 (size st - 1 - zlen run)) st in
      _ ← d_assert (warm_up || (last_lseq st <? lseq fp));
      _ ← d_assert (negb warm_up || (last_lseq st =? LMS_DEFAULT));
      r ← (if negb warm_up then insert_ers_frame st fp else Done (st, []));
      let (st, ers) := r : rtpjbuf_inst * list rtp_frame in
      st ← save_last st ifp;
      _ ← d_assert (match head st with [] => size st =? 0 | _ => 0 <? size st end);
      Done (st, ok_result (ers ++ map RFT_RTP (run ++ [ifp])) drp)
  end.

(** Lines 224-237, label [lms_init]: the list is empty. *)
Definition lms_init (st : rtpjbuf_inst) (fp : rtp_packet) (warm_up : bool)
    (drp : list rtp_frame) : outcome (rtpjbuf_inst * rjb_udp_in_r) :=
  let st := set_last_max (lseq fp) st in
  if negb warm_up && (last_lseq st =? u64 (lseq fp - 1)) then
    st ← save_last st fp; Done (st, ok_result [RFT_RTP fp] drp)
  else if warm_up && (lseq fp =? 0) then
    _ ← d_assert (last_lseq st =? LRS_DEFAULT);
    st ← save_last st fp; Done (st, ok_result [RFT_RTP fp] drp)
  else Done (set_jb [fp] 1 st, ok_result [] drp).

(** Label [gotdup]. *)
Definition gotdup (st : rtpjbuf_inst) (fp : rtp_packet) (drp : list rtp_frame)
    : outcome (rtpjbuf_inst * rjb_udp_in_r) :=
  Done (set_jbs (count_dup (jbs st)) st, ok_result [] (RFT_RTP fp :: drp)).

(** Lines 239-248: the frames before and after the insertion point, or [None]
    when the list has a frame with the same number. *)
Fixpoint insert_scan (q : Z) (l : list rtp_packet)
    : option (list rtp_packet * list rtp_packet) :=
  match l with
  | [] => Some ([], [])
  | ifp :: next =>
      if lseq ifp <? q then
        match insert_scan q next with
        | Some (pre, post) => Some (ifp :: pre, post)
        | None => None
        end
      else if lseq ifp =? q then None
      else Some ([], l)
  end.

(** Lines 239-286: put the frame into a list that is not empty. *)
Definition insert_frame (st : rtpjbuf_inst) (fp : rtp_packet) (warm_up : bool)
    (drp : list rtp_frame) : outcome (rtpjbuf_inst * rjb_udp_in_r) :=
  match insert_scan (lseq fp) (head st) with
  | None => gotdup st fp drp
  | Some (pre, post) =>
      st ← (match post with
            | _ :: _ => Done (set_jb (pre ++ fp :: post) (size st) st)
            | [] =>
                _ ← ub_unless (negb (bool_decide (pre = [])));
                _ ← d_assert (last_max_lseq st <? lseq fp);
                Done (set_last_max (lseq fp) (set_jb (pre ++ [fp]) (size st) st))
            end);
      let st := set_jb (head st) (u32 (size st + 1)) st in
      let flush := negb warm_up &&
        match head st with
        | h :: _ => lseq h =? u64 (last_lseq st + 1)
        | [] => false
        end in
      if (size st =? capacity st) || flush then deliver_run st warm_up drp
      else Done (st, ok_result [] drp)
  end.

(** Lines 204-211: convert the 16-bit number to the logical one. *)
Definition unwrap_lseq (st : rtpjbuf_inst) (q sq : Z) : rtpjbuf_inst * Z :=
  if (last_max_lseq st mod 65536 <? 536) && (65000 <? sq) then (st, u64 (q - 65536))
  else if (65000 <? last_max_lseq st) && (q <? u64 (last_max_lseq st - 65000)) then
    (set_jbs (count_wup (jbs st)) (set_mask (u64 (lseq_mask st + 65536)) st),
     u64 (q + 65536))
  else (st, q).

(** Lines 191-291: file one parsed packet. *)
Definition place_packet (st : rtpjbuf_inst) (info : rtp_info) (data : Z)
    (drp : list rtp_frame) : outcome (rtpjbuf_inst * rjb_udp_in_r) :=
  let q := Z.lor (lseq_mask st) (seq info) in
  let frame q := {| rp_info := info; lseq := q; jbcnt := 0; rp_data := data |} in
  let warm_up := last_lseq st =? LRS_DEFAULT in
  let lms_warm_up := last_max_lseq st =? LMS_DEFAULT in
  if lms_warm_up then
    _ ← d_assert (match head st with [] => true | _ => false end);
    lms_init st (frame q) warm_up drp
  else
    _ ← d_assert (match head st with
                  | [] => true
                  | h :: _ => warm_up || (last_lseq st <? u64 (lseq h - 1))
                  end);
    let (st, q) := unwrap_lseq st q (seq info) in
    let fp := frame q in
    if negb warm_up && (lseq fp <=? last_lseq st) then
      if s32 (last_lseq st - lseq fp) =? 0 then gotdup st fp drp
      else Done (set_jbs (count_late (jbs st)) st, ok_result [] (RFT_RTP fp :: drp))
    else
      match head st with
      | [] =>
          _ ← d_assert (size st =? 0);
          _ ← d_assert (last_max_lseq st <? lseq fp);
          lms_init st fp warm_up drp
      | _ => insert_frame st fp warm_up drp
      end.

(** [rtpjbuf_udp_in]: [alloc] tells whether [malloc] gives a frame. *)
Definition rtpjbuf_udp_in (st : rtpjbuf_inst) (alloc : bool) (data : Z)
    (buf : list Z) (n : Z) : outcome (rtpjbuf_inst * rjb_udp_in_r) :=
  let (st, purged) := purge_stale_tail st in
  let drp := map RFT_RTP purged in
  if negb alloc then
    Done (st, {| error := RJB_ENOMEM; ready := []; drop_ := drp |})
  else
    pr ← rtp_packet_parse_raw buf n rtp_info_zero;
    let (perror, info) := pr : rtp_parser_err_t * rtp_info in
    if negb (bool_decide (perror = RTP_PARSER_OK)) then
      Done (set_jbs (count_perror (jbs st)) st,
            {| error := rtp_parser_err_value perror; ready := []; drop_ := drp |})
    else place_packet st info data drp.

(** The loop of [rtpjbuf_flush]: [cur] is the current run up to [ifp]; a gap
    moves it in front of the drop list. *)
Fixpoint flush_loop (cur : list rtp_packet) (ifp : rtp_packet)
    (next drp : list rtp_packet) : list rtp_packet * rtp_packet * list rtp_packet :=
  match next with
  | [] => (cur, ifp, drp)
  | nx :: next' =>
      if u64 (lseq ifp + 1) =? lseq nx then flush_loop (cur ++ [ifp]) nx next' drp
      else flush_loop [] nx next' ((cur ++ [ifp]) ++ drp)
  end.

Definition rtpjbuf_flush (st : rtpjbuf_inst) : outcome (rtpjbuf_inst * rjb_udp_in_r) :=
  match head st with
  | [] => Done (st, ok_result [] [])
  | h :: rest =>
      _ ← d_assert ((last_lseq st <? u64 (lseq h - 1)) || (last_lseq st =? LRS_DEFAULT));
      let '(run, ifp, drp) := flush_loop [] h rest [] in
      let fp := match run with x :: _ => x | [] => ifp end in
      r ← insert_ers_frame st fp;
      let (st, ers) := r : rtpjbuf_inst * list rtp_frame in
      st ← save_last st ifp;
      Done (set_jb [] 0 st,
            ok_result (ers ++ map RFT_RTP (run ++ [ifp])) (map RFT_RTP drp))
  end.
