(* ===== verification/JBufProofs.v ===== *)
(** Correctness of the jitter buffer: what a well-formed buffer is, that every
    call keeps it so without aborting, that what it delivers has no gap and no
    reordering, and that no frame is lost or duplicated on the way. *)
From stdpp Require Import prelude list sorting.
From Stdlib Require Import ZArith Lia.
From S2P Require Import Prelude Rtp JBuf.
Local Open Scope Z_scope.

(** * The specification of delivery *)

(** [covers a b fs]: the frames account for the logical numbers [a, b), in
    order, each once: as a packet or inside a frame of lost numbers. *)
Inductive covers : Z → Z → list rtp_frame → Prop :=
| covers_nil a : covers a a []
| covers_rtp rp b fs :
    covers (lseq rp + 1) b fs → covers (lseq rp) b (RFT_RTP rp :: fs)
| covers_ers e b fs :
    lseq_start e ≤ lseq_end e → covers (lseq_end e + 1) b fs →
    covers (lseq_start e) b (RFT_ERS e :: fs).

(** The number the buffer hands out next, once it has handed out any. *)
Definition next_out (st : rtpjbuf_inst) : option Z :=
  if last_lseq st =? LRS_DEFAULT then None else Some (last_lseq st + 1).

Definition delivers (a b : option Z) (fs : list rtp_frame) : Prop :=
  match a, b with
  | None, None => fs = []
  | None, Some b => ∃ a, 0 ≤ a < b ∧ covers a b fs
  | Some a, Some b => covers a b fs
  | Some _, None => False
  end.

(** The packets among the frames. *)
Definition rtps (fs : list rtp_frame) : list rtp_packet :=
  omap (λ f, match f with RFT_RTP rp => Some rp | RFT_ERS _ => None end) fs.

(** A packet without its age, which is the only field the buffer changes. *)
Definition ageless (p : rtp_packet) : rtp_packet := set_jbcnt 0 p.

(** What is in the buffer and what is handed back is what was in the buffer
    and what came in: nothing leaks, nothing is handed back twice. *)
Definition conserves (before : list rtp_packet) (st : rtpjbuf_inst)
    (r : rjb_udp_in_r) : Prop :=
  map ageless (rtps (ready r) ++ head st ++ rtps (drop_ r)) ≡ₚ map ageless before.

(** * The invariant *)

Definition lseq_lt (a b : rtp_packet) : Prop := lseq a < lseq b.

Record frame_ok (mask : Z) (p : rtp_packet) : Prop := {
  fo_range : 0 ≤ lseq p < mask + 65536;
  fo_seq : lseq p mod 65536 = seq (rp_info p);
  fo_ts : 0 ≤ ts (rp_info p) < 4294967296;
}.

(** The logical numbers stay below 2^32 - 1 (65534 wraps of the RTP number), so
    that the 32-bit length of a gap cannot overflow. *)
Definition LSEQ_BUDGET : Z := 4294967295.

(** What holds even in the middle of a call. *)
Record jb_core (st : rtpjbuf_inst) : Prop := {
  jc_cap : 3 ≤ capacity st < 4294967296;
  jc_size : size st = zlen (head st);
  jc_mask : 0 ≤ lseq_mask st ∧ lseq_mask st mod 65536 = 0;
  jc_budget : lseq_mask st + 65536 < LSEQ_BUDGET;
  jc_sorted : StronglySorted lseq_lt (head st);
  jc_frames : Forall (frame_ok (lseq_mask st)) (head st);
  jc_max : last_max_lseq st =
           match last (head st) with Some p => lseq p | None => last_lseq st end;
  jc_last : last_lseq st = LRS_DEFAULT ∨
            (0 ≤ last_lseq st < lseq_mask st + 65536 ∧
             Forall (λ p, last_lseq st < lseq p) (head st));
  jc_ts : 0 ≤ last_ts st < 4294967296;
}.

(** Between calls the list is short of the capacity, and the next number to
    hand out is missing from it. *)
Record jb_inv (st : rtpjbuf_inst) : Prop := {
  inv_core : jb_core st;
  inv_full : zlen (head st) < capacity st;
  inv_gap : last_lseq st = LRS_DEFAULT ∨
            Forall (λ p, last_lseq st + 1 < lseq p) (head st);
}.

(** * Lists of frames *)

Lemma rtps_app l1 l2 : rtps (l1 ++ l2) = rtps l1 ++ rtps l2.
Proof. apply omap_app. Qed.
Lemma rtps_map l : rtps (map RFT_RTP l) = l.
Proof. induction l; cbn; [done|]. by f_equal. Qed.

Lemma covers_app a b c l1 l2 : covers a b l1 → covers b c l2 → covers a c (l1 ++ l2).
Proof. induction 1; cbn; intros; [done| |]; constructor; auto. Qed.

Lemma covers_le a b fs : covers a b fs → a ≤ b.
Proof. induction 1; lia. Qed.

Lemma delivers_refl a : delivers a a [].
Proof. destruct a; cbn; [constructor|done]. Qed.

Lemma delivers_app a b c l1 l2 :
  delivers a b l1 → delivers b c l2 → delivers a c (l1 ++ l2).
Proof.
  destruct a as [a|], b as [b|], c as [c|]; cbn; try done.
  - apply covers_app.
  - intros (x & ? & H1) H2. exists x. pose proof (covers_le _ _ _ H2).
    split; [lia|]. by eapply covers_app.
  - by intros ->.
  - by intros -> ->.
Qed.

Lemma ageless_set_jbcnt n p : ageless (set_jbcnt n p) = ageless p.
Proof. done. Qed.

(** Walking to the tail splits the list there. *)
Lemma walk_tail_spec fp next pre t :
  walk_tail fp next = (pre, t) → fp :: next = pre ++ [t].
Proof.
  revert fp pre t; induction next as [|nx next IH]; intros fp pre t; cbn.
  - by intros [= <- <-].
  - destruct (walk_tail nx next) as [pre' t'] eqn:E. intros [= <- <-].
    by rewrite (IH _ _ _ E).
Qed.

Lemma take_run_split fp next run lst rem :
  take_run fp next = (run, lst, rem) → fp :: next = run ++ lst :: rem.
Proof.
  revert fp run lst rem; induction next as [|nx next IH]; intros fp run lst rem; cbn.
  - by intros [= <- <- <-].
  - case_match; [|by intros [= <- <- <-]].
    destruct (take_run nx next) as [[run' lst'] rem'] eqn:E.
    intros [= <- <- <-]. by rewrite (IH _ _ _ _ E).
Qed.

Lemma insert_scan_split q l pre post :
  insert_scan q l = Some (pre, post) →
  l = pre ++ post ∧ Forall (λ p, lseq p < q) pre ∧
  match post with [] => True | p :: _ => q < lseq p end.
Proof.
  revert pre post; induction l as [|ifp next IH]; intros pre post; cbn.
  - intros [= <- <-]. done.
  - case_match eqn:E1; zbool.
    + destruct (insert_scan q next) as [[pre' post']|]; [|done].
      intros [= <- <-]. destruct (IH _ _ eq_refl) as (-> & ? & ?).
      repeat split; auto.
    + case_match eqn:E2; [done|]. zbool. intros [= <- <-]. repeat split; [auto|lia].
Qed.

(** * Conservation of frames *)

Lemma purge_conserve st st' purged :
  purge_stale_tail st = (st', purged) →
  map ageless (head st' ++ purged) = map ageless (head st).
Proof.
  unfold purge_stale_tail. destruct (head st) as [|h rest] eqn:Eh.
  { intros [= <- <-]. by rewrite Eh. }
  case_match; [intros [= <- <-]; by rewrite Eh, app_nil_r|].
  destruct (walk_tail h rest) as [pre t] eqn:Ew.
  apply walk_tail_spec in Ew. rewrite Ew.
  case_match; intros [= <- <-]; cbn; [by rewrite app_nil_r, !map_app|].
  case_match; cbn; by rewrite !map_app.
Qed.

Lemma save_last_head st rp st' : save_last st rp = Done st' → head st' = head st.
Proof. unfold save_last. intros H. run_in H. by injection H as <-. Qed.

Lemma insert_ers_head st fp st' fs :
  insert_ers_frame st fp = Done (st', fs) → head st' = head st ∧ rtps fs = [].
Proof.
  unfold insert_ers_frame. case_match; [by intros [= <- <-]|].
  intros H1. run_in H1. by injection H1 as <- <-.
Qed.

Lemma deliver_run_conserve st w drp st' r :
  deliver_run st w drp = Done (st', r) →
  conserves (head st ++ rtps drp) st' r.
Proof.
  unfold deliver_run. destruct (head st) as [|fp rest]; [done|].
  destruct (take_run fp rest) as [[run lst] rem] eqn:Er.
  apply take_run_split in Er. rewrite Er.
  intros H0. rewrite !bind_assert_done, bind_done in H0.
  destruct H0 as (_ & _ & [s1 ers] & H1 & H2). run_in H2.
  rename Erun into H3. injection H2 as <- <-.
  assert (head s1 = rem ∧ rtps ers = []) as [Hh He].
  { destruct (negb w); [by apply insert_ers_head in H1|]. by injection H1 as <- <-. }
  unfold conserves. cbn. rewrite rtps_app, rtps_map, He, (save_last_head _ _ _ H3), Hh.
  f_equiv. simplify_list_eq. done.
Qed.

Lemma lms_init_conserve st fp w drp st' r :
  head st = [] → lms_init st fp w drp = Done (st', r) →
  conserves (fp :: rtps drp) st' r.
Proof.
  intros Eh. unfold lms_init. case_match.
  { intros H1. run_in H1. injection H1 as <- <-.
    unfold conserves. cbn. rewrite (save_last_head _ _ _ Erun). cbn. by rewrite Eh. }
  case_match; intros H1; [|injection H1 as <- <-; by apply Permutation_refl].
  run_in H1. injection H1 as <- <-.
  unfold conserves. cbn. rewrite (save_last_head _ _ _ Erun). cbn. by rewrite Eh.
Qed.

Lemma dropped_conserve st fp drp st' :
  head st' = head st →
  conserves (fp :: head st ++ rtps drp) st' (ok_result [] (RFT_RTP fp :: drp)).
Proof.
  intros E. unfold conserves. rewrite E. change (map ageless (head st ++ fp :: rtps drp) ≡ₚ
    map ageless (fp :: head st ++ rtps drp)). by rewrite <- Permutation_middle.
Qed.

Lemma insert_frame_conserve st fp w drp st' r :
  insert_frame st fp w drp = Done (st', r) →
  conserves (fp :: head st ++ rtps drp) st' r.
Proof.
  unfold insert_frame.
  destruct (insert_scan (lseq fp) (head st)) as [[pre post]|] eqn:Es.
  2:{ intros [= <- <-]. by apply dropped_conserve. }
  apply insert_scan_split in Es as (-> & _).
  rewrite bind_done. intros (s1 & H1 & H2).
  assert (head s1 = pre ++ fp :: post) as Hh.
  { destruct post; [|by injection H1 as <-].
    run_in H1. by injection H1 as <-. }
  assert (∀ x, head s1 ++ x ≡ₚ fp :: (pre ++ post) ++ x) as Hp.
  { intros x. rewrite Hh. by rewrite <- Permutation_middle. }
  case_match.
  - apply deliver_run_conserve in H2. unfold conserves in *. rewrite H2. cbn [head set_jb].
    by rewrite Hp.
  - injection H2 as <- <-. unfold conserves. cbn. by rewrite Hp.
Qed.

Lemma unwrap_head st q sq st' q' :
  unwrap_lseq st q sq = (st', q') → head st' = head st.
Proof. unfold unwrap_lseq. do 2 (case_match; [by intros [= <- <-]|]). by intros [= <- <-]. Qed.

Lemma place_conserve st info data drp st' r :
  place_packet st info data drp = Done (st', r) →
  ∃ q, conserves ({| rp_info := info; lseq := q; jbcnt := 0; rp_data := data |}
                  :: head st ++ rtps drp) st' r.
Proof.
  unfold place_packet. case_match.
  { intros H1. run_in H1. destruct (head st) eqn:Eh; [|done].
    apply lms_init_conserve in H1; [|done]. by eexists. }
  rewrite bind_assert_done. intros [_ H1]. revert H1.
  destruct (unwrap_lseq st _ _) as [s1 q] eqn:Eu. apply unwrap_head in Eu.
  rewrite <- Eu. intros H1. exists q. case_match.
  - case_match; injection H1 as <- <-; by apply dropped_conserve.
  - destruct (head s1) eqn:Eh.
    + rewrite !bind_assert_done in H1. destruct H1 as (_ & _ & H1).
      by apply lms_init_conserve in H1.
    + apply insert_frame_conserve in H1. by rewrite Eh in H1.
Qed.

Lemma flush_loop_split cur ifp next drp run lst d :
  flush_loop cur ifp next drp = (run, lst, d) →
  run ++ lst :: d ≡ₚ cur ++ ifp :: next ++ drp.
Proof.
  revert cur ifp drp. induction next as [|nx next IH]; intros cur ifp drp; cbn.
  - by intros [= <- <- <-].
  - case_match; intros H1; apply IH in H1; rewrite H1.
    + by rewrite <- app_assoc.
    + cbn. rewrite <- !app_assoc. cbn. rewrite !app_comm_cons.
      rewrite Permutation_app_comm. rewrite <- app_assoc. cbn. solve_Permutation.
Qed.

Lemma rtpjbuf_flush_conserve st st' r :
  rtpjbuf_flush st = Done (st', r) → conserves (head st) st' r.
Proof.
  unfold rtpjbuf_flush. destruct (head st) as [|h rest] eqn:Eh.
  { intros [= <- <-]. unfold conserves. by rewrite Eh. }
  rewrite bind_assert_done. intros [_ H]. revert H.
  destruct (flush_loop [] h rest []) as [[run lst] d] eqn:El.
  apply flush_loop_split in El. intros H. rewrite bind_done in H.
  destruct H as ([s1 ers] & H1 & H). run_in H. injection H as <- <-.
  apply insert_ers_head in H1 as [_ He]. unfold conserves. cbn.
  rewrite rtps_app, !rtps_map, He. cbn. rewrite <- app_assoc. cbn.
  rewrite El. cbn. by rewrite app_nil_r.
Qed.

Lemma place_error st info data drp st' r :
  place_packet st info data drp = Done (st', r) → error r = 0.
Proof.
  assert (∀ s w d s' x, deliver_run s w d = Done (s', x) → error x = 0) as Hd.
  { intros s w d s' x. unfold deliver_run. destruct (head s); [done|].
    destruct (take_run r0 l) as [[run lst] rem]. intros H.
    rewrite !bind_assert_done, bind_done in H.
    destruct H as (_ & _ & [s1 ers] & _ & H). run_in H. by injection H as <- <-. }
  assert (∀ s fp w d s' x, lms_init s fp w d = Done (s', x) → error x = 0) as Hl.
  { intros s fp w d s' x. unfold lms_init. do 2 (case_match; [intros H1; run_in H1; by injection H1 as <- <-|]).
    by intros [= <- <-]. }
  unfold place_packet. case_match; rewrite bind_assert_done; intros [_ H1]; [by eauto|].
  destruct (unwrap_lseq _ _ _) as [s1 q]. case_match.
  - case_match; by injection H1 as <- <-.
  - destruct (head s1) eqn:Eh; [rewrite !bind_assert_done in H1; destruct H1 as (_ & _ & H1); by eauto|].
    unfold insert_frame in H1. destruct (insert_scan _ _) as [[pre post]|];
      [|by injection H1 as <- <-].
    rewrite bind_done in H1. destruct H1 as (s2 & _ & H1).
    case_match; [by eauto|]. by injection H1 as <- <-.
Qed.

(** * Sorted lists of frames *)

Lemma sorted_before pre x post :
  StronglySorted lseq_lt (pre ++ x :: post) →
  Forall (λ p, lseq p < lseq x) pre ∧ Forall (λ p, lseq x < lseq p) post ∧
  StronglySorted lseq_lt pre ∧ StronglySorted lseq_lt post.
Proof.
  rewrite StronglySorted_app, StronglySorted_cons. intros (H1 & H2 & H3 & H4).
  rewrite !Forall_forall in *. repeat split; auto.
  intros y Hy. apply H1; [done|]. by left.
Qed.

Lemma sorted_insert pre x post :
  StronglySorted lseq_lt (pre ++ post) →
  Forall (λ p, lseq p < lseq x) pre →
  match post with [] => True | p :: _ => lseq x < lseq p end →
  StronglySorted lseq_lt (pre ++ x :: post).
Proof.
  rewrite !StronglySorted_app, StronglySorted_cons. intros (H1 & H2 & H3) Hpre Hpost.
  rewrite Forall_forall in Hpre.
  assert (Forall (lseq_lt x) post) as Hx.
  { destruct post as [|p post]; [done|]. apply Forall_cons_2; [done|].
    apply StronglySorted_cons in H3 as [H3 _]. eapply Forall_impl; [exact H3|].
    unfold lseq_lt. lia. }
  repeat split; auto. intros a b Ha Hb. apply elem_of_cons in Hb as [->|Hb]; auto.
  by apply Hpre.
Qed.

Lemma frame_ok_mono m m' p : m ≤ m' → frame_ok m p → frame_ok m' p.
Proof. intros ? []. constructor; [lia|done..]. Qed.

Lemma frame_ok_aged m n p : frame_ok m p → frame_ok m (set_jbcnt n p).
Proof. intros []. by constructor. Qed.

(** In a buffer the front of the list is the least number. *)
Lemma sorted_front h rest (P : Z → Prop) :
  StronglySorted lseq_lt (h :: rest) → P (lseq h) →
  (∀ x, lseq h < x → P x) → Forall (λ p, P (lseq p)) (h :: rest).
Proof.
  rewrite StronglySorted_cons. intros [H _] Hh HP. apply Forall_cons_2; [done|].
  eapply Forall_impl; [exact H|]. intros p Hp. by apply HP.
Qed.

(** The run at the front is contiguous. *)
Lemma take_run_covers fp next run lst rem :
  take_run fp next = (run, lst, rem) →
  Forall (λ p, 0 ≤ lseq p < LSEQ_BUDGET) (fp :: next) →
  covers (lseq fp) (lseq lst + 1) (map RFT_RTP (run ++ [lst])) ∧
  match rem with [] => True | p :: _ => lseq p ≠ lseq lst + 1 end ∧
  lseq fp ≤ lseq lst.
Proof.
  unfold LSEQ_BUDGET. revert fp run lst rem.
  induction next as [|nx next IH]; intros fp run lst rem; cbn.
  - intros [= <- <- <-] _. split; [|done]. repeat constructor.
  - intros H HF. apply Forall_cons in HF as [Hfp HF].
    assert (0 ≤ lseq nx < 4294967295) as Hnx by (by apply Forall_cons in HF as [? _]).
    rewrite u64_small in H by lia.
    case_match eqn:E; zbool.
    + destruct (take_run nx next) as [[run' lst'] rem'] eqn:Er.
      injection H as <- <- <-. destruct (IH _ _ _ _ Er HF) as (Hc & Hr & Hle).
      split; [|split; [done|lia]]. cbn. constructor. by rewrite E.
    + injection H as <- <- <-. split; [|lia]. repeat constructor.
Qed.

(** * The frame of lost numbers *)

Lemma ers_ts_diff_ok t0 t :
  0 ≤ t0 < 4294967296 → 0 ≤ t < 4294967296 → ers_ts_diff t0 t = Done (u32 (t - t0)).
Proof.
  intros H1 H2. unfold ers_ts_diff. case_match; zbool; [|done].
  rewrite (u64_small (4294967296 + t - t0)) by lia.
  rewrite bind_assert_true by (zdec; done). f_equal. unfold u32. zlia.
Qed.

Lemma insert_ers_ok st fp :
  u64 (last_lseq st + 1) ≤ lseq fp < LSEQ_BUDGET →
  0 ≤ last_ts st < 4294967296 → 0 ≤ ts (rp_info fp) < 4294967296 →
  ∃ e fs, insert_ers_frame st fp = Done (set_ers e st, fs) ∧ rtps fs = [] ∧
          covers (u64 (last_lseq st + 1)) (lseq fp) fs.
Proof.
  unfold LSEQ_BUDGET. intros Hl Ht Hts. unfold insert_ers_frame.
  pose proof (u64_range (last_lseq st + 1)).
  case_match eqn:E; zbool.
  { exists (ers_buf st), []. rewrite E. repeat split; [by destruct st|constructor]. }
  rewrite (u64_small (lseq fp - 1)) by lia.
  rewrite ers_ts_diff_ok by done. cbn [mbind outcome_bind].
  rewrite (u32_small (lseq fp - 1 - u64 (last_lseq st + 1) + 1)) by lia.
  rewrite (u32_small (lseq fp - 1 - u64 (last_lseq st + 1) + 1 + 1)) by lia.
  rewrite bind_unless_true by (zdec; done).
  eexists _, _. repeat split.
  match goal with |- covers _ _ [RFT_ERS ?e] =>
    apply (covers_ers e); cbn; [lia|] end.
  replace (lseq fp - 1 + 1) with (lseq fp) by lia. constructor.
Qed.

Lemma save_last_ok st rp :
  last_lseq st = LRS_DEFAULT ∨ last_lseq st < lseq rp →
  save_last st rp = Done (set_last (lseq rp) (ts (rp_info rp)) st).
Proof.
  intros H. unfold save_last. apply bind_assert_true. apply orb_true_iff.
  by rewrite Z.eqb_eq, Z.ltb_lt.
Qed.

(** * The operations keep the invariant *)

(** What each operation promises: a well-formed buffer, with the same capacity
    and at most [d] further logical numbers, whose deliveries continue where the
    last ones ended. *)
Record jb_step (d : Z) (st st' : rtpjbuf_inst) (rdy : list rtp_frame) : Prop := {
  js_inv : jb_inv st';
  js_cap : capacity st' = capacity st;
  js_mask : lseq_mask st ≤ lseq_mask st' ≤ lseq_mask st + d;
  js_delivers : delivers (next_out st) (next_out st') rdy;
}.

Definition step_ok (d : Z) (st : rtpjbuf_inst) (m : outcome (rtpjbuf_inst * rjb_udp_in_r)) : Prop :=
  succeeds (λ x, jb_step d st x.1 (ready x.2)) m.

Lemma next_out_some st : 0 ≤ last_lseq st < LSEQ_BUDGET → next_out st = Some (last_lseq st + 1).
Proof. unfold LSEQ_BUDGET, next_out, LRS_DEFAULT, U64_MAX. intros. by zdec. Qed.
Lemma next_out_none st : last_lseq st = LRS_DEFAULT → next_out st = None.
Proof. unfold next_out. by intros ->. Qed.

(** The oldest number out, as the asserts see it. *)
Lemma last_cases st :
  jb_core st →
  (last_lseq st = LRS_DEFAULT ∧ (last_lseq st =? LRS_DEFAULT) = true ∧ next_out st = None) ∨
  (0 ≤ last_lseq st < LSEQ_BUDGET ∧ (last_lseq st =? LRS_DEFAULT) = false ∧
   next_out st = Some (last_lseq st + 1) ∧ Forall (λ p, last_lseq st < lseq p) (head st)).
Proof.
  intros [_ _ _ Hb _ _ _ Hl _]. destruct Hl as [Hl|[Hl HF]]; [left|right].
  - by rewrite (next_out_none _ Hl), Hl.
  - rewrite next_out_some by lia. unfold LSEQ_BUDGET, LRS_DEFAULT, U64_MAX in *.
    repeat split; [lia|lia|by zdec|done].
Qed.

Lemma next_out_last q t st :
  0 ≤ q < LSEQ_BUDGET → next_out (set_last q t st) = Some (q + 1).
Proof. intros. by rewrite next_out_some. Qed.

Lemma frames_budget st :
  jb_core st → Forall (λ p, 0 ≤ lseq p < LSEQ_BUDGET) (head st).
Proof.
  intros H. eapply Forall_impl; [apply (jc_frames _ H)|]. intros p [? _ _].
  pose proof (jc_budget _ H). lia.
Qed.

(** Handing out the run at the front leaves a well-formed buffer. *)
Lemma deliver_core st run lst rem e :
  jb_core st → zlen (head st) ≤ capacity st →
  head st = run ++ lst :: rem →
  match rem with [] => True | p :: _ => lseq p ≠ lseq lst + 1 end →
  jb_inv (set_last (lseq lst) (ts (rp_info lst))
    (set_ers e (set_jb rem (u32 (size st - 1 - zlen run)) st))).
Proof.
  intros Hc Hle Eh Hrem. pose proof (jc_cap _ Hc).
  destruct Hc as [Hcap Hsize Hmask Hbud Hsort Hfr Hmax Hlast Hts].
  rewrite Eh in *. apply sorted_before in Hsort as (_ & Hgt & _ & Hsr).
  apply Forall_app in Hfr as [_ Hfr]. apply Forall_cons in Hfr as [[Hl1 Hl2 Hl3] Hfr].
  autorewrite with zlen in *. pose proof (zlen_nonneg run). pose proof (zlen_nonneg rem).
  constructor; cbn; [constructor; cbn; try done| |].
  - rewrite u32_small by lia. lia.
  - rewrite Hmax, last_app_cons, last_cons. by destruct (last rem).
  - right. by split; [lia|].
  - lia.
  - right. destruct rem as [|p rem]; [done|].
    apply Forall_cons in Hgt as [Hp _].
    apply (sorted_front _ _ (λ x, lseq lst + 1 < x)); [done|lia|intros; lia].
Qed.

Lemma deliver_run_ok st drp :
  jb_core st → zlen (head st) ≤ capacity st → head st ≠ [] →
  step_ok 0 st (deliver_run st (last_lseq st =? LRS_DEFAULT) drp).
Proof.
  intros Hc Hle Hne. unfold step_ok, deliver_run.
  destruct (head st) as [|fp rest] eqn:Eh; [done|].
  destruct (take_run fp rest) as [[run lst] rem] eqn:Er.
  pose proof (take_run_split _ _ _ _ _ Er) as Es.
  pose proof (frames_budget _ Hc) as Hb. rewrite Eh in Hb.
  destruct (take_run_covers _ _ _ _ _ Er Hb) as (Hcov & Hrem & Hrun).
  pose proof (λ e, deliver_core st run lst rem e Hc ltac:(by rewrite Eh)
    ltac:(by rewrite Eh) Hrem) as Hinv.
  pose proof (covers_le _ _ _ Hcov).
  assert (0 ≤ lseq lst < LSEQ_BUDGET ∧ 0 ≤ lseq fp < LSEQ_BUDGET) as [Hlst Hfp].
  { split; [|by apply Forall_cons in Hb as [? _]].
    rewrite Es in Hb. apply Forall_app in Hb as [_ Hb]. by apply Forall_cons in Hb as [? _]. }
  assert (match rem with [] => u32 (size st - 1 - zlen run) =? 0
          | _ :: _ => 0 <? u32 (size st - 1 - zlen run) end = true) as Hsz.
  { specialize (Hinv (ers_buf st)). pose proof (jc_size _ (inv_core _ Hinv)) as Hs. cbn in Hs.
    rewrite Hs. destruct rem; [done|]. rewrite zlen_cons. pose proof (zlen_nonneg rem). by zdec. }
  pose proof (jc_frames _ Hc) as Hfr. rewrite Eh in Hfr. apply Forall_cons in Hfr as [[_ _ Htf] _].
  destruct (last_cases st Hc) as [(E1 & E2 & E3)|(E1 & E2 & E3 & E4)]; rewrite E2; cbn [negb orb].
  - cbn [last_lseq set_jb]. rewrite bind_assert_true by done.
    rewrite bind_assert_true by done. cbn [mbind outcome_bind].
    rewrite save_last_ok by (left; done). cbn [mbind outcome_bind].
    cbn [head set_last set_ers set_jb size]. rewrite bind_assert_true by done.
    specialize (Hinv (ers_buf st)). constructor; cbn -[u32]; [|done|lia|].
    + by destruct st.
    + rewrite E3, next_out_last by done. cbn. exists (lseq fp). by split; [lia|].
  - cbn [last_lseq set_jb]. rewrite Eh in E4. apply Forall_cons in E4 as [E4 _].
    rewrite bind_assert_true by (zdec; done). rewrite bind_assert_true by done.
    destruct (insert_ers_ok (set_jb rem (u32 (size st - 1 - zlen run)) st) fp)
      as (e & ers & -> & He & Hcov'); [|apply (jc_ts _ Hc)|done|].
    { cbn. unfold LSEQ_BUDGET in *. rewrite u64_small by lia. lia. }
    cbn [last_lseq set_jb] in Hcov'. unfold LSEQ_BUDGET in E1, Hlst.
    rewrite u64_small in Hcov' by lia.
    cbn [mbind outcome_bind].
    rewrite save_last_ok by (cbn; right; lia). cbn [mbind outcome_bind].
    cbn [head set_last set_ers set_jb size]. rewrite bind_assert_true by done.
    constructor; cbn -[u32]; [apply Hinv|done|lia|].
    rewrite E3, next_out_last by done. cbn. by eapply covers_app.
Qed.

(** The counters are no part of the invariant. *)
Lemma jb_inv_jbs j st : jb_inv st → jb_inv (set_jbs j st).
Proof. intros [[] ? ?]. by constructor; [constructor|..]. Qed.

Lemma step_refl_jbs j st : jb_inv st → jb_step 0 st (set_jbs j st) [].
Proof.
  intros H. constructor; [by apply jb_inv_jbs|done|cbn; lia|apply delivers_refl].
Qed.

(** The buffer with one frame added, before it is decided whether to deliver. *)
Lemma insert_core st fp pre post m :
  jb_inv st → frame_ok (lseq_mask st) fp →
  (last_lseq st = LRS_DEFAULT ∨ last_lseq st < lseq fp) →
  insert_scan (lseq fp) (head st) = Some (pre, post) →
  m = match last post with Some p => lseq p | None => lseq fp end →
  jb_core (set_jb (pre ++ fp :: post) (u32 (size st + 1)) (set_last_max m st)) ∧
  zlen (pre ++ fp :: post) ≤ capacity st.
Proof.
  intros [[Hcap Hsize Hmask Hbud Hsort Hfr Hmax Hlast Hts] Hfull _] Hfp Hl Hs ->.
  apply insert_scan_split in Hs as (Eh & Hpre & Hpost). rewrite Eh in *.
  autorewrite with zlen in *. pose proof (zlen_nonneg pre). pose proof (zlen_nonneg post).
  split; [|lia].
  apply Forall_app in Hfr as [Hf1 Hf2].
  constructor; cbn; try done.
  - rewrite u32_small by lia. zlen.
  - by apply sorted_insert.
  - apply Forall_app. by split; [|apply Forall_cons_2].
  - rewrite last_app_cons, last_cons. by destruct (last post).
  - destruct Hlast as [|[? HF]]; [by left|]. destruct Hl as [|Hl]; [by left|].
    right. split; [done|]. apply Forall_app in HF as [? ?].
    apply Forall_app. by split; [|apply Forall_cons_2].
Qed.

(** The tail test of [insert_frame] decides what [last_max_lseq] becomes. *)
Lemma insert_tail st fp pre post :
  jb_inv st → head st ≠ [] → insert_scan (lseq fp) (head st) = Some (pre, post) →
  (match post with
   | _ :: _ => Done (set_jb (pre ++ fp :: post) (size st) st)
   | [] => _ ← ub_unless (negb (bool_decide (pre = [])));
           _ ← d_assert (last_max_lseq st <? lseq fp);
           Done (set_last_max (lseq fp) (set_jb (pre ++ [fp]) (size st) st))
   end) =
  Done (set_jb (pre ++ fp :: post) (size st)
    (set_last_max (match last post with Some p => lseq p | None => lseq fp end) st)).
Proof.
  intros Hi Hne Hs. pose proof (jc_max _ (inv_core _ Hi)) as Hm.
  apply insert_scan_split in Hs as (Eh & Hpre & _). rewrite Eh in Hm.
  destruct post as [|p post].
  - rewrite app_nil_r in *. subst pre.
    rewrite bind_unless_true by (rewrite bool_decide_eq_false_2; done).
    destruct (last (head st)) as [x|] eqn:El.
    + assert (x ∈ head st) as Hx by (apply last_Some in El as [l' ->]; set_solver).
      rewrite Forall_forall in Hpre. specialize (Hpre _ Hx).
      rewrite bind_assert_true by (zdec; done). done.
    + by apply last_None in El.
  - rewrite last_app, last_cons in Hm. rewrite last_cons.
    destruct (last post); by rewrite <- Hm; destruct st.
Qed.

Lemma insert_frame_ok st fp drp :
  jb_inv st → head st ≠ [] → frame_ok (lseq_mask st) fp →
  (last_lseq st = LRS_DEFAULT ∨ last_lseq st < lseq fp) →
  step_ok 0 st (insert_frame st fp (last_lseq st =? LRS_DEFAULT) drp).
Proof.
  intros Hi Hne Hfp Hl. unfold step_ok, insert_frame.
  destruct (insert_scan (lseq fp) (head st)) as [[pre post]|] eqn:Es.
  2:{ by apply step_refl_jbs. }
  rewrite (insert_tail _ _ _ _ Hi Hne Es). cbn [mbind outcome_bind].
  edestruct (insert_core st fp pre post) as [Hc Hle]; try done.
  cbn [head set_jb size set_last_max capacity last_lseq].
  match goal with |- context [deliver_run ?s _ _] =>
    change (jb_core s) in Hc; set (s1 := s) in * end.
  case_match eqn:Ef.
  - change (last_lseq st) with (last_lseq s1).
    assert (step_ok 0 s1 (deliver_run s1 (last_lseq s1 =? LRS_DEFAULT) drp)) as Hd.
    { apply deliver_run_ok; [done|done|by destruct pre]. }
    unfold step_ok in Hd. eapply succeeds_impl; [exact Hd|].
    intros x [H1 H2 H3 H4]. by constructor.
  - zbool. constructor; [constructor; [done| |]|done|cbn; lia|apply delivers_refl].
    + pose proof (jc_size _ Hc) as Hsz. cbn in Hsz |- *. lia.
    + destruct (last_cases _ Hc) as [(E1 & _)|(E1 & E2 & _ & E4)]; [by left|right].
      pose proof (jc_sorted _ Hc) as Hso.
      change (last_lseq st) with (last_lseq s1) in H0. rewrite E2 in H0.
      change (pre ++ fp :: post) with (head s1) in H0. cbn [fst].
      destruct (head s1) as [|h rest]; [done|]. apply Forall_cons in E4 as [E4 _].
      apply (sorted_front _ _ (λ x, last_lseq s1 + 1 < x)); [done| |intros; lia].
      unfold LSEQ_BUDGET in *. cbn [negb andb] in *. zbool.
      rewrite u64_small in * by lia. lia.
Qed.

Lemma lms_direct st fp :
  jb_inv st → head st = [] → frame_ok (lseq_mask st) fp →
  jb_inv (set_last (lseq fp) (ts (rp_info fp)) (set_last_max (lseq fp) st)).
Proof.
  intros [[Hcap Hsize Hmask Hbud Hsort Hfr Hmax Hlast Hts] Hfull _] Eh [Hf1 Hf2 Hf3].
  constructor; cbn; [constructor; cbn| |]; try done.
  - by rewrite Eh.
  - right. by rewrite Eh.
  - right. by rewrite Eh.
Qed.

Lemma lms_store st fp :
  jb_inv st → frame_ok (lseq_mask st) fp →
  (last_lseq st = LRS_DEFAULT ∨ last_lseq st + 1 < lseq fp) →
  jb_inv (set_jb [fp] 1 (set_last_max (lseq fp) st)).
Proof.
  intros [[Hcap Hsize Hmask Hbud Hsort Hfr Hmax Hlast Hts] Hfull _] Hfp Hl.
  constructor; cbn; [constructor; cbn| |]; try done.
  - by repeat constructor.
  - by apply Forall_singleton.
  - destruct Hlast as [|[? _]]; [by left|]. destruct Hl as [|Hl]; [by left|].
    right. split; [done|]. apply Forall_singleton. lia.
  - unfold zlen. cbn. lia.
  - destruct Hl; [by left|]. right. by apply Forall_singleton.
Qed.

Lemma covers_one p : covers (lseq p) (lseq p + 1) [RFT_RTP p].
Proof. repeat constructor. Qed.

Lemma lms_init_ok st fp drp :
  jb_inv st → head st = [] → frame_ok (lseq_mask st) fp →
  (last_lseq st = LRS_DEFAULT ∨ last_lseq st < lseq fp) →
  step_ok 0 st (lms_init st fp (last_lseq st =? LRS_DEFAULT) drp).
Proof.
  intros Hi Eh Hfp Hl. pose proof (inv_core _ Hi) as Hc. unfold step_ok, lms_init.
  pose proof (jc_budget _ Hc). pose proof Hfp as [Hf _ _]. unfold LSEQ_BUDGET in *.
  destruct (last_cases _ Hc) as [(E1 & E2 & E3)|(E1 & E2 & E3 & _)]; rewrite E2;
    cbn [negb andb last_lseq set_last_max]; case_match eqn:E; zbool.
  - rewrite bind_assert_true by (by rewrite E1). rewrite save_last_ok by (left; exact E1).
    cbn [mbind outcome_bind]. constructor; cbn [fst]; [by apply lms_direct|done|cbn; lia|].
    rewrite E3, next_out_last by (unfold LSEQ_BUDGET; lia).
    exists (lseq fp). split; [lia|]. apply covers_one.
  - constructor; cbn [fst]; [by apply lms_store; auto|done|cbn; lia|].
    change (delivers (next_out st) (next_out st) []). apply delivers_refl.
  - destruct Hl as [Hl|Hl]; [by rewrite Hl in E2|].
    rewrite save_last_ok by (right; exact Hl).
    cbn [mbind outcome_bind]. constructor; cbn [fst]; [by apply lms_direct|done|cbn; lia|].
    rewrite E3, next_out_last by (unfold LSEQ_BUDGET; lia).
    rewrite u64_small in E by lia.
    replace (last_lseq st + 1) with (lseq fp) by lia. apply covers_one.
  - destruct Hl as [Hl|Hl]; [by rewrite Hl in E2|]. rewrite u64_small in E by lia.
    constructor; cbn [fst]; [apply lms_store; auto; right; lia|done|cbn; lia|].
    change (delivers (next_out st) (next_out st) []). apply delivers_refl.
Qed.

(** * From the 16-bit number to the logical one *)

(** A packet that would be given a negative logical number. *)
Definition seq_underflow (st : rtpjbuf_inst) (sq : Z) : Prop :=
  last_max_lseq st ≠ LMS_DEFAULT ∧ last_max_lseq st mod 65536 < 536 ∧ 65000 < sq ∧
  lseq_mask st = 0.

Lemma mask_or st sq :
  jb_core st → 0 ≤ sq < 65536 → Z.lor (lseq_mask st) sq = lseq_mask st + sq.
Proof.
  intros Hc Hs. destruct (jc_mask _ Hc) as [H0 Hm].
  rewrite <- Z.add_lor_land.
  replace (Z.land (lseq_mask st) sq) with 0; [lia|].
  apply Z.bits_inj'. intros i Hi. rewrite Z.bits_0, Z.land_spec.
  destruct (decide (i < 16)).
  - replace (lseq_mask st) with (lseq_mask st / 65536 * 2 ^ 16) by (cbn; zlia).
    by rewrite Z.mul_pow2_bits_low by lia.
  - rewrite <- (Z.mod_small sq (2 ^ 16)) by (cbn; lia).
    rewrite Z.mod_pow2_bits_high by lia. by rewrite andb_false_r.
Qed.

Lemma jb_inv_mask st :
  jb_inv st → lseq_mask st + 131072 < LSEQ_BUDGET →
  jb_inv (set_mask (lseq_mask st + 65536) st).
Proof.
  intros [[Hcap Hsize Hmask Hbud Hsort Hfr Hmax Hlast Hts] Hfull Hg] Hb.
  constructor; cbn; [constructor; cbn|done|done]; try done.
  - split; [lia|]. zlia.
  - lia.
  - eapply Forall_impl; [exact Hfr|]. intros p. apply frame_ok_mono. lia.
  - destruct Hlast as [|[? ?]]; [by left|right]. split; [lia|done].
Qed.

Lemma unwrap_ok st sq :
  jb_inv st → lseq_mask st + 131072 < LSEQ_BUDGET → 0 ≤ sq < 65536 →
  last_max_lseq st ≠ LMS_DEFAULT → ¬ seq_underflow st sq →
  ∃ st' q, unwrap_lseq st (lseq_mask st + sq) sq = (st', q) ∧ jb_inv st' ∧
    capacity st' = capacity st ∧ head st' = head st ∧ last_lseq st' = last_lseq st ∧
    last_max_lseq st' = last_max_lseq st ∧ size st' = size st ∧
    lseq_mask st ≤ lseq_mask st' ≤ lseq_mask st + 65536 ∧
    0 ≤ q < lseq_mask st' + 65536 ∧ q mod 65536 = sq.
Proof.
  intros Hi Hb Hsq Hm Hnu. destruct (jc_mask _ (inv_core _ Hi)) as [H0 Hmod].
  unfold LSEQ_BUDGET, unwrap_lseq in *. case_match; zbool.
  - assert (lseq_mask st ≠ 0) by (intros E; apply Hnu; done).
    assert (65536 ≤ lseq_mask st) by zlia.
    rewrite u64_small by lia. exists st, (lseq_mask st + sq - 65536).
    repeat (split; [done || lia|]). zlia.
  - case_match; zbool.
    + rewrite !u64_small by lia. eexists _, _. split; [done|].
      split; [by apply jb_inv_jbs, jb_inv_mask|]. cbn.
      repeat (split; [done || lia|]). zlia.
    + exists st, (lseq_mask st + sq). repeat (split; [done || lia|]). zlia.
Qed.

(** Dropping a stale tail leaves a well-formed buffer: with a capacity of at
    least three the tail is never the only frame. *)
Lemma purge_ok st st' purged :
  jb_inv st → purge_stale_tail st = (st', purged) →
  jb_inv st' ∧ capacity st' = capacity st ∧ lseq_mask st' = lseq_mask st ∧
  last_lseq st' = last_lseq st ∧ next_out st' = next_out st.
Proof.
  intros Hi. unfold purge_stale_tail. destruct (head st) as [|h rest] eqn:Eh.
  { by intros [= <- <-]. }
  case_match eqn:Es; [by intros [= <- <-]|]. zbool.
  destruct (walk_tail h rest) as [pre t] eqn:Ew. apply walk_tail_spec in Ew.
  rewrite Ew in Eh.
  destruct Hi as [[Hcap Hsize Hmask Hbud Hsort Hfr Hmax Hlast Hts] Hfull Hg].
  rewrite u32_small in Es by lia. rewrite Eh in *. autorewrite with zlen in *.
  pose proof (sorted_before _ _ [] Hsort) as (Hlt & _ & Hspre & _).
  pose proof Hfr as [Hfp Hft]%Forall_app. rewrite Forall_singleton in Hft.
  set (t' := set_jbcnt (u64 (jbcnt t + 1)) t). cbn zeta.
  destruct (jbcnt t' <? capacity st); intros E; injection E as <- <-.
  - split; [|done]. subst t'. constructor; cbn; [constructor; cbn; try done| |].
    + zlen.
    + by apply sorted_insert; [rewrite app_nil_r| |].
    + apply Forall_app; split; [done|]. apply Forall_singleton. by apply frame_ok_aged.
    + rewrite Hmax. by rewrite !last_snoc.
    + destruct Hlast as [|[? [? Hx]%Forall_app]]; [by left|right]. split; [done|].
      apply Forall_app; split; [done|]. apply Forall_singleton. by rewrite Forall_singleton in Hx.
    + zlen.
    + destruct Hg as [|[? Hx]%Forall_app]; [by left|right].
      apply Forall_app; split; [done|]. apply Forall_singleton. by rewrite Forall_singleton in Hx.
  - rewrite last_snoc in Hmax. cbn [last_max_lseq set_jb lseq t' set_jbcnt].
    rewrite Hmax, Z.eqb_refl. split; [|done].
    constructor; cbn; [constructor; cbn; try done| |].
    + rewrite u32_small by lia. lia.
    + destruct (last pre) eqn:El; [done|]. apply last_None in El. subst pre. unfold zlen in *. cbn in *. lia.
    + destruct Hlast as [|[? [? Hx]%Forall_app]]; [by left|right]. done.
    + lia.
    + destruct Hg as [|[? Hx]%Forall_app]; [by left|right]. done.
Qed.

Lemma step_ok_from d st s1 m :
  lseq_mask st ≤ lseq_mask s1 ≤ lseq_mask st + d →
  capacity s1 = capacity st → next_out s1 = next_out st →
  step_ok 0 s1 m → step_ok d st m.
Proof.
  intros H1 H2 H3 H4. eapply succeeds_impl; [exact H4|]. intros x [? ? ? ?].
  constructor; [done|congruence|lia|by rewrite <- H3].
Qed.

Lemma last_max_default st :
  jb_core st → last_max_lseq st = LMS_DEFAULT → head st = [] ∧ last_lseq st = LRS_DEFAULT.
Proof.
  intros Hc Hm. pose proof (jc_max _ Hc) as H. destruct (last (head st)) as [p|] eqn:El.
  - pose proof (frames_budget _ Hc) as Hb. apply last_Some in El as [l El].
    rewrite El in Hb. apply Forall_app in Hb as [_ Hb]. rewrite Forall_singleton in Hb.
    unfold LMS_DEFAULT, LRS_DEFAULT, U64_MAX, LSEQ_BUDGET in *. lia.
  - apply last_None in El. split; [done|]. by rewrite <- H.
Qed.

(** What a packet must satisfy for the buffer to be able to file it. *)
Definition seq_admissible (st : rtpjbuf_inst) (sq : Z) : Prop :=
  0 ≤ sq < 65536 ∧ lseq_mask st + 131072 < LSEQ_BUDGET ∧ ¬ seq_underflow st sq.

Lemma head_assert st :
  jb_inv st →
  match head st with
  | [] => true
  | h :: _ => (last_lseq st =? LRS_DEFAULT) || (last_lseq st <? u64 (lseq h - 1))
  end = true.
Proof.
  intros Hi. pose proof (inv_core _ Hi) as Hc. pose proof (frames_budget _ Hc) as Hf.
  destruct (inv_gap _ Hi) as [Hg|Hg]; [rewrite Hg; by destruct (head st)|].
  destruct (last_cases _ Hc) as [(E1 & E2 & _)|(E1 & E2 & _)];
    rewrite E2; [by destruct (head st)|].
  destruct (head st) as [|h rest]; [done|].
  apply Forall_cons in Hg as [Hg _]. apply Forall_cons in Hf as [Hf _].
  unfold LSEQ_BUDGET in *. rewrite u64_small by lia. by zdec.
Qed.

Lemma place_ok st info data drp :
  jb_inv st → seq_admissible st (seq info) → 0 ≤ ts info < 4294967296 →
  step_ok 65536 st (place_packet st info data drp).
Proof.
  intros Hi (Hsq & Hb & Hnu) Hts. pose proof (inv_core _ Hi) as Hc.
  unfold place_packet. rewrite mask_or by done.
  pose proof (jc_mask _ Hc) as [Hm0 Hm1].
  destruct (last_max_lseq st =? LMS_DEFAULT) eqn:El; zbool.
  - destruct (last_max_default _ Hc El) as [Eh E1]. rewrite Eh.
    rewrite bind_assert_true by done.
    apply (step_ok_from _ _ st); [lia|done|done|].
    apply lms_init_ok; [done|done| |by left]. constructor; cbn; [lia|zlia|done].
  - rewrite bind_assert_true by by apply head_assert.
    destruct (unwrap_ok st (seq info)) as
      (s1 & q & -> & Hi1 & Ecap & Eh & El1 & Emax & Esz & Hm & Hq1 & Hq2); [done..|].
    assert (next_out s1 = next_out st) as En by (unfold next_out; by rewrite El1).
    apply (step_ok_from _ _ s1); [done..|]. rewrite <- El1.
    set (fp := {| rp_info := info; lseq := q; jbcnt := 0; rp_data := data |}).
    assert (frame_ok (lseq_mask s1) fp) as Hfp by by constructor.
    assert (lseq fp < LSEQ_BUDGET) as Hqb
      by (pose proof (jc_budget _ (inv_core _ Hi1)); cbn; lia).
    case_match eqn:Ew.
    { case_match; by apply step_refl_jbs. }
    assert (last_lseq s1 = LRS_DEFAULT ∨ last_lseq s1 < lseq fp) as Hl.
    { rewrite andb_false_iff in Ew. destruct Ew as [Ew|Ew]; zbool; [by left|right; lia]. }
    destruct (head s1) as [|h rest] eqn:Eh1.
    + pose proof (jc_size _ (inv_core _ Hi1)) as Hs. rewrite Eh1 in Hs.
      rewrite bind_assert_true by (by rewrite Hs).
      pose proof (jc_max _ (inv_core _ Hi1)) as Hmx. rewrite Eh1 in Hmx. cbn in Hmx.
      rewrite bind_assert_true; [by apply lms_init_ok|].
      destruct Hl as [Hl|Hl]; [by rewrite Emax, Hl in Hmx|]. zdec. done.
    + apply insert_frame_ok; [done|by rewrite Eh1|done|done].
Qed.

(** ** Flush *)

Definition first_of (cur : list rtp_packet) (ifp : rtp_packet) : rtp_packet :=
  match cur with x :: _ => x | [] => ifp end.

(** The last contiguous run of the list is what the loop ends with. *)
Lemma flush_loop_run cur ifp next drp run lst d :
  flush_loop cur ifp next drp = (run, lst, d) →
  Forall (λ p, 0 ≤ lseq p < LSEQ_BUDGET) (ifp :: next) →
  covers (lseq (first_of cur ifp)) (lseq ifp + 1) (map RFT_RTP (cur ++ [ifp])) →
  covers (lseq (first_of run lst)) (lseq lst + 1) (map RFT_RTP (run ++ [lst])) ∧
  last (ifp :: next) = Some lst ∧ first_of run lst ∈ cur ++ ifp :: next.
Proof.
  unfold LSEQ_BUDGET. revert cur ifp drp.
  induction next as [|nx next IH]; intros cur ifp drp; cbn [flush_loop].
  - intros [= <- <- <-] _ ?. repeat split; [done|]. destruct cur; set_solver.
  - intros H HF Hc. apply Forall_cons in HF as [Hfp HF]. rewrite u64_small in H by lia.
    case_match eqn:E; zbool; (edestruct IH as (H1 & H2 & H3); [exact H|done| |]).
    + replace (first_of (cur ++ [ifp]) nx) with (first_of cur ifp) by by destruct cur.
      rewrite map_app. eapply covers_app; [exact Hc|]. rewrite E. apply covers_one.
    + repeat split; [done|by rewrite <- H2|]. by rewrite <- app_assoc in H3.
    + apply covers_one.
    + repeat split; [done|by rewrite <- H2|]. apply elem_of_app. right. by right.
Qed.

Lemma flush_core st lst e :
  jb_inv st → last (head st) = Some lst →
  jb_inv (set_jb [] 0 (set_last (lseq lst) (ts (rp_info lst)) (set_ers e st))).
Proof.
  intros [[Hcap Hsize Hmask Hbud Hsort Hfr Hmax Hll Hts] Hfull Hg] Hlast.
  rewrite Hlast in Hmax. apply last_Some in Hlast as [l' El]. rewrite El in Hfr.
  apply Forall_app in Hfr as [_ [Hr1 Hr2 Hr3]%Forall_singleton].
  constructor; cbn; [constructor; cbn| |]; try done; try (by right).
  - constructor.
  - change (0 < capacity st). lia.
Qed.

Lemma flush_ok st :
  jb_inv st → step_ok 0 st (rtpjbuf_flush st).
Proof.
  intros Hi. pose proof (inv_core _ Hi) as Hc. unfold step_ok, rtpjbuf_flush.
  destruct (head st) as [|h rest] eqn:Eh.
  { constructor; [done|done|cbn; lia|apply delivers_refl]. }
  pose proof (frames_budget _ Hc) as Hb. rewrite Eh in Hb.
  pose proof (jc_frames _ Hc) as Hf. rewrite Eh in Hf.
  destruct (flush_loop [] h rest []) as [[run lst] d] eqn:El.
  destruct (flush_loop_run _ _ _ _ _ _ _ El) as (Hcov & Hlast & Hin); [done|apply covers_one|].
  fold (first_of run lst). cbn [app] in Hin. set (fp := first_of run lst) in *.
  assert (lst ∈ h :: rest) as Hlin.
  { apply last_Some in Hlast as [l' ->]. apply elem_of_app. right. by left. }
  rewrite Forall_forall in Hb, Hf. unfold LSEQ_BUDGET in *.
  pose proof (Hb _ Hin). pose proof (Hb _ Hlin). pose proof (fo_ts _ _ (Hf _ Hin)).
  pose proof (fo_ts _ _ (Hf _ Hlin)).
  pose proof (covers_le _ _ _ Hcov).
  pose proof (λ e, flush_core st lst e Hi ltac:(by rewrite Eh)) as Hinv.
  destruct (last_cases _ Hc) as [(E1 & E2 & E3)|(E1 & E2 & E3 & E4)].
  - rewrite E2, orb_true_r, bind_assert_true by done.
    destruct (insert_ers_ok st fp) as (e & ers & -> & He & Hce);
      [rewrite E1; unfold LSEQ_BUDGET; change (u64 (LRS_DEFAULT + 1)) with 0; lia|apply (jc_ts _ Hc)|done|].
    cbn [mbind outcome_bind]. rewrite save_last_ok by (by left). cbn [mbind outcome_bind].
    constructor; cbn [fst snd ready ok_result]; [apply Hinv|done|cbn; lia|].
    rewrite E3. change (next_out (set_jb [] 0 ?x)) with (next_out x).
    rewrite next_out_last by done. rewrite E1 in Hce. change (u64 (LRS_DEFAULT + 1)) with 0 in Hce.
    exists 0. split; [lia|]. by eapply covers_app.
  - rewrite Eh in E4. rewrite Forall_forall in E4. pose proof (E4 _ Hin). pose proof (E4 _ Hlin).
    assert (last_lseq st + 1 < lseq h) as Hg.
    { destruct (inv_gap _ Hi) as [Hg|Hg]; [by rewrite Hg in E2|].
      rewrite Eh in Hg. by apply Forall_cons in Hg as [? _]. }
    pose proof (Hb h ltac:(left)).
    rewrite bind_assert_true by (apply orb_true_intro; left; rewrite u64_small by lia; zdec; done).
    destruct (insert_ers_ok st fp) as (e & ers & -> & He & Hce);
      [rewrite u64_small; unfold LSEQ_BUDGET; lia|apply (jc_ts _ Hc)|done|].
    cbn [mbind outcome_bind]. rewrite save_last_ok by (right; cbn; lia). cbn [mbind outcome_bind].
    constructor; cbn [fst snd ready ok_result]; [apply Hinv|done|cbn; lia|].
    rewrite E3. change (next_out (set_jb [] 0 ?x)) with (next_out x).
    rewrite next_out_last by done. rewrite u64_small in Hce by lia.
    cbn. by eapply covers_app.
Qed.

(** ** The two entry points *)

Lemma parse_fields buf info :
  bytes_ok buf → zlen buf ≤ MAX_PACKET →
  rtp_packet_parse_raw buf (zlen buf) rtp_info_zero = Done (RTP_PARSER_OK, info) →
  0 ≤ seq info < 65536 ∧ 0 ≤ ts info < 4294967296.
Proof.
  intros Hok Hmax H. destruct (parse_ok_serialized _ _ _ Hok Hmax H) as (p & Hp & <-).
  rewrite (parse_serialize p Hp Hmax) in H. injection H as <-.
  split; [apply (wf_seq p Hp)|apply (wf_ts p Hp)].
Qed.

(** A call of the library on an instance. *)
Inductive jb_op : Type :=
| OpUdpIn (alloc : bool) (data : Z) (buf : list Z)
| OpFlush.

Definition jb_exec (st : rtpjbuf_inst) (op : jb_op) : outcome (rtpjbuf_inst * rjb_udp_in_r) :=
  match op with
  | OpUdpIn alloc data buf => rtpjbuf_udp_in st alloc data buf (zlen buf)
  | OpFlush => rtpjbuf_flush st
  end.

(** The calls the buffer is made for: the datagram is a block of bytes of a
    bounded size; its number, if it parses, is admissible. *)
Definition op_ok (st : rtpjbuf_inst) (op : jb_op) : Prop :=
  match op with
  | OpUdpIn _ _ buf =>
      bytes_ok buf ∧ zlen buf ≤ MAX_PACKET ∧
      ∀ info, rtp_packet_parse_raw buf (zlen buf) rtp_info_zero = Done (RTP_PARSER_OK, info) →
        seq_admissible (purge_stale_tail st).1 (seq info)
  | OpFlush => True
  end.

Lemma udp_in_ok st alloc data buf :
  jb_inv st → op_ok st (OpUdpIn alloc data buf) →
  step_ok 65536 st (rtpjbuf_udp_in st alloc data buf (zlen buf)).
Proof.
  intros Hi (Hb & Hm & Hadm). unfold rtpjbuf_udp_in.
  destruct (purge_stale_tail st) as [s1 purged] eqn:Ep.
  destruct (purge_ok _ _ _ Hi Ep) as (Hi1 & Ecap & Em & El & En).
  assert (∀ j, jb_step 65536 st (set_jbs j s1) []) as Hsame.
  { intros j. constructor; [by apply jb_inv_jbs|done|cbn; lia|].
    change (next_out (set_jbs j s1)) with (next_out s1). rewrite En. apply delivers_refl. }
  destruct alloc; cbn [negb].
  2:{ apply (step_ok_from _ _ s1); [lia|done|done|]. unfold step_ok. cbn.
      replace s1 with (set_jbs (jbs s1) s1) at 2 by by destruct s1. by apply step_refl_jbs. }
  destruct (parse_total buf rtp_info_zero Hb Hm) as (e & info & Hp & _).
  rewrite Hp. cbn [mbind outcome_bind]. case_match eqn:Ee.
  { apply Hsame. }
  apply negb_false_iff, bool_decide_eq_true in Ee. subst e.
  pose proof (parse_fields _ _ Hb Hm Hp) as [_ Hts]. specialize (Hadm _ Hp).
  eapply succeeds_impl; [apply (place_ok s1); done|].
  intros x [H1 H2 H3 H4]. constructor; [done|congruence|lia|by rewrite <- En].
Qed.

Lemma exec_ok st op : jb_inv st → op_ok st op → step_ok 65536 st (jb_exec st op).
Proof.
  destruct op; [apply udp_in_ok|]. intros Hi _.
  apply (step_ok_from _ _ st); [lia|done|done|]. by apply flush_ok.
Qed.

Lemma exec_done st op st' r :
  jb_inv st → op_ok st op → jb_exec st op = Done (st', r) →
  jb_step 65536 st st' (ready r).
Proof.
  intros Hi Ho He. pose proof (exec_ok st op Hi Ho) as H. unfold step_ok in H.
  by rewrite He in H.
Qed.

(** Every call that returns partitions the frames. *)
Lemma udp_in_partition (st st' : rtpjbuf_inst) (alloc : bool) (data : Z) (buf : list Z)
    (n : Z) (r : rjb_udp_in_r)
    (H : rtpjbuf_udp_in st alloc data buf n = Done (st', r)) :
  (∃ info q, alloc = true ∧ error r = 0
     ∧ rtp_packet_parse_raw buf n rtp_info_zero = Done (RTP_PARSER_OK, info)
     ∧ conserves ({| rp_info := info; lseq := q; jbcnt := 0; rp_data := data |} :: head st)
                 st' r)
  ∨ (ready r = [] ∧ conserves (head st) st' r
     ∧ (alloc = false ∧ error r = RJB_ENOMEM
        ∨ ∃ e info, rtp_packet_parse_raw buf n rtp_info_zero = Done (e, info)
            ∧ e ≠ RTP_PARSER_OK ∧ error r = rtp_parser_err_value e)).
Proof.
  unfold rtpjbuf_udp_in in H. destruct (purge_stale_tail st) as [s1 purged] eqn:Ep.
  apply purge_conserve in Ep.
  assert (∀ x, map ageless (x ++ head s1 ++ rtps (map RFT_RTP purged)) ≡ₚ
               map ageless (x ++ head st)) as Hp.
  { intros x. rewrite rtps_map, !map_app, <- Ep, map_app. done. }
  destruct alloc; cbn [negb] in H.
  2:{ right. injection H as <- <-. split; [done|]. split; [apply (Hp [])|by left]. }
  rewrite bind_done in H. destruct H as ([e info] & Hparse & H).
  case_match eqn:Ee.
  - right. injection H as <- <-. split; [done|]. split; [apply (Hp [])|right].
    rewrite negb_true_iff, bool_decide_eq_false in Ee. by exists e, info.
  - apply negb_false_iff, bool_decide_eq_true in Ee. subst e. left.
    pose proof (place_error _ _ _ _ _ _ H) as He.
    destruct (place_conserve _ _ _ _ _ _ H) as (q & Hq).
    exists info, q. repeat split; [done|done|]. unfold conserves. rewrite Hq.
    apply (Hp [_]).
Qed.

(** A life of a buffer: what it has handed out from its construction on. *)
Inductive jb_trace (cap : Z) : rtpjbuf_inst → list rtp_frame → Prop :=
| trace_new st : rtpjbuf_ctor true cap = Some st → jb_trace cap st []
| trace_step st out op st' r :
    jb_trace cap st out → op_ok st op → jb_exec st op = Done (st', r) →
    jb_trace cap st' (out ++ ready r).

Lemma ctor_inv cap st :
  3 ≤ cap < 4294967296 → rtpjbuf_ctor true cap = Some st →
  jb_inv st ∧ next_out st = None.
Proof.
  intros Hcap [= <-]. split; [|done].
  constructor; cbn; [constructor; cbn; try done; try (by left)|unfold zlen; cbn; lia|by left].
Qed.

Lemma trace_inv cap st out :
  3 ≤ cap < 4294967296 → jb_trace cap st out →
  jb_inv st ∧ capacity st = cap ∧ delivers None (next_out st) out.
Proof.
  intros Hcap. induction 1 as [st H|st out op st' r Ht (Hi & Hc & Hd) Ho He].
  - destruct (ctor_inv _ _ Hcap H) as [Hi Hn]. rewrite Hn. by injection H as <-.
  - destruct (exec_done _ _ _ _ Hi Ho He) as [Hi' Hc' _ Hd'].
    split; [done|]. split; [congruence|]. by eapply delivers_app.
Qed.
