(* ===== verification/JBufOrder.v ===== *)
(** The jitter buffer on a stream of packets: the logical numbers it recovers
    from the 16-bit ones, what comes out when packets arrive out of order, and
    the sequences of packets it does not handle. *)
From stdpp Require Import prelude list sorting.
From Stdlib Require Import ZArith Lia.
From S2P Require Import Prelude Rtp JBuf JBufProofs.
Local Open Scope Z_scope.

(** * Recovering the logical number *)

(** The multiple of 2^16 below a logical number. *)
Definition block (q : Z) : Z := q - q mod 65536.

(** The buffer's mask is the block of the greatest number it knows. *)
Definition mask_current (st : rtpjbuf_inst) : Prop :=
  last_max_lseq st ≠ LMS_DEFAULT ∧ lseq_mask st = block (last_max_lseq st).

Definition WRAP_WINDOW : Z := 535.

Lemma max_range st :
  jb_core st → last_max_lseq st ≠ LMS_DEFAULT → 0 ≤ last_max_lseq st < LSEQ_BUDGET.
Proof.
  intros Hc. rewrite (jc_max _ Hc). intros Hne.
  pose proof (frames_budget _ Hc) as Hb. destruct (last (head st)) as [p|] eqn:El.
  - apply last_Some in El as [l El]. rewrite El in Hb.
    apply Forall_app in Hb as [_ Hb]. by rewrite Forall_singleton in Hb.
  - destruct (last_cases _ Hc) as [(E1 & _)|(E1 & _)]; [by rewrite E1 in Hne|done].
Qed.

(** The state after the number is recovered. *)
Definition unwrapped (st : rtpjbuf_inst) (q : Z) : rtpjbuf_inst :=
  if block (last_max_lseq st) <? block q then
    set_jbs (count_wup (jbs st)) (set_mask (block q) st)
  else st.

Lemma unwrap_true st q :
  jb_core st → mask_current st → 0 ≤ q < LSEQ_BUDGET →
  last_max_lseq st - WRAP_WINDOW ≤ q ≤ last_max_lseq st + WRAP_WINDOW →
  unwrap_lseq st (lseq_mask st + q mod 65536) (q mod 65536) = (unwrapped st q, q).
Proof.
  unfold WRAP_WINDOW, LSEQ_BUDGET, unwrapped, unwrap_lseq, block.
  intros Hc [Hne ->] Hq Hw. pose proof (max_range _ Hc Hne) as Hm.
  unfold block, LSEQ_BUDGET in *. set (m := last_max_lseq st) in *. clearbody m.
  case_match eqn:E1; zbool.
  - rewrite u64_small by zlia. rewrite (proj2 (Z.ltb_ge _ _)) by zlia. f_equal. zlia.
  - rewrite andb_false_iff in E1. case_match eqn:E2; zbool.
    + rewrite (u64_small (m - 65000)) in * by lia. rewrite !u64_small by zlia.
      rewrite (proj2 (Z.ltb_lt (m - m mod 65536) _)) by zlia.
      f_equal; [do 2 f_equal|]; zlia.
    + rewrite andb_false_iff in E2.
      assert (q - q mod 65536 = m - m mod 65536) as Eb.
      { destruct (decide (65000 < m)).
        - rewrite u64_small in E2 by lia. destruct E1, E2; zbool; zlia.
        - destruct E1; zbool; zlia. }
      rewrite Eb, Z.ltb_irrefl. f_equal. lia.
Qed.

(** * Packets inside the window *)

Lemma deliver_run_next s drp st' r fp rest :
  deliver_run s false drp = Done (st', r) →
  head s = fp :: rest → u64 (last_lseq s + 1) = lseq fp →
  ∃ l, r = ok_result (map RFT_RTP l) drp ∧ head s = l ++ head st' ∧
       last_max_lseq st' = last_max_lseq s ∧ lseq_mask st' = lseq_mask s.
Proof.
  intros H Eh E. unfold deliver_run in H. rewrite Eh in *.
  destruct (take_run fp rest) as [[run lst] rem] eqn:Er.
  apply take_run_split in Er. rewrite Er.
  rewrite !bind_assert_done in H. destruct H as (_ & _ & H).
  unfold insert_ers_frame in H. cbn [negb last_lseq set_jb] in H.
  rewrite (proj2 (Z.eqb_eq _ _) E) in H. cbn [mbind outcome_bind] in H.
  unfold save_last in H. run_in H. run_in Erun. injection Erun as <-. injection H as <- <-.
  exists (run ++ [lst]). repeat split. cbn. by rewrite <- app_assoc.
Qed.

Definition lseqs (l : list rtp_packet) : list Z := map lseq l.

Lemma insert_scan_fresh q l :
  q ∉ lseqs l → ∃ pre post, insert_scan q l = Some (pre, post).
Proof.
  induction l as [|p l IH]; intros H; [by exists [], []|].
  cbn in *. apply not_elem_of_cons in H as [H1 H2].
  case_match eqn:E1; zbool; [|case_match eqn:E2; zbool; [lia|by eexists _, _]].
  destruct (IH H2) as (pre & post & ->). by eexists _, _.
Qed.

Lemma unwrapped_fields st q :
  jb_inv st → lseq_mask st + 131072 < LSEQ_BUDGET → mask_current st →
  q ≤ last_max_lseq st + WRAP_WINDOW →
  jb_inv (unwrapped st q) ∧ head (unwrapped st q) = head st ∧
  last_lseq (unwrapped st q) = last_lseq st ∧ size (unwrapped st q) = size st ∧
  last_max_lseq (unwrapped st q) = last_max_lseq st ∧
  capacity (unwrapped st q) = capacity st ∧
  lseq_mask (unwrapped st q) = block (Z.max (last_max_lseq st) q).
Proof.
  intros Hi Hb [Hne Hm] Hq. unfold unwrapped, WRAP_WINDOW in *. case_match eqn:E; zbool.
  - cbn. unfold block in *. split; [|repeat split; f_equal; try zlia; f_equal; zlia].
    apply jb_inv_jbs. replace (q - q mod 65536) with (lseq_mask st + 65536) by zlia.
    by apply jb_inv_mask.
  - repeat split; [apply Hi..|]. rewrite Hm. unfold block in *. zlia.
Qed.

(** One packet of the window, not seen before, with room in the buffer. *)
Definition arrives (st st' : rtpjbuf_inst) (fp : rtp_packet) (l : list rtp_packet) : Prop :=
  jb_inv st' ∧ mask_current st' ∧ capacity st' = capacity st ∧
  last_max_lseq st' = Z.max (last_max_lseq st) (lseq fp) ∧
  l ++ head st' ≡ₚ fp :: head st ∧
  delivers (next_out st) (next_out st') (map RFT_RTP l).

Lemma arrives_intro st s1 st' fp l drp m :
  next_out s1 = next_out st → capacity s1 = capacity st →
  step_ok 0 s1 m → m = Done (st', ok_result (map RFT_RTP l) drp) →
  lseq_mask s1 = block (Z.max (last_max_lseq st) (lseq fp)) →
  last_max_lseq st' = Z.max (last_max_lseq st) (lseq fp) → Z.max (last_max_lseq st) (lseq fp) < LSEQ_BUDGET →
  l ++ head st' ≡ₚ fp :: head st →
  arrives st st' fp l.
Proof.
  intros Hn Hc Hs -> Hm Hmax Hb Hp. unfold step_ok in Hs. destruct Hs as [H1 H2 H3 H4].
  cbn in *. split; [done|]. split; [split|].
  - rewrite Hmax. unfold LSEQ_BUDGET, LMS_DEFAULT, LRS_DEFAULT, U64_MAX in *. lia.
  - rewrite Hmax, <- Hm. lia.
  - repeat split; [congruence|done|done|]. by rewrite <- Hn.
Qed.

Lemma lms_init_arrives st s1 fp drp :
  next_out s1 = next_out st → capacity s1 = capacity st → head s1 = [] → head st = [] →
  jb_inv s1 → frame_ok (lseq_mask s1) fp → 0 ≤ last_lseq s1 < lseq fp → lseq fp < LSEQ_BUDGET →
  lseq_mask s1 = block (Z.max (last_max_lseq st) (lseq fp)) →
  last_max_lseq st ≤ lseq fp →
  ∃ st' l, lms_init s1 fp false drp = Done (st', ok_result (map RFT_RTP l) drp) ∧
           arrives st st' fp l.
Proof.
  intros Hn Hcap Eh1 Eh Hi Hf Hl Hb Hm Hmax.
  assert ((last_lseq s1 =? LRS_DEFAULT) = false) as Ew.
  { unfold LSEQ_BUDGET, LRS_DEFAULT, U64_MAX in *. by zdec. }
  pose proof (lms_init_ok s1 fp drp Hi Eh1 Hf ltac:(right; lia)) as Hok. rewrite Ew in Hok.
  unfold LSEQ_BUDGET in *. unfold lms_init in *. cbn [negb andb last_lseq set_last_max] in *.
  rewrite u64_small in * by lia.
  case_match eqn:E; zbool.
  - rewrite save_last_ok in * by (right; cbn; lia). cbn [mbind outcome_bind] in *.
    eexists _, [fp]. split; [done|].
    eapply (arrives_intro st s1 _ fp [fp]); try done.
    + cbn. lia.
    + unfold LSEQ_BUDGET. lia.
    + cbn. by rewrite Eh1, Eh.
  - eexists _, []. split; [done|].
    eapply (arrives_intro st s1 _ fp []); try done.
    + cbn. lia.
    + unfold LSEQ_BUDGET. lia.
    + cbn. by rewrite Eh.
Qed.

Lemma insert_tail_max s fp pre post :
  jb_inv s → insert_scan (lseq fp) (head s) = Some (pre, post) → head s ≠ [] →
  match last post with Some p => lseq p | None => lseq fp end =
  Z.max (last_max_lseq s) (lseq fp).
Proof.
  intros Hi (Es & Hpre & Hpost)%insert_scan_split Hne.
  pose proof (jc_sorted _ (inv_core _ Hi)) as Hso.
  pose proof (jc_max _ (inv_core _ Hi)) as Hjm. rewrite Es in Hso, Hjm, Hne.
  rewrite last_app in Hjm. destruct (last post) as [p|] eqn:Elp.
  - apply last_Some in Elp as [l' ->]. apply StronglySorted_app in Hso as (_ & _ & Hso).
    assert (lseq fp < lseq p); [|lia]. destruct l' as [|h l']; [done|].
    cbn in *. apply StronglySorted_cons in Hso as [Hso _].
    apply Forall_app in Hso as [_ Hso]. rewrite Forall_singleton in Hso.
    unfold lseq_lt in Hso. lia.
  - apply last_None in Elp. subst post. rewrite app_nil_r in *.
    destruct (last pre) as [p|] eqn:Elp; [|by apply last_None in Elp].
    apply last_Some in Elp as [l' ->].
    apply Forall_app in Hpre as [_ Hpre]. rewrite Forall_singleton in Hpre. lia.
Qed.

Lemma insert_frame_arrives st s1 fp drp :
  next_out s1 = next_out st → capacity s1 = capacity st → head s1 = head st →
  head st ≠ [] → last_max_lseq s1 = last_max_lseq st →
  jb_inv s1 → frame_ok (lseq_mask s1) fp → 0 ≤ last_lseq s1 < lseq fp → lseq fp < LSEQ_BUDGET →
  last_max_lseq st < LSEQ_BUDGET →
  lseq_mask s1 = block (Z.max (last_max_lseq st) (lseq fp)) →
  lseq fp ∉ lseqs (head st) → zlen (head st) + 1 < capacity st →
  ∃ st' l, insert_frame s1 fp false drp = Done (st', ok_result (map RFT_RTP l) drp) ∧
           arrives st st' fp l.
Proof.
  intros Hn Hcap Eh Hne Hmx Hi Hf Hl Hb Hmb Hm Hfresh Hroom.
  assert ((last_lseq s1 =? LRS_DEFAULT) = false) as Ew.
  { unfold LSEQ_BUDGET, LRS_DEFAULT, U64_MAX in *. by zdec. }
  pose proof (insert_frame_ok s1 fp drp Hi ltac:(by rewrite Eh) Hf ltac:(right; lia)) as Hok.
  rewrite Ew in Hok. destruct (insert_scan_fresh _ _ Hfresh) as (pre & post & Hs).
  rewrite <- Eh in Hs. unfold insert_frame in *. rewrite Hs in *.
  rewrite (insert_tail _ _ _ _ Hi ltac:(by rewrite Eh) Hs) in *. cbn [mbind outcome_bind] in *.
  set (m := match last post with Some p => lseq p | None => lseq fp end) in *.
  assert (m = Z.max (last_max_lseq st) (lseq fp)) as Em.
  { rewrite <- Hmx. by eapply insert_tail_max; [..|rewrite Eh]. }
  apply insert_scan_split in Hs as (Es & _ & _).
  assert (pre ++ fp :: post ≡ₚ fp :: head st) as Hperm.
  { rewrite <- Eh, Es. by rewrite <- Permutation_middle. }
  pose proof (jc_size _ (inv_core _ Hi)) as Hsz. rewrite Eh in Hsz.
  pose proof (jc_cap _ (inv_core _ Hi)) as Hc0. pose proof (zlen_nonneg (head st)).
  cbn [size capacity set_jb head set_last_max negb andb last_lseq] in *.
  rewrite u32_small in * by lia. rewrite (proj2 (Z.eqb_neq (size s1 + 1) _)) in * by lia.
  cbn [orb] in *. unfold LSEQ_BUDGET in Hb. rewrite u64_small in * by lia.
  set (s2 := set_jb (pre ++ fp :: post) (size s1 + 1) _) in *.
  destruct (match pre ++ fp :: post with [] => _ | _ => _ end) eqn:Ef in *.
  - destruct (pre ++ fp :: post) as [|h rest] eqn:Ep; [done|]. zbool.
    destruct (deliver_run s2 false drp) as [[st' r]| | |] eqn:Ed; try done.
    edestruct (deliver_run_next s2) as (l & Er & El & Em' & Emk); [exact Ed|done| |].
    { cbn. rewrite u64_small by lia. lia. }
    subst r. exists st', l. split; [done|].
    eapply (arrives_intro st s1); [done|done|exact Hok|done|done|by rewrite Em', <- Em| |].
    { unfold LSEQ_BUDGET in *. lia. }
    rewrite <- El. done.
  - eexists _, []. split; [done|].
    eapply (arrives_intro st s1 _ fp []); [done|done|exact Hok|done|done|done| |done].
    unfold LSEQ_BUDGET in *. lia.
Qed.

Lemma place_arrives st info data q drp :
  jb_inv st → mask_current st → lseq_mask st + 131072 < LSEQ_BUDGET →
  0 ≤ last_lseq st < q → q < LSEQ_BUDGET → seq info = q mod 65536 → 0 ≤ ts info < 4294967296 →
  last_max_lseq st - WRAP_WINDOW ≤ q ≤ last_max_lseq st + WRAP_WINDOW →
  q ∉ lseqs (head st) → zlen (head st) + 1 < capacity st →
  let fp := {| rp_info := info; lseq := q; jbcnt := 0; rp_data := data |} in
  ∃ st' l, place_packet st info data drp = Done (st', ok_result (map RFT_RTP l) drp) ∧
           arrives st st' fp l.
Proof.
  intros Hi Hm Hb Hl Hq Hs Ht Hw Hfresh Hroom fp. pose proof (inv_core _ Hi) as Hc.
  pose proof (unwrap_true st q Hc Hm ltac:(lia) Hw) as Hu.
  destruct (unwrapped_fields st q Hi Hb Hm ltac:(lia)) as (Hi' & Eh & El & Es & Ex & Ec & Em).
  pose proof (max_range _ Hc (proj1 Hm)) as Hr.
  unfold place_packet. rewrite Hs, mask_or by (done || by apply Z.mod_pos_bound).
  rewrite (proj2 (Z.eqb_neq (last_max_lseq st) _) (proj1 Hm)).
  rewrite bind_assert_true by by apply head_assert.
  assert ((last_lseq st =? LRS_DEFAULT) = false) as Ew.
  { unfold LSEQ_BUDGET, LRS_DEFAULT, U64_MAX in *. by zdec. }
  rewrite Ew, Hu. cbn zeta. fold fp. cbn [negb andb]. rewrite El.
  rewrite (proj2 (Z.leb_gt (lseq fp) _)) by (cbn; lia).
  assert (frame_ok (lseq_mask (unwrapped st q)) fp) as Hf.
  { constructor; [|done|done]. rewrite Em. unfold block. cbn. zlia. }
  assert (next_out (unwrapped st q) = next_out st) as En by (unfold next_out; by rewrite El).
  destruct (head (unwrapped st q)) as [|h rest] eqn:Eh'.
  - pose proof (jc_size _ (inv_core _ Hi')) as Hsz. rewrite Eh' in Hsz.
    pose proof (jc_max _ Hc) as Hmx. rewrite <- Eh in Hmx. cbn in Hmx.
    rewrite bind_assert_true by (by rewrite Hsz).
    rewrite bind_assert_true by (rewrite Ex, Hmx; cbn; zdec; done).
    apply lms_init_arrives; try done; [by rewrite El|cbn; lia].
  - apply insert_frame_arrives; try done; [by rewrite Eh'|by rewrite <- Eh|by rewrite El|lia].
Qed.

(** * A burst of packets in any order *)

(** Several calls in a row: the final state, what they handed out, what they
    dropped. *)
Fixpoint jb_run (st : rtpjbuf_inst) (ops : list jb_op)
    : outcome (rtpjbuf_inst * list rtp_frame * list rtp_frame) :=
  match ops with
  | [] => Done (st, [], [])
  | op :: ops =>
      x ← jb_exec st op;
      y ← jb_run x.1 ops;
      Done (y.1.1, ready x.2 ++ y.1.2, drop_ x.2 ++ y.2)
  end.

Lemma covers_rtps a b l :
  covers a b (map RFT_RTP l) → lseqs l = seqZ a (b - a).
Proof.
  unfold lseqs. revert a. induction l as [|p l IH]; intros a; cbn.
  - intros H. inversion H; subst. by rewrite Z.sub_diag.
  - intros H. inversion H as [|? ? ? Hc Ea|]; subst. pose proof (covers_le _ _ _ Hc).
    rewrite (IH _ Hc), (seqZ_cons (lseq p)) by lia. do 2 f_equal; lia.
Qed.

Lemma purge_roomy st :
  jb_inv st → zlen (head st) + 1 < capacity st → purge_stale_tail st = (st, []).
Proof.
  intros [[Hc Hs _ _ _ _ _ _ _] _ _] H. pose proof (zlen_nonneg (head st)).
  unfold purge_stale_tail. destruct (head st) eqn:Eh; [done|].
  rewrite u32_small by lia. rewrite Hs. by zdec.
Qed.

Section burst.
Context (pkt : Z → packet) (addr : Z → Z) (n k : Z).
Hypothesis pkt_wf : ∀ q, packet_wf (pkt q).
Hypothesis pkt_short : ∀ q, zlen (serialize (pkt q)) ≤ MAX_PACKET.
Hypothesis pkt_num : ∀ q, pk_seq (pkt q) = q mod 65536.
Hypothesis budget : 0 ≤ n ∧ n + 131072 + WRAP_WINDOW < LSEQ_BUDGET.

(** The datagram of the packet numbered [q], and the frame it becomes. *)
Definition burst_op (q : Z) : jb_op := OpUdpIn true (addr q) (serialize (pkt q)).
Definition burst_frame (q : Z) : rtp_packet :=
  {| rp_info := packet_info (pkt q); lseq := q; jbcnt := 0; rp_data := addr q |}.

(** Of the packets [n+1 .. n+k], those in [rs] have arrived and [out] has been
    handed out. *)
Record burst_inv (st : rtpjbuf_inst) (rs : list Z) (out : list rtp_packet) : Prop := {
  bi_inv : jb_inv st;
  bi_mask : mask_current st;
  bi_cap : k < capacity st;
  bi_max : n ≤ last_max_lseq st ≤ n + k;
  bi_frames : out ++ head st ≡ₚ map burst_frame rs;
  bi_out : delivers (Some (n + 1)) (next_out st) (map RFT_RTP out);
}.

Lemma lseqs_burst rs : lseqs (map burst_frame rs) = rs.
Proof. unfold lseqs. rewrite map_map. by rewrite map_id. Qed.

Lemma burst_last st rs out :
  burst_inv st rs out →
  n ≤ last_lseq st < LSEQ_BUDGET ∧ lseqs out = seqZ (n + 1) (last_lseq st - n).
Proof.
  intros [Hi _ _ _ _ Ho].
  destruct (last_cases _ (inv_core _ Hi)) as [(_ & _ & E)|(H1 & _ & E & _)];
    rewrite E in Ho; [done|]. cbn in Ho. pose proof (covers_le _ _ _ Ho).
  split; [lia|]. rewrite (covers_rtps _ _ _ Ho). f_equal. lia.
Qed.

Lemma burst_fresh st rs out q :
  burst_inv st rs out → n < q → q ∉ rs →
  last_lseq st < q ∧ q ∉ lseqs (head st).
Proof.
  intros Hb Hq Hn. destruct (burst_last _ _ _ Hb) as [Hl Hout].
  assert (∀ x, x ∈ lseqs out ++ lseqs (head st) → x ∈ rs) as Hin.
  { intros x. unfold lseqs. rewrite <- map_app. fold (lseqs (out ++ head st)).
    rewrite <- (lseqs_burst rs). intros Hx. unfold lseqs. rewrite <- (bi_frames _ _ _ Hb). done. }
  split.
  - destruct (decide (last_lseq st < q)); [done|]. destruct Hn. apply Hin, elem_of_app.
    left. rewrite Hout. apply elem_of_seqZ. lia.
  - intros H. apply Hn, Hin, elem_of_app. by right.
Qed.

Lemma burst_step st rs out q :
  burst_inv st rs out → 0 ≤ k ≤ WRAP_WINDOW → n < q ≤ n + k → q ∉ rs → zlen rs < k →
  ∃ st' l, jb_exec st (burst_op q) = Done (st', ok_result (map RFT_RTP l) []) ∧
           burst_inv st' (q :: rs) (out ++ l).
Proof.
  intros Hb Hk Hq Hn Hlen. destruct (burst_fresh st rs out q Hb ltac:(lia) Hn) as [Hlq Hfresh].
  destruct (burst_last _ _ _ Hb) as [Hl _]. pose proof Hb as [Hi Hm Hcap Hmax Hf Ho].
  assert (zlen (head st) + 1 < capacity st) as Hroom.
  { assert (zlen (out ++ head st) = zlen rs) as Hz.
    { unfold zlen. rewrite Hf. by rewrite length_map. }
    autorewrite with zlen in Hz. pose proof (zlen_nonneg out). lia. }
  pose proof (wf_ts _ (pkt_wf q)) as Hts. unfold WRAP_WINDOW, LSEQ_BUDGET in *.
  cbn [jb_exec burst_op]. unfold rtpjbuf_udp_in.
  rewrite (purge_roomy _ Hi Hroom). cbn [negb map].
  rewrite (parse_serialize (pkt q) (pkt_wf q) (pkt_short q)). cbn [mbind outcome_bind].
  rewrite bool_decide_eq_true_2 by done. cbn [negb].
  destruct (place_arrives st (packet_info (pkt q)) (addr q) q []) as (st' & l & Hp & Ha);
    try done; try (unfold WRAP_WINDOW, LSEQ_BUDGET in *; lia).
  { rewrite (proj2 Hm). unfold block, LSEQ_BUDGET. zlia. }
  { by apply pkt_num. }
  exists st', l. split; [exact Hp|].
  destruct Ha as (Hi' & Hm' & Hc' & Hmx' & Hperm & Hd). constructor; [done|done|lia| | |].
  - rewrite Hmx'. cbn. lia.
  - rewrite <- app_assoc, Hperm. rewrite <- Permutation_middle. cbn. by rewrite Hf.
  - rewrite map_app. by eapply delivers_app.
Qed.

Lemma burst_run st rs out qs :
  burst_inv st rs out → 0 ≤ k ≤ WRAP_WINDOW → qs ++ rs ≡ₚ seqZ (n + 1) k →
  ∃ st' l, jb_run st (map burst_op qs) = Done (st', map RFT_RTP l, []) ∧
           burst_inv st' (rev qs ++ rs) (out ++ l).
Proof.
  intros Hb Hk. revert st rs out Hb. induction qs as [|q qs IH]; intros st rs out Hb Hp.
  { exists st, []. by rewrite app_nil_r. }
  assert (NoDup ((q :: qs) ++ rs)) as Hnd by (rewrite Hp; apply NoDup_seqZ).
  assert (q ∈ seqZ (n + 1) k) as Hq by (rewrite <- Hp; by left).
  apply elem_of_seqZ in Hq.
  assert (zlen ((q :: qs) ++ rs) = k) as Hz.
  { unfold zlen. rewrite Hp, length_seqZ. lia. }
  autorewrite with zlen in Hz. pose proof (zlen_nonneg qs).
  cbn in Hnd. apply NoDup_cons in Hnd as [Hq' _].
  destruct (burst_step st rs out q) as (s1 & l1 & He & Hb1); [done|done|lia| |lia|].
  { intros Hin. apply Hq', elem_of_app. by right. }
  destruct (IH s1 (q :: rs) (out ++ l1) Hb1) as (s2 & l2 & Hr & Hb2).
  { rewrite <- Hp. by rewrite <- Permutation_middle. }
  exists s2, (l1 ++ l2). cbn [map jb_run]. rewrite He. cbn [mbind outcome_bind fst].
  rewrite Hr. cbn. split; [by rewrite map_app|]. rewrite <- app_assoc in Hb2.
  by rewrite <- app_assoc.
Qed.

(** When all of them have arrived, all have been handed out. *)
Lemma burst_complete st rs out :
  burst_inv st rs out → rs ≡ₚ seqZ (n + 1) k → 0 ≤ k →
  out = map burst_frame (seqZ (n + 1) k) ∧ head st = [] ∧ last_lseq st = n + k.
Proof.
  intros Hb Hp Hk. destruct (burst_last _ _ _ Hb) as [Hl Hout].
  pose proof Hb as [Hi _ _ Hmax Hf _].
  assert (head st = []) as Eh.
  { destruct (head st) as [|h rest] eqn:Eh; [done|exfalso].
    destruct (inv_gap _ Hi) as [Hg|Hg]; [by rewrite Hg in Hl; destruct Hl|].
    rewrite Eh in Hg. apply Forall_cons in Hg as [Hg Hg'].
    assert (lseqs (out ++ h :: rest) ≡ₚ seqZ (n + 1) k) as Hls.
    { unfold lseqs at 1. rewrite Hf. fold (lseqs (map burst_frame rs)). by rewrite lseqs_burst. }
    unfold lseqs in Hls. rewrite map_app in Hls. fold (lseqs out) in Hls. rewrite Hout in Hls.
    assert (lseq h ∈ seqZ (n + 1) k) as Hh.
    { rewrite <- Hls. apply elem_of_app. right. by left. }
    apply elem_of_seqZ in Hh.
    assert (last_lseq st + 1 ∈ seqZ (n + 1) k) as Hx by (apply elem_of_seqZ; lia).
    rewrite <- Hls in Hx. apply elem_of_app in Hx as [Hx|Hx].
    - apply elem_of_seqZ in Hx. lia.
    - cbn in Hx. apply elem_of_cons in Hx as [Hx|Hx]; [lia|].
      apply list_elem_of_fmap in Hx as (p & Ex & Hin). rewrite Forall_forall in Hg'.
      specialize (Hg' _ Hin). cbn in Hg'. lia. }
  rewrite Eh, app_nil_r in Hf. assert (last_lseq st = n + k) as El.
  { assert (zlen (lseqs out) = zlen rs) as Hz.
    { unfold zlen, lseqs. rewrite length_map, Hf. by rewrite length_map. }
    rewrite Hout in Hz. unfold zlen in Hz. rewrite Hp in Hz. rewrite !length_seqZ in Hz. lia. }
  split; [|done].
  assert (∀ l, l ≡ₚ map burst_frame rs → l = map burst_frame (lseqs l)) as Hall.
  { intros l' Hl'. unfold lseqs. rewrite map_map. rewrite <- (map_id l') at 1.
    apply map_ext_in. intros p Hin. rewrite <- list_elem_of_In, Hl' in Hin.
    apply list_elem_of_fmap in Hin as (q & -> & _). done. }
  rewrite (Hall _ Hf), Hout. do 2 f_equal. lia.
Qed.
End burst.

(** * Duplicates and late packets *)

Lemma insert_scan_seen q l : q ∈ lseqs l → StronglySorted lseq_lt l → insert_scan q l = None.
Proof.
  unfold lseqs. induction l as [|p l IH]; cbn; [by intros ?%not_elem_of_nil|].
  intros Hq Hs. apply StronglySorted_cons in Hs as [Hp Hs].
  apply elem_of_cons in Hq as [->|Hq].
  - by rewrite Z.ltb_irrefl, Z.eqb_refl.
  - rewrite (IH Hq Hs). apply list_elem_of_fmap in Hq as (x & -> & Hx).
    rewrite Forall_forall in Hp. specialize (Hp _ Hx). unfold lseq_lt in Hp. by zdec.
Qed.

(** What the counters become when a packet already seen is dropped. *)
Definition count_seen (q last : Z) (s : rtpjbuf_stats) : rtpjbuf_stats :=
  if q <? last then count_late s else count_dup s.

Lemma place_seen st info data q drp :
  jb_inv st → mask_current st →
  0 ≤ last_lseq st < LSEQ_BUDGET → 0 ≤ q ≤ last_max_lseq st → last_lseq st - q < 2147483648 →
  q ≤ last_lseq st ∨ q ∈ lseqs (head st) →
  unwrap_lseq st (lseq_mask st + seq info) (seq info) = (st, q) → 0 ≤ seq info < 65536 →
  let fp := {| rp_info := info; lseq := q; jbcnt := 0; rp_data := data |} in
  place_packet st info data drp =
    Done (set_jbs (count_seen q (last_lseq st) (jbs st)) st, ok_result [] (RFT_RTP fp :: drp)).
Proof.
  intros Hi Hm Hl Hq Hnear Hseen Hu Hsq fp. pose proof (inv_core _ Hi) as Hc.
  unfold place_packet. rewrite mask_or by done.
  rewrite (proj2 (Z.eqb_neq (last_max_lseq st) _) (proj1 Hm)).
  rewrite bind_assert_true by by apply head_assert. rewrite Hu. cbn zeta. fold fp.
  assert ((last_lseq st =? LRS_DEFAULT) = false) as Ew.
  { unfold LSEQ_BUDGET, LRS_DEFAULT, U64_MAX in *. by zdec. }
  rewrite Ew. cbn [negb andb]. unfold count_seen.
  change (lseq fp) with q. destruct (q <=? last_lseq st) eqn:El; zbool.
  - rewrite s32_small by (unfold INT_MIN, INT_MAX; lia).
    case_match eqn:E; zbool; unfold gotdup; by zdec.
  - destruct Hseen as [|Hseen]; [lia|]. zdec.
    destruct (head st) as [|h rest] eqn:Eh; [by apply not_elem_of_nil in Hseen|].
    unfold insert_frame. rewrite Eh. change (lseq fp) with q.
    rewrite (insert_scan_seen q); [done|done|].
    rewrite <- Eh. apply (jc_sorted _ Hc).
Qed.

(** A packet that follows a gap longer than the window across a wrap of the
    16-bit number is taken for an old one. *)
Lemma unwrap_missed_wrap st sq :
  jb_core st → mask_current st → 65000 ≤ last_max_lseq st mod 65536 →
  last_max_lseq st mod 65536 - 65000 ≤ sq ≤ last_max_lseq st mod 65536 →
  unwrap_lseq st (lseq_mask st + sq) sq = (st, lseq_mask st + sq).
Proof.
  intros Hc [Hne Hm] H1 H2. pose proof (max_range _ Hc Hne). unfold LSEQ_BUDGET in *.
  unfold unwrap_lseq. rewrite Hm. unfold block in *. rewrite (proj2 (Z.ltb_ge _ 536)) by lia.
  cbn [andb]. destruct (65000 <? last_max_lseq st) eqn:E; cbn [andb]; [|done]. zbool.
  rewrite u64_small by lia. by rewrite (proj2 (Z.ltb_ge _ _)) by zlia.
Qed.

(** ** What a flush drops *)


(** * Properties *)

(** C2: a life of a jitter buffer never aborts. Whatever well-formed calls a
    buffer of capacity at least three has been through since its construction,
    the next one returns: no [d_assert] fires, no division by zero, no access
    through a null list; and its deliveries extend the ones before. *)
Theorem jbuf_call_safe (cap : Z) (st : rtpjbuf_inst) (out : list rtp_frame) (op : jb_op)
    (Hcap : 3 ≤ cap < 4294967296) (Ht : jb_trace cap st out) (Hop : op_ok st op) :
  ∃ st' r, jb_exec st op = Done (st', r) ∧ jb_trace cap st' (out ++ ready r)
    ∧ size st' = zlen (head st') ∧ size st' < cap.
Proof.
  destruct (trace_inv _ _ _ Hcap Ht) as (Hi & Hc & _).
  pose proof (exec_ok st op Hi Hop) as He. unfold step_ok in He.
  destruct (jb_exec st op) as [[st' r]| | |] eqn:E; try done.
  exists st', r. destruct He as [Hi' Hc' _ _]. cbn in *.
  split; [done|]. split; [by eapply trace_step|].
  rewrite (jc_size _ (inv_core _ Hi')). split; [done|].
  pose proof (inv_full _ Hi'). congruence.
Qed.

(** C1: what a jitter buffer hands out over its life is a gapless, ordered
    account of a range of logical numbers: each number once, as the packet or
    inside a frame of lost numbers, up to the last number it remembers. *)
Theorem jbuf_delivers_in_order (cap : Z) (st : rtpjbuf_inst) (out : list rtp_frame)
    (Hcap : 3 ≤ cap < 4294967296) (Ht : jb_trace cap st out) :
  if last_lseq st =? LRS_DEFAULT then out = []
  else ∃ a, 0 ≤ a ≤ last_lseq st ∧ covers a (last_lseq st + 1) out.
Proof.
  destruct (trace_inv _ _ _ Hcap Ht) as (Hi & _ & Hd). unfold next_out in Hd.
  case_match; [done|]. destruct Hd as (a & Ha & Hd). exists a. by split; [lia|].
Qed.

(** C9: no frame leaks and none is handed back twice. Every call that returns
    partitions the frames that were buffered and the frame that came in (if it
    parsed) into delivered, dropped and still buffered frames; a packet that
    does not parse, or finds no memory, changes nothing but for a stale frame
    that may fall out. *)
Theorem udp_in_conserves (st st' : rtpjbuf_inst) (alloc : bool) (data : Z) (buf : list Z)
    (n : Z) (r : rjb_udp_in_r)
    (H : rtpjbuf_udp_in st alloc data buf n = Done (st', r)) :
  (∃ info q, alloc = true ∧ error r = 0
     ∧ rtp_packet_parse_raw buf n rtp_info_zero = Done (RTP_PARSER_OK, info)
     ∧ conserves ({| rp_info := info; lseq := q; jbcnt := 0; rp_data := data |} :: head st)
                 st' r)
  ∨ (ready r = [] ∧ conserves (head st) st' r
     ∧ (alloc = false ∧ error r = RJB_ENOMEM
        ∨ ∃ e info, rtp_packet_parse_raw buf n rtp_info_zero = Done (e, info)
            ∧ e ≠ RTP_PARSER_OK ∧ error r = rtp_parser_err_value e)).
Proof. by apply udp_in_partition. Qed.

(** C3: reordering is undone. When the buffer is empty and has delivered number
    [n], the packets numbered [n+1 .. n+k] may arrive in any order: if [k] is
    smaller than the capacity and at most 535, all of them are handed out, once
    each, in order, across wraps of the 16-bit number, none is dropped and none
    is reported lost. *)
Theorem jbuf_reorders (pkt : Z → packet) (addr : Z → Z) (st : rtpjbuf_inst) (n k : Z)
    (qs : list Z)
    (Hwf : ∀ q, packet_wf (pkt q)) (Hlen : ∀ q, zlen (serialize (pkt q)) ≤ MAX_PACKET)
    (Hnum : ∀ q, pk_seq (pkt q) = q mod 65536)
    (Hinv : jb_inv st) (Hmask : mask_current st) (Hempty : head st = [])
    (Hlast : last_lseq st = n) (Hn : 0 ≤ n) (Hbudget : n + 131072 + WRAP_WINDOW < LSEQ_BUDGET)
    (Hk : 0 ≤ k ≤ WRAP_WINDOW) (Hcap : k < capacity st)
    (Hqs : qs ≡ₚ seqZ (n + 1) k) :
  ∃ st', jb_run st (map (burst_op pkt addr) qs) =
           Done (st', map (λ q, RFT_RTP (burst_frame pkt addr q)) (seqZ (n + 1) k), [])
    ∧ head st' = [] ∧ last_lseq st' = n + k ∧ jb_inv st' ∧ mask_current st'.
Proof.
  assert (burst_inv pkt addr n k st [] []) as Hb.
  { constructor; [done|done|done| |by rewrite Hempty|].
    - rewrite (jc_max _ (inv_core _ Hinv)), Hempty. cbn. lia.
    - rewrite next_out_some by (unfold LSEQ_BUDGET in *; lia). rewrite Hlast. constructor. }
  destruct (burst_run pkt addr n k Hwf Hlen Hnum (conj Hn Hbudget) st [] [] qs Hb Hk)
    as (st' & l & Hr & Hb'); [by rewrite app_nil_r|].
  destruct (burst_complete _ _ _ _ _ _ _ Hb') as (El & Eh & Elast); [|lia|].
  { by rewrite app_nil_r, <- Permutation_rev. }
  cbn in El. subst l. exists st'. rewrite map_map in Hr.
  split; [exact Hr|]. split; [done|]. split; [done|].
  by split; [apply Hb'|eapply bi_mask].
Qed.

(** C26: the logical number is recovered from the 16-bit one: for a buffer whose
    mask is that of the greatest number it knows, any number within 535 of that
    one is recovered exactly, wraps in either direction included, and the mask
    advances with the wrap. *)
Theorem seq_unwrap_exact (st : rtpjbuf_inst) (q : Z)
    (Hc : jb_core st) (Hm : mask_current st) (Hq : 0 ≤ q < LSEQ_BUDGET)
    (Hw : last_max_lseq st - WRAP_WINDOW ≤ q ≤ last_max_lseq st + WRAP_WINDOW) :
  ∃ st', unwrap_lseq st (lseq_mask st + q mod 65536) (q mod 65536) = (st', q)
    ∧ lseq_mask st' = block (Z.max (last_max_lseq st) q)
    ∧ head st' = head st ∧ last_lseq st' = last_lseq st.
Proof.
  rewrite unwrap_true by done. eexists. split; [done|].
  destruct Hm as [_ Hm]. unfold unwrapped, block, WRAP_WINDOW in *.
  case_match; zbool; cbn; repeat split; zlia.
Qed.

(** Duplicates and late packets never come out. A packet of the window that
    is buffered already, or that follows in the footsteps of one handed out, is
    returned in the drop list and changes nothing but a counter: the duplicate
    counter when it is the very last number handed out or is buffered, the late
    counter otherwise. *)
Theorem jbuf_drops_seen (st : rtpjbuf_inst) (info : rtp_info) (data q : Z) (drp : list rtp_frame)
    (Hi : jb_inv st) (Hm : mask_current st) (Hl : 0 ≤ last_lseq st < LSEQ_BUDGET)
    (Hq : 0 ≤ q ≤ last_max_lseq st) (Hw : last_max_lseq st - WRAP_WINDOW ≤ q)
    (Hsq : seq info = q mod 65536)
    (Hseen : q ≤ last_lseq st ∨ q ∈ lseqs (head st)) :
  place_packet st info data drp =
    Done (set_jbs (if q <? last_lseq st then count_late (jbs st) else count_dup (jbs st)) st,
          ok_result [] (RFT_RTP {| rp_info := info; lseq := q; jbcnt := 0; rp_data := data |} :: drp)).
Proof.
  pose proof (max_range _ (inv_core _ Hi) (proj1 Hm)).
  assert (last_lseq st ≤ last_max_lseq st) as Hle.
  { rewrite (jc_max _ (inv_core _ Hi)). destruct (last (head st)) as [p|] eqn:E; [|lia].
    destruct (last_cases _ (inv_core _ Hi)) as [(E1 & _)|(_ & _ & _ & HF)].
    - unfold LSEQ_BUDGET, LRS_DEFAULT, U64_MAX in *. lia.
    - apply last_Some in E as [l' E]. rewrite E in HF. apply Forall_app in HF as [_ HF].
      rewrite Forall_singleton in HF. lia. }
  unfold WRAP_WINDOW in *. apply place_seen; try done; try lia; rewrite Hsq.
  - rewrite unwrap_true by (apply Hi || done || unfold WRAP_WINDOW; lia).
    unfold unwrapped, block. rewrite (proj2 (Z.ltb_ge _ _)) by zlia. done.
  - by apply Z.mod_pos_bound.
Qed.


(** C31: the time a frame of lost numbers stands for. When [n] packets are lost
    from a stream that advances by [s] per packet, the frame names exactly them
    and its [ts_diff] is [s * n], also across a wrap of the 32-bit timestamp, as
    long as [s * (n + 1) * n], which the C code computes in 32 bits, fits. *)
Theorem ers_ts_exact (st : rtpjbuf_inst) (fp : rtp_packet) (n s : Z)
    (Hq : last_lseq st + n + 1 = lseq fp) (Hn : 1 ≤ n)
    (Hl : 0 ≤ last_lseq st) (Hb : lseq fp < LSEQ_BUDGET)
    (Hs : 0 ≤ s) (Hov : s * (n + 1) * n < 4294967296)
    (Ht : 0 ≤ last_ts st < 4294967296)
    (Hts : ts (rp_info fp) = u32 (last_ts st + s * (n + 1))) :
  ∃ st', insert_ers_frame st fp =
    Done (st', [RFT_ERS {| lseq_start := last_lseq st + 1;
                           lseq_end := last_lseq st + n; ts_diff := s * n |}]).
Proof.
  unfold LSEQ_BUDGET in *. unfold insert_ers_frame.
  assert (s * (n + 1) < 4294967296) by nia. assert (0 ≤ s * (n + 1)) by nia.
  rewrite !u64_small by lia. rewrite (proj2 (Z.eqb_neq _ _)) by lia.
  rewrite Hts, ers_ts_diff_ok by (done || apply u32_range). cbn [mbind outcome_bind].
  replace (u32 (u32 (last_ts st + s * (n + 1)) - last_ts st)) with (s * (n + 1)).
  2:{ unfold u32. rewrite Zminus_mod_idemp_l. rewrite Z.mod_small by lia. lia. }
  replace (lseq fp - 1 - (last_lseq st + 1) + 1) with n by lia.
  rewrite (u32_small n), (u32_small (n + 1)), (u32_small (s * (n + 1) * n)) by nia.
  rewrite bind_unless_true by (zdec; done).
  eexists. do 5 f_equal; [lia|].
  replace (s * (n + 1) * n) with (s * n * (n + 1)) by lia. apply Z.div_mul. lia.
Qed.

(** A loss of more than 535 packets across a wrap of the 16-bit number
    stalls the buffer. Once the last number handed out is [m], at least 65000 in
    its block, every further packet whose 16-bit number lies between
    [m - 65000] and [m] in the block is dropped as late (or, for [m] itself, as
    a duplicate), although it may be up to 65000 ahead: the buffer never
    notices that the sender has gone on. *)
Theorem wrap_gap_stall (st : rtpjbuf_inst) (ps : list packet) (data : Z)
    (Hi : jb_inv st) (Hm : mask_current st) (Hh : head st = [])
    (Hblk : 65000 ≤ last_lseq st mod 65536)
    (Hps : Forall (λ p, packet_wf p ∧ zlen (serialize p) ≤ MAX_PACKET ∧
              last_lseq st mod 65536 - 65000 ≤ pk_seq p ≤ last_lseq st mod 65536) ps) :
  ∃ st' drp, jb_run st (map (λ p, OpUdpIn true data (serialize p)) ps) = Done (st', [], drp)
    ∧ length drp = length ps ∧ last_lseq st' = last_lseq st ∧ head st' = [].
Proof.
  assert (∀ p drp j, packet_wf p → zlen (serialize p) ≤ MAX_PACKET →
    last_lseq st mod 65536 - 65000 ≤ pk_seq p ≤ last_lseq st mod 65536 →
    ∃ j' f, place_packet (set_jbs j st) (packet_info p) data drp =
      Done (set_jbs j' st, ok_result [] (f :: drp))) as Hone.
  { intros p drp j Hp _ Hs. pose proof (jc_max _ (inv_core _ Hi)) as Hmx. rewrite Hh in Hmx.
    cbn in Hmx. pose proof (max_range _ (inv_core _ Hi) (proj1 Hm)).
    pose proof (wf_seq p Hp). destruct Hm as [Hm1 Hm2]. unfold block in Hm2.
    eexists _, _. rewrite (place_seen (set_jbs j st) _ data (lseq_mask st + pk_seq p));
      [done|by apply jb_inv_jbs|done|cbn; lia|cbn; zlia|cbn; zlia|left; cbn; zlia| |done].
    apply (unwrap_missed_wrap (set_jbs j st)); [apply jb_inv_jbs, Hi|done|cbn; rewrite Hmx; lia|cbn; rewrite Hmx; lia]. }
  assert (∀ j, ∃ j' drp,
    jb_run (set_jbs j st) (map (λ p, OpUdpIn true data (serialize p)) ps) =
      Done (set_jbs j' st, [], drp) ∧ length drp = length ps) as Hrun.
  { induction Hps as [|p ps (Hp & Hz & Hs) _ IH]; intros j; [by exists j, []|].
    destruct (Hone p [] j Hp Hz Hs) as (j1 & f & H1). destruct (IH j1) as (j' & drp & H2 & Hl).
    exists j', (f :: drp). split; [|cbn; by rewrite Hl].
    cbn [map jb_run jb_exec]. unfold rtpjbuf_udp_in, purge_stale_tail. cbn [head set_jbs].
    rewrite Hh. cbn [map negb]. rewrite (parse_serialize p Hp Hz). cbn [mbind outcome_bind].
    rewrite bool_decide_eq_true_2 by done. cbn [negb]. rewrite H1. cbn [mbind outcome_bind fst].
    rewrite H2. done. }
  destruct (Hrun (jbs st)) as (j' & drp & Hr & Hl).
  replace (set_jbs (jbs st) st) with st in Hr by by destruct st.
  by exists (set_jbs j' st), drp.
Qed.

(** * Examples *)

Definition plain_packet (sq t : Z) : packet :=
  {| pk_marker := false; pk_pt := 0; pk_seq := sq mod 65536; pk_ts := t mod 4294967296;
     pk_ssrc := 7; pk_csrc := []; pk_ext := None; pk_payload := [213]; pk_pad := None |}.

Lemma plain_packet_wf sq t : packet_wf (plain_packet sq t).
Proof.
  split; cbn; try by apply Z.mod_pos_bound.
  all: try (by repeat split; bytes_tac).
Qed.

Lemma plain_packet_len sq t : zlen (serialize (plain_packet sq t)) = 13.
Proof. done. Qed.

Definition fresh_jb (cap : Z) : rtpjbuf_inst :=
  {| last_lseq := LRS_DEFAULT; last_ts := 0; last_max_lseq := LMS_DEFAULT;
     lseq_mask := 0; head := []; size := 0; capacity := cap; jbs := stats_zero;
     ers_buf := ers_zero |}.

Definition arrival (sq : Z) : jb_op :=
  OpUdpIn true sq (serialize (plain_packet sq (160 * sq))).

(** A buffer in the middle of a stream: number [q] is the last handed out. *)
Definition midstream (cap q : Z) : rtpjbuf_inst :=
  {| last_lseq := q; last_ts := (160 * q) mod 4294967296; last_max_lseq := q;
     lseq_mask := block q; head := []; size := 0; capacity := cap; jbs := stats_zero;
     ers_buf := ers_zero |}.

Lemma midstream_inv cap q :
  3 ≤ cap < 4294967296 → 0 ≤ q < LSEQ_BUDGET - 65536 →
  jb_inv (midstream cap q) ∧ mask_current (midstream cap q).
Proof.
  unfold LSEQ_BUDGET, midstream, block. intros Hc Hq. split.
  - constructor; cbn; [constructor; cbn; try done| |by right].
    + split; zlia.
    + unfold LSEQ_BUDGET. zlia.
    + constructor.
    + right. split; [zlia|done].
    + by apply Z.mod_pos_bound.
    + change (0 < cap). lia.
  - split; [|done]. unfold LMS_DEFAULT, LRS_DEFAULT, U64_MAX. cbn. lia.
Qed.

(** A packet from before the origin of the logical numbers: the three packets
    numbered 10, 65535 and 11 make a fresh buffer abort the process. *)
Theorem early_packet_aborts :
  jb_run (fresh_jb 20) (map arrival [10; 65535; 11]) = Aborted.
Proof. vm_compute. reflexivity. Qed.

(** So does a buffer of capacity two, without any wrap. *)
Theorem capacity_two_aborts :
  jb_run (fresh_jb 2) (map arrival [0; 1; 3; 3; 1; 4]) = Aborted.
Proof. vm_compute. reflexivity. Qed.

(** A flush before anything was handed out invents a gap that starts at 0: one
    packet numbered 100 is delivered after a frame of the lost numbers 0 to 99. *)
Theorem warm_up_flush_invents_gap :
  ∃ st' e p, jb_run (fresh_jb 20) [arrival 100; OpFlush] =
    Done (st', [RFT_ERS e; RFT_RTP p], []) ∧ lseq_start e = 0 ∧ lseq_end e = 99.
Proof. do 3 eexists. vm_compute. by repeat split. Qed.

(** A gap of 6000 packets of 160 samples is reported as lasting 55680 samples
    instead of 960000: the product is computed in 32 bits. *)
Theorem long_gap_overflows :
  let st := midstream 20 10 in
  let fp := {| rp_info := packet_info (plain_packet 6011 (160 * 6011)); lseq := 6011;
               jbcnt := 0; rp_data := 0 |} in
  ∃ st' e, insert_ers_frame st fp = Done (st', [RFT_ERS e])
    ∧ lseq_end e - lseq_start e + 1 = 6000 ∧ ts_diff e ≠ 160 * 6000.
Proof. do 2 eexists. vm_compute. repeat split. discriminate. Qed.

(** The tail of the list goes stale just after it opened a new block, and is
    dropped; the mask stays at that block, so the next duplicate of the packet
    numbered 65001 is accepted as number 130537. *)
Theorem mask_not_restored :
  ∃ st' drp a b,
    jb_run (midstream 3 64999) (map arrival [65001; 65536; 65001; 65001; 65001])
      = Done (st', [], drp)
    ∧ head st' = [a; b] ∧ rp_info a = rp_info b ∧ lseq a = 65001 ∧ lseq b = 130537.
Proof. do 4 eexists. vm_compute. by repeat split. Qed.

(** * Witnesses *)

Lemma trace_one : jb_trace 20 (fresh_jb 20) [].
Proof. by apply trace_new. Qed.

Lemma arrival_ok st sq :
  jb_inv (purge_stale_tail st).1 → lseq_mask (purge_stale_tail st).1 + 131072 < LSEQ_BUDGET →
  ¬ seq_underflow (purge_stale_tail st).1 (sq mod 65536) → op_ok st (arrival sq).
Proof.
  intros _ Hb Hn. pose proof (plain_packet_wf sq (160 * sq)) as Hp.
  assert (zlen (serialize (plain_packet sq (160 * sq))) ≤ MAX_PACKET) as Hl by done.
  split; [|split; [done|]].
  - by repeat first [apply Forall_app; split | apply be16_bytes | apply be32_bytes | bytes_tac].
  - intros info H. rewrite (parse_serialize _ Hp Hl) in H. injection H as <-.
    split; [apply (wf_seq _ Hp)|done].
Qed.

Lemma jbuf_call_safe_witness :
  ∃ st' r, jb_exec (fresh_jb 20) (arrival 65535) = Done (st', r)
    ∧ jb_trace 20 st' ([] ++ ready r) ∧ size st' = zlen (head st') ∧ size st' < 20.
Proof.
  apply (jbuf_call_safe 20 (fresh_jb 20) [] (arrival 65535)); [lia|exact trace_one|].
  apply arrival_ok; [apply (ctor_inv 20); [lia|done]|cbn; unfold LSEQ_BUDGET; lia|].
  intros [H _]. by apply H.
Defined.

Definition result_of {A} (d : A) (m : outcome A) : A :=
  match m with Done a => a | _ => d end.

(** After packets 0 and 2; and after a flush as well. *)
Definition run_from (st : rtpjbuf_inst) (ops : list jb_op)
    : rtpjbuf_inst * list rtp_frame * list rtp_frame :=
  result_of (st, [], []) (jb_run st ops).
Definition run_pre := run_from (fresh_jb 20) [arrival 0; arrival 2].
Definition run_sample := run_from (fresh_jb 20) [arrival 0; arrival 2; OpFlush].

Lemma low_arrival_ok st out sq :
  jb_trace 20 st out → lseq_mask (purge_stale_tail st).1 + 131072 < LSEQ_BUDGET →
  sq mod 65536 ≤ 65000 → op_ok st (arrival sq).
Proof.
  intros Ht Hb Hs. apply arrival_ok; [|done|].
  - destruct (trace_inv 20 st out) as (Hi & _); [lia|done|].
    destruct (purge_stale_tail st) as [s1 d] eqn:E. by apply (purge_ok _ _ _ Hi) in E as [? _].
  - intros (_ & _ & H & _). lia.
Qed.

Lemma trace_pre : jb_trace 20 run_pre.1.1 run_pre.1.2.
Proof.
  pose proof trace_one as H0.
  destruct (jb_exec (fresh_jb 20) (arrival 0)) as [[s1 r1]| | |] eqn:E1; try done.
  pose proof (trace_step 20 _ _ _ _ _ H0 (low_arrival_ok _ _ 0 H0 ltac:(done) ltac:(done)) E1) as H1.
  vm_compute in E1. injection E1 as <- <-.
  match type of H1 with jb_trace _ ?s _ =>
    destruct (jb_exec s (arrival 2)) as [[s2 r2]| | |] eqn:E2; try done end.
  pose proof (trace_step 20 _ _ _ _ _ H1 (low_arrival_ok _ _ 2 H1 ltac:(done) ltac:(done)) E2) as H2.
  vm_compute in E2. injection E2 as <- <-. exact H2.
Qed.

Lemma trace_sample : jb_trace 20 run_sample.1.1 run_sample.1.2.
Proof.
  pose proof trace_pre as H0.
  destruct (jb_exec run_pre.1.1 OpFlush) as [[s1 r1]| | |] eqn:E1; try done.
  pose proof (trace_step 20 _ _ OpFlush _ _ H0 I E1) as H1.
  vm_compute in E1. injection E1 as <- <-. exact H1.
Qed.

Lemma jbuf_delivers_in_order_witness :
  ∃ a, 0 ≤ a ≤ 2 ∧ covers a 3 run_sample.1.2.
Proof.
  exact (jbuf_delivers_in_order 20 run_sample.1.1 run_sample.1.2 ltac:(lia) trace_sample).
Defined.


Lemma udp_in_conserves_witness :
  ∃ st' r, conserves [{| rp_info := packet_info (plain_packet 12 1920); lseq := 12; jbcnt := 0;
                         rp_data := 5 |}] st' r ∧ lseqs (head st') = [12].
Proof.
  set (buf := serialize (plain_packet 12 1920)).
  destruct (rtpjbuf_udp_in (midstream 20 10) true 5 buf (zlen buf)) as [[st' r]| | |] eqn:E;
    try done.
  exists st', r. pose proof (udp_in_conserves _ _ _ _ _ _ _ E) as H.
  vm_compute in E. injection E as <- <-. split; [|done].
  destruct H as [(info & q & _ & _ & Hp & H)|(_ & _ & [[? _]|(e & info & Hp & He & _)])].
  - vm_compute in Hp. injection Hp as <-. apply Permutation_length in H as Hl. cbn in H.
    vm_compute. apply Permutation_refl.
  - done.
  - vm_compute in Hp. by injection Hp as <- <-.
Defined.

Lemma jbuf_reorders_witness :
  ∃ st', jb_run (midstream 20 65533) (map arrival [65536; 65534; 65537; 65535]) =
           Done (st', map (λ q, RFT_RTP (burst_frame (λ q, plain_packet q (160 * q)) id q))
                        [65534; 65535; 65536; 65537], [])
    ∧ head st' = [].
Proof.
  destruct (midstream_inv 20 65533) as [Hi Hm]; [lia|unfold LSEQ_BUDGET; lia|].
  destruct (jbuf_reorders (λ q, plain_packet q (160 * q)) id (midstream 20 65533) 65533 4
    [65536; 65534; 65537; 65535]) as (st' & H1 & H2 & _); try done.
  - intros q. apply plain_packet_wf.
  - apply NoDup_Permutation; [by apply (bool_decide_unpack _)|apply NoDup_seqZ|].
    intros q. rewrite elem_of_seqZ, !elem_of_cons, elem_of_nil. lia.
  - by exists st'.
Defined.

Lemma seq_unwrap_exact_witness :
  ∃ st', unwrap_lseq (midstream 20 65533) (0 + 65540 mod 65536) (65540 mod 65536) = (st', 65540)
    ∧ lseq_mask st' = 65536.
Proof.
  destruct (midstream_inv 20 65533) as [Hi Hm]; [lia|unfold LSEQ_BUDGET; lia|].
  destruct (seq_unwrap_exact (midstream 20 65533) 65540) as (st' & H1 & H2 & _);
    [apply Hi|done|unfold LSEQ_BUDGET; lia|cbn; unfold WRAP_WINDOW; lia|].
  exists st'. split; [exact H1|]. by rewrite H2.
Defined.

Lemma jbuf_drops_seen_witness :
  ∃ st' fp, place_packet (midstream 20 70000) (packet_info (plain_packet 69998 0)) 3 [] =
    Done (st', ok_result [] [RFT_RTP fp]) ∧ lseq fp = 69998.
Proof.
  destruct (midstream_inv 20 70000) as [Hi Hm]; [lia|unfold LSEQ_BUDGET; lia|].
  pose proof (jbuf_drops_seen (midstream 20 70000) (packet_info (plain_packet 69998 0)) 3 69998 []
    Hi Hm ltac:(cbn; unfold LSEQ_BUDGET; lia) ltac:(cbn; lia) ltac:(cbn; unfold WRAP_WINDOW; lia)
    ltac:(done) ltac:(left; cbn; lia)) as H.
  rewrite H. do 2 eexists. by split.
Defined.

Lemma ers_ts_exact_witness :
  ∃ st', insert_ers_frame (midstream 20 10)
           {| rp_info := packet_info (plain_packet 14 2240); lseq := 14; jbcnt := 0; rp_data := 0 |} =
    Done (st', [RFT_ERS {| lseq_start := 11; lseq_end := 13; ts_diff := 480 |}]).
Proof.
  apply (ers_ts_exact (midstream 20 10) _ 3 160); done.
Defined.

Lemma wrap_gap_stall_witness :
  ∃ st' drp, jb_run (midstream 20 65500) (map (λ p, OpUdpIn true 9 (serialize p))
      [plain_packet 67536 0; plain_packet 67537 0]) = Done (st', [], drp)
    ∧ length drp = 2%nat ∧ last_lseq st' = 65500 ∧ head st' = [].
Proof.
  destruct (midstream_inv 20 65500) as [Hi Hm]; [lia|unfold LSEQ_BUDGET; lia|].
  apply (wrap_gap_stall (midstream 20 65500) [plain_packet 67536 0; plain_packet 67537 0]);
    [done..|by vm_compute|].
  repeat apply Forall_cons_2; try apply Forall_nil_2;
    (split; [apply plain_packet_wf|split; [done|by vm_compute]]).
Defined.
