(* ===== verification/PyJBuf.v ===== *)
(** The Python type of the jitter buffer: src/python/RtpJBuf_mod.c. The buffer of
    [JBuf] holds addresses of [bytes] objects; the type keeps, next to it, a table
    of references to those objects and to what the caller attached to them, and
    turns lists of frames into Python objects. References to [None] are not
    counted here; [PyFrames] counts them. *)
From stdpp Require Import prelude list gmap strings pretty.
From Stdlib Require Import ZArith Lia.
From S2P Require Import Prelude Py RcHeap Rtp JBuf JBufProofs JBufOrder.
Local Open Scope Z_scope.

(** * The objects handed to Python *)

(** [RTPPacket] with its [RTPInfo]; [pkt_info] is the copy in [info_obj]. *)
Record PyRTPPacket : Set := { pkt : rtp_packet; pkt_info : rtp_info }.

(** [RTPFrameUnion]: one member is the frame, the other [None]. *)
Record PyRTPFrameUnion : Set := { un_rtp : option PyRTPPacket; un_ers : option ers_frame }.
Record PyRTPFrame : Set := { fr_type : Z; fr_frame : PyRTPFrameUnion }.

Inductive frame_content : Set :=
| ContentRTP (f : PyRTPFrame)
| ContentERS (e : ers_frame).

(** [FrameWrapper]; [fw_data] is the address of the [bytes] object it holds, and
    [None] stands for Python's [None]. *)
Record PyFrameWrapper : Set := {
  fw_content : frame_content;
  fw_data : option Z;
  fw_rtp_data : option (list Z);
  fw_opaque : option Z;
}.

(** The enumeration [rtp_frame_type]. *)
Definition RFT_RTP_value : Z := 0.
Definition RFT_ERS_value : Z := 1.

Definition PyRTPPacket_NewSteal (p : rtp_packet) (info : rtp_info) : PyRTPPacket :=
  {| pkt := p; pkt_info := info |}.
Definition PyRTPFrameUnion_NewSteal (rtp : option PyRTPPacket) (ers : option ers_frame)
    : PyRTPFrameUnion := {| un_rtp := rtp; un_ers := ers |}.
Definition PyRTPFrame_NewSteal (type : Z) (u : PyRTPFrameUnion) : PyRTPFrame :=
  {| fr_type := type; fr_frame := u |}.
Definition PyFrameWrapper_NewSteal (content : frame_content) (data : option Z)
    (rtp_data : option (list Z)) (opaque : option Z) : PyFrameWrapper :=
  {| fw_content := content; fw_data := data; fw_rtp_data := rtp_data; fw_opaque := opaque |}.

(** What [str()] and [repr()] show: a frame of type [RFT_RTP] without a packet is
    possible only for objects made by a program, not by the buffer. *)
Definition PyFrameWrapper_str (w : PyFrameWrapper) : string :=
  match fw_content w with
  | ContentRTP f =>
      match un_rtp (fr_frame f) with
      | Some p => "RTP_Frame(seq=" +:+ pretty (Z.to_N (lseq (pkt p))) +:+ ")"
      | None => "RTP_Frame"
      end
  | ContentERS e =>
      "RTP_Erasure(seq_range=" +:+ pretty (Z.to_N (lseq_start e)) +:+ " -- " +:+
        pretty (Z.to_N (lseq_end e)) +:+ ")"
  end.

(** * The table of references *)

(** A slot of [refs] in use. The data pointer is that of the object's bytes, and
    stands for the object; [None] is a slot of zeros. The slot holds a reference
    to the object and one to the opaque object. *)
Record PyRtpJBufRef : Set := { ref_data : Z; ref_opaque : Z }.

Definition cached_refs (r : PyRtpJBufRef) : list Z := [ref_data r; ref_opaque r].

Record PyRtpJBuf : Set := {
  pj_jb : option rtpjbuf_inst;
  pj_refs : list (option PyRtpJBufRef);
  pj_capacity : Z;
  pj_dropped : Z;
}.

Definition with_refs (l : list (option PyRtpJBufRef)) (s : PyRtpJBuf) : PyRtpJBuf :=
  {| pj_jb := pj_jb s; pj_refs := l; pj_capacity := pj_capacity s; pj_dropped := pj_dropped s |}.
Definition with_jb (jb : option rtpjbuf_inst) (s : PyRtpJBuf) : PyRtpJBuf :=
  {| pj_jb := jb; pj_refs := pj_refs s; pj_capacity := pj_capacity s; pj_dropped := pj_dropped s |}.
Definition count_dropped (s : PyRtpJBuf) : PyRtpJBuf :=
  {| pj_jb := pj_jb s; pj_refs := pj_refs s; pj_capacity := pj_capacity s;
     pj_dropped := u64 (pj_dropped s + 1) |}.

(** The first slot with the pointer is emptied; [None] when there is none, and
    the caller then gets [None] for data and opaque. *)
Fixpoint fetch_cached_ref (ptr : Z) (refs : list (option PyRtpJBufRef))
    : option PyRtpJBufRef * list (option PyRtpJBufRef) :=
  match refs with
  | [] => (None, [])
  | Some r :: rest =>
      if ref_data r =? ptr then (Some r, None :: rest)
      else let '(o, rest) := fetch_cached_ref ptr rest in (o, Some r :: rest)
  | None :: rest => let '(o, rest) := fetch_cached_ref ptr rest in (o, None :: rest)
  end.

(** The first free slot takes the reference; [None]: "reference buffer exhausted". *)
Fixpoint store_ref_slot (r : PyRtpJBufRef) (refs : list (option PyRtpJBufRef))
    : option (list (option PyRtpJBufRef)) :=
  match refs with
  | [] => None
  | None :: rest => Some (Some r :: rest)
  | o :: rest => match store_ref_slot r rest with Some rest => Some (o :: rest) | None => None end
  end.

Abbreviation pyheap := (gmap Z (cell (list Z))).

Definition store_data_ref (s : PyRtpJBuf) (h : pyheap) (bytes_obj opaque : Z)
    : outcome (bool * PyRtpJBuf * pyheap) :=
  match store_ref_slot {| ref_data := bytes_obj; ref_opaque := opaque |} (pj_refs s) with
  | Some refs =>
      h ← py_incref h bytes_obj;
      h ← py_incref h opaque;
      Done (true, with_refs refs s, h)
  | None => Done (false, s, h)
  end.

(** [input]: the object that came with the call and its opaque object, [None]
    in a flush ([NO_INPUT_PTR]). The references returned belong to the caller. *)
Definition fetch_ready_ref (s : PyRtpJBuf) (h : pyheap) (ptr : Z) (input : option (Z * Z))
    : outcome (option Z * option Z * PyRtpJBuf * pyheap) :=
  match input with
  | Some (a, opaque) =>
      if ptr =? a then
        h ← py_incref h a;
        h ← py_incref h opaque;
        Done (Some a, Some opaque, s, h)
      else
        let '(o, refs) := fetch_cached_ref ptr (pj_refs s) in
        Done (ref_data <$> o, ref_opaque <$> o, with_refs refs s, h)
  | None =>
      let '(o, refs) := fetch_cached_ref ptr (pj_refs s) in
      Done (ref_data <$> o, ref_opaque <$> o, with_refs refs s, h)
  end.

Definition list_has_data_ptr (fs : list rtp_frame) (ptr : Z) : bool :=
  existsb (λ f, match f with RFT_RTP p => rp_data p =? ptr | RFT_ERS _ => false end) fs.

(** [Py_XDECREF]. *)
Definition py_xdecref (h : pyheap) (o : option Z) : outcome pyheap :=
  match o with Some a => py_decref h a | None => Done h end.

(** * Frames to objects *)

(** The six allocations of [build_wrapper_rtp]; [fails] is the one that fails, if
    any. The payload is copied out of the object after the first four. *)
Definition build_wrapper_rtp (fails : option nat) (h : pyheap) (p : rtp_packet)
    (data opaque : option Z) : outcome (option PyFrameWrapper * pyheap) :=
  match fails with
  | Some (0 | 1 | 2 | 3 | 4)%nat =>
      h ← py_xdecref h data;
      h ← py_xdecref h opaque;
      Done (None, h)
  | _ =>
      let info := rp_info p in
      payload ← (if 0 <? data_size info then
                   bytes ← py_read h (rp_data p);
                   mem_read bytes (data_offset info) (data_size info)
                 else Done []);
      match fails with
      | Some _ =>
          h ← py_xdecref h data;
          h ← py_xdecref h opaque;
          Done (None, h)
      | None =>
          let content := ContentRTP (PyRTPFrame_NewSteal RFT_RTP_value
            (PyRTPFrameUnion_NewSteal (Some (PyRTPPacket_NewSteal p info)) None)) in
          Done (Some (PyFrameWrapper_NewSteal content data (Some payload) opaque), h)
      end
  end.

Definition build_wrapper_ers (fails : option nat) (e : ers_frame) : option PyFrameWrapper :=
  match fails with
  | Some _ => None
  | None => Some (PyFrameWrapper_NewSteal (ContentERS e) None None None)
  end.

(** [input_ptr]: the frame of the call's own object owns no slot. *)
Fixpoint process_drop_list (s : PyRtpJBuf) (h : pyheap) (fs : list rtp_frame)
    (input_ptr : option Z) : outcome (PyRtpJBuf * pyheap) :=
  match fs with
  | [] => Done (s, h)
  | RFT_ERS _ :: fs => process_drop_list s h fs input_ptr
  | RFT_RTP p :: fs =>
      let s := count_dropped s in
      if bool_decide (input_ptr = Some (rp_data p)) then process_drop_list s h fs input_ptr
      else
        let '(o, refs) := fetch_cached_ref (rp_data p) (pj_refs s) in
        h ← py_xdecref h (ref_data <$> o);
        h ← py_xdecref h (ref_opaque <$> o);
        process_drop_list (with_refs refs s) h fs input_ptr
  end.

(** The references of wrappers to objects from outside, which go when the list they
    are on goes. *)
Definition own_refs (w : PyFrameWrapper) : list Z := opt_list (fw_data w) ++ opt_list (fw_opaque w).
Definition wrapper_refs (ws : list PyFrameWrapper) : list Z := ws ≫= own_refs.

(** What the memory allocator does in a call: for each frame the allocation that
    fails while its wrapper is built, and whether the wrapper can be appended. *)
Definition alloc_plan : Type := nat → option nat * bool.

(** [ws]: the wrappers made so far. [None]: an exception is set. *)
Fixpoint process_ready_list (plan : alloc_plan) (k : nat) (s : PyRtpJBuf) (h : pyheap)
    (fs : list rtp_frame) (input : option (Z * Z)) (ws : list PyFrameWrapper)
    : outcome (option (list PyFrameWrapper) * PyRtpJBuf * pyheap) :=
  match fs with
  | [] => Done (Some ws, s, h)
  | f :: fs =>
      '(w, s, h) ←
        match f with
        | RFT_RTP p =>
            '(data, opaque, s, h) ← fetch_ready_ref s h (rp_data p) input;
            '(w, h) ← build_wrapper_rtp (plan k).1 h p data opaque;
            Done (w, s, h)
        | RFT_ERS e => Done (build_wrapper_ers (plan k).1 e, s, h)
        end;
      match w with
      | None =>
          '(s, h) ← process_drop_list s h fs (fst <$> input);
          h ← py_decref_all h (wrapper_refs ws);
          Done (None, s, h)
      | Some w =>
          if (plan k).2 then process_ready_list plan (S k) s h fs input (ws ++ [w])
          else
            h ← py_decref_all h (own_refs w);
            '(s, h) ← process_drop_list s h fs (fst <$> input);
            h ← py_decref_all h (wrapper_refs ws);
            Done (None, s, h)
      end
  end.

(** * Methods *)

(** [PyList_New] of an empty list is the allocation before the first. *)
Definition ready_list (list_ok : bool) (plan : alloc_plan) (s : PyRtpJBuf) (h : pyheap)
    (fs : list rtp_frame) (input : option (Z * Z))
    : outcome (option (list PyFrameWrapper) * PyRtpJBuf * pyheap) :=
  if list_ok then process_ready_list plan 0 s h fs input [] else Done (None, s, h).

(** [ensure_bytes]: a [bytes] object is taken as it is, with a reference more;
    of anything else [PyObject_Bytes] makes one. *)
Definition ensure_bytes (h : pyheap) (arg : bytes_arg) : outcome (pyres Z * pyheap) :=
  match arg with
  | ArgBytes a => h ← py_incref h a; Done (Ret a, h)
  | ArgObject (Some (a, bytes)) => Done (Ret a, <[a := {| rc := 1; val := bytes |}]> h)
  | ArgObject None => Done (Raise TypeError, h)
  end.

(** [RTPParseError] of the code; anything else would be a [RuntimeError]. *)
Inductive jbuf_exn : Set :=
| PyExc (e : exn)
| RTPParseError (code : Z).

(** The memory of a call: the frame of the library, the list, its elements. *)
Record call_mem : Type := { cm_frame : bool; cm_list : bool; cm_plan : alloc_plan }.

Definition PyRtpJBuf_udp_in (m : call_mem) (s : PyRtpJBuf) (h : pyheap) (arg : bytes_arg)
    (opaque : Z) : outcome ((list PyFrameWrapper + jbuf_exn) * PyRtpJBuf * pyheap) :=
  match pj_jb s with
  | None => Done (inr (PyExc RuntimeError), s, h)
  | Some jb =>
      '(input, h) ← ensure_bytes h arg;
      match input with
      | Raise e => Done (inr (PyExc e), s, h)
      | Ret a =>
          bytes ← py_read h a;
          '(jb, ruir) ← rtpjbuf_udp_in jb (cm_frame m) a bytes (zlen bytes);
          let s := with_jb (Some jb) s in
          if negb (error ruir =? 0) then
            '(s, h) ← process_drop_list s h (drop_ ruir) (Some a);
            h ← py_decref h a;
            Done (inr (if error ruir <? rtp_parser_err_value RTP_PARSER_OK then RTPParseError (error ruir)
                       else PyExc RuntimeError), s, h)
          else
            let retained :=
              negb (list_has_data_ptr (ready ruir) a || list_has_data_ptr (drop_ ruir) a) in
            '(stored, s, h) ←
              (if retained then store_data_ref s h a opaque else Done (true, s, h));
            if negb stored then
              '(s, h) ← process_drop_list s h (ready ruir) (Some a);
              '(s, h) ← process_drop_list s h (drop_ ruir) (Some a);
              h ← py_decref h a;
              Done (inr (PyExc RuntimeError), s, h)
            else
              '(o, s, h) ← ready_list (cm_list m) (cm_plan m) s h (ready ruir) (Some (a, opaque));
              '(s, h) ← process_drop_list s h (drop_ ruir) (Some a);
              h ← py_decref h a;
              Done (match o with Some ws => inl ws | None => inr (PyExc MemoryError) end, s, h)
      end
  end.

Definition PyRtpJBuf_flush (m : call_mem) (s : PyRtpJBuf) (h : pyheap)
    : outcome ((list PyFrameWrapper + jbuf_exn) * PyRtpJBuf * pyheap) :=
  match pj_jb s with
  | None => Done (inr (PyExc RuntimeError), s, h)
  | Some jb =>
      '(jb, ruir) ← rtpjbuf_flush jb;
      let s := with_jb (Some jb) s in
      '(o, s, h) ← ready_list (cm_list m) (cm_plan m) s h (ready ruir) None;
      '(s, h) ← process_drop_list s h (drop_ ruir) None;
      Done (match o with Some ws => inl ws | None => inr (PyExc MemoryError) end, s, h)
  end.

(** The constructor: ["I"] takes the capacity modulo 2^32. *)
Definition PyRtpJBuf_init (alloc_jb alloc_refs : bool) (capacity : Z) : pyres PyRtpJBuf :=
  let capacity := u32 capacity in
  match rtpjbuf_ctor alloc_jb capacity with
  | None => Raise RuntimeError
  | Some jb =>
      if alloc_refs then
        Ret {| pj_jb := Some jb; pj_refs := replicate (Z.to_nat capacity) None;
               pj_capacity := capacity; pj_dropped := 0 |}
      else Raise RuntimeError
  end.

(** The loop of [PyRtpJBuf_dealloc]: flush until nothing comes. *)
Fixpoint dealloc_loop (fuel : nat) (jb : rtpjbuf_inst) (s : PyRtpJBuf) (h : pyheap)
    : outcome (rtpjbuf_inst * PyRtpJBuf * pyheap) :=
  '(jb, ruir) ← rtpjbuf_flush jb;
  match ready ruir, drop_ ruir with
  | [], [] => Done (jb, s, h)
  | _, _ =>
      match fuel with
      | O => OutOfFuel
      | S fuel =>
          '(s, h) ← process_drop_list s h (ready ruir) None;
          '(s, h) ← process_drop_list s h (drop_ ruir) None;
          dealloc_loop fuel jb s h
      end
  end.

(** [PyRtpJBuf_dealloc]: the frames the library frees, and the store after it. *)
Definition PyRtpJBuf_dealloc (fuel : nat) (s : PyRtpJBuf) (h : pyheap)
    : outcome (list rtp_packet * pyheap) :=
  '(freed, s, h) ←
    match pj_jb s with
    | None => Done ([], s, h)
    | Some jb =>
        '(jb, s, h) ← dealloc_loop fuel jb s h;
        Done (rtpjbuf_dtor jb, with_jb None s, h)
    end;
  h ← py_decref_all h (pj_refs s ≫= from_option cached_refs []);
  Done (freed, h).

(** * The table as a multiset *)

Definition occ (refs : list (option PyRtpJBufRef)) : list PyRtpJBufRef := omap id refs.
(** Every reference the table holds, and the objects the frames point into. *)
Definition table_refs (s : PyRtpJBuf) : list Z := occ (pj_refs s) ≫= cached_refs.
Definition slots (s : PyRtpJBuf) : list Z := ref_data <$> occ (pj_refs s).
Definition owner (r : PyRtpJBufRef) : Z * Z := (ref_data r, ref_opaque r).
(** What each object was submitted with. *)
Definition owners (s : PyRtpJBuf) : list (Z * Z) := owner <$> occ (pj_refs s).
Definition datas (fs : list rtp_frame) : list Z := rp_data <$> rtps fs.

Lemma slots_in_table s : slots s ⊆ table_refs s.
Proof.
  intros a (r & -> & Hr)%list_elem_of_fmap. apply list_elem_of_bind. exists r. split; [by left|done].
Qed.

Lemma table_refs_nil s : slots s = [] → table_refs s = [].
Proof. unfold slots, table_refs. by destruct (occ (pj_refs s)). Qed.

Lemma table_refs_all s : pj_refs s ≫= from_option cached_refs [] = table_refs s.
Proof. unfold table_refs, occ. induction (pj_refs s) as [|[r|] l IH]; [done| |done]. cbn. by rewrite IH. Qed.

Lemma fetch_cached_found ptr refs :
  ptr ∈ ref_data <$> occ refs →
  ∃ r refs', fetch_cached_ref ptr refs = (Some r, refs') ∧ ref_data r = ptr ∧
    occ refs ≡ₚ r :: occ refs' ∧ length refs' = length refs.
Proof.
  induction refs as [|[r|] refs IH]; cbn.
  - by intros ?%elem_of_nil.
  - intros H. destruct (ref_data r =? ptr) eqn:E; zbool.
    { exists r, (None :: refs). done. }
    apply elem_of_cons in H as [->|H]; [done|].
    destruct (IH H) as (r' & refs' & -> & Hr & Hp & Hl). exists r', (Some r :: refs').
    split; [done|]. split; [done|]. split; [|cbn; lia]. cbn. rewrite Hp. constructor.
  - intros H. destruct (IH H) as (r' & refs' & -> & Hr & Hp & Hl).
    exists r', (None :: refs'). repeat split; [done|done|cbn; lia].
Qed.

Lemma store_ref_slot_room r refs :
  (length (occ refs) < length refs)%nat →
  ∃ refs', store_ref_slot r refs = Some refs' ∧ occ refs' ≡ₚ r :: occ refs ∧ length refs' = length refs.
Proof.
  induction refs as [|[o|] refs IH]; cbn; intros H; [lia| |].
  - destruct IH as (refs' & -> & Hp & Hl); [unfold occ in *; cbn in H; lia|].
    exists (Some o :: refs'). split; [done|]. split; [|cbn; lia].
    cbn. rewrite Hp. constructor.
  - by exists (Some r :: refs).
Qed.

(** ** Frames, their objects and their wrappers *)

(** The object a frame points into is alive, and is the datagram it came from. *)
Definition frame_src (h : pyheap) (p : rtp_packet) : Prop :=
  ∃ bytes, py_read h (rp_data p) = Done bytes ∧ bytes_ok bytes ∧ zlen bytes ≤ MAX_PACKET ∧
    rtp_packet_parse_raw bytes (zlen bytes) rtp_info_zero = Done (RTP_PARSER_OK, rp_info p).

Definition payload_of (bytes : list Z) (info : rtp_info) : list Z :=
  take (Z.to_nat (data_size info)) (drop (Z.to_nat (data_offset info)) bytes).

(** The wrapper of a frame: the object itself, what it was submitted with, and
    its payload. *)
Definition wraps (h : pyheap) (given : list (Z * Z)) (f : rtp_frame) (w : PyFrameWrapper) : Prop :=
  match f with
  | RFT_RTP p =>
      ∃ bytes opaque, py_read h (rp_data p) = Done bytes ∧ (rp_data p, opaque) ∈ given ∧
        fw_content w = ContentRTP {| fr_type := RFT_RTP_value;
          fr_frame := {| un_rtp := Some {| pkt := p; pkt_info := rp_info p |}; un_ers := None |} |} ∧
        fw_data w = Some (rp_data p) ∧ fw_rtp_data w = Some (payload_of bytes (rp_info p)) ∧
        fw_opaque w = Some opaque
  | RFT_ERS e =>
      w = {| fw_content := ContentERS e; fw_data := None; fw_rtp_data := None; fw_opaque := None |}
  end.

Lemma payload_read h p :
  frame_src h p →
  ∃ bytes, py_read h (rp_data p) = Done bytes ∧
    (if 0 <? data_size (rp_info p) then
       b ← py_read h (rp_data p); mem_read b (data_offset (rp_info p)) (data_size (rp_info p))
     else Done []) = Done (payload_of bytes (rp_info p)).
Proof.
  intros (bytes & Hr & Hok & Hm & Hp). exists bytes. split; [done|].
  destruct (parse_total bytes rtp_info_zero Hok Hm) as (e & r & He & _ & Hb).
  rewrite Hp in He. injection He as <- <-. rewrite decide_True in Hb by done.
  destruct Hb as (H1 & H2 & H3 & _). unfold SIZEOF_RTP_HDR, payload_of in *.
  destruct (0 <? data_size (rp_info p)) eqn:E; zbool.
  - rewrite Hr. cbn [mbind outcome_bind]. unfold mem_read. zdec. done.
  - by replace (data_size (rp_info p)) with 0 by lia.
Qed.

(** Building a wrapper keeps the reference it was given, or drops it. *)
Lemma build_wrapper_ok fails h p opaque l :
  frame_src h p → heap_ok h (rp_data p :: opaque :: l) →
  (fails = None ∧ ∃ w bytes, build_wrapper_rtp fails h p (Some (rp_data p)) (Some opaque) = Done (Some w, h) ∧
     py_read h (rp_data p) = Done bytes ∧
     w = PyFrameWrapper_NewSteal (ContentRTP (PyRTPFrame_NewSteal RFT_RTP_value
            (PyRTPFrameUnion_NewSteal (Some (PyRTPPacket_NewSteal p (rp_info p))) None)))
            (Some (rp_data p)) (Some (payload_of bytes (rp_info p))) (Some opaque)) ∨
  (is_Some fails ∧ ∃ h', build_wrapper_rtp fails h p (Some (rp_data p)) (Some opaque) = Done (None, h') ∧
     heap_ok h' l ∧ keeps h h').
Proof.
  intros Hsrc Hok. destruct (payload_read h p Hsrc) as (bytes & Hr & Hpay).
  destruct (decref_ok h _ (rp_data p) Hok) as (h1 & Hdec & Hok1 & Hk1).
  destruct (decref_ok h1 l opaque Hok1) as (h' & Hdec' & Hok' & Hk').
  assert (keeps h h') as Hrd by (by etrans).
  unfold build_wrapper_rtp. rewrite Hpay. cbn [py_xdecref]. rewrite Hdec. cbn [mbind outcome_bind]. rewrite Hdec'.
  destruct fails as [k|]; [right|left].
  - split; [by eexists|]. exists h'.
    destruct k as [|[|[|[|[|k]]]]]; by split.
  - split; [done|]. eexists _, bytes. split; [done|]. by split.
Qed.

(** ** Processing a list of frames *)

(** The data of the frames that own a slot: all but the call's own object. *)
Definition others (ip : option Z) (l : list Z) : list Z := filter (λ a, Some a ≠ ip) l.

(** From one state to another, the table keeps [rest] of its references, the
    caller's references [ext] become [ext'], and what is still held is unchanged. *)
Record moved (s s' : PyRtpJBuf) (h h' : pyheap) (ext' rest : list Z) : Prop := {
  mv_heap : heap_ok h' (ext' ++ table_refs s');
  mv_slots : slots s' ≡ₚ rest;
  mv_occ : occ (pj_refs s') ⊆ occ (pj_refs s);
  mv_jb : pj_jb s' = pj_jb s;
  mv_cap : pj_capacity s' = pj_capacity s;
  mv_len : length (pj_refs s') = length (pj_refs s);
  mv_read : keeps h h';
}.

Lemma moved_trans s1 s2 s3 h1 h2 h3 ext2 ext3 rest2 rest3 :
  moved s1 s2 h1 h2 ext2 rest2 → moved s2 s3 h2 h3 ext3 rest3 → moved s1 s3 h1 h3 ext3 rest3.
Proof. intros [] []. constructor; [done|done|by etrans|congruence..|by etrans]. Qed.

Lemma others_cons ip a l :
  others ip (a :: l) = if bool_decide (ip = Some a) then others ip l else a :: others ip l.
Proof.
  unfold others. rewrite filter_cons. case_decide as H; case_bool_decide; subst; try done; by destruct H.
Qed.

(** Taking a frame's reference out of the table. *)
Lemma fetch_slot s ptr rest :
  slots s ≡ₚ ptr :: rest →
  ∃ r refs', fetch_cached_ref ptr (pj_refs s) = (Some r, refs') ∧ ref_data r = ptr ∧
    slots (with_refs refs' s) ≡ₚ rest ∧ r ∈ occ (pj_refs s) ∧ occ refs' ⊆ occ (pj_refs s) ∧
    length refs' = length (pj_refs s) ∧
    table_refs s ≡ₚ ptr :: ref_opaque r :: table_refs (with_refs refs' s).
Proof.
  intros Hs. destruct (fetch_cached_found ptr (pj_refs s)) as (r & refs' & -> & Hr & Hp & Hl).
  { fold (slots s). rewrite Hs. by left. }
  exists r, refs'. split; [done|]. split; [done|].
  split; [|split; [rewrite Hp; by left|split; [|split; [done|]]]].
  - apply (Permutation_cons_inv (a := ptr)). rewrite <- Hs. unfold slots, with_refs. cbn.
    rewrite Hp. cbn. by rewrite Hr.
  - rewrite Hp. by apply list_subseteq_cons.
  - unfold table_refs. cbn [pj_refs with_refs]. rewrite Hp. cbn. by rewrite Hr.
Qed.

Lemma process_drop_ok fs s h ip ext rest :
  slots s ≡ₚ others ip (datas fs) ++ rest → heap_ok h (ext ++ table_refs s) →
  ∃ s' h', process_drop_list s h fs ip = Done (s', h') ∧ moved s s' h h' ext rest ∧
    u64 (pj_dropped s') = u64 (pj_dropped s + zlen (rtps fs)).
Proof.
  revert s h. induction fs as [|[p|e] fs IH]; intros s h Hs Hh; cbn [process_drop_list].
  - exists s, h. change (zlen (rtps [])) with 0. rewrite Z.add_0_r. split; [done|]. split; [|done]. constructor; try done.
  - change (datas (RFT_RTP p :: fs)) with (rp_data p :: datas fs) in Hs. rewrite others_cons in Hs.
    change (zlen (rtps (RFT_RTP p :: fs))) with (zlen (p :: rtps fs)). rewrite zlen_cons.
    case_bool_decide as Hip.
    + destruct (IH (count_dropped s) h Hs Hh) as (s' & h' & -> & Hmv & Hd).
      exists s', h'. split; [done|]. split; [by destruct Hmv|]. rewrite Hd. cbn.
      unfold u64. rewrite Zplus_mod_idemp_l. f_equal. lia.
    + cbn [app] in Hs. destruct (fetch_slot _ _ _ Hs) as (r & refs' & Hf & Hr & Hs' & _ & Hocc & Hl & Ht).
      change (pj_refs (count_dropped s)) with (pj_refs s). rewrite Hf.
      cbn [fmap option_fmap option_map py_xdecref]. rewrite Hr.
      assert (heap_ok h (rp_data p :: ref_opaque r :: ext ++ table_refs (with_refs refs' s))) as Hh'.
      { rewrite Ht in Hh. eapply heap_ok_perm; [|exact Hh]. perm_count. }
      destruct (decref_ok _ _ _ Hh') as (h0 & -> & Hh0 & Hr0). cbn [mbind outcome_bind].
      destruct (decref_ok _ _ _ Hh0) as (h1 & -> & Hh1 & Hr1'). cbn [mbind outcome_bind].
      assert (keeps h h1) as Hr1 by (by etrans).
      destruct (IH (with_refs refs' (count_dropped s)) h1 Hs' Hh1) as (s' & h' & -> & Hmv & Hd).
      exists s', h'. split; [done|]. split.
      * destruct Hmv. constructor; [done|done|by etrans|done|done|by rewrite mv_len0|by etrans].
      * rewrite Hd. cbn. unfold u64. rewrite Zplus_mod_idemp_l. f_equal. lia.
  - apply (IH s h Hs Hh).
Qed.

(** What a call knows of its own object and the opaque object that came with it:
    both are held by the caller. *)
Definition input_ok (input : option (Z * Z)) (ext : list Z) (given : list (Z * Z)) : Prop :=
  match input with Some (a, opaque) => a ∈ ext ∧ opaque ∈ ext ∧ (a, opaque) ∈ given | None => True end.

Lemma fetch_ready_ok s h p input ext given l rest :
  input_ok input ext given → owners s ⊆ given →
  slots s ≡ₚ others (fst <$> input) (rp_data p :: l) ++ rest → heap_ok h (ext ++ table_refs s) →
  ∃ opaque s1 h1, fetch_ready_ref s h (rp_data p) input =
      Done (Some (rp_data p), Some opaque, s1, h1) ∧
    (rp_data p, opaque) ∈ given ∧ moved s s1 h h1 (rp_data p :: opaque :: ext) (others (fst <$> input) l ++ rest) ∧
    pj_dropped s1 = pj_dropped s.
Proof.
  intros Hin Hgiven Hs Hh. rewrite others_cons in Hs.
  assert (fst <$> input ≠ Some (rp_data p) →
    ∃ opaque s1, (let '(o, refs) := fetch_cached_ref (rp_data p) (pj_refs s) in
        Done (ref_data <$> o, ref_opaque <$> o, with_refs refs s, h)) =
      Done (Some (rp_data p), Some opaque, s1, h) ∧
    (rp_data p, opaque) ∈ given ∧ moved s s1 h h (rp_data p :: opaque :: ext) (others (fst <$> input) l ++ rest) ∧
    pj_dropped s1 = pj_dropped s) as Hcached.
  { intros Hne. rewrite bool_decide_eq_false_2 in Hs by done.
    destruct (fetch_slot _ _ _ Hs) as (r & refs' & -> & Hr & Hs' & Hin' & Hocc & Hl & Ht).
    exists (ref_opaque r), (with_refs refs' s). cbn. rewrite Hr. split; [done|]. split.
    - apply Hgiven. rewrite <- Hr. by apply (list_elem_of_fmap_2 owner).
    - split; [|done]. constructor; try done. rewrite Ht in Hh. eapply heap_ok_perm; [|exact Hh]. perm_count. }
  unfold fetch_ready_ref. destruct input as [[a opaque]|]; cbn [fst fmap option_fmap option_map] in *.
  - destruct (rp_data p =? a) eqn:E; zbool.
    + rewrite bool_decide_eq_true_2 in Hs by congruence. destruct Hin as (Ha & Ho & Hg). rewrite E.
      destruct (incref_ok h (ext ++ table_refs s) a Hh) as (h0 & -> & Hh0 & Hr0); [apply elem_of_app; by left|].
      cbn [mbind outcome_bind].
      destruct (incref_ok h0 _ opaque Hh0) as (h1 & -> & Hh1 & Hr1); [right; apply elem_of_app; by left|].
      exists opaque, s, h1. split; [done|]. split; [done|]. split; [|done]. constructor; try done.
      * eapply heap_ok_perm; [|exact Hh1]. perm_count.
      * intros b v. by rewrite Hr1, Hr0.
    + destruct Hcached as (o & s1 & Ef & ? & ? & ?); [congruence|]. exists o, s1, h. by split; [exact Ef|].
  - destruct Hcached as (o & s1 & Ef & ? & ? & ?); [done|]. exists o, s1, h. by split; [exact Ef|].
Qed.

Lemma wrapper_refs_snoc ws w :
  wrapper_refs (ws ++ [w]) ≡ₚ own_refs w ++ wrapper_refs ws.
Proof. unfold wrapper_refs. rewrite bind_app. cbn. rewrite app_nil_r. apply Permutation_app_comm. Qed.

Lemma own_in_wrappers a w ws : w ∈ ws → a ∈ own_refs w → a ∈ wrapper_refs ws.
Proof. intros Hw Ha. apply list_elem_of_bind. by exists w. Qed.

Lemma data_own w a : fw_data w = Some a → a ∈ own_refs w.
Proof. intros E. unfold own_refs. rewrite E. by left. Qed.

(** Giving up: what is left of the list and the wrappers made are let go. *)
Lemma let_go s h fs ip ws ext rest :
  slots s ≡ₚ others ip (datas fs) ++ rest → heap_ok h ((wrapper_refs ws ++ ext) ++ table_refs s) →
  ∃ s' h', (('(s, h) ← process_drop_list s h fs ip;
            h ← py_decref_all h (wrapper_refs ws); Done (None, s, h))
              : outcome (option (list PyFrameWrapper) * PyRtpJBuf * pyheap)) = Done (None, s', h') ∧
    moved s s' h h' ext rest.
Proof.
  intros Hs Hh. destruct (process_drop_ok fs s h ip _ rest Hs Hh) as (s1 & h1 & -> & [] & _).
  cbn [mbind outcome_bind]. rewrite <- app_assoc in mv_heap0.
  destruct (decref_all_ok _ _ _ mv_heap0) as (h2 & -> & Hh2 & Hr2). cbn [mbind outcome_bind].
  exists s1, h2. split; [done|]. constructor; try done. by etrans.
Qed.

Lemma frame_src_read h h' p : py_read h' (rp_data p) = py_read h (rp_data p) → frame_src h p → frame_src h' p.
Proof. intros E (b & Hb & H). exists b. by rewrite E. Qed.

Lemma wraps_read h h' given f w :
  (∀ a, fw_data w = Some a → py_read h' a = py_read h a) → wraps h given f w → wraps h' given f w.
Proof.
  intros E. destruct f as [p|e]; [|done]. intros (b & o & Hb & Hg & Hc & Hd & Hrest).
  exists b, o. rewrite E by done. done.
Qed.

(** What [process_ready_list] comes to: all wrappers, or nothing is kept. *)
Definition ready_post (plan : alloc_plan) (given : list (Z * Z)) (ext rest : list Z)
    (s : PyRtpJBuf) (h : pyheap) (fs : list rtp_frame) (ws : list PyFrameWrapper)
    (x : option (list PyFrameWrapper) * PyRtpJBuf * pyheap) : Prop :=
  let '(o, s', h') := x in
  match o with
  | Some ws' => ∃ new, ws' = ws ++ new ∧ moved s s' h h' (wrapper_refs ws' ++ ext) rest ∧
      Forall2 (wraps h' given) fs new ∧ pj_dropped s' = pj_dropped s
  | None => moved s s' h h' ext rest ∧ ∃ j, plan j ≠ (None, true)
  end.

Lemma ready_post_trans plan given ext rest s s1 h h1 f fs w ws ext1 rest1 x :
  moved s s1 h h1 ext1 rest1 → wraps h1 given f w → pj_dropped s1 = pj_dropped s →
  ready_post plan given ext rest s1 h1 fs (ws ++ [w]) x →
  ready_post plan given ext rest s h (f :: fs) ws x.
Proof.
  intros Hmv Hw Hd. destruct x as [[[ws'|] s'] h']; cbn.
  - intros (new & -> & Hmv' & Hnew & Hd'). exists (w :: new).
    rewrite <- app_assoc. split; [done|]. split; [|split; [|congruence]].
    + rewrite <- app_assoc in Hmv'. by eapply moved_trans.
    + constructor; [|done]. eapply wraps_read; [|exact Hw].
      intros a Ha. eapply keeps_read; [apply Hmv'|apply Hmv'|].
      apply elem_of_app. left. apply elem_of_app. left.
      apply (own_in_wrappers _ w); [rewrite !elem_of_app; left; right; by left|by apply data_own].
  - intros [Hmv' Hj]. split; [by eapply moved_trans|done].
Qed.

Lemma frames_src_keeps h h' l fs rest ip :
  keeps h h' → heap_ok h' l → (∀ a, ip = Some a → a ∈ l) → others ip (datas fs) ++ rest ⊆ l →
  Forall (frame_src h) (rtps fs) → Forall (frame_src h') (rtps fs).
Proof.
  intros Hk Hok Hip Hl. rewrite !Forall_forall. intros H p Hp.
  eapply frame_src_read; [|by apply H]. eapply keeps_read; [done..|].
  destruct (decide (ip = Some (rp_data p))) as [E|E]; [by apply Hip|].
  apply Hl, elem_of_app. left. apply list_elem_of_filter. split; [congruence|].
  by apply list_elem_of_fmap_2.
Qed.

(** The list does not take the wrapper. *)
Lemma append_failed plan k s h s1 h1 f fs w ws ext rest given ip :
  moved s s1 h h1 (wrapper_refs (ws ++ [w]) ++ ext) (others ip (datas fs) ++ rest) → (plan k).2 = false →
  ∃ x, (h ← py_decref_all h1 (own_refs w);
        '(s, h) ← process_drop_list s1 h fs ip;
        h ← py_decref_all h (wrapper_refs ws); Done (None, s, h)) = Done x ∧
    ready_post plan given ext rest s h (f :: fs) ws x.
Proof.
  intros Hmv Ek. pose proof Hmv as [Hh1 Hs1 _ _ _ _ _]. rewrite wrapper_refs_snoc in Hh1.
  assert (heap_ok h1 (own_refs w ++ (wrapper_refs ws ++ ext) ++ table_refs s1)) as Hh1'
    by (eapply heap_ok_perm; [|exact Hh1]; perm_count).
  destruct (decref_all_ok _ _ _ Hh1') as (h2 & -> & Hh2 & Hk2). cbn [mbind outcome_bind].
  destruct (let_go s1 h2 fs ip ws ext rest Hs1 Hh2) as (s' & h' & Hg & Hmv').
  exists (None, s', h'). split; [exact Hg|]. cbn. split.
  - eapply moved_trans; [exact Hmv|]. destruct Hmv'. constructor; try done. by etrans.
  - exists k. intros E. by rewrite E in Ek.
Qed.

Lemma process_ready_ok plan fs k s h ws ext rest given input :
  input_ok input ext given → owners s ⊆ given → Forall (frame_src h) (rtps fs) →
  slots s ≡ₚ others (fst <$> input) (datas fs) ++ rest →
  heap_ok h ((wrapper_refs ws ++ ext) ++ table_refs s) →
  ∃ x, process_ready_list plan k s h fs input ws = Done x ∧ ready_post plan given ext rest s h fs ws x.
Proof.
  revert k s h ws. induction fs as [|f fs IH]; intros k s h ws Hin Hgiven Hsrc Hs Hh.
  { eexists. split; [done|]. exists []. rewrite app_nil_r. split; [done|].
    split; [|split; [constructor|done]]. by constructor. }
  assert (∀ w s1 h1, moved s s1 h h1 (wrapper_refs (ws ++ [w]) ++ ext) (others (fst <$> input) (datas fs) ++ rest) →
    wraps h1 given f w → pj_dropped s1 = pj_dropped s →
    ∃ x, (if (plan k).2 then process_ready_list plan (S k) s1 h1 fs input (ws ++ [w])
      else
        h ← py_decref_all h1 (own_refs w);
        '(s, h) ← process_drop_list s1 h fs (fst <$> input);
        h ← py_decref_all h (wrapper_refs ws); Done (None, s, h)) = Done x ∧
      ready_post plan given ext rest s h (f :: fs) ws x) as Hnext.
  { intros w s1 h1 Hmv Hw Hd1. pose proof Hmv as [Hh1 Hs1 Hocc1 _ _ _ Hr1].
    destruct ((plan k).2) eqn:Ek.
    - destruct (IH (S k) s1 h1 (ws ++ [w])) as (x & -> & Hx); try done.
      { unfold owners. intros y (r & -> & Hr)%list_elem_of_fmap. apply Hgiven.
        apply (list_elem_of_fmap_2 owner). by apply Hocc1. }
      { eapply (frames_src_keeps h h1 _ fs rest (fst <$> input)); [done|exact Hh1| | |].
        - intros a Ha. destruct input as [[? ?]|]; [|done]. injection Ha as ->. destruct Hin.
          rewrite !elem_of_app. auto.
        - intros a Ha. rewrite elem_of_app. right. apply slots_in_table. by rewrite Hs1.
        - destruct f; [by apply Forall_inv_tail in Hsrc|done]. }
      exists x. split; [done|]. by eapply ready_post_trans.
    - by apply (append_failed plan k s h s1 h1). }
  cbn [process_ready_list]. destruct f as [p|e].
  - change (datas (RFT_RTP p :: fs)) with (rp_data p :: datas fs) in Hs.
    change (rtps (RFT_RTP p :: fs)) with (p :: rtps fs) in Hsrc.
    destruct (fetch_ready_ok s h p input (wrapper_refs ws ++ ext) given (datas fs) rest)
      as (opaque & s1 & h1 & -> & Hg & Hmv & Hd); [|done..|].
    { destruct input as [[a o]|]; [|done]. destruct Hin as (? & ? & ?).
      split; [|split; [|done]]; apply elem_of_app; by right. }
    cbn [mbind outcome_bind]. pose proof Hmv as [Hh1 Hs1 Hocc1 _ _ _ Hr1].
    assert (frame_src h1 p) as Hp1.
    { eapply frame_src_read; [|by apply (Forall_inv Hsrc)]. eapply keeps_read; [done..|]. by left. }
    destruct (build_wrapper_ok (plan k).1 h1 p opaque ((wrapper_refs ws ++ ext) ++ table_refs s1) Hp1 Hh1)
      as [(_ & w & bytes & -> & Hb & ->)|(Hf & h2 & -> & Hh2 & Hk2)]; cbn [mbind outcome_bind].
    + apply Hnext; [|by exists bytes, opaque|done]. destruct Hmv. constructor; try done.
      rewrite wrapper_refs_snoc. done.
    + destruct (let_go s1 h2 fs (fst <$> input) ws ext rest Hs1 Hh2) as (s' & h' & E & Hmv').
      exists (None, s', h'). split; [exact E|]. split.
      * eapply moved_trans; [exact Hmv|]. destruct Hmv'. constructor; try done. by etrans.
      * exists k. intros Ek. rewrite Ek in Hf. by destruct Hf.
  - cbn [mbind outcome_bind]. change (datas (RFT_ERS e :: fs)) with (datas fs) in Hs.
    destruct ((plan k).1) as [j|] eqn:Ek; cbn [build_wrapper_ers].
    + destruct (let_go s h fs (fst <$> input) ws ext rest Hs Hh) as (s' & h' & E & Hmv').
      exists (None, s', h'). split; [exact E|]. split; [done|]. exists k. intros E'. by rewrite E' in Ek.
    + apply Hnext; [|done|done]. constructor; try done. by rewrite wrapper_refs_snoc.
Qed.

(** ** Handing over both lists *)

Lemma others_app ip a b : others ip (a ++ b) = others ip a ++ others ip b.
Proof. apply filter_app. Qed.
#[export] Instance others_perm ip : Proper (Permutation ==> Permutation) (others ip).
Proof. intros l l' H. unfold others. by rewrite H. Qed.
Lemma others_notin a l : a ∉ l → others (Some a) l = l.
Proof.
  intros H. unfold others. induction l as [|b l IH]; [done|].
  apply not_elem_of_cons in H as [Hne Hl]. rewrite filter_cons_True by congruence. by rewrite IH.
Qed.
Lemma others_none l : others None l = l.
Proof. unfold others. induction l as [|b l IH]; [done|]. rewrite filter_cons_True by done. by rewrite IH. Qed.

Definition hand_over (m : call_mem) (s : PyRtpJBuf) (h : pyheap) (rdy drp : list rtp_frame)
    (input : option (Z * Z)) : outcome (option (list PyFrameWrapper) * PyRtpJBuf * pyheap) :=
  '(o, s, h) ← ready_list (cm_list m) (cm_plan m) s h rdy input;
  '(s, h) ← process_drop_list s h drp (fst <$> input);
  Done (o, s, h).

Definition handed (o : option (list PyFrameWrapper)) : list Z :=
  match o with Some ws => wrapper_refs ws | None => [] end.

Lemma wraps_all_read h h' l given fs ws :
  keeps h h' → heap_ok h' l → wrapper_refs ws ⊆ l →
  Forall2 (wraps h given) fs ws → Forall2 (wraps h' given) fs ws.
Proof.
  intros Hk Hok Hl H. induction H as [|f w fs ws Hw _ IH]; constructor.
  - eapply wraps_read; [|exact Hw]. intros a Ha. eapply keeps_read; [done..|]. apply Hl.
    apply (own_in_wrappers _ w); [by left|by apply data_own].
  - apply IH. etrans; [|exact Hl]. unfold wrapper_refs. cbn. by apply list_subseteq_app_r.
Qed.

Lemma hand_over_ok m s h rdy drp input ext given held :
  cm_list m = true → input_ok input ext given → owners s ⊆ given → Forall (frame_src h) (rtps rdy) →
  slots s ≡ₚ others (fst <$> input) (datas rdy) ++ others (fst <$> input) (datas drp) ++ held →
  heap_ok h (ext ++ table_refs s) →
  ∃ o s' h', hand_over m s h rdy drp input = Done (o, s', h') ∧
    moved s s' h h' (handed o ++ ext) held ∧
    match o with
    | Some ws => Forall2 (wraps h' given) rdy ws ∧
        u64 (pj_dropped s') = u64 (pj_dropped s + zlen (rtps drp))
    | None => ∃ j, cm_plan m j ≠ (None, true)
    end.
Proof.
  intros Hl Hin Hgiven Hsrc Hs Hh. unfold hand_over, ready_list. rewrite Hl.
  destruct (process_ready_ok (cm_plan m) rdy 0 s h [] ext _ given input Hin Hgiven Hsrc Hs Hh)
    as ([[o s1] h1] & -> & Hpost). cbn [mbind outcome_bind].
  assert (moved s s1 h h1 (handed o ++ ext) (others (fst <$> input) (datas drp) ++ held)) as Hmv.
  { destruct o as [ws|]; [|by destruct Hpost]. by destruct Hpost as (new & -> & Hmv & _). }
  pose proof Hmv as [Hh1 Hs1 _ _ _ _ Hk1].
  destruct (process_drop_ok drp s1 h1 _ _ held Hs1 Hh1) as (s' & h' & -> & Hmv' & Hd').
  cbn [mbind outcome_bind]. exists o, s', h'. split; [done|]. split; [by eapply moved_trans|].
  destruct o as [ws|]; [|by destruct Hpost]. destruct Hpost as (new & -> & _ & Hnew & Hd).
  split; [|by rewrite Hd', Hd].
  eapply wraps_all_read; [apply Hmv'|apply Hmv'| |done]. cbn. set_solver.
Qed.

(** ** What the library's call tells about the table *)

Lemma conserves_datas before st r :
  conserves before st r →
  datas (ready r) ++ (rp_data <$> head st) ++ datas (drop_ r) ≡ₚ rp_data <$> before.
Proof.
  intros H. apply (fmap_Permutation rp_data) in H. rewrite !map_app in H.
  assert (∀ l, rp_data <$> map ageless l = rp_data <$> l) as E
    by (intros l; induction l as [|x l IH]; cbn; [done|by rewrite IH]).
  rewrite <- !map_app, !E, !fmap_app in H. done.
Qed.

Lemma conserves_src h before st r :
  conserves before st r → Forall (frame_src h) before →
  Forall (frame_src h) (rtps (ready r)) ∧ Forall (frame_src h) (head st).
Proof.
  intros H Hb. rewrite Forall_forall in Hb.
  assert (∀ p, p ∈ rtps (ready r) ++ head st ++ rtps (drop_ r) → frame_src h p) as Hall.
  { intros p Hp. assert (ageless p ∈ map ageless before) as Hin
      by (rewrite <- H; by apply (list_elem_of_fmap_2 ageless)).
    apply list_elem_of_fmap in Hin as (q & E & Hq). destruct (Hb q Hq) as (b & H1 & H2 & H3 & H4).
    injection E. intros E1 _ E2. exists b. by rewrite E1, E2. }
  split; apply Forall_forall; intros p Hp; apply Hall; set_solver.
Qed.

(** The table and the buffer belong together: a slot for each buffered frame,
    holding the object the frame points into; every object is counted as often
    as it is held, by the table and by [ext]. *)
Record py_inv (s : PyRtpJBuf) (h : pyheap) (ext : list Z) (jb : rtpjbuf_inst) : Prop := {
  pi_jb : pj_jb s = Some jb;
  pi_inv : jb_inv jb;
  pi_cap : capacity jb = zlen (pj_refs s);
  pi_slots : slots s ≡ₚ rp_data <$> head jb;
  pi_nodup : NoDup (rp_data <$> head jb);
  pi_heap : heap_ok h (ext ++ table_refs s);
  pi_src : Forall (frame_src h) (head jb);
}.

Lemma py_inv_make s h ext jb s1 s' h' ext' jb' d rdy :
  py_inv s h ext jb → jb_step d jb jb' rdy → pj_jb s1 = Some jb' →
  length (pj_refs s1) = length (pj_refs s) → moved s1 s' h h' ext' (rp_data <$> head jb') →
  NoDup (rp_data <$> head jb') → Forall (frame_src h) (head jb') → py_inv s' h' ext' jb'.
Proof.
  intros [] [] Hj Hl [] Hn Hs. constructor; [congruence|done| |done|done|done|].
  - rewrite js_cap, pi_cap0. unfold zlen. by rewrite mv_len0, Hl.
  - rewrite Forall_forall in Hs |- *. intros p Hp. eapply frame_src_read; [|by apply Hs].
    eapply keeps_read; [done|exact mv_heap0|]. rewrite elem_of_app. right. apply slots_in_table.
    rewrite mv_slots0. by apply list_elem_of_fmap_2.
Qed.

(** ** One call *)

(** The reference the call took to its own object is given back. *)
Lemma moved_decref s s' h h' a ext rest :
  moved s s' h h' (a :: ext) rest →
  ∃ h2, py_decref h' a = Done h2 ∧ moved s s' h h2 ext rest ∧ keeps h' h2.
Proof.
  intros []. destruct (decref_ok _ _ _ mv_heap0) as (h2 & -> & Hh & Hk). exists h2.
  split; [done|]. split; [|done]. constructor; try done. by etrans.
Qed.

Lemma list_has_spec fs a : list_has_data_ptr fs a = true ↔ a ∈ datas fs.
Proof.
  unfold list_has_data_ptr, datas. induction fs as [|[p|e] fs IH]; cbn.
  - by rewrite elem_of_nil.
  - rewrite orb_true_iff, IH, Z.eqb_eq, elem_of_cons. split; intros [?|?]; auto.
  - done.
Qed.

(** The table has room for the call's object when the buffer is not full. *)
Lemma store_ok s h ext jb a opaque :
  py_inv s h ext jb → a ∈ ext → opaque ∈ ext →
  ∀ jb', ∃ s1 h1, store_data_ref (with_jb (Some jb') s) h a opaque = Done (true, s1, h1) ∧
    slots s1 ≡ₚ a :: slots s ∧ owners s1 ⊆ (a, opaque) :: owners s ∧ heap_ok h1 (ext ++ table_refs s1) ∧
    keeps h h1 ∧ (∀ b, py_read h1 b = py_read h b) ∧ pj_jb s1 = Some jb' ∧
    length (pj_refs s1) = length (pj_refs s) ∧ pj_dropped s1 = pj_dropped s.
Proof.
  intros [] Ha Ho jb'. unfold store_data_ref.
  destruct (store_ref_slot_room {| ref_data := a; ref_opaque := opaque |} (pj_refs s))
    as (refs' & Hst & Hp & Hl).
  { pose proof (inv_full _ pi_inv0) as Hf. apply Permutation_length in pi_slots0.
    unfold slots in pi_slots0. rewrite !length_fmap in pi_slots0. unfold zlen in *. lia. }
  change (pj_refs (with_jb (Some jb') s)) with (pj_refs s). rewrite Hst.
  destruct (incref_ok h (ext ++ table_refs s) a pi_heap0) as (h0 & -> & Hh0 & Hr0); [apply elem_of_app; by left|].
  cbn [mbind outcome_bind].
  destruct (incref_ok h0 _ opaque Hh0) as (h1 & -> & Hh1 & Hr1); [right; apply elem_of_app; by left|].
  cbn [mbind outcome_bind]. eexists _, h1. split; [done|].
  assert (slots (with_refs refs' (with_jb (Some jb') s)) ≡ₚ a :: slots s) as Hs.
  { unfold slots. cbn. by rewrite Hp. }
  assert (∀ b, py_read h1 b = py_read h b) as Hrd by (intros b; by rewrite Hr1).
  split; [done|]. split; [|split; [|split; [|repeat split; done]]].
  - unfold owners. cbn. intros x. rewrite Hp. done.
  - eapply heap_ok_perm; [|exact Hh1]. unfold table_refs. cbn [pj_refs with_refs]. rewrite Hp. cbn. perm_count.
  - intros b v. by rewrite Hrd.
Qed.

Lemma jb_nodup_data before st r :
  conserves before st r → NoDup (rp_data <$> before) → NoDup (rp_data <$> head st).
Proof.
  intros H Hn. rewrite <- (conserves_datas _ _ _ H) in Hn.
  apply NoDup_app in Hn as (_ & _ & Hn). by apply NoDup_app in Hn as (Hn & _).
Qed.

(** The datagram did not get into the buffer: stale frames are let go. *)
Lemma udp_refused s h ext jb a jb' r d rdy :
  py_inv s h (a :: ext) jb → a ∉ rp_data <$> head jb → jb_step d jb jb' rdy →
  ready r = [] → conserves (head jb) jb' r →
  ∃ s' h' h2, process_drop_list (with_jb (Some jb') s) h (drop_ r) (Some a) = Done (s', h') ∧
    py_decref h' a = Done h2 ∧ py_inv s' h2 ext jb' ∧
    u64 (pj_dropped s') = u64 (pj_dropped s + zlen (rtps (drop_ r))).
Proof.
  intros Hinv Ha Hstep Hr Hcons. pose proof (conserves_datas _ _ _ Hcons) as Hd. rewrite Hr in Hd.
  change (datas []) with (@nil Z) in Hd. cbn [app] in Hd.
  assert (a ∉ datas (drop_ r)) as Hna by (intros H; apply Ha; rewrite <- Hd; set_solver).
  destruct (process_drop_ok (drop_ r) (with_jb (Some jb') s) h (Some a) (a :: ext) (rp_data <$> head jb'))
    as (s' & h' & -> & Hmv & Hdr).
  { rewrite others_notin by done. change (slots (with_jb (Some jb') s)) with (slots s).
    rewrite (pi_slots _ _ _ _ Hinv), <- Hd. by rewrite Permutation_app_comm. }
  { apply Hinv. }
  destruct (moved_decref _ _ _ _ _ _ _ Hmv) as (h2 & Hdec & Hmv2 & _). exists s', h', h2.
  split; [done|]. split; [done|]. split; [|done].
  eapply (py_inv_make s h _ jb (with_jb (Some jb') s)); try done.
  - eapply jb_nodup_data; [done|apply Hinv].
  - by apply (conserves_src h _ _ _ Hcons), Hinv.
Qed.

(** The datagram was taken: its object is stored, handed out, or dropped. *)
Lemma udp_accepted m s h ext jb a opaque newf jb' r d rdy :
  py_inv s h (a :: ext) jb → opaque ∈ ext → a ∉ rp_data <$> head jb → jb_step d jb jb' rdy →
  conserves (newf :: head jb) jb' r → rp_data newf = a → frame_src h newf → cm_list m = true →
  ∃ s1 h1 o s' h' h2,
    (if negb (list_has_data_ptr (ready r) a || list_has_data_ptr (drop_ r) a)
     then store_data_ref (with_jb (Some jb') s) h a opaque
     else Done (true, with_jb (Some jb') s, h)) = Done (true, s1, h1) ∧
    hand_over m s1 h1 (ready r) (drop_ r) (Some (a, opaque)) = Done (o, s', h') ∧
    py_decref h' a = Done h2 ∧ py_inv s' h2 (handed o ++ ext) jb' ∧
    match o with
    | Some ws => Forall2 (wraps h2 ((a, opaque) :: owners s)) (ready r) ws ∧
        u64 (pj_dropped s') = u64 (pj_dropped s + zlen (rtps (drop_ r)))
    | None => ∃ j, cm_plan m j ≠ (None, true)
    end.
Proof.
  intros Hinv Ho Ha Hstep Hcons Hnew Hsrc Hl. pose proof (conserves_datas _ _ _ Hcons) as Hd.
  cbn [fmap list_fmap] in Hd. rewrite Hnew in Hd.
  assert (NoDup (a :: (rp_data <$> head jb))) as Hnd by (constructor; [done|apply Hinv]).
  pose proof Hnd as Hnd'. rewrite <- Hd in Hnd'. rewrite !NoDup_app in Hnd'.
  destruct Hnd' as (_ & Hdis & Hndh & Hdis2 & _).
  set (given := (a, opaque) :: owners s).
  destruct (conserves_src h _ _ _ Hcons) as [Hsr Hsh]; [by constructor; [|apply Hinv]|].
  assert (∃ s1 h1, (if negb (list_has_data_ptr (ready r) a || list_has_data_ptr (drop_ r) a)
     then store_data_ref (with_jb (Some jb') s) h a opaque
     else Done (true, with_jb (Some jb') s, h)) = Done (true, s1, h1) ∧
    slots s1 ≡ₚ others (Some a) (datas (ready r)) ++ others (Some a) (datas (drop_ r)) ++ (rp_data <$> head jb') ∧
    owners s1 ⊆ given ∧ heap_ok h1 ((a :: ext) ++ table_refs s1) ∧ (∀ b, py_read h1 b = py_read h b) ∧
    pj_jb s1 = Some jb' ∧ length (pj_refs s1) = length (pj_refs s) ∧ pj_dropped s1 = pj_dropped s)
    as (s1 & h1 & -> & Hs1 & Hg1 & Hh1 & Hr1 & Hj1 & Hl1 & Hdr1).
  { destruct (negb _) eqn:Er.
    - apply negb_true_iff, orb_false_iff in Er as [E1 E2].
      assert (a ∉ datas (ready r)) as N1 by (intros H%list_has_spec; congruence).
      assert (a ∉ datas (drop_ r)) as N2 by (intros H%list_has_spec; congruence).
      destruct (store_ok s h _ jb a opaque Hinv) with (jb' := jb')
        as (s1 & h1 & Hst & Hs1 & Hg1 & Hh1 & _ & Hr1 & Hj1 & Hl1 & Hdr1); [by left|by right|].
      exists s1, h1. split; [done|]. split; [|done]. rewrite !others_notin by done.
      rewrite Hs1, (pi_slots _ _ _ _ Hinv), <- Hd. by rewrite (Permutation_app_comm (datas (drop_ r))).
    - exists (with_jb (Some jb') s), h. split; [done|].
      split; [|split; [by apply list_subseteq_cons|split; [apply Hinv|done]]].
      change (slots (with_jb (Some jb') s)) with (slots s). rewrite (pi_slots _ _ _ _ Hinv).
      assert (a ∉ rp_data <$> head jb') as Nh.
      { intros Hin. apply negb_false_iff, orb_true_iff in Er as [H|H]; apply list_has_spec in H.
        - apply (Hdis a H). set_solver.
        - by apply (Hdis2 a Hin). }
      apply (others_perm (Some a)) in Hd. rewrite !others_app, others_cons, bool_decide_eq_true_2 in Hd by done.
      rewrite (others_notin a (rp_data <$> head jb)), (others_notin a (rp_data <$> head jb')) in Hd by done.
      rewrite <- Hd. by rewrite (Permutation_app_comm (others _ (datas (drop_ r)))). }
  destruct (hand_over_ok m s1 h1 (ready r) (drop_ r) (Some (a, opaque)) (a :: ext) given (rp_data <$> head jb'))
    as (o & s' & h' & Hho & Hmv & Hpost); [done|by split; [left|split; [right|left]]|done| |done|done|].
  { eapply Forall_impl; [exact Hsr|]. intros p. apply frame_src_read, Hr1. }
  assert (moved s1 s' h1 h' (a :: handed o ++ ext) (rp_data <$> head jb')) as Hmv'.
  { destruct Hmv. constructor; try done. rewrite Permutation_middle. done. }
  destruct (moved_decref _ _ _ _ _ _ _ Hmv') as (h2 & Hdec & Hmv2 & Hk2).
  exists s1, h1, o, s', h', h2. split; [done|]. split; [done|]. split; [done|]. split.
  - eapply (py_inv_make s h _ jb s1 s' h2 _ jb'); try done.
    destruct Hmv2. constructor; try done. intros b v Hb. rewrite <- Hr1. by apply mv_read0.
  - destruct o as [ws|]; [|done]. destruct Hpost as [Hw Hd']. split; [|by rewrite Hd', Hdr1].
    eapply wraps_all_read; [exact Hk2|apply Hmv2| |done]. cbn. set_solver.
Qed.

(** ** Flushing *)

Lemma rtpjbuf_flush_empties jb jb' r : rtpjbuf_flush jb = Done (jb', r) → head jb' = [].
Proof.
  unfold rtpjbuf_flush. destruct (head jb) as [|x rest] eqn:Eh; [by intros [= <- _]|].
  rewrite bind_assert_done. intros [_ E]. destruct (flush_loop _ _ _ _) as [[run lst] d].
  rewrite bind_done in E. destruct E as ([s1 ers] & _ & E). run_in E. by injection E as <- _.
Qed.

Lemma flush_call m s h ext jb :
  py_inv s h ext jb → cm_list m = true →
  ∃ jb' r o s' h', rtpjbuf_flush jb = Done (jb', r) ∧
    hand_over m (with_jb (Some jb') s) h (ready r) (drop_ r) None = Done (o, s', h') ∧
    py_inv s' h' (handed o ++ ext) jb' ∧ head jb' = [] ∧
    match o with
    | Some ws => Forall2 (wraps h' (owners s)) (ready r) ws ∧
        u64 (pj_dropped s') = u64 (pj_dropped s + zlen (rtps (drop_ r)))
    | None => ∃ j, cm_plan m j ≠ (None, true)
    end.
Proof.
  intros Hinv Hl. pose proof (flush_ok jb (pi_inv _ _ _ _ Hinv)) as Hok. unfold step_ok in Hok.
  destruct (rtpjbuf_flush jb) as [[jb' r]| | |] eqn:E; try done. cbn [fst snd succeeds] in Hok.
  pose proof (rtpjbuf_flush_conserve _ _ _ E) as Hcons.
  pose proof (rtpjbuf_flush_empties _ _ _ E) as Hempty.
  pose proof (conserves_datas _ _ _ Hcons) as Hd. rewrite Hempty in Hd. cbn [fmap list_fmap app] in Hd.
  destruct (hand_over_ok m (with_jb (Some jb') s) h (ready r) (drop_ r) None ext (owners s) [])
    as (o & s' & h' & Hho & Hmv & Hpost); [done|done|done| | |apply Hinv|].
  { apply (conserves_src h _ _ _ Hcons), Hinv. }
  { cbn [fst fmap option_fmap option_map]. rewrite !others_none, app_nil_r.
    change (slots (with_jb (Some jb') s)) with (slots s). by rewrite (pi_slots _ _ _ _ Hinv), <- Hd. }
  exists jb', r, o, s', h'. split; [done|]. split; [done|]. split; [|done].
  eapply (py_inv_make s h _ jb (with_jb (Some jb') s)); try done; rewrite Hempty; [done|constructor|constructor].
Qed.

(** A fresh object. *)
Lemma init_inv h ext alloc_refs capacity s :
  3 ≤ capacity < 4294967296 → heap_ok h ext →
  PyRtpJBuf_init true alloc_refs capacity = Ret s →
  ∃ jb, py_inv s h ext jb ∧ rtpjbuf_ctor true capacity = Some jb ∧ pj_dropped s = 0.
Proof.
  intros Hc Hh. unfold PyRtpJBuf_init. rewrite u32_small by lia. cbn [rtpjbuf_ctor].
  destruct alloc_refs; [|done]. intros [= <-]. eexists. split; [|done].
  assert (∀ n, occ (replicate n None) = []) as Hocc by (intros n; induction n; done).
  unfold occ in Hocc.
  constructor; cbn; try done.
  - by apply (ctor_inv capacity).
  - unfold zlen. rewrite length_replicate. lia.
  - by rewrite Hocc.
  - constructor.
  - by rewrite Hocc, app_nil_r.
Qed.

(** ** Deallocation *)

Lemma dealloc_loop_ok s h ext jb :
  py_inv s h ext jb →
  ∃ jb' s' h', dealloc_loop 1 jb s h = Done (jb', s', h') ∧ head jb' = [] ∧ slots s' = [] ∧
    heap_ok h' ext.
Proof.
  intros Hinv. pose proof (flush_ok jb (pi_inv _ _ _ _ Hinv)) as Hok. unfold step_ok in Hok.
  destruct (rtpjbuf_flush jb) as [[jb' r]| | |] eqn:E; try done.
  pose proof (rtpjbuf_flush_conserve _ _ _ E) as Hcons.
  pose proof (rtpjbuf_flush_empties _ _ _ E) as Hempty.
  pose proof (conserves_datas _ _ _ Hcons) as Hd. rewrite Hempty in Hd. cbn [fmap list_fmap app] in Hd.
  assert (rtpjbuf_flush jb' = Done (jb', ok_result [] [])) as E' by (unfold rtpjbuf_flush; by rewrite Hempty).
  destruct (process_drop_ok (ready r) s h None ext (datas (drop_ r))) as (s1 & h1 & Hd1 & Hm1 & _).
  { by rewrite others_none, (pi_slots _ _ _ _ Hinv), Hd. } { apply Hinv. }
  destruct (process_drop_ok (drop_ r) s1 h1 None ext []) as (s2 & h2 & Hd2 & Hm2 & _).
  { by rewrite others_none, app_nil_r, (mv_slots _ _ _ _ _ _ Hm1). } { apply Hm1. }
  destruct Hm2 as [Hh2 Hs2 _ _ _ _ _]. apply Permutation_nil_r in Hs2.
  rewrite table_refs_nil, app_nil_r in Hh2 by done.
  exists jb', s2, h2. split; [|done]. unfold dealloc_loop. rewrite E. cbn [mbind outcome_bind].
  destruct (ready r) as [|f rs] eqn:Er; [destruct (drop_ r) as [|g ds] eqn:Ed|].
  - cbn in Hd1. injection Hd1 as <- <-. cbn in Hd2. by injection Hd2 as <- <-.
  - rewrite Hd1. cbn [mbind outcome_bind]. rewrite Hd2. cbn [mbind outcome_bind]. by rewrite E'.
  - rewrite Hd1. cbn [mbind outcome_bind]. rewrite Hd2. cbn [mbind outcome_bind]. by rewrite E'.
Qed.

Lemma dealloc_ok s h ext jb :
  py_inv s h ext jb →
  ∃ h', PyRtpJBuf_dealloc 1 s h = Done ([], h') ∧ heap_ok h' ext.
Proof.
  intros Hinv. destruct (dealloc_loop_ok _ _ _ _ Hinv) as (jb' & s' & h' & Hl & He & Hs & Hh).
  unfold PyRtpJBuf_dealloc. rewrite (pi_jb _ _ _ _ Hinv), Hl. cbn [mbind outcome_bind].
  rewrite table_refs_all. change (table_refs (with_jb None s')) with (table_refs s').
  rewrite table_refs_nil by done.
  cbn. unfold rtpjbuf_dtor. rewrite He. by exists h'.
Qed.

Lemma flush_method m s h ext jb jb' r o s' h' :
  py_inv s h ext jb → rtpjbuf_flush jb = Done (jb', r) →
  hand_over m (with_jb (Some jb') s) h (ready r) (drop_ r) None = Done (o, s', h') →
  PyRtpJBuf_flush m s h =
    Done (match o with Some ws => inl ws | None => inr (PyExc MemoryError) end, s', h').
Proof.
  intros Hinv E Hho. unfold PyRtpJBuf_flush. rewrite (pi_jb _ _ _ _ Hinv), E. cbn [mbind outcome_bind].
  unfold hand_over in Hho. rewrite bind_done in Hho. destruct Hho as ([[o1 s2] h2] & E1 & Hho).
  rewrite E1. cbn [mbind outcome_bind] in Hho |- *. rewrite bind_done in Hho.
  destruct Hho as ([s3 h3] & E2 & Hho). injection Hho as -> -> ->.
  cbn [fst fmap option_fmap option_map] in E2. by rewrite E2.
Qed.

(** ** Submitting *)

Lemma udp_in_call (m : call_mem) (s : PyRtpJBuf) (h : pyheap) (ext : list Z)
    (jb : rtpjbuf_inst) (a opaque : Z) (bytes : list Z)
    (Hinv : py_inv s h ext jb) (Ha : a ∈ ext) (Ho : opaque ∈ ext) (Hnew : a ∉ rp_data <$> head jb)
    (Hread : py_read h a = Done bytes) (Hl : cm_list m = true)
    (Hop : op_ok jb (OpUdpIn (cm_frame m) a bytes)) :
  ∃ jb' r res s' h', rtpjbuf_udp_in jb (cm_frame m) a bytes (zlen bytes) = Done (jb', r) ∧
    PyRtpJBuf_udp_in m s h (ArgBytes a) opaque = Done (res, s', h') ∧
    match res with
    | inl ws => error r = 0 ∧ py_inv s' h' (wrapper_refs ws ++ ext) jb' ∧
        Forall2 (wraps h' ((a, opaque) :: owners s)) (ready r) ws ∧
        u64 (pj_dropped s') = u64 (pj_dropped s + zlen (rtps (drop_ r)))
    | inr e => py_inv s' h' ext jb' ∧
        (error r < 0 ∧ e = RTPParseError (error r) ∨
         error r = 0 ∧ e = PyExc MemoryError ∧ ∃ j, cm_plan m j ≠ (None, true))
    end.
Proof.
  pose proof (exec_ok jb _ (pi_inv _ _ _ _ Hinv) Hop) as Hok. unfold step_ok, jb_exec in Hok.
  destruct (rtpjbuf_udp_in _ _ _ _ _) as [[jb' r]| | |] eqn:E; try done. cbn [fst snd succeeds] in Hok.
  unfold PyRtpJBuf_udp_in. rewrite (pi_jb _ _ _ _ Hinv). unfold ensure_bytes.
  destruct (incref_ok h (ext ++ table_refs s) a (pi_heap _ _ _ _ Hinv)) as (h0 & -> & Hh0 & Hr0);
    [apply elem_of_app; by left|].
  assert (py_inv s h0 (a :: ext) jb) as Hinv0.
  { destruct Hinv. constructor; try done. eapply Forall_impl; [exact pi_src0|].
    intros p. apply frame_src_read, Hr0. }
  cbn [mbind outcome_bind]. rewrite Hr0, Hread. cbn [mbind outcome_bind]. rewrite E.
  cbn [mbind outcome_bind]. exists jb', r.
  destruct (udp_in_partition _ _ _ _ _ _ _ E)
    as [(info & q & _ & Herr & Hparse & Hcons)|(Hrdy & Hcons & Hwhy)].
  - rewrite Herr. cbn [negb Z.eqb].
    destruct Hop as (Hb1 & Hb2 & _).
    destruct (udp_accepted m s h0 ext jb a opaque _ jb' r 65536 (ready r) Hinv0 Ho Hnew Hok Hcons)
      as (s1 & h1 & o & s' & h' & h2 & -> & Hho & Hdec & Hinv' & Hpost); [done| |done|].
    { exists bytes. split; [by rewrite Hr0|]. done. }
    cbn [mbind outcome_bind negb]. unfold hand_over in Hho. rewrite bind_done in Hho.
    destruct Hho as ([[o1 s2] h3] & -> & Hho). cbn [mbind outcome_bind] in Hho |- *.
    rewrite bind_done in Hho. destruct Hho as ([s3 h4] & Hdrop & [= <- <- <-]).
    cbn [fst fmap option_fmap option_map] in Hdrop. rewrite Hdrop. cbn [mbind outcome_bind].
    rewrite Hdec. cbn [mbind outcome_bind]. eexists _, s3, h2. split; [done|]. split; [done|].
    destruct o1 as [ws|]; [by destruct Hpost|]. split; [done|]. by right.
  - assert (error r < 0) as Herr.
    { destruct Hwhy as [[_ ->]|(e & info & He & Hne & ->)]; [done|].
      destruct Hop as (Hb1 & Hb2 & _).
      destruct (parse_total bytes rtp_info_zero Hb1 Hb2) as (e' & r' & He' & Hn & _).
      rewrite He in He'. injection He' as <- _. by destruct e. }
    rewrite (proj2 (Z.eqb_neq _ _)) by lia. cbn [negb].
    rewrite (proj2 (Z.ltb_lt _ (rtp_parser_err_value RTP_PARSER_OK))) by (cbn; lia).
    destruct (udp_refused s h0 ext jb a jb' r 65536 (ready r) Hinv0 Hnew Hok Hrdy Hcons)
      as (s' & h' & h2 & -> & Hdec & Hinv' & _).
    cbn [mbind outcome_bind]. rewrite Hdec. cbn [mbind outcome_bind].
    eexists _, s', h2. split; [done|]. split; [done|]. split; [done|]. by left.
Qed.

(** * The life of a buffer *)

(** A program at work: it makes objects, takes and drops references, and calls
    the buffer with objects it holds and that are not in the buffer. [ext] lists
    the references the program holds. *)
Inductive py_life (cap : Z) : PyRtpJBuf → pyheap → list Z → Prop :=
| life_init s h ext :
    PyRtpJBuf_init true true cap = Ret s → heap_ok h ext → py_life cap s h ext
| life_make s h ext a bytes :
    py_life cap s h ext → h !! a = None →
    py_life cap s (<[a := {| rc := 1; val := bytes |}]> h) (a :: ext)
| life_take s h ext a h' :
    py_life cap s h ext → a ∈ ext → py_incref h a = Done h' → py_life cap s h' (a :: ext)
| life_drop s h ext a ext' h' :
    py_life cap s h ext → ext ≡ₚ a :: ext' → py_decref h a = Done h' → py_life cap s h' ext'
| life_udp_in s h ext m a opaque bytes jb res s' h' :
    py_life cap s h ext → a ∈ ext → opaque ∈ ext → pj_jb s = Some jb → a ∉ rp_data <$> head jb →
    py_read h a = Done bytes → cm_list m = true → op_ok jb (OpUdpIn (cm_frame m) a bytes) →
    PyRtpJBuf_udp_in m s h (ArgBytes a) opaque = Done (res, s', h') →
    py_life cap s' h' (match res with inl ws => wrapper_refs ws | inr _ => [] end ++ ext)
| life_flush s h ext m res s' h' :
    py_life cap s h ext → cm_list m = true → PyRtpJBuf_flush m s h = Done (res, s', h') →
    py_life cap s' h' (match res with inl ws => wrapper_refs ws | inr _ => [] end ++ ext).

(** The caller's references change, the buffer's objects do not. *)
Lemma py_inv_ext s h ext jb h' ext' :
  py_inv s h ext jb → heap_ok h' (ext' ++ table_refs s) →
  (∀ b v, py_read h b = Done v → b ∈ slots s → py_read h' b = Done v) → py_inv s h' ext' jb.
Proof.
  intros [] Hok Hr. constructor; try done. rewrite Forall_forall in pi_src0 |- *.
  intros p Hp. destruct (pi_src0 p Hp) as (b & Hb & H). exists b. split; [|done].
  apply Hr; [done|]. rewrite pi_slots0. by apply list_elem_of_fmap_2.
Qed.

Lemma life_inv cap s h ext :
  3 ≤ cap < 4294967296 → py_life cap s h ext → ∃ jb, py_inv s h ext jb.
Proof.
  intros Hcap H. induction H as [s h ext Hi Hh|s h ext a bytes H [jb IH] Ha|s h ext a h' H [jb IH] Ha Hi|
    s h ext a ext' h' H [jb IH] He Hd|s h ext m a opaque bytes jb0 res s' h' H [jb IH] Ha Ho Hjb Hnew Hr Hl Hop Hc|
    s h ext m res s' h' H [jb IH] Hl Hc].
  - destruct (init_inv h ext true cap s Hcap Hh Hi) as (jb & Hj & _). by exists jb.
  - exists jb. eapply py_inv_ext; [exact IH|apply make_ok; [apply IH|done]|].
    intros b v Hb _. unfold py_read in *. rewrite lookup_insert_ne; [done|]. intros ->. by rewrite Ha in Hb.
  - destruct (incref_ok h (ext ++ table_refs s) a (pi_heap _ _ _ _ IH)) as (h1 & E & Hh1 & Hr1); [apply elem_of_app; by left|].
    rewrite E in Hi. injection Hi as <-. exists jb. eapply py_inv_ext; [exact IH|done|].
    intros b v Hb _. by rewrite Hr1.
  - pose proof (pi_heap _ _ _ _ IH) as Hh. rewrite He in Hh.
    destruct (decref_ok h (ext' ++ table_refs s) a Hh) as (h1 & E & Hh1 & Hk).
    rewrite E in Hd. injection Hd as <-. exists jb. eapply py_inv_ext; [exact IH|done|].
    intros b v Hb Hin. rewrite <- Hb. eapply keeps_read; [done..|].
    apply elem_of_app. right. by apply slots_in_table.
  - rewrite (pi_jb _ _ _ _ IH) in Hjb. injection Hjb as <-.
    destruct (udp_in_call m s h ext jb a opaque bytes IH Ha Ho Hnew Hr Hl Hop)
      as (jb' & r & res1 & s1 & h1 & _ & E & Hres).
    rewrite E in Hc. injection Hc as <- <- <-. exists jb'. destruct res1; apply Hres.
  - destruct (flush_call m s h ext jb IH Hl) as (jb' & r & o & s1 & h1 & E & Hho & Hinv & _).
    rewrite (flush_method m s h ext jb jb' r o s1 h1 IH E Hho) in Hc. injection Hc as <- <- <-.
    exists jb'. by destruct o.
Qed.

(** * Examples *)

Definition memory_works : call_mem :=
  {| cm_frame := true; cm_list := true; cm_plan := λ _, (None, true) |}.
Definition fresh_py (cap : Z) : PyRtpJBuf :=
  {| pj_jb := rtpjbuf_ctor true cap; pj_refs := replicate (Z.to_nat cap) None;
     pj_capacity := cap; pj_dropped := 0 |}.
Definition datagram (q : Z) : cell (list Z) :=
  {| rc := 1; val := serialize (plain_packet q (160 * q)) |}.

(** A row of submissions; what each returns: the object and the opaque object of
    each wrapper, or the exception. *)
Fixpoint py_calls (m : call_mem) (s : PyRtpJBuf) (h : pyheap) (l : list (Z * Z))
    : outcome (list (list (option Z * option Z) + jbuf_exn) * PyRtpJBuf * pyheap) :=
  match l with
  | [] => Done ([], s, h)
  | (a, opaque) :: l =>
      '(r, s, h) ← PyRtpJBuf_udp_in m s h (ArgBytes a) opaque;
      '(rs, s, h) ← py_calls m s h l;
      Done (match r with
            | inl ws => inl (map (λ w, (fw_data w, fw_opaque w)) ws)
            | inr e => inr e
            end :: rs, s, h)
  end.

(** The programs' opaque objects. *)
Definition opaque_obj : cell (list Z) := {| rc := 1; val := [] |}.

Definition demo_store : pyheap :=
  list_to_map [(10, opaque_obj); (11, opaque_obj); (12, opaque_obj); (13, opaque_obj);
               (14, opaque_obj); (99, opaque_obj); (200, opaque_obj); (100, datagram 0); (101, datagram 1); (102, datagram 2); (103, datagram 3);
               (104, datagram 4); (112, datagram 2)].

(** Why an object must not be submitted while it is in the buffer: 104 is
    submitted with 14, goes stale on its own second submission, and is then
    handed out with 14 although it came with 200. *)
Lemma resubmitted_object_stale_opaque :
  ∃ s h, py_calls memory_works (fresh_py 3) demo_store
      [(100, 10); (102, 12); (104, 14); (112, 99); (112, 99); (104, 200); (101, 11); (103, 13)]
    = Done ([inl [(Some 100, Some 10)]; inl []; inl []; inl []; inl []; inl [];
             inl [(Some 101, Some 11); (Some 102, Some 12)];
             inl [(Some 103, Some 13); (Some 104, Some 14)]], s, h).
Proof. do 2 eexists. vm_compute. reflexivity. Qed.

(** With one slot the frame of the third submission stays in the library's
    buffer without a reference: once the program lets its object go, the next
    flush reads freed memory. *)
Lemma capacity_one_dangles :
  let calls := py_calls memory_works (fresh_py 1) demo_store [(100, 10); (102, 12); (104, 14)] in
  (∃ s h, calls = Done ([inl [(Some 100, Some 10)]; inl []; inr (PyExc RuntimeError)], s, h)) ∧
  ('(_, s, h) ← calls; h ← py_decref h 104; PyRtpJBuf_flush memory_works s h) = Undefined.
Proof. split; [do 2 eexists|]; vm_compute; reflexivity. Qed.

(** When the result list cannot be made the ready frames are lost, and their
    slots stay taken by objects that are no longer in the buffer. *)
Lemma no_list_leaks_slots :
  ∃ s h, py_calls {| cm_frame := true; cm_list := false; cm_plan := λ _, (None, true) |}
      {| pj_jb := Some {| last_lseq := 0; last_ts := 0; last_max_lseq := 2; lseq_mask := 0;
           head := [{| rp_info := packet_info (plain_packet 2 320); lseq := 2; jbcnt := 0; rp_data := 102 |}];
           size := 1; capacity := 3; jbs := stats_zero; ers_buf := ers_zero |};
         pj_refs := [Some {| ref_data := 102; ref_opaque := 12 |}; None; None];
         pj_capacity := 3; pj_dropped := 0 |} demo_store [(101, 11)]
      = Done ([inr (PyExc MemoryError)], s, h) ∧
    slots s = [102] ∧ head <$> pj_jb s = Some [].
Proof. do 2 eexists. split; [|split]; vm_compute; reflexivity. Qed.

(** * Properties *)



(** C21: In every life of a buffer of capacity at least three - any sequence of
    submissions, flushes, and other uses of the objects by the program, with
    any failures of memory allocation but that of the result list - the
    deallocation that ends it terminates after at most one round with an empty
    library buffer, touches no dead object, and gives back every reference: the
    objects left are exactly those the program holds, each counted as often as
    the program holds it. *)
Theorem py_life_releases (cap : Z) (s : PyRtpJBuf) (h : pyheap) (ext : list Z)
    (Hcap : 3 ≤ cap < 4294967296) (Hlife : py_life cap s h ext) :
  ∃ h', PyRtpJBuf_dealloc 1 s h = Done ([], h') ∧ heap_ok h' ext.
Proof. destruct (life_inv cap s h ext Hcap Hlife) as [jb Hinv]. by apply (dealloc_ok s h ext jb). Qed.

(** * Witnesses *)

(** The datagram at 100, and 7 to go with it. *)
Definition demo_heap : pyheap := <[100 := datagram 2]> (<[7 := opaque_obj]> ∅).
Definition counted_twice : pyheap :=
  <[100 := {| rc := 2; val := val (datagram 2) |}]> (<[7 := {| rc := 2; val := [] |}]> ∅).

Lemma demo_alone : py_life 3 (fresh_py 3) demo_heap [100; 7].
Proof.
  apply (life_make 3 (fresh_py 3) _ [7] 100 (val (datagram 2))); [|done].
  apply (life_make 3 (fresh_py 3) ∅ [] 7 []); [|done].
  apply life_init; [done|]. intros a. rewrite lookup_empty. apply not_elem_of_nil.
Qed.

Lemma datagram_ok jb m q :
  lseq_mask (purge_stale_tail jb).1 + 131072 < LSEQ_BUDGET →
  ¬ seq_underflow (purge_stale_tail jb).1 (q mod 65536) → jb_inv (purge_stale_tail jb).1 →
  op_ok jb (OpUdpIn m 100 (val (datagram q))).
Proof. intros Hb Hn Hi. apply (arrival_ok jb q Hi Hb Hn). Qed.

Lemma demo_op jb : Some jb = rtpjbuf_ctor true 3 → op_ok jb (OpUdpIn true 100 (val (datagram 2))).
Proof.
  intros [= ->]. apply datagram_ok; [cbn; unfold LSEQ_BUDGET; lia| |].
  - unfold seq_underflow. cbn. lia.
  - apply (ctor_inv 3); [lia|done].
Qed.

(** Number 2 is submitted and waits for its predecessors; the program forgets it. *)
Definition demo_s : PyRtpJBuf :=
  Eval vm_compute in
    match PyRtpJBuf_udp_in memory_works (fresh_py 3) demo_heap (ArgBytes 100) 7 with
    | Done (_, s, _) => s
    | _ => fresh_py 0
    end.

Lemma demo_life : py_life 3 demo_s demo_heap [].
Proof.
  apply (life_drop 3 demo_s (<[100 := datagram 2]> (<[7 := {| rc := 2; val := [] |}]> ∅)) [7] 7 []);
    [|done|vm_compute; reflexivity].
  apply (life_drop 3 demo_s counted_twice [100; 7] 100 [7]); [|done|vm_compute; reflexivity].
  assert (∃ jb, Some jb = rtpjbuf_ctor true 3) as [jb Hjb] by by eexists.
  eapply (life_udp_in 3 (fresh_py 3) demo_heap [100; 7] memory_works 100 7 (val (datagram 2)) jb (inl []));
    [exact demo_alone|by left|by right; left|done| |done|done|by apply demo_op|].
  - injection Hjb as ->. apply not_elem_of_nil.
  - vm_compute. reflexivity.
Qed.



Lemma py_life_releases_witness :
  ∃ h', PyRtpJBuf_dealloc 1 demo_s demo_heap = Done ([], h') ∧ heap_ok h' [].
Proof. apply (py_life_releases 3 demo_s demo_heap []); [lia|exact demo_life]. Defined.

Lemma heap_ok_exact (h : pyheap) l l' a : heap_ok h l → heap_ok h l' → a ∈ l → refs_to a l = refs_to a l'.
Proof.
  intros H H' Ha. destruct (proj1 (heap_ok_elem _ _ a H) Ha) as [c Hc].
  specialize (H a). specialize (H' a). rewrite Hc in H, H'. lia.
Qed.

(** [__init__] called again makes a new buffer and a new table and forgets the old
    ones: the references of the old table are in no slot, and nobody drops them. *)
Lemma reinit_leaks cap s h ext a cap' s' :
  3 ≤ cap < 4294967296 → py_life cap s h ext → a ∈ table_refs s → PyRtpJBuf_init true true cap' = Ret s' →
  heap_ok h (ext ++ table_refs s) ∧ ¬ heap_ok h (ext ++ table_refs s').
Proof.
  intros Hcap Hl Ha Hi. destruct (life_inv _ _ _ _ Hcap Hl) as [jb Hinv].
  pose proof (pi_heap _ _ _ _ Hinv) as Hh. split; [done|]. intros Hh'.
  assert (table_refs s' = []) as Hs'.
  { unfold PyRtpJBuf_init in Hi. destruct (rtpjbuf_ctor true (u32 cap')); [|done]. injection Hi as <-.
    unfold table_refs, occ. cbn. clear. by induction (Z.to_nat (u32 cap')). }
  pose proof (heap_ok_exact _ _ _ a Hh Hh' (proj2 (elem_of_app _ _ _) (or_intror Ha))) as E. rewrite Hs', app_nil_r in E.
  unfold refs_to in E. rewrite count_occ_app in E. apply refs_to_pos in Ha. unfold refs_to in Ha. lia.
Qed.
