(* ===== verification/PyFrames.v ===== *)
(** The objects a jitter buffer hands to Python: the types RTPInfo, RTPPacket,
    ERSFrame, RTPFrameUnion, RTPFrame and FrameWrapper of src/python/RtpJBuf_mod.c
    on a store of reference-counted objects that refer to each other, with their
    constructors, [__init__], getters, [str] and deallocation, and the counters of
    what was created and freed. [PyJBuf] has the same objects as values. *)
From stdpp Require Import prelude list gmap strings pretty.
From Stdlib Require Import ZArith Lia.
From S2P Require Import Prelude Py RcHeap RcGraph Rtp JBuf PyJBuf.
Local Open Scope Z_scope.

(** * Objects *)

(** A field of an object is [None] where the C code has [NULL]. [FBytes] and
    [FOther] are the [bytes] objects and whatever else a program attaches to a
    frame; the object [None] is an [FOther] without references. *)
Inductive fobj : Set :=
| FInfo (info : rtp_info)
| FPacket (p : rtp_packet) (info_obj : option Z)
| FErs (e : ers_frame)
| FUnion (rtp ers : option Z)
| FFrame (type : Z) (frame : option Z)
| FWrapper (content data rtp_data opaque : option Z)
| FBytes (b : list Z)
| FOther (refs : list Z).

(** What the deallocation of an object drops, in its order. *)
Definition frefs (o : fobj) : list Z :=
  match o with
  | FPacket _ info_obj => opt_list info_obj
  | FUnion rtp ers => opt_list rtp ++ opt_list ers
  | FFrame _ frame => opt_list frame
  | FWrapper content data rtp_data opaque =>
      opt_list content ++ opt_list data ++ opt_list rtp_data ++ opt_list opaque
  | FOther refs => refs
  | FInfo _ | FErs _ | FBytes _ => []
  end.

(** * Counters *)

(** The types of the module. *)
Inductive counted : Set :=
| RTPInfo | RTPPacket | ERSFrame | RTPFrameUnion | RTPFrame | FrameWrapper | RtpJBuf.

#[export] Instance counted_eq_dec : EqDecision counted.
Proof. solve_decision. Defined.

(** [g_counts]; a field for each type. *)
Record DeallocCounts : Type := {
  created : counted → Z;
  freed_objs : counted → Z;
  counting_enabled : bool;
}.

Definition bump (f : counted → Z) (t : counted) : counted → Z :=
  λ t', if decide (t' = t) then u64 (f t' + 1) else f t'.

(** [count_inc], of the one or the other counter of a type. *)
Definition count_created (t : counted) (g : DeallocCounts) : DeallocCounts :=
  if counting_enabled g then
    {| created := bump (created g) t; freed_objs := freed_objs g; counting_enabled := true |}
  else g.
Definition count_freed (t : counted) (g : DeallocCounts) : DeallocCounts :=
  if counting_enabled g then
    {| created := created g; freed_objs := bump (freed_objs g) t; counting_enabled := true |}
  else g.

Definition type_of (o : fobj) : option counted :=
  match o with
  | FInfo _ => Some RTPInfo
  | FPacket _ _ => Some RTPPacket
  | FErs _ => Some ERSFrame
  | FUnion _ _ => Some RTPFrameUnion
  | FFrame _ _ => Some RTPFrame
  | FWrapper _ _ _ _ => Some FrameWrapper
  | FBytes _ | FOther _ => None
  end.

Definition count_of (f : counted → DeallocCounts → DeallocCounts) (o : fobj) (g : DeallocCounts)
    : DeallocCounts := match type_of o with Some t => f t g | None => g end.

Record fworld : Type := { g_counts : DeallocCounts; fob : gmap Z (cell fobj) }.
Definition set_fob (w : fworld) (h : gmap Z (cell fobj)) : fworld := {| g_counts := g_counts w; fob := h |}.

(** [Py_DECREF]s one after the other, with the deallocations they lead to. *)
Definition fdrop (w : fworld) (l : list Z) : outcome fworld :=
  '(h, g) ← py_drop frefs (λ _, count_of count_freed) (fob w) (g_counts w) l;
  Done {| g_counts := g; fob := h |}.
Definition fincref (w : fworld) (a : Z) : outcome fworld := h ← py_incref (fob w) a; Done (set_fob w h).

(** An allocation, at the address [mem], [None] where there is no memory. *)
Definition fnew (w : fworld) (mem : option Z) (o : fobj) : option Z * fworld :=
  match mem with
  | None => (None, w)
  | Some a =>
      (Some a, {| g_counts := count_of count_created o (g_counts w);
                  fob := <[a := {| rc := 1; val := o |}]> (fob w) |})
  end.

Section Frames.
(** The address of [Py_None]. *)
Context (none : Z).

(** ** Constructors *)

Definition packet_zero : rtp_packet := {| rp_info := rtp_info_zero; lseq := 0; jbcnt := 0; rp_data := 0 |}.

(** [PyType_GenericNew] clears the memory. *)
Definition PyRTPInfo_new (w : fworld) (mem : option Z) := fnew w mem (FInfo rtp_info_zero).
Definition PyRTPPacket_new (w : fworld) (mem : option Z) := fnew w mem (FPacket packet_zero None).
Definition PyERSFrame_new (w : fworld) (mem : option Z) := fnew w mem (FErs ers_zero).
Definition PyRTPFrameUnion_new (w : fworld) (mem : option Z) := fnew w mem (FUnion None None).
Definition PyRTPFrame_new (w : fworld) (mem : option Z) := fnew w mem (FFrame 0 None).
Definition PyFrameWrapper_new (w : fworld) (mem : option Z) := fnew w mem (FWrapper None None None None).

(** The constructors used from C take references over, and drop them where there
    is no memory. *)
Definition fsteal (w : fworld) (mem : option Z) (stolen : list Z) (make : fworld → outcome (fobj * fworld))
    : outcome (option Z * fworld) :=
  match mem with
  | None => w ← fdrop w stolen; Done (None, w)
  | Some _ => '(o, w) ← make w; Done (fnew w mem o)
  end.

Definition PyRTPInfo_FromInfo (w : fworld) (mem : option Z) (info : rtp_info) : option Z * fworld :=
  fnew w mem (FInfo info).

Definition PyRTPPacket_NewSteal (w : fworld) (mem : option Z) (p : rtp_packet) (info_obj : Z)
    : outcome (option Z * fworld) :=
  fsteal w mem [info_obj] (λ w, Done (FPacket p (Some info_obj), w)).

Definition PyERSFrame_FromErs (w : fworld) (mem : option Z) (e : ers_frame) : option Z * fworld :=
  fnew w mem (FErs e).

(** [NULL] becomes [None]. *)
Definition or_none (w : fworld) (o : option Z) : outcome (Z * fworld) :=
  match o with Some a => Done (a, w) | None => w ← fincref w none; Done (none, w) end.

Definition PyRTPFrameUnion_NewSteal (w : fworld) (mem : option Z) (rtp ers : option Z)
    : outcome (option Z * fworld) :=
  fsteal w mem (opt_list rtp ++ opt_list ers) (λ w,
    '(r, w) ← or_none w rtp;
    '(e, w) ← or_none w ers;
    Done (FUnion (Some r) (Some e), w)).

Definition PyRTPFrame_NewSteal (w : fworld) (mem : option Z) (type frame_union : Z)
    : outcome (option Z * fworld) :=
  fsteal w mem [frame_union] (λ w, Done (FFrame type (Some frame_union), w)).

Definition PyFrameWrapper_NewSteal (w : fworld) (mem : option Z) (content : Z) (data rtp_data opaque : option Z)
    : outcome (option Z * fworld) :=
  fsteal w mem (content :: opt_list data ++ opt_list rtp_data ++ opt_list opaque) (λ w,
    '(d, w) ← or_none w data;
    '(r, w) ← or_none w rtp_data;
    '(o, w) ← or_none w opaque;
    Done (FWrapper (Some content) (Some d) (Some r) (Some o), w)).

(** ** [__init__] *)

Definition set_value (w : fworld) (self : Z) (o : fobj) : outcome fworld :=
  match fob w !! self with
  | Some c => Done (set_fob w (<[self := {| rc := rc c; val := o |}]> (fob w)))
  | None => Undefined
  end.

(** [Py_INCREF(Py_None)], [n] times. *)
Fixpoint incref_none (w : fworld) (n : nat) : outcome fworld :=
  match n with O => Done w | S n => w ← fincref w none; incref_none w n end.

(** [nargs]: the size of the argument tuple. *)
Definition takes_no_arguments (w : fworld) (nargs : Z) (body : outcome (pyres unit * fworld))
    : outcome (pyres unit * fworld) :=
  if nargs =? 0 then body else Done (Raise TypeError, w).

Definition PyRTPInfo_init (w : fworld) (self nargs : Z) : outcome (pyres unit * fworld) :=
  takes_no_arguments w nargs (w ← set_value w self (FInfo rtp_info_zero); Done (Ret (), w)).

Definition PyERSFrame_init (w : fworld) (self nargs : Z) : outcome (pyres unit * fworld) :=
  takes_no_arguments w nargs (w ← set_value w self (FErs ers_zero); Done (Ret (), w)).

(** The references of the fields are dropped while the fields still have them;
    then the fields are set. *)
Definition PyRTPPacket_init (w : fworld) (self nargs : Z) (info_obj mem : option Z)
    : outcome (pyres unit * fworld) :=
  takes_no_arguments w nargs (
    w ← set_value w self (FPacket packet_zero info_obj);
    w ← fdrop w (opt_list info_obj);
    let '(info, w) := PyRTPInfo_FromInfo w mem (rp_info packet_zero) in
    w ← set_value w self (FPacket packet_zero info);
    Done (match info with Some _ => Ret () | None => Raise MemoryError end, w)).

Definition PyRTPFrameUnion_init (w : fworld) (self nargs : Z) (rtp ers : option Z)
    : outcome (pyres unit * fworld) :=
  takes_no_arguments w nargs (
    w ← fdrop w (opt_list rtp ++ opt_list ers);
    w ← set_value w self (FUnion (Some none) (Some none));
    w ← incref_none w 2;
    Done (Ret (), w)).

Definition PyRTPFrame_init (w : fworld) (self nargs : Z) (frame : option Z) : outcome (pyres unit * fworld) :=
  takes_no_arguments w nargs (
    w ← set_value w self (FFrame RFT_RTP_value frame);
    w ← fdrop w (opt_list frame);
    w ← set_value w self (FFrame RFT_RTP_value (Some none));
    w ← incref_none w 1;
    Done (Ret (), w)).

Definition PyFrameWrapper_init (w : fworld) (self nargs : Z) (content data rtp_data opaque : option Z)
    : outcome (pyres unit * fworld) :=
  takes_no_arguments w nargs (
    w ← fdrop w (opt_list content ++ opt_list data ++ opt_list rtp_data ++ opt_list opaque);
    w ← set_value w self (FWrapper (Some none) (Some none) (Some none) (Some none));
    w ← incref_none w 4;
    Done (Ret (), w)).

(** The [__init__] of the object at an address. *)
Definition frame_init (w : fworld) (self nargs : Z) (mem : option Z) : outcome (pyres unit * fworld) :=
  o ← py_read (fob w) self;
  match o with
  | FInfo _ => PyRTPInfo_init w self nargs
  | FPacket _ info_obj => PyRTPPacket_init w self nargs info_obj mem
  | FErs _ => PyERSFrame_init w self nargs
  | FUnion rtp ers => PyRTPFrameUnion_init w self nargs rtp ers
  | FFrame _ frame => PyRTPFrame_init w self nargs frame
  | FWrapper content data rtp_data opaque => PyFrameWrapper_init w self nargs content data rtp_data opaque
  | FBytes _ | FOther _ => Done (Raise TypeError, w)
  end.

(** A type called: the new object and its [__init__], which takes the object with
    it when it raises. [mem']: the memory of an [RTPInfo]. *)
Definition frame_new (w : fworld) (t : counted) (mem : option Z) : option Z * fworld :=
  match t with
  | RTPInfo => PyRTPInfo_new w mem
  | RTPPacket => PyRTPPacket_new w mem
  | ERSFrame => PyERSFrame_new w mem
  | RTPFrameUnion => PyRTPFrameUnion_new w mem
  | RTPFrame => PyRTPFrame_new w mem
  | FrameWrapper => PyFrameWrapper_new w mem
  | RtpJBuf => (None, w)
  end.

Definition frame_call (w : fworld) (t : counted) (nargs : Z) (mem mem' : option Z)
    : outcome (pyres Z * fworld) :=
  let '(obj, w) := frame_new w t mem in
  match obj with
  | None => Done (Raise MemoryError, w)
  | Some self =>
      '(r, w) ← frame_init w self nargs mem';
      match r with
      | Ret _ => Done (Ret self, w)
      | Raise e => w ← fdrop w [self]; Done (Raise e, w)
      end
  end.

(** ** Attributes *)

(** [T_OBJECT_EX] gives an [AttributeError] for [NULL]; the getter [info] gives
    [None]. The integers made for the others are not objects of the store. *)
Inductive attr : Set :=
| AInt (z : Z)
| ABool (b : bool)
| AMember (o : option Z)
| AObj (o : option Z).

(** [profile_ptr]: the address of a profile in the table, 0 where there is none. *)
Definition PyRTPInfo_getset (profile_ptr : option Z → Z) (i : rtp_info) : list (string * attr) :=
  [("data_size", AInt (data_size i)); ("data_offset", AInt (data_offset i));
   ("nsamples", AInt (nsamples i)); ("ts", AInt (ts i)); ("seq", AInt (seq i));
   ("ssrc", AInt (ssrc i)); ("appendable", ABool (negb (appendable i =? 0)));
   ("rtp_profile", AInt (profile_ptr (rtp_profile_idx i)))].

Definition PyRTPPacket_getset (p : rtp_packet) (info_obj : option Z) : list (string * attr) :=
  [("info", AObj info_obj); ("lseq", AInt (lseq p)); ("data", AInt (rp_data p))].

Definition PyERSFrame_getset (e : ers_frame) : list (string * attr) :=
  [("lseq_start", AInt (lseq_start e)); ("lseq_end", AInt (lseq_end e));
   ("ts_diff", AInt (ts_diff e)); ("type", AInt RFT_ERS_value)].

Definition PyRTPFrameUnion_members (rtp ers : option Z) : list (string * attr) :=
  [("rtp", AMember rtp); ("ers", AMember ers)].

Definition PyRTPFrame_members (type : Z) (frame : option Z) : list (string * attr) :=
  [("type", AInt type); ("frame", AMember frame)].

Definition PyFrameWrapper_members (content data rtp_data opaque : option Z) : list (string * attr) :=
  [("content", AMember content); ("data", AMember data); ("rtp_data", AMember rtp_data);
   ("opaque", AMember opaque)].

Definition frame_attrs (profile_ptr : option Z → Z) (o : fobj) : list (string * attr) :=
  match o with
  | FInfo i => PyRTPInfo_getset profile_ptr i
  | FPacket p info_obj => PyRTPPacket_getset p info_obj
  | FErs e => PyERSFrame_getset e
  | FUnion rtp ers => PyRTPFrameUnion_members rtp ers
  | FFrame type frame => PyRTPFrame_members type frame
  | FWrapper content data rtp_data opaque => PyFrameWrapper_members content data rtp_data opaque
  | FBytes _ | FOther _ => []
  end.

(** What a read of an attribute gives; an object comes with a reference. *)
Inductive attr_value : Set :=
| VInt (z : Z)
| VBool (b : bool)
| VObj (a : Z).

Definition frame_getattr (profile_ptr : option Z → Z) (w : fworld) (self : Z) (name : string)
    : outcome (pyres attr_value * fworld) :=
  o ← py_read (fob w) self;
  match list_find (λ x, x.1 = name) (frame_attrs profile_ptr o) with
  | Some (_, (_, AInt z)) => Done (Ret (VInt z), w)
  | Some (_, (_, ABool b)) => Done (Ret (VBool b), w)
  | Some (_, (_, AMember (Some a))) | Some (_, (_, AObj (Some a))) =>
      w ← fincref w a; Done (Ret (VObj a), w)
  | Some (_, (_, AObj None)) => w ← fincref w none; Done (Ret (VObj none), w)
  | Some (_, (_, AMember None)) | None => Done (Raise AttributeError, w)
  end.

(** [str] and [repr] of a wrapper: [NULL] and objects of other types lead to the
    shorter texts. *)
Definition content_str (w : fworld) (content : Z) : outcome string :=
  o ← py_read (fob w) content;
  match o with
  | FFrame _ frame =>
      u ← match frame with Some f => o ← py_read (fob w) f; Done (Some o) | None => Done None end;
      p ← match u with
          | Some (FUnion (Some rtp) _) => o ← py_read (fob w) rtp; Done (Some o)
          | _ => Done None
          end;
      Done (match p with
            | Some (FPacket p _) => "RTP_Frame(seq=" +:+ pretty (Z.to_N (lseq p)) +:+ ")"
            | _ => "RTP_Frame"
            end)
  | FErs e =>
      Done ("RTP_Erasure(seq_range=" +:+ pretty (Z.to_N (lseq_start e)) +:+ " -- " +:+
              pretty (Z.to_N (lseq_end e)) +:+ ")")
  | _ => Done "FrameWrapper"
  end.

Definition PyFrameWrapper_str (w : fworld) (content : option Z) : outcome string :=
  match content with Some c => content_str w c | None => Done "FrameWrapper" end.

(** ** Frames to objects *)

(** Where there is no memory for an object, the references [held] go. *)
Definition or_release (o : option Z) (w : fworld) (held : list Z)
    (k : Z → outcome (option Z * fworld)) : outcome (option Z * fworld) :=
  match o with
  | Some a => k a
  | None => w ← fdrop w held; Done (None, w)
  end.

(** The bytes copied are those at [data + data_offset]. *)
Definition read_payload (w : fworld) (p : rtp_packet) : outcome (list Z) :=
  if 0 <? data_size (rp_info p) then
    o ← py_read (fob w) (rp_data p);
    match o with
    | FBytes bytes => mem_read bytes (data_offset (rp_info p)) (data_size (rp_info p))
    | _ => Undefined
    end
  else Done [].

Definition PyBytes_FromStringAndSize (w : fworld) (mem : option Z) (payload : outcome (list Z))
    : outcome (option Z * fworld) :=
  match mem with
  | None => Done (None, w)
  | Some _ => bytes ← payload; Done (fnew w mem (FBytes bytes))
  end.

(** [m i]: the memory of the [i]th allocation. *)
Definition build_wrapper_rtp (w : fworld) (m : nat → option Z) (p : rtp_packet) (data : Z) (opaque : option Z)
    : outcome (option Z * fworld) :=
  let stolen := data :: opt_list opaque in
  let '(info_obj, w) := PyRTPInfo_FromInfo w (m 0%nat) (rp_info p) in
  or_release info_obj w stolen (λ info_obj,
  '(pkt_obj, w) ← PyRTPPacket_NewSteal w (m 1%nat) p info_obj;
  or_release pkt_obj w stolen (λ pkt_obj,
  '(union_obj, w) ← PyRTPFrameUnion_NewSteal w (m 2%nat) (Some pkt_obj) None;
  or_release union_obj w stolen (λ union_obj,
  '(frame_obj, w) ← PyRTPFrame_NewSteal w (m 3%nat) RFT_RTP_value union_obj;
  or_release frame_obj w stolen (λ frame_obj,
  '(rtp_data, w) ← PyBytes_FromStringAndSize w (m 4%nat) (read_payload w p);
  or_release rtp_data w (frame_obj :: stolen) (λ rtp_data,
  PyFrameWrapper_NewSteal w (m 5%nat) frame_obj (Some data) (Some rtp_data) opaque))))).

Definition build_wrapper_ers (w : fworld) (m : nat → option Z) (e : ers_frame) : outcome (option Z * fworld) :=
  let '(ers_obj, w) := PyERSFrame_FromErs w (m 0%nat) e in
  match ers_obj with
  | None => Done (None, w)
  | Some ers_obj => PyFrameWrapper_NewSteal w (m 1%nat) ers_obj None None None
  end.

(** ** The counters' functions *)

(** The buffer itself is counted where it is made and where its deallocation starts. *)
Definition PyRtpJBuf_new (mem : option Z) (g : DeallocCounts) : option Z * DeallocCounts :=
  (mem, match mem with Some _ => count_created RtpJBuf g | None => g end).
Definition PyRtpJBuf_dealloc_count (g : DeallocCounts) : DeallocCounts := count_freed RtpJBuf g.

Definition PyRtpJBuf_reset_dealloc_counts (g : DeallocCounts) : DeallocCounts :=
  {| created := λ _, 0; freed_objs := λ _, 0; counting_enabled := counting_enabled g |}.

(** [PyObject_IsTrue] of the argument. *)
Definition PyRtpJBuf_set_dealloc_counting (flag : pyres bool) (g : DeallocCounts) : pyres unit * DeallocCounts :=
  match flag with
  | Ret enabled =>
      (Ret (), {| created := created g; freed_objs := freed_objs g; counting_enabled := enabled |})
  | Raise e => (Raise e, g)
  end.

Definition PyRtpJBuf_get_dealloc_counting (g : DeallocCounts) : bool := counting_enabled g.

(** The dictionary's entries, in the order they are added; [None]: no memory for
    the dictionary or one of its entries, and it is dropped. *)
Definition dealloc_counts_entries (g : DeallocCounts) : list (string * Z) :=
  [("RTPInfo_created", created g RTPInfo); ("RTPInfo_freed", freed_objs g RTPInfo);
   ("RTPPacket_created", created g RTPPacket); ("RTPPacket_freed", freed_objs g RTPPacket);
   ("ERSFrame_created", created g ERSFrame); ("ERSFrame_freed", freed_objs g ERSFrame);
   ("RTPFrameUnion_created", created g RTPFrameUnion); ("RTPFrameUnion_freed", freed_objs g RTPFrameUnion);
   ("RTPFrame_created", created g RTPFrame); ("RTPFrame_freed", freed_objs g RTPFrame);
   ("FrameWrapper_created", created g FrameWrapper); ("FrameWrapper_freed", freed_objs g FrameWrapper);
   ("RtpJBuf_created", created g RtpJBuf); ("RtpJBuf_freed", freed_objs g RtpJBuf)].

Fixpoint add_counts (entry_ok : nat → bool) (dict : list (string * Z)) (l : list (string * Z))
    : option (list (string * Z)) :=
  match l with
  | [] => Some dict
  | e :: l => if entry_ok (length dict) then add_counts entry_ok (dict ++ [e]) l else None
  end.

Definition PyRtpJBuf_get_dealloc_counts (dict_ok : bool) (entry_ok : nat → bool) (g : DeallocCounts)
    : pyres (list (string * Z)) :=
  if dict_ok then
    match add_counts entry_ok [] (dealloc_counts_entries g) with
    | Some dict => Ret dict
    | None => Raise MemoryError
    end
  else Raise MemoryError.

(** * A program that uses the objects *)

(** The references the program has; [none] is held by the interpreter. *)
Record fstate : Type := { fs_world : fworld; fs_held : list Z }.

(** [OpMake]: an object of the program's own, with new references to objects it
    has. [OpWrapRtp] takes the program's references to data and opaque over. *)
Inductive fop : Type :=
| OpCall (t : counted) (nargs : Z) (mem mem' : option Z)
| OpInit (a nargs : Z) (mem : option Z)
| OpMake (a : Z) (o : fobj)
| OpWrapRtp (m : nat → option Z) (p : rtp_packet) (data : Z) (opaque : option Z)
| OpWrapErs (m : nat → option Z) (e : ers_frame)
| OpGetattr (profile_ptr : option Z → Z) (a : Z) (name : string)
| OpTake (a : Z)
| OpDrop (a : Z)
| OpReset
| OpSetCounting (flag : pyres bool).

Fixpoint fincref_all (w : fworld) (l : list Z) : outcome fworld :=
  match l with [] => Done w | a :: l => w ← fincref w a; fincref_all w l end.

Definition hold (o : option Z) (w : fworld) (held : list Z) : fstate :=
  {| fs_world := w; fs_held := opt_list o ++ held |}.

Definition ret_obj (r : pyres Z) : option Z := match r with Ret a => Some a | Raise _ => None end.
Definition attr_obj (r : pyres attr_value) : option Z := match r with Ret (VObj a) => Some a | _ => None end.

Definition fop_exec (op : fop) (s : fstate) : outcome fstate :=
  let w := fs_world s in
  match op with
  | OpCall t nargs mem mem' =>
      '(r, w) ← frame_call w t nargs mem mem'; Done (hold (ret_obj r) w (fs_held s))
  | OpInit a nargs mem => '(_, w) ← frame_init w a nargs mem; Done (hold None w (fs_held s))
  | OpMake a o => w ← fincref_all w (frefs o); Done (hold (Some a) (fnew w (Some a) o).2 (fs_held s))
  | OpWrapRtp m p data opaque =>
      '(r, w) ← build_wrapper_rtp w m p data opaque;
      Done (hold r w (foldr remove_one (fs_held s) (data :: opt_list opaque)))
  | OpWrapErs m e => '(r, w) ← build_wrapper_ers w m e; Done (hold r w (fs_held s))
  | OpGetattr profile_ptr a name =>
      '(r, w) ← frame_getattr profile_ptr w a name; Done (hold (attr_obj r) w (fs_held s))
  | OpTake a => w ← fincref w a; Done (hold (Some a) w (fs_held s))
  | OpDrop a => w ← fdrop w [a]; Done (hold None w (remove_one a (fs_held s)))
  | OpReset =>
      Done (hold None {| g_counts := PyRtpJBuf_reset_dealloc_counts (g_counts w); fob := fob w |} (fs_held s))
  | OpSetCounting flag =>
      Done (hold None {| g_counts := (PyRtpJBuf_set_dealloc_counting flag (g_counts w)).2; fob := fob w |}
              (fs_held s))
  end.

Fixpoint frun (ops : list fop) (s : fstate) : outcome fstate :=
  match ops with [] => Done s | op :: ops => s ← fop_exec op s; frun ops s end.
End Frames.
