(* ===== verification/PyFramesInv.v ===== *)
(** What the operations of [PyFrames] keep, one by one: exact reference counts, no
    cycles, and what the counters tell; and what building a wrapper leaves on the
    store, whichever allocation fails. *)
From stdpp Require Import prelude list gmap strings pretty.
From Stdlib Require Import ZArith Lia.
From S2P Require Import Prelude Py RcHeap RcGraph Rtp JBuf PyJBuf PyFrames.
Local Open Scope Z_scope.

(** * Counting *)

Definition live_of (t : counted) (l : list (Z * fobj)) : Z :=
  Z.of_nat (length (filter (λ x, type_of x.2 = Some t) l)).

#[export] Instance live_of_perm t : Proper (Permutation ==> eq) (live_of t).
Proof. intros l l' E. unfold live_of. by rewrite E. Qed.

Lemma live_of_cons t a o l : live_of t ((a, o) :: l) = (if decide (type_of o = Some t) then 1 else 0) + live_of t l.
Proof. unfold live_of. rewrite filter_cons. cbn. case_decide; cbn; lia. Qed.

Lemma live_of_app t l l' : live_of t (l ++ l') = live_of t l + live_of t l'.
Proof. unfold live_of. rewrite filter_app, length_app. lia. Qed.

(** Created less freed less alive. *)
Definition balance_of (g : DeallocCounts) (l : list (Z * fobj)) (t : counted) : Z :=
  u64 (created g t - freed_objs g t - live_of t l).
Definition balance (w : fworld) (t : counted) : Z := balance_of (g_counts w) (objs (fob w)) t.

Lemma u64_add_l c x : u64 (u64 c + x) = u64 (c + x).
Proof. unfold u64. apply Zplus_mod_idemp_l. Qed.
Lemma u64_sub_r c x : u64 (x - u64 c) = u64 (x - c).
Proof. unfold u64. apply Zminus_mod_idemp_r. Qed.

Lemma enabled_of f o g :
  f = count_created ∨ f = count_freed → counting_enabled (count_of f o g) = counting_enabled g.
Proof.
  intros Hf. unfold count_of. destruct (type_of o); [|done].
  destruct Hf as [-> | ->]; unfold count_created, count_freed; by destruct (counting_enabled g) eqn:E.
Qed.

Lemma balance_created g l a o t :
  counting_enabled g = true →
  balance_of (count_of count_created o g) ((a, o) :: l) t = balance_of g l t.
Proof.
  intros E. unfold balance_of, count_of. rewrite live_of_cons.
  destruct (type_of o) as [t'|]; [|by rewrite decide_False].
  unfold count_created. rewrite E. cbn. unfold bump. destruct (decide (t = t')) as [->|Hne].
  - rewrite decide_True by done.
    replace (u64 (created g t' + 1) - freed_objs g t' - (1 + live_of t' l))
      with (u64 (created g t' + 1) + (- freed_objs g t' - (1 + live_of t' l))) by lia.
    rewrite u64_add_l. f_equal. lia.
  - rewrite decide_False by congruence. f_equal.
Qed.

Lemma balance_freed g l a o t :
  counting_enabled g = true →
  balance_of (count_of count_freed o g) l t = balance_of g ((a, o) :: l) t.
Proof.
  intros E. unfold balance_of, count_of. rewrite live_of_cons.
  destruct (type_of o) as [t'|]; [|by rewrite decide_False].
  unfold count_freed. rewrite E. cbn. unfold bump. destruct (decide (t = t')) as [->|Hne].
  - rewrite decide_True by done.
    replace (created g t' - u64 (freed_objs g t' + 1) - live_of t' l)
      with (created g t' - live_of t' l - u64 (freed_objs g t' + 1)) by lia.
    rewrite u64_sub_r. f_equal. lia.
  - rewrite decide_False by congruence. f_equal.
Qed.

Abbreviation f_finalize := (λ _ : Z, count_of count_freed).

Lemma finalize_enabled gone g : counting_enabled (finalize_all f_finalize gone g) = counting_enabled g.
Proof.
  revert g. induction gone as [|[a o] gone IH]; intros g; [done|]. cbn.
  unfold finalize_all in IH. rewrite IH. apply enabled_of. by right.
Qed.

Lemma finalize_balance gone g l t :
  counting_enabled g = true →
  balance_of (finalize_all f_finalize gone g) l t = balance_of g (gone ++ l) t.
Proof.
  revert g. induction gone as [|[a o] gone IH]; intros g E; [done|]. cbn.
  unfold finalize_all in IH. rewrite IH by (rewrite enabled_of by (by right); done).
  by apply balance_freed.
Qed.

Lemma balance_perm g l l' t : l ≡ₚ l' → balance_of g l t = balance_of g l' t.
Proof. intros E. unfold balance_of. by rewrite E. Qed.

(** [None ∉] of a list of [Some]s. *)
Ltac no_none := repeat (apply not_elem_of_cons; split; [done|]); try apply not_elem_of_nil; try done.

(** * What every operation keeps *)

Section Frames.
Context (none : Z).

(** Exact counts, where [roots] lists the references from outside; no cycles; and
    [None] is there. *)
Record fok (w : fworld) (roots : list Z) : Prop := {
  fok_counts : graph_ok frefs (fob w) (none :: roots);
  fok_acyclic : acyclic frefs (fob w);
  fok_none : py_read (fob w) none = Done (FOther []);
}.

(** From one world to a later one, where objects were made at [news]. *)
Record evolves (news : list Z) (w w' : fworld) : Prop := {
  ev_read : ∀ b v, b ∉ news → py_read (fob w') b = Done v → py_read (fob w) b = Done v;
  ev_enabled : counting_enabled (g_counts w') = counting_enabled (g_counts w);
  ev_balance : counting_enabled (g_counts w) = true → ∀ t, balance w' t = balance w t;
}.

Lemma evolves_refl w : evolves [] w w.
Proof. done. Qed.

Lemma evolves_trans l1 l2 w1 w2 w3 : evolves l1 w1 w2 → evolves l2 w2 w3 → evolves (l1 ++ l2) w1 w3.
Proof.
  intros [R1 E1 B1] [R2 E2 B2]. split.
  - intros b v Hb Hv. apply not_elem_of_app in Hb as [??]. auto.
  - congruence.
  - intros E t. rewrite B2 by congruence. auto.
Qed.

Lemma evolves_more l l' w w' : l ⊆ l' → evolves l w w' → evolves l' w w'.
Proof. intros Hl [R E B]. split; [|done..]. intros b v Hb. apply R. set_solver. Qed.

#[export] Instance fok_perm w : Proper (Permutation ==> iff) (fok w).
Proof.
  intros l l' E. split; intros [Hg Ha Hn]; (split; [|done..]); [by rewrite <- E|by rewrite E].
Qed.

Lemma read_none h a : h !! a = None ↔ ∀ v : fobj, py_read h a ≠ Done v.
Proof.
  unfold py_read. destruct (h !! a) as [c|]; [|done]. split; [done|]. intros H. by destruct (H (val c)).
Qed.

Lemma ev_fresh news w w' a : evolves news w w' → fob w !! a = None → a ∉ news → fob w' !! a = None.
Proof.
  intros Hev Ha Hn. apply read_none. intros v Hv. apply (ev_read _ _ _ Hev) in Hv; [|done].
  by apply read_none in Hv.
Qed.

Lemma fdrop_ok w l rest :
  fok w (l ++ rest) → ∃ w', fdrop w l = Done w' ∧ fok w' rest ∧ evolves [] w w'.
Proof.
  intros [Hg Ha Hn].
  assert (graph_ok frefs (fob w) (l ++ none :: rest)) as Hg'
    by (eapply graph_ok_perm; [|exact Hg]; perm_count).
  destruct (py_drop_ok _ f_finalize _ (g_counts w) _ _ Hg') as (h' & gone & E & Hok & Hk & Ho).
  unfold fdrop. rewrite E. cbn. eexists. split; [done|]. split; [split; [done| |]|split]; cbn.
  - by apply (acyclic_objs _ (fob w)).
  - rewrite (keeps_read (fob w) h' _ none Hk Hok); [done|]. apply elem_of_app. left. by left.
  - intros b v _. apply Hk.
  - apply finalize_enabled.
  - intros En t. unfold balance. cbn. rewrite finalize_balance by done. by apply balance_perm.
Qed.

Lemma fincref_ok w roots a :
  fok w roots → a ∈ (none :: roots) ++ inner frefs (fob w) →
  ∃ w', fincref w a = Done w' ∧ fok w' (a :: roots) ∧ evolves [] w w' ∧
    ∀ b, py_read (fob w') b = py_read (fob w) b.
Proof.
  intros [Hg Ha Hn] Hin. destruct (graph_incref _ _ _ a Hg Hin) as (h' & E & Hg' & Ho & Hr).
  unfold fincref. rewrite E. cbn. eexists. split; [done|].
  split; [split|split; [split|done]]; cbn.
  - eapply graph_ok_perm; [|exact Hg']. apply perm_swap.
  - apply (acyclic_objs _ (fob w)); [|done]. intros b v. by rewrite Hr.
  - by rewrite Hr.
  - intros b v _. by rewrite Hr.
  - done.
  - intros En t. by apply balance_perm.
Qed.

Lemma fnew_ok w a o rest :
  fok w (frefs o ++ rest) → fob w !! a = None →
  ∃ w', fnew w (Some a) o = (Some a, w') ∧ fok w' (a :: rest) ∧ evolves [a] w w' ∧
    py_read (fob w') a = Done o ∧ ∀ b, b ≠ a → py_read (fob w') b = py_read (fob w) b.
Proof.
  intros [Hg Ha Hn] Hfr. eexists. split; [done|].
  assert (∀ b, b ≠ a → py_read (<[a := {| rc := 1; val := o |}]> (fob w)) b = py_read (fob w) b) as Hr.
  { intros b Hne. unfold py_read. by rewrite lookup_insert_ne. }
  assert (a ∉ none :: frefs o ++ rest) as Hna.
  { intros Hin. destruct (graph_alive _ _ _ a Hg Hin). congruence. }
  split; [split|split; [split|split]]; cbn.
  - eapply graph_ok_perm; [|eapply (graph_make _ _ (none :: rest))]; [apply perm_swap| |done].
    eapply graph_ok_perm; [|exact Hg]. perm_count.
  - eapply acyclic_make; [exact Hg|done|done|]. cbn. set_solver.
  - rewrite Hr; [done|]. set_solver.
  - intros b v Hb. rewrite Hr; [done|]. set_solver.
  - apply enabled_of. by left.
  - intros En t. unfold balance. cbn.
    rewrite (balance_perm _ _ _ _ (objs_insert _ _ _ Hfr)). by apply balance_created.
  - unfold py_read. by rewrite lookup_insert_eq.
  - done.
Qed.

(** ** Constructors *)

(** An allocation at [mem] of the object [o], and what is left where there is no
    memory. *)
Definition made (mem : option Z) (o : fobj) (rest : list Z) (w : fworld) (r : option Z * fworld) : Prop :=
  r.1 = mem ∧ fok r.2 (opt_list mem ++ rest) ∧ evolves (opt_list mem) w r.2 ∧
  match mem with
  | Some a => py_read (fob r.2) a = Done o ∧ ∀ b v, py_read (fob w) b = Done v → py_read (fob r.2) b = Done v
  | None => True
  end.

Definition fresh_at (w : fworld) (mem : option Z) : Prop := ∀ a, mem = Some a → fob w !! a = None.

Lemma or_none_ok w o rest :
  fok w (opt_list o ++ rest) →
  ∃ w', or_none none w o = Done (default none o, w') ∧ fok w' (default none o :: rest) ∧ evolves [] w w' ∧
    ∀ b, py_read (fob w') b = py_read (fob w) b.
Proof.
  intros Hok. destruct o as [a|]; cbn; [by exists w|].
  destruct (fincref_ok w rest none Hok) as (w' & -> & H); [by left|]. by exists w'.
Qed.

Lemma fnew_made w mem o rest :
  fok w (frefs o ++ rest) → fresh_at w mem → (mem = None → frefs o = []) → made mem o rest w (fnew w mem o).
Proof.
  intros Hok Hfr Hn. destruct mem as [a|]; cbn -[fnew].
  - destruct (fnew_ok w a o rest Hok (Hfr a eq_refl)) as (w' & -> & Hok' & Hev & Ha & Hr).
    do 4 (split; [done|]). cbn. intros b v Hb. rewrite Hr; [done|]. intros ->.
    pose proof (Hfr a eq_refl) as Hf. unfold py_read in Hb. by rewrite Hf in Hb.
  - unfold made. cbn. by rewrite Hn in Hok.
Qed.

(** A constructor that takes references over. *)
Lemma fsteal_made w mem stolen make o rest :
  fok w (stolen ++ rest) → fresh_at w mem →
  (∃ w1, make w = Done (o, w1) ∧ fok w1 (frefs o ++ rest) ∧ evolves [] w w1 ∧
    ∀ b, py_read (fob w1) b = py_read (fob w) b) →
  ∃ r, fsteal w mem stolen make = Done r ∧ made mem o rest w r.
Proof.
  intros Hok Hfr (w1 & Em & Hok1 & Hev & Hr). destruct mem as [a|]; cbn -[fnew].
  - rewrite Em. cbn -[fnew].
    assert (fob w1 !! a = None) as Ha by (eapply ev_fresh; [done|by apply Hfr|apply not_elem_of_nil]).
    destruct (fnew_ok w1 a o rest Hok1 Ha) as (w' & -> & Hok' & Hev' & Hra & Hr').
    eexists. split; [done|]. do 2 (split; [done|]). split; [by apply (evolves_trans [] [a] w w1)|].
    split; [done|]. cbn. intros b v Hb. rewrite Hr', Hr; [done|]. intros ->.
    rewrite <- Hr in Hb. unfold py_read in Hb. by rewrite Ha in Hb.
  - destruct (fdrop_ok w _ _ Hok) as (w' & -> & Hok' & Hev'). by eexists.
Qed.

Lemma packet_made w mem p info rest :
  fok w (info :: rest) → fresh_at w mem →
  ∃ r, PyRTPPacket_NewSteal w mem p info = Done r ∧ made mem (FPacket p (Some info)) rest w r.
Proof. intros Hok Hfr. apply fsteal_made; [done..|]. by exists w. Qed.

Lemma frame_made w mem type u rest :
  fok w (u :: rest) → fresh_at w mem →
  ∃ r, PyRTPFrame_NewSteal w mem type u = Done r ∧ made mem (FFrame type (Some u)) rest w r.
Proof. intros Hok Hfr. apply fsteal_made; [done..|]. by exists w. Qed.

Lemma union_made w mem rtp ers rest :
  fok w (opt_list rtp ++ opt_list ers ++ rest) → fresh_at w mem →
  ∃ r, PyRTPFrameUnion_NewSteal none w mem rtp ers = Done r ∧
    made mem (FUnion (Some (default none rtp)) (Some (default none ers))) rest w r.
Proof.
  intros Hok Hfr. apply fsteal_made; [by rewrite <- app_assoc|done|].
  destruct (or_none_ok w rtp _ Hok) as (w1 & -> & Hok1 & Hev1 & Hr1). cbn.
  destruct (or_none_ok w1 ers (default none rtp :: rest)) as (w2 & -> & Hok2 & Hev2 & Hr2).
  { eapply fok_perm; [|exact Hok1]. perm_count. }
  eexists. split; [done|]. cbn. split; [eapply fok_perm; [|exact Hok2]; apply perm_swap|].
  split; [by apply (evolves_trans [] [] w w1)|]. intros b. by rewrite Hr2.
Qed.

Lemma wrapper_made w mem content data rtp_data opaque rest :
  fok w (content :: opt_list data ++ opt_list rtp_data ++ opt_list opaque ++ rest) → fresh_at w mem →
  ∃ r, PyFrameWrapper_NewSteal none w mem content data rtp_data opaque = Done r ∧
    made mem (FWrapper (Some content) (Some (default none data)) (Some (default none rtp_data))
                (Some (default none opaque))) rest w r.
Proof.
  intros Hok Hfr. apply fsteal_made; [|done|].
  { cbn. by rewrite <- !app_assoc. }
  destruct (or_none_ok w data (content :: opt_list rtp_data ++ opt_list opaque ++ rest))
    as (w1 & -> & Hok1 & Hev1 & Hr1).
  { eapply fok_perm; [|exact Hok]. perm_count. }
  cbn. destruct (or_none_ok w1 rtp_data (default none data :: content :: opt_list opaque ++ rest))
    as (w2 & -> & Hok2 & Hev2 & Hr2).
  { eapply fok_perm; [|exact Hok1]. perm_count. }
  cbn. destruct (or_none_ok w2 opaque (default none rtp_data :: default none data :: content :: rest))
    as (w3 & -> & Hok3 & Hev3 & Hr3).
  { eapply fok_perm; [|exact Hok2]. perm_count. }
  eexists. split; [done|]. cbn. split; [eapply fok_perm; [|exact Hok3]; perm_count|].
  split; [|intros b; by rewrite Hr3, Hr2].
  apply (evolves_trans [] [] w w1); [done|]. by apply (evolves_trans [] [] w1 w2).
Qed.

(** Objects that were made and that nobody has a reference to are gone. *)
Lemma no_stray news w w' roots roots' :
  fok w roots → fok w' roots' → roots' ⊆ roots → evolves news w w' → (∀ a, a ∈ news → fob w !! a = None) → evolves [] w w'.
Proof.
  intros [Hg _ _] [Hg' Ha' _] Hsub Hev Hnews. split; [|apply Hev..]. intros b v _.
  eapply (graph_no_stray _ news); [exact Hg|exact Hg'|exact Ha'| |exact Hnews|apply Hev].
  intros x. rewrite !elem_of_cons. intros [->|Hx]; [by left|right; by apply Hsub].
Qed.

(** ** Building a wrapper *)

Definition fresh_mem (w : fworld) (mems : list (option Z)) : Prop :=
  NoDup (omap id mems) ∧ ∀ a, a ∈ omap id mems → fob w !! a = None.

Lemma fresh_next w w' pre mem post :
  fresh_mem w (pre ++ mem :: post) → evolves (omap id pre) w w' → fresh_at w' mem.
Proof.
  intros [Hnd Hfr] Hev a ->. rewrite omap_app in Hnd, Hfr. cbn in Hnd, Hfr.
  eapply ev_fresh; [done|apply Hfr; set_solver|]. apply NoDup_app in Hnd as (_ & Hd & _). set_solver.
Qed.

(** What a builder gives that makes objects at [mems]. *)
Definition built (mems : list (option Z)) (rest : list Z) (w : fworld) (good : Z → fworld → Prop)
    (y : outcome (option Z * fworld)) : Prop :=
  ∃ r w', y = Done (r, w') ∧ evolves (omap id mems) w w' ∧ fok w' (opt_list r ++ rest) ∧
    match r with Some a => (None ∉ mems) ∧ good a w' | None => None ∈ mems end.

Lemma evolves_app pre mem w0 w w1 :
  evolves (omap id pre) w0 w → evolves (opt_list mem) w w1 → evolves (omap id (pre ++ [mem])) w0 w1.
Proof. intros H H1. rewrite omap_app. destruct mem; by eapply evolves_trans. Qed.

(** One allocation of a builder, after those at [pre]. *)
Lemma built_step w0 w pre mem post held rest X o k good :
  fresh_mem w0 (pre ++ mem :: post) → evolves (omap id pre) w0 w →
  (fresh_at w mem → ∃ r, X = Done r ∧ made mem o (held ++ rest) w r) →
  (∀ a w1, mem = Some a → fok w1 (a :: held ++ rest) → evolves (omap id (pre ++ [mem])) w0 w1 →
    py_read (fob w1) a = Done o → (∀ b v, py_read (fob w) b = Done v → py_read (fob w1) b = Done v) →
    built (pre ++ mem :: post) rest w0 good (k a w1)) →
  built (pre ++ mem :: post) rest w0 good ('(r, w) ← X; or_release r w held (λ a, k a w)).
Proof.
  intros Hfr Hev HX Hk. destruct (HX (fresh_next _ _ _ _ _ Hfr Hev)) as ([r w1] & -> & Hr & Hok1 & Hev1 & Hm).
  cbn in *. subst r. destruct mem as [a|]; cbn in *.
  - destruct Hm. apply (Hk a w1); try done. by apply (evolves_app _ (Some a) _ w).
  - destruct (fdrop_ok w1 held rest Hok1) as (w2 & -> & Hok2 & Hev2). exists None, w2. split; [done|].
    split; [|split; [done|apply elem_of_app; right; by left]]. rewrite omap_app. cbn.
    apply (evolves_more (omap id pre ++ [] ++ [])); [by rewrite app_nil_r; apply list_subseteq_app_l|].
    apply (evolves_trans _ _ _ w); [done|]. by apply (evolves_trans _ _ _ w1).
Qed.

Lemma built_last w0 w pre mem X o rest (good : Z → fworld → Prop) :
  fresh_mem w0 (pre ++ [mem]) → evolves (omap id pre) w0 w → None ∉ pre →
  (fresh_at w mem → ∃ r, X = Done r ∧ made mem o rest w r) →
  (∀ a w1, py_read (fob w1) a = Done o →
    (∀ b v, py_read (fob w) b = Done v → py_read (fob w1) b = Done v) → good a w1) →
  built (pre ++ [mem]) rest w0 good X.
Proof.
  intros Hfr Hev Hpre HX Hg. destruct (HX (fresh_next _ _ _ _ _ Hfr Hev)) as ([r w1] & -> & Hr & Hok1 & Hev1 & Hm).
  cbn in *. subst r. exists mem, w1. split; [done|]. split; [by apply (evolves_app _ _ _ w)|].
  split; [done|]. destruct mem as [a|]; [|apply elem_of_app; right; by left].
  destruct Hm. split; [|by apply Hg]. rewrite not_elem_of_app, list_elem_of_singleton. done.
Qed.

(** The value of [PyJBuf] for an object. *)
Definition as_opt (a : Z) : option Z := if decide (a = none) then None else Some a.

Definition read_packet (w : fworld) (a : Z) : option PyRTPPacket :=
  match py_read (fob w) a with
  | Done (FPacket p (Some i)) =>
      match py_read (fob w) i with
      | Done (FInfo info) => Some {| pkt := p; pkt_info := info |}
      | _ => None
      end
  | _ => None
  end.

Definition read_ers (w : fworld) (a : Z) : option ers_frame :=
  match py_read (fob w) a with Done (FErs e) => Some e | _ => None end.

(** [None] for an object that is [None]; no value for any other kind. *)
Definition read_or_none {T} (read : Z → option T) (a : Z) : option (option T) :=
  match as_opt a with None => Some None | Some a => Some <$> read a end.

Definition read_content (w : fworld) (a : Z) : option frame_content :=
  match py_read (fob w) a with
  | Done (FErs e) => Some (ContentERS e)
  | Done (FFrame type (Some u)) =>
      match py_read (fob w) u with
      | Done (FUnion (Some r) (Some e)) =>
          rtp ← read_or_none (read_packet w) r;
          ers ← read_or_none (read_ers w) e;
          Some (ContentRTP {| fr_type := type; fr_frame := {| un_rtp := rtp; un_ers := ers |} |})
      | _ => None
      end
  | _ => None
  end.

Definition read_bytes (w : fworld) (a : Z) : option (list Z) :=
  match py_read (fob w) a with Done (FBytes b) => Some b | _ => None end.

Definition read_wrapper (w : fworld) (a : Z) : option PyFrameWrapper :=
  match py_read (fob w) a with
  | Done (FWrapper (Some c) (Some d) (Some r) (Some o)) =>
      content ← read_content w c;
      rtp_data ← read_or_none (read_bytes w) r;
      Some {| fw_content := content; fw_data := as_opt d; fw_rtp_data := rtp_data; fw_opaque := as_opt o |}
  | _ => None
  end.

Definition mems_of (n : nat) (m : nat → option Z) : list (option Z) := m <$> List.seq 0 n.

(** Which of the first [n] allocations fails. *)
Definition first_failure (n : nat) (m : nat → option Z) : option nat :=
  fst <$> list_find (λ x, x = None) (mems_of n m).

Lemma first_failure_none n m : first_failure n m = None ↔ None ∉ mems_of n m.
Proof.
  unfold first_failure. rewrite fmap_None, list_find_None, Forall_forall. split.
  - intros H Hin. by destruct (H _ Hin).
  - intros H x Hx ->. done.
Qed.

(** An allocation that nothing was asked for before. *)
Lemma built_first w0 mem post held rest x o k good :
  fresh_mem w0 (mem :: post) → (fresh_at w0 mem → made mem o (held ++ rest) w0 x) →
  (∀ a w1, mem = Some a → fok w1 (a :: held ++ rest) → evolves (omap id [mem]) w0 w1 →
    py_read (fob w1) a = Done o → (∀ b v, py_read (fob w0) b = Done v → py_read (fob w1) b = Done v) →
    built (mem :: post) rest w0 good (k a w1)) →
  built (mem :: post) rest w0 good (let '(r, w) := x in or_release r w held (λ a, k a w)).
Proof.
  intros Hfr HX Hk. apply (built_step w0 w0 [] mem post held rest (Done x) o k good Hfr); [done| |done].
  intros H. by exists x; split; [|apply HX].
Qed.

Lemma read_payload_grows w w' p l :
  (∀ b v, py_read (fob w) b = Done v → py_read (fob w') b = Done v) →
  read_payload w p = Done l → read_payload w' p = Done l.
Proof.
  intros Hg. unfold read_payload. destruct (0 <? _); [|done].
  destruct (py_read (fob w) (rp_data p)) as [o| | |] eqn:E; [|done..]. by rewrite (Hg _ _ E).
Qed.

Lemma bytes_made w mem payload l rest :
  (mem ≠ None → payload = Done l) → fok w rest → fresh_at w mem →
  ∃ r, PyBytes_FromStringAndSize w mem payload = Done r ∧ made mem (FBytes l) rest w r.
Proof.
  intros Hp Hok Hfr. unfold PyBytes_FromStringAndSize. destruct mem as [a|].
  - rewrite Hp by done. eexists. split; [done|]. by apply fnew_made.
  - eexists. split; [done|]. by apply (fnew_made w None (FBytes l)).
Qed.

(** What [PyJBuf] makes of a packet. *)
Definition wrapper_value (p : rtp_packet) (l : list Z) (data : Z) (opaque : option Z) : PyFrameWrapper :=
  {| fw_content := ContentRTP {| fr_type := RFT_RTP_value;
       fr_frame := {| un_rtp := Some {| pkt := p; pkt_info := rp_info p |}; un_ers := None |} |};
     fw_data := as_opt data; fw_rtp_data := Some l; fw_opaque := as_opt (default none opaque) |}.

Lemma as_opt_some w a o :
  py_read (fob w) none = Done (FOther []) → py_read (fob w) a = Done o → o ≠ FOther [] → as_opt a = Some a.
Proof. intros Hn Ha Ho. unfold as_opt. rewrite decide_False; [done|]. intros ->. congruence. Qed.

Lemma as_opt_none : as_opt none = None.
Proof. unfold as_opt. by rewrite decide_True. Qed.

Lemma build_wrapper_rtp_ok w m p data opaque rest l :
  fok w (data :: opt_list opaque ++ rest) → fresh_mem w (mems_of 6 m) →
  (None ∉ mems_of 5 m → read_payload w p = Done l) →
  built (mems_of 6 m) rest w (λ a w', read_wrapper w' a = Some (wrapper_value p l data opaque))
    (build_wrapper_rtp none w m p data opaque).
Proof.
  intros Hok Hfr Hp. set (stolen := data :: opt_list opaque).
  change (mems_of 6 m) with ([m 0; m 1; m 2; m 3; m 4; m 5]%nat) in *.
  apply (built_first _ _ _ stolen rest _ (FInfo (rp_info p))); [done| |].
  { intros H. by apply fnew_made. }
  intros a0 w0 E0 Hok0 Hev0 R0 G0.
  eapply (built_step w w0 [m 0%nat] (m 1%nat)); [done|done| |].
  { intros H. by apply packet_made. }
  intros a1 w1 E1 Hok1 Hev1 R1 G1.
  eapply (built_step w w1 [m 0; m 1]%nat (m 2%nat)); [done|done| |].
  { intros H. by apply union_made. }
  intros a2 w2 E2 Hok2 Hev2 R2 G2.
  eapply (built_step w w2 [m 0; m 1; m 2]%nat (m 3%nat)); [done|done| |].
  { intros H. by apply frame_made. }
  intros a3 w3 E3 Hok3 Hev3 R3 G3.
  eapply (built_step w w3 [m 0; m 1; m 2; m 3]%nat (m 4%nat) _ (a3 :: stolen)); [done|done| |].
  { intros H. apply bytes_made; [|exact Hok3|done]. intros Hm4.
    apply (read_payload_grows w); [auto|]. apply Hp. cbn. rewrite E0, E1, E2, E3. no_none. }
  intros a4 w4 E4 Hok4 Hev4 R4 G4.
  apply (built_last w w4 [m 0; m 1; m 2; m 3; m 4]%nat (m 5%nat) _
           (FWrapper (Some a3) (Some data) (Some a4) (Some (default none opaque)))); [done|done| | |].
  { rewrite E0, E1, E2, E3, E4. no_none. }
  { intros H. apply wrapper_made; [|done]. cbn. eapply fok_perm; [|exact Hok4]. unfold stolen. cbn. perm_count. }
  intros a5 w5 R5 G5.
  assert (py_read (fob w5) none = Done (FOther [])) as Rn by (apply G5, G4, G3, G2, G1, G0, Hok).
  assert (py_read (fob w5) a0 = Done (FInfo (rp_info p))) as R0' by auto 6.
  assert (py_read (fob w5) a1 = Done (FPacket p (Some a0))) as R1' by auto 6.
  assert (py_read (fob w5) a2 = Done (FUnion (Some a1) (Some none))) as R2' by auto 6.
  assert (py_read (fob w5) a3 = Done (FFrame RFT_RTP_value (Some a2))) as R3' by auto.
  assert (py_read (fob w5) a4 = Done (FBytes l)) as R4' by auto.
  unfold read_wrapper, read_content, read_or_none, read_packet, read_bytes.
  rewrite R5, R3', R2', (as_opt_some w5 a1 _ Rn R1'), (as_opt_some w5 a4 _ Rn R4'), as_opt_none by done.
  cbn. rewrite R1', R0', R4'. done.
Qed.

Lemma fdrop_nil w : fdrop w [] = Done w.
Proof. unfold fdrop, py_drop. destruct (drop_fuel _ _ _), w; done. Qed.

Definition ers_value (e : ers_frame) : PyFrameWrapper :=
  {| fw_content := ContentERS e; fw_data := None; fw_rtp_data := None; fw_opaque := None |}.

Lemma build_wrapper_ers_ok w m e rest :
  fok w rest → fresh_mem w (mems_of 2 m) →
  built (mems_of 2 m) rest w (λ a w', read_wrapper w' a = Some (ers_value e)) (build_wrapper_ers none w m e).
Proof.
  intros Hok Hfr. change (mems_of 2 m) with ([m 0; m 1]%nat) in *.
  assert (built [m 0; m 1]%nat rest w (λ a w', read_wrapper w' a = Some (ers_value e))
    (let '(ers_obj, w) := PyERSFrame_FromErs w (m 0%nat) e in
     or_release ers_obj w [] (λ ers_obj, PyFrameWrapper_NewSteal none w (m 1%nat) ers_obj None None None))) as H.
  { apply (built_first _ _ _ [] rest _ (FErs e)); [done| |]; [intros H; by apply fnew_made|].
    intros a0 w0 E0 Hok0 Hev0 R0 G0.
    apply (built_last w w0 [m 0%nat] (m 1%nat) _ (FWrapper (Some a0) (Some none) (Some none) (Some none)));
      [done|done|rewrite E0; no_none| |].
    { intros H. by apply wrapper_made. }
    intros a1 w1 R1 G1. unfold read_wrapper, read_content, read_or_none.
    rewrite R1, (G1 _ _ R0), as_opt_none. done. }
  unfold build_wrapper_ers in *. destruct (PyERSFrame_FromErs w (m 0%nat) e) as [[a|] w']; [done|].
  unfold or_release in H. by rewrite fdrop_nil in H.
Qed.

(** ** [__init__] *)

(** The world with another value at an object. *)
Definition set_at (w : fworld) (self n : Z) (v : fobj) : fworld :=
  set_fob w (<[self := {| rc := n; val := v |}]> (fob w)).

Lemma set_value_at w self c v :
  fob w !! self = Some c → set_value w self v = Done (set_at w self (rc c) v).
Proof. intros Hc. unfold set_value. by rewrite Hc. Qed.

Lemma set_at_set w self n n' v v' : set_at (set_at w self n v) self n' v' = set_at w self n' v'.
Proof. unfold set_at, set_fob. cbn. by rewrite insert_insert_eq. Qed.

Lemma set_at_id w self n v : fob w !! self = Some {| rc := n; val := v |} → set_at w self n v = w.
Proof. intros H. unfold set_at, set_fob. rewrite insert_id by done. by destruct w. Qed.

Lemma set_at_evolves w self c n v :
  fob w !! self = Some c → type_of v = type_of (val c) → evolves [self] w (set_at w self n v).
Proof.
  intros Hc Ht. split; [|done|].
  - intros b o Hb. unfold py_read. cbn. rewrite lookup_insert_ne; [done|]. set_solver.
  - intros _ t. unfold balance, balance_of. cbn. f_equal.
    rewrite (objs_replace _ _ _ _ Hc), (objs_delete _ _ _ Hc), !live_of_cons. cbn. by rewrite Ht.
Qed.

(** The object takes and gives references, and makes no cycle. *)
Lemma set_at_ok w self c v taken roots :
  fok w (taken ++ roots) → fob w !! self = Some c → self ≠ none →
  frefs (val c) ++ taken ≡ₚ frefs v → acyclic frefs (<[self := {| rc := rc c; val := v |}]> (fob w)) →
  fok (set_at w self (rc c) v) roots.
Proof.
  intros [Hg Ha Hn] Hc Hne Hp Hac. split; [|done|]; cbn.
  - eapply graph_set; [exact Hg|done|]. rewrite <- Hp. perm_count.
  - unfold py_read. by rewrite lookup_insert_ne.
Qed.

Lemma root_alive w roots self : fok w roots → self ∈ roots → ∃ c, fob w !! self = Some c.
Proof. intros Hok Hin. apply (graph_alive _ _ _ _ (fok_counts _ _ Hok)). by right. Qed.

(** The references of an object's fields are dropped while the fields still have
    them. With other fields that refer to nothing, everything is in order. *)
Lemma fdrop_stale w self c v roots :
  fok w roots → fob w !! self = Some c → self ∈ roots → self ≠ none →
  frefs v = [] → type_of v = type_of (val c) →
  ∃ w' n, fdrop w (frefs (val c)) = Done w' ∧ fob w' !! self = Some {| rc := n; val := val c |} ∧
    fok (set_at w' self n v) roots ∧ evolves [self] w (set_at w' self n v).
Proof.
  intros [Hg Ha Hn] Hc Hin Hne Hv Ht.
  set (h2 := <[self := {| rc := rc c; val := v |}]> (fob w)).
  assert (graph_ok frefs h2 (frefs (val c) ++ none :: roots)) as Hg2.
  { eapply graph_set; [exact Hg|done|]. by rewrite Hv. }
  assert (drop_fuel frefs h2 (frefs (val c)) ≤ drop_fuel frefs (fob w) (frefs (val c)))%nat as Hf.
  { pose proof (Permutation_length (inner_cons frefs _ _ _ _ (objs_delete _ _ _ Hc))) as L1.
    pose proof (Permutation_length (inner_cons frefs h2 _ _ _ (objs_replace _ _ _ _ Hc))) as L2.
    rewrite length_app in L1, L2. unfold drop_fuel. cbn in L2. rewrite Hv in L2. cbn in L2. lia. }
  destruct (drop_refs_ok _ f_finalize _ h2 (g_counts w) _ _ Hg2 Hf) as (h' & gone & E & Hok & Hk & Ho).
  destruct (graph_alive _ _ _ self Hok) as [c' Hc']; [by right|].
  assert (val c' = v) as Hcv.
  { pose proof (Hk _ _ (py_read_some _ _ _ Hc')) as H. unfold py_read, h2 in H.
    rewrite lookup_insert_eq in H. by injection H. }
  pose proof (drop_refs_revalue _ _ _ _ _ _ _ _ self _ v (val c) c' E Hc') as E'.
  rewrite insert_id in E' by (by rewrite Hc; destruct c).
  exists {| g_counts := finalize_all f_finalize gone (g_counts w); fob := <[self := {| rc := rc c'; val := val c |}]> h' |}, (rc c').
  split; [unfold fdrop, py_drop; by rewrite E'|]. split; [apply lookup_insert_eq|].
  replace (set_at _ self (rc c') v) with {| g_counts := finalize_all f_finalize gone (g_counts w); fob := h' |}.
  2:{ unfold set_at, set_fob. cbn. rewrite insert_insert_eq, insert_id; [done|]. rewrite Hc'. subst v. by destruct c'. }
  split; [split|split]; cbn.
  - done.
  - apply (acyclic_objs _ h2); [done|]. apply (acyclic_set_sub _ _ _ c); [done..|]. rewrite Hv. apply list_subseteq_nil.
  - rewrite (keeps_read _ _ _ none Hk Hok) by (apply elem_of_app; left; by left).
    unfold py_read, h2. rewrite lookup_insert_ne by done. exact Hn.
  - intros b o Hb Hr. apply Hk in Hr. unfold py_read, h2 in Hr. rewrite lookup_insert_ne in Hr; [done|]. set_solver.
  - apply finalize_enabled.
  - intros En t. unfold balance. cbn. rewrite finalize_balance by done.
    rewrite <- (balance_perm _ _ _ _ Ho). unfold balance_of. f_equal. unfold h2.
    rewrite (objs_replace _ _ _ _ Hc), (objs_delete _ _ _ Hc), !live_of_cons. cbn. by rewrite Ht.
Qed.

Lemma incref_none_ok w n roots :
  fok w roots →
  ∃ w', incref_none none w n = Done w' ∧ fok w' (replicate n none ++ roots) ∧ evolves [] w w' ∧
    ∀ b, py_read (fob w') b = py_read (fob w) b.
Proof.
  revert w roots. induction n as [|n IH]; intros w roots Hok; [by exists w|]. cbn.
  destruct (fincref_ok w roots none Hok) as (w1 & -> & Hok1 & Hev1 & Hr1); [by left|]. cbn.
  destruct (IH w1 _ Hok1) as (w2 & -> & Hok2 & Hev2 & Hr2). exists w2. split; [done|].
  split; [eapply fok_perm; [|exact Hok2]; perm_count|].
  split; [by apply (evolves_trans [] [] w w1)|]. intros b. by rewrite Hr2.
Qed.

(** An object that is not [None] does not matter. *)
Lemma incref_none_set w n self m v w1 :
  self ≠ none → incref_none none w n = Done w1 →
  incref_none none (set_at w self m v) n = Done (set_at w1 self m v) ∧ fob w1 !! self = fob w !! self.
Proof.
  intros Hne. revert w. induction n as [|n IH]; intros w; cbn; [by intros [= <-]|].
  unfold fincref, py_incref. cbn. rewrite lookup_insert_ne by done.
  destruct (fob w !! none) as [c|]; [|done]. cbn. intros E. destruct (IH _ E) as [E' El]. cbn in El.
  rewrite lookup_insert_ne in El by done. split; [|done]. rewrite <- E'. f_equal.
  unfold set_at, set_fob. cbn. f_equal. by rewrite insert_insert_ne.
Qed.

(** Fields that become [None]. *)
Lemma reset_fields w self c blank v k roots :
  fok w roots → fob w !! self = Some c → self ∈ roots → self ≠ none →
  frefs blank = [] → type_of blank = type_of (val c) →
  frefs v = replicate k none → type_of v = type_of (val c) →
  ∃ w', (w ← fdrop w (frefs (val c)); w ← set_value w self v; w ← incref_none none w k; Done (Ret (), w)) =
      Done (Ret (), w') ∧ fok w' roots ∧ evolves [self] w w'.
Proof.
  intros Hok Hc Hin Hne Hb Hbt Hv Ht.
  destruct (fdrop_stale w self c blank roots Hok Hc Hin Hne Hb Hbt) as (w1 & n & -> & Hl & Hok1 & Hev1). cbn.
  rewrite (set_value_at _ _ _ _ Hl). cbn.
  destruct (incref_none_ok _ k _ Hok1) as (w2 & E2 & Hok2 & Hev2 & Hr2).
  destruct (incref_none_set _ _ self n v _ Hne E2) as [E3 Hl2]. rewrite set_at_set in E3. rewrite E3. cbn.
  unfold set_at in Hl2. cbn in Hl2. rewrite lookup_insert_eq in Hl2.
  eexists. split; [done|].
  assert (fok (set_at w2 self n v) roots) as Hok3.
  { apply (set_at_ok w2 self _ v _ _ Hok2 Hl2 Hne); cbn; [by rewrite Hb, Hv|].
    apply acyclic_set_leaf; [apply Hok2| |].
    - rewrite Hv. by intros [-> _]%elem_of_replicate.
    - intros b d Hd Hbd. rewrite Hv in Hd. apply elem_of_replicate in Hd as [-> _].
      pose proof (fok_none _ _ Hok2) as Hn. unfold py_read in Hn. rewrite Hbd in Hn. injection Hn as Hn. by rewrite Hn. }
  split; [done|]. apply (evolves_more ([self] ++ [] ++ [self])); [intros x; cbn; rewrite !elem_of_cons; tauto|].
  apply (evolves_trans _ _ _ (set_at w1 self n blank)); [done|].
  apply (evolves_trans _ _ _ w2); [done|]. apply (set_at_evolves _ _ _ _ _ Hl2). cbn. congruence.
Qed.

(** An object of the same fields. *)
Lemma set_same w self c v roots :
  fok w roots → fob w !! self = Some c → self ≠ none → frefs v = frefs (val c) → type_of v = type_of (val c) →
  fok (set_at w self (rc c) v) roots ∧ evolves [self] w (set_at w self (rc c) v).
Proof.
  intros Hok Hc Hne Hv Ht. split; [|by apply (set_at_evolves _ _ c)].
  apply (set_at_ok w self c v [] roots Hok Hc Hne); [by rewrite Hv, app_nil_r|].
  apply (acyclic_set_sub _ _ _ c); [apply Hok|done|by rewrite Hv].
Qed.

Lemma fresh_alive w a c b : fob w !! a = None → fob w !! b = Some c → a ≠ b.
Proof. congruence. Qed.

Lemma packet_init_ok w self p info_obj mem roots c :
  fok w roots → fob w !! self = Some c → val c = FPacket p info_obj → self ∈ roots → self ≠ none →
  fresh_at w mem →
  ∃ r w', PyRTPPacket_init w self 0 info_obj mem = Done (r, w') ∧ fok w' roots ∧
    evolves (self :: opt_list mem) w w'.
Proof.
  intros Hok Hc Hv Hin Hne Hfr. unfold PyRTPPacket_init, takes_no_arguments. cbn [Z.eqb].
  rewrite (set_value_at _ _ _ _ Hc). cbn [mbind outcome_bind].
  destruct (set_same w self c (FPacket packet_zero info_obj) roots) as [Hok0 Hev0]; [done..|by rewrite Hv|by rewrite Hv|].
  set (w0 := set_at _ _ _ _) in *.
  assert (fob w0 !! self = Some {| rc := rc c; val := FPacket packet_zero info_obj |}) as Hc0 by apply lookup_insert_eq.
  destruct (fdrop_stale w0 self _ (FPacket packet_zero None) roots Hok0 Hc0) as (w1 & n & E & Hl & Hok1 & Hev1); [done..|].
  cbn [frefs val] in E. rewrite E. cbn [mbind outcome_bind].
  pose proof (evolves_trans _ _ _ _ _ Hev0 Hev1) as Hev. destruct mem as [a|]; cbn [PyRTPInfo_FromInfo fnew].
  - assert (a ≠ self) as Has by (by eapply fresh_alive; [apply Hfr|exact Hc]).
    assert (fob (set_at w1 self n (FPacket packet_zero None)) !! a = None) as Ha.
    { eapply ev_fresh; [exact Hev|by apply Hfr|]. cbn. rewrite !not_elem_of_cons. split; [done|].
      split; [done|apply not_elem_of_nil]. }
    destruct (fnew_ok _ a (FInfo rtp_info_zero) roots Hok1 Ha) as (w2 & E2 & Hok2 & Hev2 & Hr2 & _).
    injection E2 as E2.
    assert (fob w2 !! self = Some {| rc := n; val := FPacket packet_zero None |}) as Hl2.
    { subst w2. cbn. rewrite lookup_insert_ne by done. apply lookup_insert_eq. }
    erewrite set_value_at by (cbn; rewrite lookup_insert_ne by done; exact Hl). cbn.
    replace (set_at _ self n (FPacket packet_zero (Some a)))
      with (set_at w2 self n (FPacket packet_zero (Some a))).
    2:{ subst w2. unfold set_at, set_fob. cbn. f_equal.
        by rewrite (insert_insert_ne _ a self), insert_insert_eq by done. }
    do 2 eexists. split; [done|]. split.
    + apply (set_at_ok w2 self _ (FPacket packet_zero (Some a)) [a] roots Hok2 Hl2 Hne); [done|].
      apply acyclic_set_leaf; [apply Hok2|cbn; by rewrite list_elem_of_singleton|].
      cbn. intros b d ->%list_elem_of_singleton Hd. unfold py_read in Hr2. rewrite Hd in Hr2.
      injection Hr2 as Hr2. by rewrite Hr2.
    + apply (evolves_more (([self] ++ [self]) ++ [a] ++ [self])); [by intros x; cbn; rewrite !elem_of_cons; tauto|].
      eapply evolves_trans; [exact Hev|]. eapply evolves_trans; [exact Hev2|]. by apply (set_at_evolves _ _ _ _ _ Hl2).
  - rewrite (set_value_at _ _ _ _ Hl). cbn. do 2 eexists. split; [done|]. split; [done|].
    apply (evolves_more ([self] ++ [self])); [|done]. intros x. cbn. rewrite !elem_of_cons. tauto.
Qed.

Lemma frame_init_ok w self nargs mem roots :
  fok w roots → self ∈ roots → fresh_at w mem →
  ∃ r w', frame_init none w self nargs mem = Done (r, w') ∧ fok w' roots ∧ evolves (self :: opt_list mem) w w'.
Proof.
  intros Hok Hin Hfr. destruct (root_alive _ _ _ Hok Hin) as [c Hc].
  assert (self = none → val c = FOther []) as Hnone.
  { intros ->. pose proof (fok_none _ _ Hok) as Hn. unfold py_read in Hn. rewrite Hc in Hn. by injection Hn. }
  assert (∀ w', evolves [self] w w' → evolves (self :: opt_list mem) w w') as Hmore.
  { intros w'. apply evolves_more. intros x ->%list_elem_of_singleton. by left. }
  assert (evolves (self :: opt_list mem) w w) as Hrefl by (by apply Hmore).
  unfold frame_init, py_read. rewrite Hc. cbn [mbind outcome_bind].
  destruct (val c) as [i|p info|e|rtp ers|type frame|ct d r o|b|refs] eqn:Hv.
  7,8: by do 2 eexists.
  all: assert (self ≠ none) as Hne by (intros E; by apply Hnone in E).
  all: unfold PyRTPInfo_init, PyRTPPacket_init, PyERSFrame_init, PyRTPFrameUnion_init, PyRTPFrame_init,
    PyFrameWrapper_init, takes_no_arguments; destruct (nargs =? 0) eqn:En; [|by do 2 eexists].
  - rewrite (set_value_at _ _ _ _ Hc). do 2 eexists. split; [done|].
    destruct (set_same w self c (FInfo rtp_info_zero) roots); [done..|by rewrite Hv|by rewrite Hv|]. auto.
  - destruct (packet_init_ok w self p info mem roots c) as (r & w' & E & H); [done..|].
    unfold PyRTPPacket_init, takes_no_arguments in E. cbn [Z.eqb] in E. rewrite E. by exists r, w'.
  - rewrite (set_value_at _ _ _ _ Hc). do 2 eexists. split; [done|].
    destruct (set_same w self c (FErs ers_zero) roots); [done..|by rewrite Hv|by rewrite Hv|]. auto.
  - destruct (reset_fields w self c (FUnion None None) (FUnion (Some none) (Some none)) 2 roots)
      as (w' & E & Hok' & Hev'); [done..|by rewrite Hv|done|by rewrite Hv|].
    rewrite Hv in E. cbn [frefs] in E. rewrite E. do 2 eexists. split; [done|]. auto.
  - rewrite (set_value_at _ _ _ _ Hc). cbn [mbind outcome_bind].
    destruct (set_same w self c (FFrame RFT_RTP_value frame) roots) as [Hok1 Hev1]; [done..|by rewrite Hv|by rewrite Hv|].
    set (w1 := set_at _ _ _ _) in *.
    assert (fob w1 !! self = Some {| rc := rc c; val := FFrame RFT_RTP_value frame |}) as Hc1 by apply lookup_insert_eq.
    destruct (reset_fields w1 self _ (FFrame 0 None) (FFrame RFT_RTP_value (Some none)) 1 roots Hok1 Hc1)
      as (w' & E & Hok' & Hev'); [done..|].
    cbn [frefs val] in E. rewrite E. do 2 eexists. split; [done|]. split; [done|]. apply Hmore.
    apply (evolves_more ([self] ++ [self])); [|by eapply evolves_trans]. intros x. cbn. rewrite !elem_of_cons. tauto.
  - destruct (reset_fields w self c (FWrapper None None None None)
      (FWrapper (Some none) (Some none) (Some none) (Some none)) 4 roots)
      as (w' & E & Hok' & Hev'); [done..|by rewrite Hv|done|by rewrite Hv|].
    rewrite Hv in E. cbn [frefs] in E. rewrite E. do 2 eexists. split; [done|]. auto.
Qed.
End Frames.
