(* ===== verification/PyFramesSpec.v ===== *)
(** The objects a jitter buffer hands to Python: the wrappers built on the store are
    the values of [PyJBuf], whichever allocation fails; and a program that uses the
    types of [PyFrames] in any way finds exact counts, loses no object, and reads
    from the counters what is alive. *)
From stdpp Require Import prelude list gmap strings pretty.
From Stdlib Require Import ZArith Lia.
From S2P Require Import Prelude Py RcHeap RcGraph Rtp JBuf PyJBuf PyFrames PyFramesInv.
Local Open Scope Z_scope.

Section Frames.
Context (none : Z).
#[local] Abbreviation fok := (fok none).
#[local] Abbreviation made := (made none).
#[local] Abbreviation built := (built none).
#[local] Abbreviation as_opt := (as_opt none).
#[local] Abbreviation read_or_none := (read_or_none none).
#[local] Abbreviation read_wrapper := (read_wrapper none).
#[local] Abbreviation wrapper_value := (wrapper_value none).

(** * Wrappers are the values of [PyJBuf] *)

(** Objects on the store and the bytes objects of [PyJBuf]'s store. *)
Definition same_bytes (w : fworld) (h : gmap Z (cell (list Z))) : Prop :=
  ∀ a b, py_read h a = Done b → py_read (fob w) a = Done (FBytes b).

(** [str] of the object at an address. *)
Definition show_wrapper (w : fworld) (a : Z) : outcome string :=
  o ← py_read (fob w) a;
  match o with FWrapper c _ _ _ => PyFrameWrapper_str w c | _ => Undefined end.

Lemma show_reads w a v :
  py_read (fob w) none = Done (FOther []) → read_wrapper w a = Some v →
  show_wrapper w a = Done (PyJBuf.PyFrameWrapper_str v).
Proof.
  intros Hn. unfold read_wrapper, show_wrapper.
  destruct (py_read (fob w) a) as [[| | | | |[c|] [d|] [r|] [o|]| |]| | |]; try done. cbn.
  unfold read_content, content_str, PyJBuf.PyFrameWrapper_str.
  destruct (py_read (fob w) c) as [[| |e| |type [u|]| | |]| | |] eqn:Ec; try done; cbn.
  { destruct (read_or_none _ r); [|done]. by intros [= <-]. }
  destruct (py_read (fob w) u) as [[| | |[p|] [e|]| | | |]| | |] eqn:Eu; try done; cbn.
  destruct (read_or_none (read_packet w) p) as [rtp|] eqn:Ep; [|done]. cbn.
  destruct (read_or_none (read_ers w) e) as [ers|]; [|done]. cbn.
  destruct (read_or_none _ r); [|done]. intros [= <-]. cbn.
  unfold read_or_none, as_opt in Ep. case_decide as Hp.
  - injection Ep as <-. subst p. by rewrite Hn.
  - unfold read_packet in Ep.
    destruct (py_read (fob w) p) as [[|q [i|]| | | | | |]| | |]; try done.
    destruct (py_read (fob w) i) as [[| | | | | | |]| | |]; try done. by injection Ep as <-.
Qed.

(** What became of the two models: an object that reads as the value, or no object
    where there is no value, and then nothing that was made is left. *)
Definition same_wrapper (w : fworld) (rest : list Z) (v : option PyFrameWrapper) (y : outcome (option Z * fworld))
    : Prop :=
  ∃ r w', y = Done (r, w') ∧ fok w' (opt_list r ++ rest) ∧
    match r, v with
    | Some a, Some v => read_wrapper w' a = Some v ∧ show_wrapper w' a = Done (PyJBuf.PyFrameWrapper_str v)
    | None, None => evolves [] w w'
    | _, _ => False
    end.

Lemma built_same mems stolen rest w v y :
  fok w (stolen ++ rest) → fresh_mem w mems →
  built mems rest w (λ a w', read_wrapper w' a = Some v) y →
  same_wrapper w rest (if decide (None ∈ mems) then None else Some v) y.
Proof.
  intros Hok [_ Hfr] (r & w' & -> & Hev & Hok' & Hr). exists r, w'. split; [done|]. split; [done|].
  destruct r as [a|].
  - destruct Hr as [Hn Hr]. rewrite decide_False by done. split; [done|]. apply show_reads; [|done].
    apply Hok'.
  - rewrite decide_True by done.
    eapply no_stray; [exact Hok|exact Hok'| |done|done]. cbn. set_solver.
Qed.

Lemma first_failure_value m :
  match first_failure 6 m with
  | Some (0 | 1 | 2 | 3 | 4)%nat => None ∈ mems_of 5 m
  | Some _ => (None ∉ mems_of 5 m) ∧ None ∈ mems_of 6 m
  | None => None ∉ mems_of 6 m
  end.
Proof.
  unfold first_failure, mems_of. cbn.
  destruct (m 0%nat), (m 1%nat), (m 2%nat), (m 3%nat), (m 4%nat), (m 5%nat);
    repeat ((rewrite decide_False by done) || (rewrite decide_True by done)); cbn;
    repeat split; no_none; rewrite !elem_of_cons; tauto.
Qed.

Lemma payload_value w h p l :
  same_bytes w h →
  (if 0 <? data_size (rp_info p) then
     bytes ← py_read h (rp_data p); mem_read bytes (data_offset (rp_info p)) (data_size (rp_info p))
   else Done []) = Done l →
  read_payload w p = Done l.
Proof.
  intros Hs. unfold read_payload. destruct (0 <? _); [|done].
  destruct (py_read h (rp_data p)) as [b| | |] eqn:E; [|done..]. by rewrite (Hs _ _ E).
Qed.

Lemma py_build_value m h p data opaque h' v w :
  same_bytes w h →
  PyJBuf.build_wrapper_rtp (first_failure 6 m) h p (as_opt data) (as_opt (default none opaque)) = Done (v, h') →
  ∃ l, (None ∉ mems_of 5 m → read_payload w p = Done l) ∧
    v = if decide (None ∈ mems_of 6 m) then None else Some (wrapper_value p l data opaque).
Proof.
  intros Hs. pose proof (first_failure_value m) as Hf. unfold PyJBuf.build_wrapper_rtp.
  set (pl := if 0 <? _ then _ else _).
  assert (∀ l, pl = Done l → read_payload w p = Done l) as Hpl by (intros l; by apply payload_value).
  assert (None ∈ mems_of 5 m → None ∈ mems_of 6 m) as H56.
  { unfold mems_of. cbn. rewrite !elem_of_cons. tauto. }
  destruct (first_failure 6 m) as [[|[|[|[|[|n]]]]]|]; cbn -[mems_of].
  1-5: destruct (py_xdecref h (as_opt data)) as [h1| | |]; [|done..]; cbn -[mems_of];
    destruct (py_xdecref h1 _); [|done..]; intros [= <- <-]; exists [];
    rewrite decide_True by auto; done.
  - destruct Hf as [H5 H6]. destruct pl as [l| | |]; [|done..]. cbn.
    destruct (py_xdecref h (as_opt data)) as [h1| | |]; [|done..]. cbn -[mems_of].
    destruct (py_xdecref h1 _); [|done..]. intros [= <- <-]. exists l.
    rewrite decide_True by done. auto.
  - destruct pl as [l| | |]; [|done..]. cbn. intros [= <- <-]. exists l.
    rewrite decide_False by done. auto.
Qed.

(** C22: [build_wrapper_rtp] on the store of counted objects does what [PyJBuf]
    says of it, for every way its six allocations can go. The wrapper it returns
    reads back, through all its fields, as the value, and shows as the same text.
    Without memory there is no wrapper, the references to data and opaque are
    given back, and nothing of what was built before the failure is left. *)
Theorem build_wrapper_refines w m p data opaque rest h v h' :
  fok w (data :: opt_list opaque ++ rest) → fresh_mem w (mems_of 6 m) → same_bytes w h →
  PyJBuf.build_wrapper_rtp (first_failure 6 m) h p (as_opt data) (as_opt (default none opaque)) = Done (v, h') →
  same_wrapper w rest v (build_wrapper_rtp none w m p data opaque).
Proof.
  intros Hok Hfr Hs E. destruct (py_build_value _ _ _ _ _ _ _ _ Hs E) as (l & Hp & ->).
  eapply (built_same _ (data :: opt_list opaque)); [done|done|]. by apply build_wrapper_rtp_ok.
Qed.

Lemma build_ers_refines w m e rest :
  fok w rest → fresh_mem w (mems_of 2 m) →
  same_wrapper w rest (PyJBuf.build_wrapper_ers (first_failure 2 m) e) (build_wrapper_ers none w m e).
Proof.
  intros Hok Hfr. replace (PyJBuf.build_wrapper_ers (first_failure 2 m) e)
    with (if decide (None ∈ mems_of 2 m) then None else Some (ers_value e)).
  - apply (built_same _ [] rest); [done|done|]. by apply build_wrapper_ers_ok.
  - pose proof (first_failure_none 2 m). destruct (first_failure 2 m).
    + rewrite decide_True; [done|]. destruct (decide (None ∈ mems_of 2 m)) as [|Hn]; [done|].
      by apply H in Hn.
    + rewrite decide_False; [done|]. tauto.
Qed.

(** * Programs *)

(** What the types and the interpreter take care of: memory is where nothing
    lives; a program uses objects it has; the objects of its own are of no type of
    the module; and the buffer asks for a wrapper of bytes that are there. *)
Definition fop_enabled (op : fop) (s : fstate) : Prop :=
  let w := fs_world s in
  match op with
  | OpCall t _ mem mem' => t ≠ RtpJBuf ∧ fresh_mem w [mem; mem']
  | OpInit a _ mem => a ∈ fs_held s ∧ fresh_mem w [mem]
  | OpMake a o => type_of o = None ∧ frefs o ⊆ none :: fs_held s ∧ fob w !! a = None
  | OpWrapRtp m p data opaque =>
      data :: opt_list opaque ⊆+ fs_held s ∧ fresh_mem w (mems_of 6 m) ∧ ∃ l, read_payload w p = Done l
  | OpWrapErs m _ => fresh_mem w (mems_of 2 m)
  | OpGetattr _ a _ | OpTake a => a ∈ none :: fs_held s
  | OpDrop a => a ∈ fs_held s
  | OpReset | OpSetCounting _ => True
  end.

(** The operation leaves the counters to the objects. *)
Definition counts_on (op : fop) : bool :=
  match op with OpReset | OpSetCounting _ => false | _ => true end.

Definition fs_ok (s : fstate) : Prop := fok (fs_world s) (fs_held s).

Lemma foldr_remove_one l held : l ⊆+ held → held ≡ₚ l ++ foldr remove_one held l.
Proof.
  induction l as [|a l IH]; intros Hs; [done|]. cbn.
  assert (l ⊆+ held) as Hl by (etrans; [|exact Hs]; apply submseteq_cons; done).
  assert (a ∈ foldr remove_one held l) as Ha.
  { destruct (submseteq_Permutation _ _ Hs) as [k Hk]. specialize (IH Hl). rewrite Hk in IH at 1.
    assert (l ++ a :: k ≡ₚ l ++ foldr remove_one held l) as E%Permutation_app_inv_l by (rewrite <- IH; perm_count).
    rewrite <- E. by left. }
  rewrite (IH Hl) at 1. rewrite (remove_one_perm a _ Ha) at 1. perm_count.
Qed.

Lemma fresh_mem_head w mem rest : fresh_mem w (mem :: rest) → fresh_at w mem.
Proof. intros Hf. by apply (fresh_next w w [] mem rest). Qed.

Lemma frame_new_made w t mem roots :
  t ≠ RtpJBuf → fok w roots → fresh_at w mem →
  ∃ o, frefs o = [] ∧ made mem o roots w (frame_new w t mem).
Proof.
  intros Ht Hok Hfr. destruct t; [..|done]; eexists; (split; [|apply fnew_made; [| |]]; [|exact Hok|..]); done.
Qed.

Lemma frame_call_ok w t nargs mem mem' roots :
  t ≠ RtpJBuf → fok w roots → fresh_mem w [mem; mem'] →
  ∃ r w', frame_call none w t nargs mem mem' = Done (r, w') ∧ fok w' (opt_list (ret_obj r) ++ roots) ∧
    evolves (omap id [mem; mem']) w w'.
Proof.
  intros Ht Hok Hfr. unfold frame_call.
  destruct (frame_new_made w t mem roots Ht Hok (fresh_mem_head _ _ _ Hfr)) as (o & _ & Hr & Hok1 & Hev1 & _).
  destruct (frame_new w t mem) as [r w1]. cbn in Hr, Hok1, Hev1. subst r. destruct mem as [self|].
  - assert (fresh_at w1 mem') as Hfr'.
    { eapply (fresh_next _ _ [Some self] mem' []); [exact Hfr|done]. }
    destruct (frame_init_ok none w1 self nargs mem' _ Hok1 ltac:(by left) Hfr') as (r & w2 & E & Hok2 & Hev2).
    rewrite E. cbn [mbind outcome_bind].
    assert (evolves (omap id [Some self; mem']) w w2) as Hev.
    { apply (evolves_more ([self] ++ self :: opt_list mem')); [|by eapply evolves_trans].
      destruct mem'; intros x; cbn; rewrite !elem_of_cons; tauto. }
    destruct r as [[]|e]; [by do 2 eexists|].
    destruct (fdrop_ok none w2 [self] roots Hok2) as (w3 & -> & Hok3 & Hev3). do 2 eexists. split; [done|].
    split; [done|]. rewrite <- (app_nil_r (omap id _)). by eapply evolves_trans.
  - do 2 eexists. split; [done|]. split; [done|]. by apply (evolves_more []); [apply list_subseteq_nil|].
Qed.

Lemma fincref_all_ok w l roots :
  fok w roots → l ⊆ none :: roots →
  ∃ w', fincref_all w l = Done w' ∧ fok w' (l ++ roots) ∧ evolves [] w w'.
Proof.
  revert w roots. induction l as [|a l IH]; intros w roots Hok Hl; [by exists w|]. cbn.
  destruct (fincref_ok none w roots a Hok) as (w1 & -> & Hok1 & Hev1 & _).
  { apply elem_of_app. left. apply Hl. by left. }
  cbn. destruct (IH w1 (a :: roots) Hok1) as (w2 & -> & Hok2 & Hev2).
  { intros x Hx. specialize (Hl x ltac:(by right)). rewrite !elem_of_cons in *. tauto. }
  exists w2. split; [done|]. split; [eapply fok_perm; [|exact Hok2]; perm_count|].
  by apply (evolves_trans [] [] w w1).
Qed.

Lemma frame_attrs_refs ptr o nm x b :
  (nm, x) ∈ frame_attrs ptr o → x = AMember (Some b) ∨ x = AObj (Some b) → b ∈ frefs o.
Proof.
  intros Hin Hx. destruct o; cbn in *;
    unfold PyRTPInfo_getset, PyRTPPacket_getset, PyERSFrame_getset, PyRTPFrameUnion_members, PyRTPFrame_members,
      PyFrameWrapper_members in Hin; rewrite ?elem_of_cons, ?elem_of_nil in Hin;
    destruct_or? Hin; destruct Hx; simplify_eq/=; rewrite ?elem_of_app, ?elem_of_cons; tauto.
Qed.

Lemma frame_getattr_ok ptr w a name roots :
  fok w roots → a ∈ none :: roots →
  ∃ r w', frame_getattr none ptr w a name = Done (r, w') ∧ fok w' (opt_list (attr_obj r) ++ roots) ∧
    evolves [] w w'.
Proof.
  intros Hok Ha. destruct (graph_alive _ _ _ a (fok_counts _ _ _ Hok) Ha) as [c Hc].
  assert (∀ b, b ∈ none :: frefs (val c) → ∃ w', fincref w b = Done w' ∧ fok w' (b :: roots) ∧ evolves [] w w') as Hinc.
  { intros b Hb. destruct (fincref_ok none w roots b Hok) as (w' & E & H1 & H2 & _); [|by exists w'].
    apply elem_of_cons in Hb as [->|Hb]; [by left|]. apply elem_of_app. right. apply elem_of_inner. eauto. }
  unfold frame_getattr, py_read. rewrite Hc. cbn [mbind outcome_bind].
  destruct (list_find _ _) as [[i [nm [z|b|[b|]|[b|]]]]|] eqn:E; try (by do 2 eexists).
  all: try (destruct (Hinc none ltac:(by left)) as (w' & -> & H); by do 2 eexists).
  all: destruct (Hinc b) as (w' & -> & H); [|by do 2 eexists].
  all: right; apply list_find_Some in E as (E & _ & _); apply list_elem_of_lookup_2 in E.
  all: apply (frame_attrs_refs _ _ _ _ _ E); auto.
Qed.

(** An operation that leaves the counters to the objects. *)
Definition in_balance (w w' : fworld) : Prop :=
  counting_enabled (g_counts w') = counting_enabled (g_counts w) ∧
  (counting_enabled (g_counts w) = true → ∀ t, balance w' t = balance w t).

Lemma ev_in_balance news w w' : evolves news w w' → in_balance w w'.
Proof. by intros []. Qed.

Lemma fop_ok op s :
  fs_ok s → fop_enabled op s →
  ∃ s', fop_exec none op s = Done s' ∧ fs_ok s' ∧ (counts_on op = true → in_balance (fs_world s) (fs_world s')).
Proof.
  unfold fs_ok. destruct s as [w held]. cbn [fs_world fs_held]. intros Hok En.
  destruct op as [t nargs mem mem'|a nargs mem|a o|m p data opaque|m e|ptr a name|a|a| |flag];
    cbn [fop_enabled fop_exec fs_world fs_held] in *.
  - destruct En as [Ht Hfr]. destruct (frame_call_ok w t nargs mem mem' held Ht Hok Hfr) as (r & w' & -> & H & Hev).
    eexists. split; [done|]. split; [exact H|]. intros _. by eapply ev_in_balance.
  - destruct En as [Ha Hfr%fresh_mem_head].
    destruct (frame_init_ok none w a nargs mem held Hok Ha Hfr) as (r & w' & -> & H & Hev).
    eexists. split; [done|]. split; [exact H|]. intros _. by eapply ev_in_balance.
  - destruct En as (Ho & Hsub & Ha).
    destruct (fincref_all_ok w (frefs o) held Hok Hsub) as (w1 & -> & Hok1 & Hev1).
    assert (fob w1 !! a = None) as Ha1 by (eapply ev_fresh; [done|done|apply not_elem_of_nil]).
    destruct (fnew_ok none w1 a o held Hok1 Ha1) as (w2 & E & Hok2 & Hev2 & _). cbn [mbind outcome_bind]. rewrite E.
    eexists. split; [done|]. split; [exact Hok2|]. intros _.
    eapply ev_in_balance. by apply (evolves_trans _ _ _ _ _ Hev1 Hev2).
  - destruct En as (Hsub & Hfr & l & Hl). pose proof (foldr_remove_one _ _ Hsub) as Hp.
    rewrite Hp in Hok.
    destruct (build_wrapper_rtp_ok none w m p data opaque _ l Hok Hfr (λ _, Hl)) as (r & w' & -> & Hev & H & _).
    eexists. split; [done|]. split; [exact H|]. intros _. by eapply ev_in_balance.
  - destruct (build_wrapper_ers_ok none w m e held Hok En) as (r & w' & -> & Hev & H & _).
    eexists. split; [done|]. split; [exact H|]. intros _. by eapply ev_in_balance.
  - destruct (frame_getattr_ok ptr w a name held Hok En) as (r & w' & -> & H & Hev).
    eexists. split; [done|]. split; [exact H|]. intros _. by eapply ev_in_balance.
  - destruct (fincref_ok none w held a Hok) as (w' & -> & H & Hev & _); [apply elem_of_app; by left|].
    eexists. split; [done|]. split; [exact H|]. intros _. by eapply ev_in_balance.
  - rewrite (remove_one_perm _ _ En) in Hok.
    destruct (fdrop_ok none w [a] _ Hok) as (w' & -> & H & Hev).
    eexists. split; [done|]. split; [exact H|]. intros _. by eapply ev_in_balance.
  - eexists. split; [done|]. split; [|done]. destruct Hok. by split.
  - eexists. split; [done|]. split; [|done]. destruct Hok. by split.
Qed.

(** A program from the start of the interpreter. *)
Definition fstart (g : DeallocCounts) : fstate :=
  {| fs_world := {| g_counts := g; fob := {[ none := {| rc := 1; val := FOther [] |} ]} |}; fs_held := [] |}.

Inductive freach (g : DeallocCounts) : fstate → list fop → Prop :=
| freach_start : freach g (fstart g) []
| freach_step s ops op s' :
    freach g s ops → fop_enabled op s → fop_exec none op s = Done s' → freach g s' (ops ++ [op]).

Lemma fstart_ok g : fs_ok (fstart g).
Proof.
  split; cbn.
  - apply (graph_make frefs ∅ [] none (FOther [])); [apply graph_ok_empty|apply lookup_empty].
  - exists (λ _, 0%nat). intros a c b. rewrite lookup_singleton_Some. intros [<- <-]. cbn. by rewrite elem_of_nil.
  - unfold py_read. by rewrite lookup_singleton_eq.
Qed.

Lemma freach_ok g s ops :
  freach g s ops → fs_ok s ∧ (forallb counts_on ops = true → in_balance (fs_world (fstart g)) (fs_world s)).
Proof.
  induction 1 as [|s ops op s' Hr [IH Hb] En E]; [split; [apply fstart_ok|done]|].
  destruct (fop_ok op s IH En) as (s'' & E' & Hok & Hb'). rewrite E in E'. injection E' as <-.
  split; [done|]. rewrite forallb_app. cbn [forallb]. rewrite andb_true_r. intros [H1 H2]%andb_true_iff.
  destruct (Hb H1) as [B1 B2], (Hb' H2) as [B3 B4]. split; [congruence|]. intros Eg t.
  rewrite B4 by congruence. by apply B2.
Qed.

(** Only [None] is left when the program has no references. *)
Lemma nothing_left w : fok w [] → dom (fob w) = {[ none ]}.
Proof.
  intros [Hg Ha Hn]. pose proof (fstart_ok (g_counts w)) as [Hg0 _ _]. cbn in Hg0.
  apply set_eq. intros a. rewrite elem_of_dom, elem_of_singleton. split.
  - intros [c Hc]. destruct (decide (a = none)) as [|Hne]; [done|]. exfalso.
    pose proof (graph_no_stray frefs (elements (dom (fob w) ∖ {[none]})) _ _ _ _ Hg0 Hg Ha) as Hk.
    assert (py_read (A := fobj) {[none := {| rc := 1; val := FOther [] |}]} a = Done (val c)) as Hr.
    2:{ unfold py_read in Hr. by rewrite lookup_singleton_ne in Hr. }
    apply Hk; [done| | |by apply py_read_some].
    + intros b Hb%elem_of_elements. rewrite lookup_singleton_ne; [done|]. apply elem_of_difference in Hb as [_ Hb]. intros ->.
      by apply Hb, elem_of_singleton.
    + intros b v Hb Hv. rewrite elem_of_elements in Hb. destruct (decide (b = none)) as [->|].
      * unfold py_read at 1. rewrite lookup_singleton_eq. cbn. rewrite Hn in Hv. done.
      * exfalso. apply Hb. apply elem_of_difference. split; [|set_solver]. apply elem_of_dom.
        unfold py_read in Hv. destruct (fob w !! b); [by eexists|done].
  - intros ->. unfold py_read in Hn. destruct (fob w !! none); [by eexists|done].
Qed.

Lemma live_nothing t w : fok w [] → live_of t (objs (fob w)) = 0.
Proof.
  intros Hok. unfold live_of. destruct (filter _ _) as [|[a o] l] eqn:E; [done|]. exfalso.
  assert ((a, o) ∈ filter (λ x, type_of x.2 = Some t) (objs (fob w))) as Hin by (rewrite E; by left).
  apply list_elem_of_filter in Hin as [Ho Hr%elem_of_objs]. pose proof (nothing_left w Hok) as Hd.
  assert (a ∈ dom (fob w)) as Ha.
  { apply elem_of_dom. unfold py_read in Hr. destruct (fob w !! a); [by eexists|done]. }
  rewrite Hd in Ha. apply elem_of_singleton in Ha as ->. rewrite (fok_none _ _ _ Hok) in Hr. by injection Hr as <-.
Qed.

(** C23: a program makes frames, wrappers and objects of its own, calls [__init__]
    again, reads attributes and drops what it has, in any order and with any
    allocation failing. Every operation goes through, no object is used after it
    was freed, every count is the number of references there are, and when the
    program has none left, no object is left but [None]. *)
Theorem frames_counted g s ops op :
  freach g s ops → fop_enabled op s →
  ∃ s', fop_exec none op s = Done s' ∧
    graph_ok frefs (fob (fs_world s')) (none :: fs_held s') ∧
    (fs_held s' = [] → dom (fob (fs_world s')) = {[ none ]}).
Proof.
  intros Hr En. destruct (fop_ok op s (proj1 (freach_ok _ _ _ Hr)) En) as (s' & E & Hok & _).
  exists s'. split; [done|]. split; [apply Hok|]. intros Hh. apply nothing_left.
  unfold fs_ok in Hok. by rewrite Hh in Hok.
Qed.

(** C40: counters that start equal tell, as long as they are neither reset nor
    switched off, how many objects of each type are alive: created less freed,
    modulo 2^64. When the program has dropped everything, both are the same. *)
Theorem counters_tell_alive g s ops t :
  counting_enabled g = true → created g t = freed_objs g t → freach g s ops → forallb counts_on ops = true →
  let g' := g_counts (fs_world s) in
  u64 (created g' t - freed_objs g' t) = u64 (live_of t (objs (fob (fs_world s)))) ∧
  (fs_held s = [] → u64 (created g' t - freed_objs g' t) = 0).
Proof.
  intros Eg E0 Hr Hc. destruct (freach_ok _ _ _ Hr) as [Hok Hb]. destruct (Hb Hc) as [_ Hb'].
  specialize (Hb' Eg t). unfold balance, balance_of in Hb'. cbn in Hb'. rewrite E0 in Hb'.
  assert (objs (A := fobj) {[none := {| rc := 1; val := FOther [] |}]} = [(none, FOther [])]) as Ho.
  { unfold objs. by rewrite map_to_list_singleton. }
  rewrite Ho, live_of_cons, decide_False in Hb' by done.
  assert (u64 (created (g_counts (fs_world s)) t - freed_objs (g_counts (fs_world s)) t)
    = u64 (live_of t (objs (fob (fs_world s))))) as E.
  { replace (freed_objs g t - freed_objs g t - _) with 0 in Hb' by (change (live_of t []) with 0; lia).
    set (l := live_of _ _) in *. set (x := created _ _ - _) in *.
    pose proof (u64_add_l (x - l) l) as H. rewrite Hb' in H.
    replace (x - l + l) with x in H by lia. by rewrite <- H. }
  split; [done|]. intros Hh. rewrite E. unfold fs_ok in Hok. rewrite Hh in Hok. by rewrite live_nothing.
Qed.
End Frames.
(** * Concrete runs *)

Definition zero_counts : DeallocCounts :=
  {| created := λ _, 0; freed_objs := λ _, 0; counting_enabled := true |}.

(** A datagram of which two bytes are the payload. *)
Definition demo_packet : rtp_packet :=
  {| rp_info := {| data_size := 2; data_offset := 1; nsamples := 2; ts := 0; seq := 5; ssrc := 0;
                   appendable := 1; rtp_profile_idx := None |}; lseq := 5; jbcnt := 1; rp_data := 1 |}.

Definition demo_mem (i : nat) : option Z := Some (10 + Z.of_nat i).
(** No memory for the wrapper itself. *)
Definition demo_short (i : nat) : option Z := if decide (i = 5%nat) then None else Some (20 + Z.of_nat i).

(** The program keeps a reference to the datagram; makes a wrapper of it, and fails
    to make a second; resets the wrapper; drops it. *)
Definition demo_ops : list fop :=
  [OpMake 1 (FBytes [7; 8; 9]); OpTake 1; OpTake 1; OpWrapRtp demo_mem demo_packet 1 None;
   OpWrapRtp demo_short demo_packet 1 None; OpGetattr (λ _, 0) 15 "content"; OpInit 15 0 None;
   OpDrop 15; OpDrop 13; OpDrop 1].

Definition state_at (ops : list fop) (n : nat) : fstate :=
  match frun 0 (take n ops) (fstart 0 zero_counts) with Done s => s | _ => fstart 0 zero_counts end.
Definition demo_at : nat → fstate := state_at demo_ops.

Ltac demo_fresh :=
  split; [apply (bool_decide_unpack _); vm_compute; exact I
         |intros ?a ?Ha; repeat (apply elem_of_cons in Ha as [->|Ha]; [vm_compute; reflexivity|]);
          by apply not_elem_of_nil in Ha].

Lemma demo_enabled n op : demo_ops !! n = Some op → fop_enabled 0 op (demo_at n).
Proof.
  destruct n as [|[|[|[|[|[|[|[|[|[|n]]]]]]]]]]; intros [= <-].
  - split; [done|]. split; [apply list_subseteq_nil|vm_compute; reflexivity].
  - vm_compute. right. left.
  - vm_compute. right. left.
  - split; [apply (bool_decide_unpack _); vm_compute; exact I|]. split; [demo_fresh|]. 
    eexists. vm_compute. reflexivity.
  - split; [apply (bool_decide_unpack _); vm_compute; exact I|]. split; [demo_fresh|]. 
    eexists. vm_compute. reflexivity.
  - vm_compute. right. left.
  - split; [vm_compute; right; left|demo_fresh].
  - vm_compute. right. left.
  - vm_compute. left.
  - vm_compute. left.
Qed.

Lemma frun_app l l' s : frun 0 (l ++ l') s = (s ← frun 0 l s; frun 0 l' s).
Proof.
  revert s. induction l as [|op l IH]; intros s; [done|]. cbn. destruct (fop_exec 0 op s); [|done..]. apply IH.
Qed.

Lemma state_reach ops n :
  (∀ n op, ops !! n = Some op → fop_enabled 0 op (state_at ops n)) → (n ≤ length ops)%nat →
  freach 0 zero_counts (state_at ops n) (take n ops) ∧
  frun 0 (take n ops) (fstart 0 zero_counts) = Done (state_at ops n).
Proof.
  intros Hall. induction n as [|n IH]; intros Hn; [split; [apply freach_start|done]|].
  destruct IH as [Hr E]; [lia|]. destruct (lookup_lt_is_Some_2 ops n Hn) as [op Hop].
  destruct (fop_ok 0 op _ (proj1 (freach_ok _ _ _ _ Hr)) (Hall n op Hop)) as (s' & E' & _).
  rewrite (take_S_r _ _ _ Hop). assert (state_at ops (S n) = s') as ->.
  { unfold state_at. rewrite (take_S_r _ _ _ Hop), frun_app, E. cbn. by rewrite E'. }
  split; [by eapply freach_step; [|apply Hall|]|]. rewrite frun_app, E. cbn. by rewrite E'.
Qed.

Lemma demo_freach n : (n ≤ 10)%nat → freach 0 zero_counts (demo_at n) (take n demo_ops).
Proof. intros Hn. apply (state_reach demo_ops n demo_enabled Hn). Qed.

(** The wrapper goes; what the program took out of it stays. *)
Lemma frames_counted_witness :
  ∃ s', fop_exec 0 (OpDrop 15) (demo_at 7) = Done s' ∧ fs_held s' = [13; 1] ∧
    graph_ok frefs (fob (fs_world s')) [0; 13; 1].
Proof.
  destruct (frames_counted 0 zero_counts (demo_at 7) (take 7 demo_ops) (OpDrop 15)) as (s' & E & H & _).
  - apply demo_freach. lia.
  - by apply (demo_enabled 7).
  - assert (Some (fs_held s') = Some [13; 1]) as [= Hh].
    { transitivity (match fop_exec 0 (OpDrop 15) (demo_at 7) with Done s => Some (fs_held s) | _ => None end);
        [by rewrite E|vm_compute; reflexivity]. }
    rewrite Hh in H. exists s'. split; [exact E|]. split; [exact Hh|exact H].
Defined.

Lemma counters_tell_alive_witness :
  let g := g_counts (fs_world (demo_at 10)) in
  created g RTPFrame = 2 ∧ u64 (created g RTPFrame - freed_objs g RTPFrame) = 0.
Proof.
  split; [vm_compute; reflexivity|].
  apply (counters_tell_alive 0 zero_counts (demo_at 10) demo_ops RTPFrame); [reflexivity..| | |].
  - apply (demo_freach 10). lia.
  - reflexivity.
  - vm_compute. reflexivity.
Defined.

Lemma build_wrapper_refines_witness :
  ∃ v, fw_rtp_data v = Some [8; 9] ∧
    same_wrapper 0 (fs_world (demo_at 3)) [1; 1] (Some v)
      (build_wrapper_rtp 0 (fs_world (demo_at 3)) demo_mem demo_packet 1 None).
Proof.
  eexists. split; [|eapply (build_wrapper_refines 0 (fs_world (demo_at 3)) demo_mem demo_packet 1 None [1; 1]
    {[ 1 := {| rc := 1; val := [7; 8; 9] |} ]})].
  5: vm_compute; reflexivity.
  - reflexivity.
  - apply (freach_ok 0 zero_counts (demo_at 3) (take 3 demo_ops)). apply demo_freach. lia.
  - demo_fresh.
  - intros a b. unfold py_read at 1. destruct (decide (a = 1)) as [->|].
    + rewrite lookup_singleton_eq. intros [= <-]. vm_compute. reflexivity.
    + by rewrite lookup_singleton_ne.
Defined.

(** * What the types leave open *)

(** [__init__] of a wrapper drops the content, and then what is attached to the
    frame, while the field still has the content: when the opaque object is freed
    (and may run code of the program), the wrapper refers to a freed object. *)
Definition stale_ops : list fop :=
  [OpMake 1 (FBytes [7; 8; 9]); OpMake 2 (FOther []); OpWrapRtp demo_mem demo_packet 1 (Some 2)].
Definition stale_at : fstate := state_at stale_ops 3.

Lemma stale_enabled n op : stale_ops !! n = Some op → fop_enabled 0 op (state_at stale_ops n).
Proof.
  destruct n as [|[|[|n]]]; intros [= <-].
  - split; [done|]. split; [apply list_subseteq_nil|vm_compute; reflexivity].
  - split; [done|]. split; [apply list_subseteq_nil|vm_compute; reflexivity].
  - split; [apply (bool_decide_unpack _); vm_compute; exact I|]. split; [demo_fresh|].
    eexists. vm_compute. reflexivity.
Qed.

Lemma reinit_exposes_freed :
  freach 0 zero_counts stale_at stale_ops ∧
  py_read (fob (fs_world stale_at)) 15 = Done (FWrapper (Some 13) (Some 1) (Some 14) (Some 2)) ∧
  (w ← fdrop (fs_world stale_at) [13; 1; 14]; Done (fob w !! 13, val <$> fob w !! 2)) = Done (None, Some (FOther [])) ∧
  (w ← fdrop (fs_world stale_at) [13; 1; 14];
   '(r, _) ← frame_getattr 0 (λ _, 0) w 15 "content"; Done r) = Undefined.
Proof.
  split; [apply (state_reach stale_ops 3 stale_enabled); cbn; lia|].
  split; [vm_compute; reflexivity|]. split; vm_compute; reflexivity.
Qed.
