(* ===== verification/SPMC.v ===== *)
(** The single-producer, multiple-consumer ring buffer: src/src/SPMCQueue.c. The
    sequential operations, and a step relation in which every atomic access of a
    producer and of any number of consumers is a step of its own, interleaved in
    any order (sequentially consistent; the acquire/release annotations are not
    weakened further). A slot's [void *] is a number. *)
From stdpp Require Import prelude list.
From Stdlib Require Import ZArith Lia.
From S2P Require Import Prelude.
Local Open Scope Z_scope.

(** * Data *)

Record SPMCQueue : Set := {
  q_capacity : Z;
  mask : Z;
  writeIdx : Z;
  readIdxCache : Z;
  readIdx : Z;
  writeIdxCache : Z;
  slots : list Z;
}.

Definition CACHE_LINE_SIZE : Z := 64.
Definition SIZE_MAX : Z := U64_MAX.
(** Two words, then four fields and the slots on cache lines of their own. *)
Definition SIZEOF_SPMCQueue : Z := 320.
Definition SIZEOF_PTR : Z := 8.

Definition set_writeIdx (v : Z) (q : SPMCQueue) : SPMCQueue :=
  {| q_capacity := q_capacity q; mask := mask q; writeIdx := v;
     readIdxCache := readIdxCache q; readIdx := readIdx q;
     writeIdxCache := writeIdxCache q; slots := slots q |}.
Definition set_readIdxCache (v : Z) (q : SPMCQueue) : SPMCQueue :=
  {| q_capacity := q_capacity q; mask := mask q; writeIdx := writeIdx q;
     readIdxCache := v; readIdx := readIdx q;
     writeIdxCache := writeIdxCache q; slots := slots q |}.
Definition set_readIdx (v : Z) (q : SPMCQueue) : SPMCQueue :=
  {| q_capacity := q_capacity q; mask := mask q; writeIdx := writeIdx q;
     readIdxCache := readIdxCache q; readIdx := v;
     writeIdxCache := writeIdxCache q; slots := slots q |}.
Definition set_writeIdxCache (v : Z) (q : SPMCQueue) : SPMCQueue :=
  {| q_capacity := q_capacity q; mask := mask q; writeIdx := writeIdx q;
     readIdxCache := readIdxCache q; readIdx := readIdx q;
     writeIdxCache := v; slots := slots q |}.
Definition set_slots (s : list Z) (q : SPMCQueue) : SPMCQueue :=
  {| q_capacity := q_capacity q; mask := mask q; writeIdx := writeIdx q;
     readIdxCache := readIdxCache q; readIdx := readIdx q;
     writeIdxCache := writeIdxCache q; slots := s |}.

(** * Construction *)

Definition round_up_size (size alignment : Z) : Z :=
  Z.land (u64 (u64 (size + alignment) - 1)) (u64 (Z.lnot (u64 (alignment - 1)))).

(** [spmc_aligned_alloc]: [heap n] is the contents of a fresh block of [n]
    bytes seen as pointers, if there is one. *)
Definition spmc_aligned_alloc (heap : Z → option (list Z)) (alignment size : Z)
    : option (list Z) :=
  heap (round_up_size size alignment).

Definition create_queue (heap : Z → option (list Z)) (capacity : Z) : option SPMCQueue :=
  if capacity =? 0 then None
  else if negb (Z.land capacity (u64 (capacity - 1)) =? 0) then None
  else if (SIZE_MAX - SIZEOF_SPMCQueue) / SIZEOF_PTR <? capacity then None
  else
    let alloc_size := u64 (SIZEOF_SPMCQueue + u64 (SIZEOF_PTR * capacity)) in
    match spmc_aligned_alloc heap CACHE_LINE_SIZE alloc_size with
    | None => None
    | Some block =>
        Some {| q_capacity := capacity; mask := u64 (capacity - 1); writeIdx := 0;
                readIdxCache := 0; readIdx := 0; writeIdxCache := 0;
                slots := take (Z.to_nat capacity) block |}
    end.

(** * Access to the slots *)

Definition slot_of (q : SPMCQueue) (i : Z) : nat := Z.to_nat (Z.land i (mask q)).
Definition load_slot (q : SPMCQueue) (i : Z) : outcome Z :=
  match slots q !! slot_of q i with Some v => Done v | None => Undefined end.
Definition store_slot (q : SPMCQueue) (i v : Z) : outcome SPMCQueue :=
  if bool_decide (slot_of q i < length (slots q))%nat then
    Done (set_slots (<[slot_of q i := v]> (slots q)) q)
  else Undefined.

(** * Sequential operations *)

Definition try_push (q : SPMCQueue) (value : Z) : outcome (bool * SPMCQueue) :=
  let w := writeIdx q in
  let nextWriteIdx := u64 (w + 1) in
  let newsize := u64 (nextWriteIdx - readIdxCache q) in
  if newsize <=? q_capacity q then
    q ← store_slot q w value;
    Done (true, set_writeIdx nextWriteIdx q)
  else
    let q := set_readIdxCache (readIdx q) q in
    let newsize := u64 (nextWriteIdx - readIdxCache q) in
    if newsize <=? q_capacity q then
      q ← store_slot q w value;
      Done (true, set_writeIdx nextWriteIdx q)
    else Done (false, q).

(** The prologue of both pop functions: the write index the consumer works
    with, or [None] when the queue is empty. *)
Definition refresh_writeIdx (q : SPMCQueue) (r : Z) : outcome (SPMCQueue * option Z) :=
  let c := writeIdxCache q in
  if c <=? r then
    let c := writeIdx q in
    let q := set_writeIdxCache c q in
    if r =? c then Done (q, None)
    else
      _ ← d_assert (r <? c);
      Done (q, Some c)
  else Done (q, Some c).

(** [spurious]: how often the weak compare-and-exchange fails for no reason. *)
Fixpoint try_pop (spurious : nat) (q : SPMCQueue) : outcome (option Z * SPMCQueue) :=
  let r := readIdx q in
  x ← refresh_writeIdx q r;
  match x with
  | (q, None) => Done (None, q)
  | (q, Some _) =>
      rval ← load_slot q r;
      match spurious with
      | S n => try_pop n q
      | O => Done (Some rval, set_readIdx (u64 (r + 1)) q)
      end
  end.

(** The copy loop of [try_pop_many]. *)
Fixpoint load_slots (q : SPMCQueue) (i : Z) (n : nat) : outcome (list Z) :=
  match n with
  | O => Done []
  | S n => v ← load_slot q i; vs ← load_slots q (u64 (i + 1)) n; Done (v :: vs)
  end.

Definition many_end (r howmany c : Z) : Z :=
  let n := u64 (r + howmany) in if c <? n then c else n.

Fixpoint try_pop_many (spurious : nat) (q : SPMCQueue) (howmany : Z)
    : outcome (Z * list Z * SPMCQueue) :=
  let r := readIdx q in
  x ← refresh_writeIdx q r;
  match x with
  | (q, None) => Done (0, [], q)
  | (q, Some c) =>
      let n := many_end r howmany c in
      vs ← load_slots q r (Z.to_nat (n - r));
      match spurious with
      | S k => try_pop_many k q howmany
      | O => Done (u64 (n - r), vs, set_readIdx n q)
      end
  end.

(** * Concurrent steps *)

(** Where the producer is inside [try_push value]. *)
Inductive prod_pc : Set :=
| PIdle
| PStart (value : Z)
| PCheck (value w : Z)
| PRefresh (value w : Z)
| PStore (value w : Z)
| PPublish (value w : Z)
| PRet (ok : bool).

(** Which of the pop functions a consumer runs. *)
Inductive pop_call : Set := Pop | PopMany (howmany : Z).

(** Where a consumer is. [CReading r n vs]: the slots from [r] on up to the next
    one have been read into [vs]; [n] is the end of the range. *)
Inductive cons_pc : Set :=
| CIdle
| CStart (f : pop_call)
| CCheck (f : pop_call) (r : Z)
| CRefresh (f : pop_call) (r : Z)
| CUpdate (f : pop_call) (r w : Z)
| CReading (f : pop_call) (r n : Z) (vs : list Z)
| CSwap (f : pop_call) (r n : Z) (vs : list Z)
| CRet (count : Z) (vs : list Z)
| CAbort.

(** What a step means to a user of the queue. *)
Inductive event : Set :=
| EPush (value : Z)
| EFull
| EPop (vs : list Z)
| EEmpty.

Definition prod_step (q : SPMCQueue) (pc : prod_pc)
    : outcome (SPMCQueue * prod_pc * option event) :=
  match pc with
  | PStart v => Done (q, PCheck v (writeIdx q), None)
  | PCheck v w =>
      if u64 (u64 (w + 1) - readIdxCache q) <=? q_capacity q
      then Done (q, PStore v w, None) else Done (q, PRefresh v w, None)
  | PRefresh v w =>
      let q := set_readIdxCache (readIdx q) q in
      if u64 (u64 (w + 1) - readIdxCache q) <=? q_capacity q
      then Done (q, PStore v w, None) else Done (q, PRet false, Some EFull)
  | PStore v w => q ← store_slot q w v; Done (q, PPublish v w, None)
  | PPublish v w => Done (set_writeIdx (u64 (w + 1)) q, PRet true, Some (EPush v))
  | PIdle | PRet _ => Done (q, pc, None)
  end.

Definition range_end (f : pop_call) (r c : Z) : Z :=
  match f with Pop => u64 (r + 1) | PopMany h => many_end r h c end.

Definition cons_step (q : SPMCQueue) (spurious : bool) (pc : cons_pc)
    : outcome (SPMCQueue * cons_pc * option event) :=
  match pc with
  | CStart f => Done (q, CCheck f (readIdx q), None)
  | CCheck f r =>
      if writeIdxCache q <=? r then Done (q, CRefresh f r, None)
      else Done (q, CReading f r (range_end f r (writeIdxCache q)) [], None)
  | CRefresh f r =>
      Done (q, CUpdate f r (writeIdx q), if r =? writeIdx q then Some EEmpty else None)
  | CUpdate f r w =>
      let q := set_writeIdxCache w q in
      if r =? w then Done (q, CRet 0 [], None)
      else if r <? w then Done (q, CReading f r (range_end f r w) [], None)
      else Done (q, CAbort, None)
  | CReading f r n vs =>
      if r + zlen vs <? n then
        v ← load_slot q (r + zlen vs); Done (q, CReading f r n (vs ++ [v]), None)
      else Done (q, CSwap f r n vs, None)
  | CSwap f r n vs =>
      if (readIdx q =? r) && negb spurious
      then Done (set_readIdx n q, CRet (u64 (n - r)) vs, Some (EPop vs))
      else Done (q, CStart f, None)
  | CIdle | CRet _ _ | CAbort => Done (q, pc, None)
  end.

Record system : Set := {
  sy_queue : SPMCQueue;
  sy_prod : prod_pc;
  sy_cons : list cons_pc;
}.

(** The indices count every push since the queue was made; the theorems stop
    short of 2^63 of them, and of pops asking for more than 2^63 values. *)
Definition IDX_BUDGET : Z := 9223372036854775808.
Definition call_ok (f : pop_call) : Prop :=
  match f with Pop => True | PopMany h => 0 < h ≤ IDX_BUDGET end.

(** One thread moves, or calls an operation. *)
Inductive spmc_step : system → option event → system → Prop :=
| step_push q pp cs v :
    pp = PIdle ∨ (∃ b, pp = PRet b) → writeIdx q + 1 < IDX_BUDGET →
    spmc_step {| sy_queue := q; sy_prod := pp; sy_cons := cs |} None
              {| sy_queue := q; sy_prod := PStart v; sy_cons := cs |}
| step_pop q pp cs i f c :
    cs !! i = Some c → c = CIdle ∨ (∃ n vs, c = CRet n vs) → call_ok f →
    spmc_step {| sy_queue := q; sy_prod := pp; sy_cons := cs |} None
              {| sy_queue := q; sy_prod := pp; sy_cons := <[i := CStart f]> cs |}
| step_prod q pp cs q' pp' e :
    prod_step q pp = Done (q', pp', e) →
    spmc_step {| sy_queue := q; sy_prod := pp; sy_cons := cs |} e
              {| sy_queue := q'; sy_prod := pp'; sy_cons := cs |}
| step_cons q pp cs i c spurious q' c' e :
    cs !! i = Some c → cons_step q spurious c = Done (q', c', e) →
    spmc_step {| sy_queue := q; sy_prod := pp; sy_cons := cs |} e
              {| sy_queue := q'; sy_prod := pp; sy_cons := <[i := c']> cs |}.

Inductive spmc_steps : system → list event → system → Prop :=
| steps_refl s : spmc_steps s [] s
| steps_step s es s' e s'' :
    spmc_steps s es s' → spmc_step s' e s'' →
    spmc_steps s (es ++ match e with Some x => [x] | None => [] end) s''.

(** A fresh queue with its producer and [n] consumers. *)
Definition spmc_start (q : SPMCQueue) (n : nat) : system :=
  {| sy_queue := q; sy_prod := PIdle; sy_cons := replicate n CIdle |}.

(** * The specification: a bounded first-in-first-out queue *)

Inductive fifo_step (cap : Z) : list Z → event → list Z → Prop :=
| fifo_push l v : zlen l < cap → fifo_step cap l (EPush v) (l ++ [v])
| fifo_full l : zlen l = cap → fifo_step cap l EFull l
| fifo_pop vs l : vs ≠ [] → fifo_step cap (vs ++ l) (EPop vs) l
| fifo_empty : fifo_step cap [] EEmpty [].

Inductive fifo_run (cap : Z) : list event → list Z → Prop :=
| fifo_start : fifo_run cap [] []
| fifo_next es l e l' :
    fifo_run cap es l → fifo_step cap l e l' → fifo_run cap (es ++ [e]) l'.

(** What went in, and what came out, in the order of the events. *)
Definition pushed (es : list event) : list Z :=
  mjoin (map (λ e, match e with EPush v => [v] | _ => [] end) es).
Definition popped (es : list event) : list Z :=
  mjoin (map (λ e, match e with EPop vs => vs | _ => [] end) es).

Lemma fifo_run_prefix cap es l : fifo_run cap es l → pushed es = popped es ++ l.
Proof.
  unfold pushed, popped. induction 1 as [|es l e l' _ IH Hs]; [done|].
  rewrite !map_app, !join_app, IH. destruct Hs; cbn; rewrite ?app_nil_r; try done.
  - by rewrite app_assoc.
  - by rewrite <- app_assoc.
Qed.

(** * The invariant *)

Definition slot_val (q : SPMCQueue) (i : Z) : Z := nth (slot_of q i) (slots q) 0.

(** The values in the queue, oldest first. *)
Definition contents (q : SPMCQueue) : list Z :=
  map (slot_val q) (seqZ (readIdx q) (writeIdx q - readIdx q)).

Record q_inv (q : SPMCQueue) : Prop := {
  qi_cap : ∃ k, 0 ≤ k ≤ 60 ∧ q_capacity q = 2 ^ k;
  qi_mask : mask q = q_capacity q - 1;
  qi_slots : zlen (slots q) = q_capacity q;
  qi_idx : 0 ≤ readIdx q ≤ writeIdx q ∧ writeIdx q ≤ readIdx q + q_capacity q;
  qi_rc : 0 ≤ readIdxCache q ≤ readIdx q;
  qi_wc : 0 ≤ writeIdxCache q ≤ writeIdx q;
  qi_budget : writeIdx q < IDX_BUDGET;
}.

Definition prod_inv (q : SPMCQueue) (pc : prod_pc) : Prop :=
  match pc with
  | PIdle | PRet _ => True
  | PStart _ => writeIdx q + 1 < IDX_BUDGET
  | PCheck _ w | PRefresh _ w => w = writeIdx q ∧ writeIdx q + 1 < IDX_BUDGET
  | PStore _ w =>
      w = writeIdx q ∧ writeIdx q + 1 < IDX_BUDGET ∧ w < readIdx q + q_capacity q
  | PPublish v w =>
      w = writeIdx q ∧ writeIdx q + 1 < IDX_BUDGET ∧ w < readIdx q + q_capacity q
      ∧ slot_val q w = v
  end.

(** While the read index has not moved, what a consumer has read is the front of
    the queue; once it has, the consumer's exchange fails. *)
Definition read_inv (q : SPMCQueue) (r n : Z) (vs : list Z) : Prop :=
  0 ≤ r ≤ readIdx q ∧ r < n ≤ writeIdx q ∧ zlen vs ≤ n - r
  ∧ (readIdx q = r → vs = map (slot_val q) (seqZ r (zlen vs))).

Definition cons_inv (q : SPMCQueue) (pc : cons_pc) : Prop :=
  match pc with
  | CIdle | CRet _ _ => True
  | CStart f => call_ok f
  | CCheck f r | CRefresh f r => call_ok f ∧ 0 ≤ r ≤ readIdx q
  | CUpdate f r w => call_ok f ∧ 0 ≤ r ≤ readIdx q ∧ r ≤ w ≤ writeIdx q
  | CReading f r n vs => call_ok f ∧ read_inv q r n vs
  | CSwap f r n vs => call_ok f ∧ read_inv q r n vs ∧ zlen vs = n - r
  | CAbort => False
  end.

Record spmc_inv (s : system) : Prop := {
  si_queue : q_inv (sy_queue s);
  si_prod : prod_inv (sy_queue s) (sy_prod s);
  si_cons : Forall (cons_inv (sy_queue s)) (sy_cons s);
}.

(** * Slots *)

Lemma cap_pos q : q_inv q → 0 < q_capacity q ≤ 1152921504606846976.
Proof.
  intros [(k & Hk & ->) _ _ _ _ _ _]. split; [apply Z.pow_pos_nonneg; lia|].
  change 1152921504606846976 with (2 ^ 60). apply Z.pow_le_mono_r; lia.
Qed.

Lemma slot_of_mod q i : q_inv q → slot_of q i = Z.to_nat (i mod q_capacity q).
Proof.
  intros [(k & Hk & Hc) Hm _ _ _ _ _]. unfold slot_of. rewrite Hm, Hc.
  replace (2 ^ k - 1) with (Z.ones k) by (rewrite Z.ones_equiv; lia).
  by rewrite Z.land_ones by lia.
Qed.

Lemma slot_bound q i : q_inv q → (slot_of q i < length (slots q))%nat.
Proof.
  intros Hq. rewrite (slot_of_mod _ _ Hq). pose proof (cap_pos q Hq).
  pose proof (qi_slots q Hq). pose proof (Z.mod_pos_bound i (q_capacity q)).
  unfold zlen in *. lia.
Qed.

Lemma load_slot_ok q i : q_inv q → load_slot q i = Done (slot_val q i).
Proof.
  intros Hq. unfold load_slot, slot_val.
  destruct (lookup_lt_is_Some_2 _ _ (slot_bound q i Hq)) as [v Hv].
  rewrite Hv. by rewrite (nth_lookup_Some _ _ _ _ Hv).
Qed.

Definition stored (q : SPMCQueue) (i v : Z) : SPMCQueue :=
  set_slots (<[slot_of q i := v]> (slots q)) q.

Lemma store_slot_ok q i v : q_inv q → store_slot q i v = Done (stored q i v).
Proof.
  intros Hq. unfold store_slot. by rewrite bool_decide_eq_true_2 by by apply slot_bound.
Qed.

Lemma stored_inv q i v : q_inv q → q_inv (stored q i v).
Proof.
  intros []. constructor; try done. unfold zlen in *. cbn. by rewrite length_insert.
Qed.

Lemma slot_val_stored q i v : q_inv q → slot_val (stored q i v) i = v.
Proof.
  intros Hq. unfold slot_val. change (slot_of (stored q i v) i) with (slot_of q i).
  apply nth_lookup_Some. cbn. apply list_lookup_insert_eq. by apply slot_bound.
Qed.

Lemma slot_val_stored_ne q i j v :
  q_inv q → j < i < j + q_capacity q → slot_val (stored q i v) j = slot_val q j.
Proof.
  intros Hq Hij. unfold slot_val. change (slot_of (stored q i v) j) with (slot_of q j).
  cbn. rewrite !nth_lookup. rewrite list_lookup_insert_ne; [done|].
  rewrite !(slot_of_mod _ _ Hq). pose proof (cap_pos q Hq).
  intros E. apply Z2Nat.inj in E; [|apply Z.mod_pos_bound; lia..].
  assert ((i - j) mod q_capacity q = 0) as E'.
  { rewrite Zminus_mod, E, Z.sub_diag. apply Z.mod_0_l; lia. }
  rewrite Z.mod_small in E' by lia. lia.
Qed.

(** * Steps keep the invariant and implement the specification *)

(** How the queue may change under the feet of a consumer. *)
Record q_evolves (q q' : SPMCQueue) : Prop := {
  qe_read : readIdx q ≤ readIdx q';
  qe_write : writeIdx q ≤ writeIdx q';
  qe_slots : readIdx q' = readIdx q →
    ∀ i, readIdx q ≤ i < writeIdx q → slot_val q' i = slot_val q i;
}.

Lemma map_seqZ_ext {A} (f g : Z → A) a n :
  (∀ i, a ≤ i < a + n → f i = g i) → map f (seqZ a n) = map g (seqZ a n).
Proof.
  intros H. apply map_ext_in. intros i Hi. apply H.
  rewrite <- list_elem_of_In in Hi. apply elem_of_seqZ in Hi. lia.
Qed.

Lemma read_inv_evolves q q' r n vs : q_evolves q q' → read_inv q r n vs → read_inv q' r n vs.
Proof.
  intros [H1 H2 H3] (Hr & Hn & Hl & Hv). repeat split; try lia.
  intros E. assert (readIdx q = r) as Er by lia. etrans; [apply (Hv Er)|]. apply map_seqZ_ext.
  intros i Hi. symmetry. apply H3; lia.
Qed.

Lemma cons_inv_evolves q q' c : q_evolves q q' → cons_inv q c → cons_inv q' c.
Proof.
  intros He. pose proof He as [H1 H2 _].
  destruct c; cbn; try done; try (intros; intuition lia).
  - intros [? ?]. split; [done|]. by eapply read_inv_evolves.
  - intros (? & ? & ?). split_and!; try done. by eapply read_inv_evolves.
Qed.

Lemma contents_evolves q q' :
  q_evolves q q' → readIdx q' = readIdx q → writeIdx q' = writeIdx q →
  contents q' = contents q.
Proof.
  intros [_ _ H] E1 E2. unfold contents. rewrite E1, E2. apply map_seqZ_ext.
  intros i Hi. apply (H E1). lia.
Qed.

Lemma evolves_stored q v :
  q_inv q → writeIdx q < readIdx q + q_capacity q → q_evolves q (stored q (writeIdx q) v).
Proof.
  intros Hq Hw. constructor; [done|done|]. intros _ i Hi.
  apply slot_val_stored_ne; [done|]. lia.
Qed.

Lemma contents_published q v :
  q_inv q → slot_val q (writeIdx q) = v →
  contents (set_writeIdx (writeIdx q + 1) q) = contents q ++ [v].
Proof.
  intros Hq Hv. pose proof (qi_idx q Hq). unfold contents. cbn.
  replace (writeIdx q + 1 - readIdx q) with ((writeIdx q - readIdx q) + 1) by lia.
  rewrite seqZ_app, map_app by lia. f_equal.
  replace (readIdx q + (writeIdx q - readIdx q)) with (writeIdx q) by lia.
  rewrite (seqZ_cons _ 1) by lia. cbn [map]. f_equal. exact Hv.
Qed.

Lemma contents_popped q n :
  q_inv q → readIdx q ≤ n ≤ writeIdx q →
  contents q = map (slot_val q) (seqZ (readIdx q) (n - readIdx q))
               ++ contents (set_readIdx n q).
Proof.
  intros Hq Hn. unfold contents. cbn.
  replace (writeIdx q - readIdx q) with ((n - readIdx q) + (writeIdx q - n)) by lia.
  rewrite seqZ_app, map_app by lia. f_equal. f_equal. f_equal. lia.
Qed.

Lemma contents_len q : q_inv q → zlen (contents q) = writeIdx q - readIdx q.
Proof.
  intros Hq. pose proof (qi_idx q Hq). unfold contents, zlen.
  rewrite length_map, length_seqZ. lia.
Qed.

(** What a step does to the list of values, by its event. *)
Definition abstracts (q : SPMCQueue) (e : option event) (q' : SPMCQueue) : Prop :=
  match e with
  | None => contents q' = contents q
  | Some x => fifo_step (q_capacity q) (contents q) x (contents q')
  end.

Lemma newsize q w : q_inv q → w + 1 < IDX_BUDGET → readIdxCache q ≤ w + 1 →
  u64 (u64 (w + 1) - readIdxCache q) = w + 1 - readIdxCache q.
Proof.
  unfold IDX_BUDGET. intros Hq H1 H2. pose proof (qi_rc q Hq).
  rewrite (u64_small (w + 1)) by lia. by rewrite u64_small by lia.
Qed.

Lemma prod_step_ok q pc :
  q_inv q → prod_inv q pc →
  succeeds (λ x, q_inv x.1.1 ∧ prod_inv x.1.1 x.1.2 ∧ q_evolves q x.1.1
                 ∧ q_capacity x.1.1 = q_capacity q ∧ abstracts q x.2 x.1.1)
    (prod_step q pc).
Proof.
  intros Hq Hp. pose proof (qi_idx q Hq). pose proof (qi_rc q Hq). pose proof (qi_budget q Hq).
  assert (q_evolves q q) as Hself by by constructor.
  destruct pc as [|v|v w|v w|v w|v w|b]; cbn [prod_step]; try done.
  - destruct Hp as [-> Hb]. rewrite newsize by (done || lia).
    case_match; zbool; cbn; [|done]. split_and!; try done; lia.
  - destruct Hp as [-> Hb]. cbn [readIdxCache set_readIdxCache].
    assert (q_inv (set_readIdxCache (readIdx q) q)) as Hq'.
    { destruct Hq. constructor; cbn; try done; lia. }
    pose proof (newsize _ (writeIdx q) Hq' Hb) as Hn. cbn in Hn. rewrite Hn by lia.
    case_match; zbool; cbn; split_and!; try done; try (cbn in *; lia); try (by constructor).
    unfold abstracts. apply (fifo_full (q_capacity q) (contents q)).
    rewrite contents_len by done. cbn in *. lia.
  - destruct Hp as (-> & Hb & Hw). rewrite store_slot_ok by done. cbn.
    pose proof (evolves_stored q v Hq Hw) as He.
    split_and!; try done; [by apply stored_inv|by apply slot_val_stored|by apply contents_evolves].
  - destruct Hp as (-> & Hb & Hw & Hv). unfold IDX_BUDGET in *. rewrite u64_small by lia. cbn.
    split_and!; try done.
    + destruct Hq. constructor; cbn; try done; unfold IDX_BUDGET; lia.
    + constructor; cbn; [lia|lia|done].
    + rewrite (contents_published q v Hq Hv). constructor. rewrite contents_len by done. lia.
Qed.

Lemma range_end_ok f r c :
  call_ok f → 0 ≤ r < c → c < IDX_BUDGET → r < range_end f r c ≤ c.
Proof.
  unfold call_ok, range_end, many_end, IDX_BUDGET. intros Hf Hr Hc.
  destruct f; rewrite u64_small by lia; [lia|]. case_match; zbool; lia.
Qed.

Lemma read_inv_nil q r n : 0 ≤ r ≤ readIdx q → r < n ≤ writeIdx q → read_inv q r n [].
Proof.
  intros Hr Hn. repeat split; try lia. change (zlen []) with 0. lia.
Qed.

Lemma cons_step_ok q b pc :
  q_inv q → cons_inv q pc →
  succeeds (λ x, q_inv x.1.1 ∧ cons_inv x.1.1 x.1.2 ∧ q_evolves q x.1.1
                 ∧ q_capacity x.1.1 = q_capacity q ∧ writeIdx x.1.1 = writeIdx q
                 ∧ (∀ i, slot_val x.1.1 i = slot_val q i) ∧ abstracts q x.2 x.1.1)
    (cons_step q b pc).
Proof.
  intros Hq Hp. pose proof (qi_idx q Hq). pose proof (qi_wc q Hq). pose proof (qi_budget q Hq).
  assert (q_evolves q q) as Hself by by constructor.
  destruct pc as [|f|f r|f r|f r w|f r n vs|f r n vs|n vs|]; cbn [cons_step]; try done.
  - cbn. split_and!; try done; lia.
  - destruct Hp as [Hf Hr]. case_match; zbool; cbn; [split_and!; try done; lia|].
    destruct (range_end_ok f r (writeIdxCache q)); [done|lia|lia|].
    split_and!; try done; try lia. apply read_inv_nil; lia.
  - destruct Hp as [Hf Hr]. case_match; zbool; cbn; split_and!; try done; try lia.
    assert (readIdx q = writeIdx q) as E by lia. unfold contents. rewrite E, Z.sub_diag.
    constructor.
  - destruct Hp as (Hf & Hr & Hw).
    assert (q_inv (set_writeIdxCache w q)) as Hq' by (destruct Hq; constructor; cbn; try done; lia).
    case_match; zbool; cbn; [by split_and!|].
    case_match; zbool; [|lia]. destruct (range_end_ok f r w); [done|lia|lia|].
    cbn. split_and!; try done. apply read_inv_nil; cbn; lia.
  - destruct Hp as (Hf & Hr & Hn & Hl & Hv). case_match; zbool.
    + rewrite load_slot_ok by done. cbn. pose proof (zlen_nonneg vs).
      split_and!; try done. unfold read_inv. rewrite zlen_app. change (zlen [_]) with 1.
      repeat split; try lia. intros E. rewrite (Hv E) at 1.
      by rewrite seqZ_app, map_app by lia.
    + cbn. split_and!; try done; lia.
  - destruct Hp as (Hf & (Hr & Hn & Hl & Hv) & Hfull). case_match eqn:E; zbool; [|done].
    cbn. split_and!; try done.
    + destruct Hq. constructor; cbn; try done; lia.
    + constructor; cbn; lia.
    + rewrite (contents_popped q n Hq) by lia. rewrite (Hv ltac:(done)), Hfull.
      replace (readIdx q) with r by lia. constructor.
      intros Hnil. apply (f_equal length) in Hnil.
      rewrite length_map, length_seqZ in Hnil. cbn in Hnil. lia.
Qed.

Lemma evolves_same_slots q q' :
  readIdx q ≤ readIdx q' → writeIdx q = writeIdx q' → (∀ i, slot_val q' i = slot_val q i) →
  q_evolves q q'.
Proof. intros H1 H2 H3. constructor; [done|lia|auto]. Qed.

Lemma prod_inv_evolves q q' pc :
  prod_inv q pc → writeIdx q' = writeIdx q → readIdx q ≤ readIdx q' →
  q_capacity q' = q_capacity q → (∀ i, slot_val q' i = slot_val q i) → prod_inv q' pc.
Proof.
  intros Hp E1 E2 E3 E4. destruct pc; cbn in *; rewrite ?E1, ?E3, ?E4; try done;
    intuition lia.
Qed.

Lemma spmc_step_ok s e s' :
  spmc_inv s → spmc_step s e s' →
  spmc_inv s' ∧ q_capacity (sy_queue s') = q_capacity (sy_queue s) ∧
  abstracts (sy_queue s) e (sy_queue s').
Proof.
  intros [Hq Hp Hc] Hs. destruct Hs as [q pp cs v _ Hb|q pp cs i f c Hi _ Hf
    |q pp cs q' pp' e Hs|q pp cs i c b q' c' e Hi Hs]; cbn in *.
  - split; [by constructor|done].
  - split; [|done]. constructor; [done|done|]. by apply Forall_insert.
  - pose proof (prod_step_ok q pp Hq Hp) as H. rewrite Hs in H.
    destruct H as (Hq' & Hp' & He & Ecap & Ha). cbn in *.
    split; [|done]. constructor; [done|done|]. eapply Forall_impl; [exact Hc|].
    intros c. by apply cons_inv_evolves.
  - rewrite Forall_lookup in Hc.
    pose proof (cons_step_ok q b c Hq (Hc _ _ Hi)) as H. rewrite Hs in H.
    destruct H as (Hq' & Hc' & He & Ecap & Ew & Esl & Ha). cbn in *.
    split; [|done]. constructor; cbn; [done| |].
    + eapply prod_inv_evolves; [exact Hp|done|apply He|done|done].
    + apply Forall_insert; [|done]. apply Forall_lookup. intros j d Hj.
      eapply cons_inv_evolves; [exact He|]. by eapply Hc.
Qed.

Lemma spmc_steps_ok s es s' :
  spmc_inv s → contents (sy_queue s) = [] → spmc_steps s es s' →
  spmc_inv s' ∧ q_capacity (sy_queue s') = q_capacity (sy_queue s) ∧
  fifo_run (q_capacity (sy_queue s)) es (contents (sy_queue s')).
Proof.
  intros Hi H0 Hs. induction Hs as [s|s es s1 e s2 _ IH Hst].
  - rewrite H0. split; [done|]. split; [done|constructor].
  - destruct (IH Hi H0) as (Hi1 & Hc1 & Hr1).
    destruct (spmc_step_ok _ _ _ Hi1 Hst) as (Hi2 & Hc2 & Ha).
    split; [done|]. split; [congruence|]. destruct e as [x|]; cbn in Ha.
    + eapply fifo_next; [exact Hr1|]. by rewrite <- Hc1.
    + by rewrite app_nil_r, Ha.
Qed.

(** * Construction *)

Lemma land_pred_pow2 c : 0 < c → Z.land c (c - 1) = 0 → c = 2 ^ Z.log2 c.
Proof.
  intros Hc H. pose proof (Z.log2_spec c Hc) as [H1 H2].
  destruct (decide (c = 2 ^ Z.log2 c)) as [|Hne]; [done|exfalso].
  assert (0 < 2 ^ Z.log2 c) by (apply Z.pow_pos_nonneg; [lia|apply Z.log2_nonneg]).
  assert (Z.testbit (Z.land c (c - 1)) (Z.log2 c) = true) as Hb.
  { rewrite Z.land_spec, Z.bit_log2 by done.
    replace (Z.log2 c) with (Z.log2 (c - 1)); [apply Z.bit_log2; lia|].
    apply Z.log2_unique; [apply Z.log2_nonneg|lia]. }
  by rewrite H, Z.bits_0 in Hb.
Qed.

Lemma pow2_land_pred k : 0 ≤ k → Z.land (2 ^ k) (2 ^ k - 1) = 0.
Proof.
  intros Hk. replace (2 ^ k - 1) with (Z.ones k) by (rewrite Z.ones_equiv; lia).
  rewrite Z.land_ones by done. by apply Z.mod_same, Z.pow_nonzero.
Qed.

Lemma round_up_64 size :
  0 ≤ size → size + 64 < 18446744073709551616 →
  round_up_size size CACHE_LINE_SIZE = (size + 63) / 64 * 64.
Proof.
  intros H1 H2. unfold round_up_size, CACHE_LINE_SIZE.
  rewrite (u64_small (size + 64)), (u64_small (size + 64 - 1)) by lia.
  replace (size + 64 - 1) with (size + 63) by lia.
  change (u64 (Z.lnot (u64 (64 - 1)))) with (Z.land (Z.ones 64) (Z.lnot (Z.ones 6))).
  rewrite Z.land_assoc, (Z.land_ones (size + 63) 64) by lia.
  rewrite Z.mod_small by (cbn; lia).
  rewrite <- Z.ldiff_land, Z.ldiff_ones_r by lia.
  rewrite Z.shiftl_mul_pow2, Z.shiftr_div_pow2 by lia. done.
Qed.

(** [malloc] gives a block of the size asked for. *)
Definition heap_sized (heap : Z → option (list Z)) : Prop :=
  ∀ n b, heap n = Some b → SIZEOF_PTR * zlen b ≤ n < SIZEOF_PTR * zlen b + SIZEOF_PTR.

Lemma create_queue_ok heap k :
  0 ≤ k ≤ 60 → heap_sized heap →
  create_queue heap (2 ^ k) =
    match heap ((SIZEOF_SPMCQueue + 8 * 2 ^ k + 63) / 64 * 64) with
    | None => None
    | Some b => Some {| q_capacity := 2 ^ k; mask := 2 ^ k - 1; writeIdx := 0;
                        readIdxCache := 0; readIdx := 0; writeIdxCache := 0;
                        slots := take (Z.to_nat (2 ^ k)) b |}
    end.
Proof.
  intros Hk Hh. unfold create_queue.
  assert (0 < 2 ^ k) by (apply Z.pow_pos_nonneg; lia).
  assert (2 ^ k ≤ 1152921504606846976).
  { change 1152921504606846976 with (2 ^ 60). apply Z.pow_le_mono_r; lia. }
  unfold SIZE_MAX, SIZEOF_SPMCQueue, SIZEOF_PTR, U64_MAX, spmc_aligned_alloc in *.
  rewrite (u64_small (2 ^ k - 1)), pow2_land_pred by lia. zdec. cbn [negb].
  rewrite (proj2 (Z.ltb_ge _ _)) by zlia.
  rewrite (u64_small (8 * 2 ^ k)), (u64_small (320 + 8 * 2 ^ k)) by lia.
  by rewrite round_up_64 by lia.
Qed.

Lemma create_queue_pow2 heap c q :
  0 ≤ c ≤ SIZE_MAX → create_queue heap c = Some q → ∃ k, 0 ≤ k ≤ 60 ∧ c = 2 ^ k.
Proof.
  unfold SIZE_MAX, U64_MAX. intros Hc H. unfold create_queue in H.
  do 3 (case_match; [done|]). zbool. rewrite u64_small in * by lia.
  unfold SIZE_MAX, SIZEOF_SPMCQueue, SIZEOF_PTR, U64_MAX in *.
  exists (Z.log2 c). split; [|by apply land_pred_pow2; [lia|]].
  split; [apply Z.log2_nonneg|]. apply Z.lt_succ_r. apply Z.log2_lt_pow2; [lia|].
  change (2 ^ Z.succ 60) with 2305843009213693952. zlia.
Qed.

Lemma create_queue_inv heap c q :
  0 ≤ c ≤ SIZE_MAX → heap_sized heap → create_queue heap c = Some q →
  q_inv q ∧ contents q = [] ∧ q_capacity q = c.
Proof.
  intros Hc Hh H. destruct (create_queue_pow2 _ _ _ Hc H) as (k & Hk & ->).
  rewrite create_queue_ok in H by done. case_match eqn:Eh; [|done]. injection H as <-.
  split; [|done]. apply Hh in Eh. assert (0 < 2 ^ k) by (apply Z.pow_pos_nonneg; lia).
  constructor; cbn; try done; try lia; [by exists k|].
  unfold zlen in *. rewrite length_take. unfold SIZEOF_SPMCQueue, SIZEOF_PTR in *. zlia.
Qed.

(** * The sequential operations *)

Lemma push_stored q v :
  q_inv q → writeIdx q + 1 < IDX_BUDGET → writeIdx q < readIdx q + q_capacity q →
  let q' := set_writeIdx (writeIdx q + 1) (stored q (writeIdx q) v) in
  q_inv q' ∧ contents q' = contents q ++ [v].
Proof.
  intros Hq Hb Hlt. pose proof (stored_inv q (writeIdx q) v Hq) as Hs. cbn zeta. split.
  - destruct Hs. constructor; cbn in *; try done; lia.
  - rewrite <- (contents_evolves q (stored q (writeIdx q) v)); [|by apply evolves_stored|done|done].
    apply (contents_published (stored q (writeIdx q) v)); [done|]. by apply slot_val_stored.
Qed.

Lemma refresh_cache_inv q : q_inv q → q_inv (set_readIdxCache (readIdx q) q).
Proof. intros []. constructor; cbn; try done; lia. Qed.

Lemma try_push_ok q v :
  q_inv q → writeIdx q + 1 < IDX_BUDGET →
  ∃ b q', try_push q v = Done (b, q') ∧ q_inv q' ∧ q_capacity q' = q_capacity q ∧
    if b then zlen (contents q) < q_capacity q ∧ contents q' = contents q ++ [v]
    else zlen (contents q) = q_capacity q ∧ contents q' = contents q.
Proof.
  intros Hq Hb. pose proof (qi_idx q Hq). pose proof (qi_rc q Hq).
  pose proof (refresh_cache_inv q Hq) as Hq1. rewrite contents_len by done.
  pose proof (newsize _ (writeIdx q) Hq1 Hb) as Hn1. cbn in Hn1.
  unfold try_push. cbn [readIdxCache set_readIdxCache q_capacity].
  rewrite newsize, Hn1 by (done || lia).
  assert (u64 (writeIdx q + 1) = writeIdx q + 1) as -> by (unfold IDX_BUDGET in *; by apply u64_small; lia).
  case_match; zbool; [|case_match; zbool].
  - rewrite store_slot_ok by done. destruct (push_stored q v) as [Hp1 Hp2]; [done|done|lia|].
    eexists true, _. split; [done|]. split; [exact Hp1|]. split; [done|]. split; [lia|exact Hp2].
  - rewrite store_slot_ok by done.
    destruct (push_stored (set_readIdxCache (readIdx q) q) v) as [H1' H2']; [done|done|cbn; lia|].
    eexists true, _. split; [done|]. split; [exact H1'|]. split; [done|]. split; [lia|exact H2'].
  - eexists false, _. split; [done|]. split; [done|]. split; [done|]. split; [lia|done].
Qed.

Lemma refresh_ok q :
  q_inv q →
  ∃ q' o, refresh_writeIdx q (readIdx q) = Done (q', o) ∧ q_inv q' ∧
    q_capacity q' = q_capacity q ∧ readIdx q' = readIdx q ∧ contents q' = contents q ∧
    (∀ i, slot_val q' i = slot_val q i) ∧
    match o with
    | None => contents q = []
    | Some c => readIdx q < c ≤ writeIdx q' ∧ writeIdx q' = writeIdx q
    end.
Proof.
  intros Hq. pose proof (qi_idx q Hq). pose proof (qi_wc q Hq).
  unfold refresh_writeIdx. case_match; zbool.
  - assert (q_inv (set_writeIdxCache (writeIdx q) q)) as Hq'.
    { destruct Hq. constructor; cbn; try done; lia. }
    case_match; zbool.
    + eexists _, None. do 6 (split; [done|]). unfold contents. by rewrite H2, Z.sub_diag.
    + rewrite bind_assert_true by (zdec; done).
      eexists _, (Some (writeIdx q)). do 6 (split; [done|]). cbn. lia.
  - eexists _, (Some (writeIdxCache q)). do 6 (split; [done|]). cbn. lia.
Qed.

Lemma advance_ok q n :
  q_inv q → readIdx q ≤ n ≤ writeIdx q → q_inv (set_readIdx n q).
Proof. intros [] Hn. constructor; cbn; try done; lia. Qed.

Lemma try_pop_ok spurious q :
  q_inv q →
  ∃ o q', try_pop spurious q = Done (o, q') ∧ q_inv q' ∧ q_capacity q' = q_capacity q ∧
    match o with
    | None => contents q = [] ∧ contents q' = []
    | Some v => contents q = v :: contents q'
    end.
Proof.
  revert q. induction spurious as [|n IH]; intros q Hq; cbn [try_pop];
    destruct (refresh_ok q Hq) as (q1 & o & -> & Hq1 & Ec & Er & Econt & Es & Ho);
    cbn [mbind outcome_bind];
    (destruct o as [c|]; [|exists None, q1; rewrite Econt; by split_and!]);
    rewrite load_slot_ok by done; cbn [mbind outcome_bind].
  - destruct Ho as [Hc Ew]. pose proof (qi_budget q Hq). pose proof (qi_idx q Hq).
    unfold IDX_BUDGET in *. rewrite u64_small by lia.
    exists (Some (slot_val q1 (readIdx q))). eexists. split; [done|].
    split; [by apply advance_ok; [done|lia]|]. split; [done|].
    rewrite <- Econt, (contents_popped q1 (readIdx q + 1)) by (done || lia).
    rewrite Er. replace (readIdx q + 1 - readIdx q) with 1 by lia. done.
  - destruct (IH q1 Hq1) as (o & q' & H1 & H2 & H3 & H4). exists o, q'.
    rewrite <- Econt. split_and!; try done. congruence.
Qed.

Lemma load_slots_ok q i n :
  q_inv q → 0 ≤ i → i + Z.of_nat n < IDX_BUDGET →
  load_slots q i n = Done (map (slot_val q) (seqZ i (Z.of_nat n))).
Proof.
  intros Hq. revert i. induction n as [|n IH]; intros i Hi Hb; [done|].
  cbn [load_slots]. rewrite load_slot_ok by done. cbn [mbind outcome_bind].
  unfold IDX_BUDGET in *. rewrite u64_small, IH by lia. cbn [mbind outcome_bind].
  rewrite (seqZ_cons i) by lia. cbn [map]. do 3 f_equal. f_equal; lia.
Qed.

Lemma try_pop_many_ok spurious q howmany :
  q_inv q → 0 < howmany ≤ IDX_BUDGET →
  ∃ vs q', try_pop_many spurious q howmany = Done (zlen vs, vs, q') ∧ q_inv q' ∧
    q_capacity q' = q_capacity q ∧ contents q = vs ++ contents q' ∧
    zlen vs ≤ howmany ∧ (vs = [] → contents q = []).
Proof.
  intros Hq Hh. revert q Hq. induction spurious as [|n IH]; intros q Hq; cbn [try_pop_many];
    pose proof (qi_budget q Hq) as Hb; pose proof (qi_idx q Hq);
    destruct (refresh_ok q Hq) as (q1 & o & -> & Hq1 & Ec & Er & Econt & Es & Ho);
    cbn [mbind outcome_bind];
    (destruct o as [c|];
     [|exists [], q1; rewrite Econt; change (zlen []) with 0; split_and!; (done || lia)]);
    destruct Ho as [Hc Ew];
    pose proof (range_end_ok (PopMany howmany) (readIdx q) c Hh ltac:(lia) ltac:(lia)) as Hr;
    cbn [range_end] in Hr; rewrite load_slots_ok by (done || lia); cbn [mbind outcome_bind].
  - assert (many_end (readIdx q) howmany c - readIdx q ≤ howmany) as Hle.
    { unfold many_end. unfold IDX_BUDGET in *. clear Hr. rewrite u64_small by lia. case_match; zbool; lia. }
    set (n := many_end (readIdx q) howmany c) in *.
    set (vs := map (slot_val q1) (seqZ (readIdx q) (Z.of_nat (Z.to_nat (n - readIdx q))))).
    assert (zlen vs = n - readIdx q) as Hl.
    { unfold zlen, vs. rewrite length_map, length_seqZ. lia. }
    exists vs. eexists. split; [rewrite u64_small, Hl by (unfold IDX_BUDGET in *; lia); done|].
    split; [apply advance_ok; [done|lia]|]. split; [done|]. split; [|split].
    + rewrite <- Econt, (contents_popped q1 n) by (done || lia). unfold vs.
      rewrite Z2Nat.id, Er by lia. done.
    + rewrite Hl. exact Hle.
    + intros E. rewrite E in Hl. change (zlen []) with 0 in Hl. lia.
  - destruct (IH q1 Hq1) as (vs & q' & H1 & H2 & H3 & H4 & H5 & H6). exists vs, q'.
    rewrite <- Econt. split_and!; try done. congruence.
Qed.

Lemma spmc_start_inv q n : q_inv q → spmc_inv (spmc_start q n).
Proof. intros Hq. constructor; [done|done|]. by apply Forall_replicate. Qed.

(** * Properties *)

(** C6: under any interleaving of one producer and any number of consumers the
    ring buffer is a bounded first-in-first-out queue. From a queue that
    [create_queue] made, every sequence of steps linearises: its pushes, pops,
    full and empty answers, each at one step of the call that gives it, form a
    run of the specification, and the values popped, in order, are those pushed,
    each once, short of what is still in the queue. The [assert]s never fire. *)
Theorem spmc_refines_fifo (heap : Z → option (list Z)) (c : Z) (q : SPMCQueue) (n : nat)
    (es : list event) (s : system)
    (Hheap : heap_sized heap) (Hc : 0 ≤ c ≤ SIZE_MAX)
    (Hq : create_queue heap c = Some q) (Hs : spmc_steps (spmc_start q n) es s) :
  fifo_run c es (contents (sy_queue s))
  ∧ pushed es = popped es ++ contents (sy_queue s)
  ∧ zlen (contents (sy_queue s)) ≤ c
  ∧ Forall (λ pc, pc ≠ CAbort) (sy_cons s).
Proof.
  destruct (create_queue_inv _ _ _ Hc Hheap Hq) as (Hi & H0 & Ec).
  destruct (spmc_steps_ok _ _ _ (spmc_start_inv q n Hi) H0 Hs)
    as ([Hq' _ Hcs] & Ecap & Hr).
  cbn in *. rewrite Ec in *. split; [done|]. split; [by eapply fifo_run_prefix|].
  split; [rewrite contents_len by done; pose proof (qi_idx _ Hq'); lia|].
  eapply Forall_impl; [exact Hcs|]. by intros [] H.
Qed.

(** No thread of the queue is ever stuck. In every reachable state the
    producer and each consumer can take their next step: no slot outside the
    array is read or written, and a consumer that is about to swap the read
    index holds exactly the front of the queue if the index has not moved. *)
Theorem spmc_no_fault (heap : Z → option (list Z)) (c : Z) (q : SPMCQueue) (n : nat)
    (es : list event) (s : system)
    (Hheap : heap_sized heap) (Hc : 0 ≤ c ≤ SIZE_MAX)
    (Hq : create_queue heap c = Some q) (Hs : spmc_steps (spmc_start q n) es s) :
  (∃ x, prod_step (sy_queue s) (sy_prod s) = Done x)
  ∧ (∀ i pc b, sy_cons s !! i = Some pc → ∃ x, cons_step (sy_queue s) b pc = Done x)
  ∧ (∀ i f r m vs, sy_cons s !! i = Some (CSwap f r m vs) → readIdx (sy_queue s) = r →
       ∃ rest, contents (sy_queue s) = vs ++ rest ∧ zlen vs = m - r ∧ vs ≠ []).
Proof.
  destruct (create_queue_inv _ _ _ Hc Hheap Hq) as (Hi & H0 & Ec).
  destruct (spmc_steps_ok _ _ _ (spmc_start_inv q n Hi) H0 Hs)
    as ([Hq' Hp Hcs] & _ & _).
  rewrite Forall_lookup in Hcs. split; [|split].
  - pose proof (prod_step_ok _ _ Hq' Hp) as H. apply succeeds_done in H as (x & H & _).
    by exists x.
  - intros i pc b Hl. pose proof (cons_step_ok _ b _ Hq' (Hcs _ _ Hl)) as H.
    apply succeeds_done in H as (x & H & _). by exists x.
  - intros i f r m vs Hl Er. destruct (Hcs _ _ Hl) as (_ & (Hr & Hm & _ & Hv) & Hfull).
    eexists. split; [|split; [done|]].
    + rewrite (contents_popped _ m Hq') by lia. f_equal. rewrite (Hv Er), Hfull.
      by rewrite <- Er.
    + intros ->. change (zlen []) with 0 in Hfull. lia.
Qed.

(** Called one at a time, the operations are those of a bounded queue: a
    push appends unless the queue is full, a pop takes the oldest value unless
    the queue is empty, and popping many takes a run of the oldest values, no
    more than asked for and at least one unless the queue is empty, whatever
    number of times the weak exchange fails. *)
Theorem spmc_sequential (q : SPMCQueue) (v howmany : Z) (spurious : nat)
    (Hq : q_inv q) (Hb : writeIdx q + 1 < IDX_BUDGET) (Hh : 0 < howmany ≤ IDX_BUDGET) :
  (∃ b q', try_push q v = Done (b, q') ∧ q_inv q' ∧
     if b then zlen (contents q) < q_capacity q ∧ contents q' = contents q ++ [v]
     else zlen (contents q) = q_capacity q ∧ contents q' = contents q)
  ∧ (∃ o q', try_pop spurious q = Done (o, q') ∧ q_inv q' ∧
       match o with
       | None => contents q = [] ∧ contents q' = []
       | Some x => contents q = x :: contents q'
       end)
  ∧ (∃ vs q', try_pop_many spurious q howmany = Done (zlen vs, vs, q') ∧ q_inv q' ∧
       contents q = vs ++ contents q' ∧ zlen vs ≤ howmany ∧ (vs = [] → contents q = [])).
Proof.
  split; [|split].
  - destruct (try_push_ok q v Hq Hb) as (b & q' & H1 & H2 & _ & H3). by exists b, q'.
  - destruct (try_pop_ok spurious q Hq) as (o & q' & H1 & H2 & _ & H3). by exists o, q'.
  - destruct (try_pop_many_ok spurious q howmany Hq Hh) as (vs & q' & H1 & H2 & _ & H3).
    by exists vs, q'.
Qed.

(** A queue is made exactly for the powers of two that fit the address
    space, provided memory is there; it is then empty, its mask is the capacity
    less one, and the block asked for is the struct and the slots rounded up to
    a whole number of cache lines, without overflow. *)
Theorem create_queue_spec (heap : Z → option (list Z)) (c : Z)
    (Hheap : heap_sized heap) (Hc : 0 ≤ c ≤ SIZE_MAX)
    (Hmem : ∀ n, 0 ≤ n ≤ SIZE_MAX → is_Some (heap n)) :
  is_Some (create_queue heap c) ↔ ∃ k, 0 ≤ k ≤ 60 ∧ c = 2 ^ k.
Proof.
  split.
  - intros [q Hq]. by apply (create_queue_pow2 heap c q).
  - intros (k & Hk & ->). rewrite create_queue_ok by done.
    assert (0 < 2 ^ k) by (apply Z.pow_pos_nonneg; lia).
    assert (2 ^ k ≤ 2 ^ 60) by (apply Z.pow_le_mono_r; lia).
    change (2 ^ 60) with 1152921504606846976 in *.
    destruct (Hmem ((SIZEOF_SPMCQueue + 8 * 2 ^ k + 63) / 64 * 64)) as [b ->]; [|done].
    unfold SIZE_MAX, U64_MAX, SIZEOF_SPMCQueue. zlia.
Qed.

(** * Examples *)

Definition sample_heap (n : Z) : option (list Z) :=
  if n =? 384 then Some (replicate 48 0) else None.

Lemma sample_heap_sized : heap_sized sample_heap.
Proof.
  intros n b. unfold sample_heap. case_match; [|done]. zbool. intros [= <-]. subst.
  unfold zlen, SIZEOF_PTR. cbn. lia.
Qed.

Definition sample_queue : SPMCQueue :=
  {| q_capacity := 2; mask := 1; writeIdx := 0; readIdxCache := 0; readIdx := 0;
     writeIdxCache := 0; slots := [0; 0] |}.

Lemma sample_queue_made : create_queue sample_heap 2 = Some sample_queue.
Proof. vm_compute. reflexivity. Qed.

Lemma sample_queue_inv : q_inv sample_queue.
Proof. apply (create_queue_inv sample_heap 2); [done|apply sample_heap_sized|done]. Qed.

(** A push and, interleaved with it, a pop that finds the queue empty. *)
Lemma sample_steps :
  spmc_steps (spmc_start sample_queue 1) [EEmpty; EPush 7]
    {| sy_queue := {| q_capacity := 2; mask := 1; writeIdx := 1; readIdxCache := 0;
                      readIdx := 0; writeIdxCache := 0; slots := [7; 0] |};
       sy_prod := PRet true; sy_cons := [CUpdate Pop 0 0] |}.
Proof.
  pose proof (steps_refl (spmc_start sample_queue 1)) as H.
  eapply steps_step in H; [|apply (step_push _ _ _ 7); [by left|done]].
  eapply steps_step in H; [|by apply (step_pop _ _ _ 0 Pop CIdle); [|left|]].
  eapply steps_step in H; [|by apply step_prod].
  do 3 (eapply steps_step in H; [|by eapply (step_cons _ _ _ 0 _ false)]).
  do 3 (eapply steps_step in H; [|by apply step_prod]).
  exact H.
Qed.

Lemma spmc_refines_fifo_witness :
  fifo_run 2 [EEmpty; EPush 7] [7] ∧ pushed [EEmpty; EPush 7] = popped [EEmpty; EPush 7] ++ [7].
Proof.
  destruct (spmc_refines_fifo sample_heap 2 sample_queue 1 _ _ sample_heap_sized ltac:(done)
    sample_queue_made sample_steps) as (H1 & H2 & _). by split.
Defined.

Lemma spmc_no_fault_witness :
  ∃ x, cons_step {| q_capacity := 2; mask := 1; writeIdx := 1; readIdxCache := 0;
                    readIdx := 0; writeIdxCache := 0; slots := [7; 0] |} true (CUpdate Pop 0 0)
       = Done x.
Proof.
  destruct (spmc_no_fault sample_heap 2 sample_queue 1 _ _ sample_heap_sized ltac:(done)
    sample_queue_made sample_steps) as (_ & H & _). by apply (H 0%nat).
Defined.

Definition full_heap (n : Z) : option (list Z) :=
  if n <? 0 then None else Some (replicate (Z.to_nat (n / 8)) 0).

Lemma create_queue_spec_witness : is_Some (create_queue full_heap 64).
Proof.
  apply (create_queue_spec full_heap 64).
  - intros n b. unfold full_heap. case_match; [done|]. zbool. intros [= <-].
    unfold SIZEOF_PTR, zlen. rewrite length_replicate. zlia.
  - done.
  - intros n Hn. unfold full_heap. zdec. done.
  - by exists 6.
Defined.

Lemma spmc_sequential_witness :
  ∃ vs q', try_pop_many 1 {| q_capacity := 2; mask := 1; writeIdx := 3; readIdxCache := 1;
      readIdx := 1; writeIdxCache := 3; slots := [9; 8] |} 5 = Done (2, vs, q') ∧ vs = [8; 9].
Proof.
  assert (q_inv {| q_capacity := 2; mask := 1; writeIdx := 3; readIdxCache := 1;
      readIdx := 1; writeIdxCache := 3; slots := [9; 8] |}) as Hq.
  { constructor; cbn; try done. by exists 1. }
  destruct (spmc_sequential _ 4 5 1 Hq ltac:(done) ltac:(done)) as (_ & _ & vs & q' & H1 & _).
  exists vs, q'. pose proof H1 as H2. vm_compute in H2. injection H2 as _ <- <-.
  by split.
Defined.

(** Asking for nearly 2^64 values moves the read index backwards: the call
    returns 2^64 - 1 and the queue, which held one value, now holds two. *)
Theorem pop_many_overflow :
  ∃ q', try_pop_many 0 {| q_capacity := 2; mask := 1; writeIdx := 3; readIdxCache := 2;
      readIdx := 2; writeIdxCache := 3; slots := [9; 8] |} SIZE_MAX = Done (SIZE_MAX, [], q')
    ∧ contents q' = [8; 9].
Proof. eexists. vm_compute. by split. Qed.
