(* ===== verification/SendQueue.v ===== *)
(** What the RTP server needs of its send queues, and that the ring buffer of
    [SPMC] gives it: one producer (the interpreter lock serialises the callers of
    [send_pkt]) and one consumer (the worker), pointers to items as values. *)
From stdpp Require Import prelude list.
From Stdlib Require Import ZArith Lia.
From S2P Require Import Prelude SPMC.
Local Open Scope Z_scope.

(** How many items a queue can take in its life, and its greatest size. *)
Definition SEND_BUDGET : Z := Eval cbv in IDX_BUDGET.
Definition SEND_MAX : Z := Eval cbv in SIZE_MAX.

Class SendQueue (Q : Type) : Type := {
  sq_create : Z → option Q;
  sq_push : Q → Z → outcome (bool * Q);
  sq_pop : Q → outcome (option Z * Q);
  sq_ok : Q → Prop;
  sq_cap : Q → Z;
  sq_pushes : Q → Z;             (* pushes so far *)
  sq_list : Q → list Z;          (* oldest first *)
}.

(** A bounded FIFO, for fewer than [SEND_BUDGET] pushes. *)
Class SendQueueLaws (Q : Type) `{SendQueue Q} : Prop := {
  sq_create_spec c q :
    0 ≤ c ≤ SEND_MAX → sq_create c = Some q →
    sq_ok q ∧ sq_cap q = c ∧ sq_list q = [] ∧ sq_pushes q = 0;
  sq_push_spec q p :
    sq_ok q → sq_pushes q + 1 < SEND_BUDGET →
    ∃ b q', sq_push q p = Done (b, q') ∧ sq_ok q' ∧ sq_cap q' = sq_cap q ∧
      if b then zlen (sq_list q) < sq_cap q ∧ sq_list q' = sq_list q ++ [p] ∧
                sq_pushes q' = sq_pushes q + 1
      else zlen (sq_list q) = sq_cap q ∧ sq_list q' = sq_list q ∧ sq_pushes q' = sq_pushes q;
  sq_pop_spec q :
    sq_ok q →
    ∃ o q', sq_pop q = Done (o, q') ∧ sq_ok q' ∧ sq_cap q' = sq_cap q ∧ sq_pushes q' = sq_pushes q ∧
      match o with
      | None => sq_list q = [] ∧ sq_list q' = []
      | Some p => sq_list q = p :: sq_list q'
      end;
}.

(** The ring buffer, for any behaviour of the memory allocator and of the weak
    compare-and-exchange, which may fail [spurious q] times in state [q]. *)
Section Ring.
Context (mem : Z → option (list Z)) (spurious : SPMCQueue → nat).

#[export] Instance spmc_send_queue : SendQueue SPMCQueue := {
  sq_create := create_queue mem;
  sq_push := try_push;
  sq_pop q := try_pop (spurious q) q;
  sq_ok := q_inv;
  sq_cap := q_capacity;
  sq_pushes := writeIdx;
  sq_list := contents;
}.

Lemma try_pop_writeIdx n q o q' : try_pop n q = Done (o, q') → writeIdx q' = writeIdx q.
Proof.
  assert (∀ q r q1 x, refresh_writeIdx q r = Done (q1, x) → writeIdx q1 = writeIdx q) as Hr.
  { intros q0 r q1 x. unfold refresh_writeIdx. repeat case_match; try by intros [= <- <-].
    destruct (r <? writeIdx q0); [|done]. by intros [= <- <-]. }
  revert q. induction n as [|n IH]; intros q; cbn [try_pop]; rewrite bind_done;
    intros ([q1 x] & E1 & E); apply Hr in E1; (destruct x; [|by injection E as <- <-]);
    rewrite bind_done in E; destruct E as (v & _ & E).
  - by injection E as <- <-.
  - rewrite (IH _ E). done.
Qed.

Lemma try_push_writeIdx q p b q' :
  q_inv q → try_push q p = Done (b, q') →
  writeIdx q' = if b then u64 (writeIdx q + 1) else writeIdx q.
Proof.
  intros Hq. unfold try_push. case_match; [|case_match]; try rewrite bind_done.
  - intros (q1 & _ & [= <- <-]). done.
  - intros (q1 & _ & [= <- <-]). done.
  - by intros [= <- <-].
Qed.

#[export] Instance spmc_send_queue_laws : heap_sized mem → SendQueueLaws SPMCQueue.
Proof.
  intros Hm. constructor; cbn [sq_create sq_push sq_pop sq_ok sq_cap sq_pushes sq_list spmc_send_queue].
  - intros c q Hc H. destruct (create_queue_inv mem c q Hc Hm H) as (H1 & H2 & H3).
    do 3 (split; [done|]). unfold create_queue in H.
    repeat (case_match; try done). by injection H as <-.
  - intros q p Hq Hb. destruct (try_push_ok q p Hq Hb) as (b & q' & E & Hq' & Hc & Hl).
    pose proof (try_push_writeIdx q p b q' Hq E) as Hw. exists b, q'.
    do 3 (split; [done|]). pose proof (qi_idx q Hq). unfold SEND_BUDGET, IDX_BUDGET in *.
    rewrite u64_small in Hw by lia. destruct b; naive_solver.
  - intros q Hq. destruct (try_pop_ok (spurious q) q Hq) as (o & q' & E & Hq' & Hc & Hl).
    exists o, q'. do 3 (split; [done|]). split; [by eapply try_pop_writeIdx|done].
Qed.
End Ring.
