(* ===== verification/Sync.v ===== *)
(** Synchronisation helpers: src/src/rtp_sync.c. The intrusive command queue on
    a store of [next] links, the one-shot waiter as a step relation of a client
    and a worker, and the deadlines of the timed waits. The results of the
    pthread functions are arguments. *)
From stdpp Require Import prelude list gmap.
From Stdlib Require Import ZArith Lia.
From S2P Require Import Prelude Synth.
Local Open Scope Z_scope.

(** * The command queue *)

(** [cq_next]: the word at [next_off] of every allocated command; [None] is
    [NULL]. *)
Record rtp_sync_cmdq : Type := {
  cq_head : option Z;
  cq_tail : option Z;
  cq_next : gmap Z (option Z);
}.

(** A store through a pointer to memory that is not allocated is undefined. *)
Definition store_next (cmd : Z) (v : option Z) (m : gmap Z (option Z)) : outcome (gmap Z (option Z)) :=
  match m !! cmd with Some _ => Done (<[cmd := v]> m) | None => Undefined end.

Definition rtp_sync_cmdq_push (q : rtp_sync_cmdq) (cmd : Z) : outcome rtp_sync_cmdq :=
  m ← store_next cmd None (cq_next q);
  match cq_tail q with
  | Some tail =>
      m ← store_next tail (Some cmd) m;
      Done {| cq_head := cq_head q; cq_tail := Some cmd; cq_next := m |}
  | None => Done {| cq_head := Some cmd; cq_tail := Some cmd; cq_next := m |}
  end.

Definition rtp_sync_cmdq_detach_all (q : rtp_sync_cmdq) : option Z * rtp_sync_cmdq :=
  (cq_head q, {| cq_head := None; cq_tail := None; cq_next := cq_next q |}).

(** Following the links from a command, as the users of a detached list do. *)
Fixpoint walk (fuel : nat) (m : gmap Z (option Z)) (p : option Z) : outcome (list Z) :=
  match p with
  | None => Done []
  | Some cmd =>
      match fuel with
      | O => OutOfFuel
      | S fuel =>
          match m !! cmd with
          | None => Undefined
          | Some nx => rest ← walk fuel m nx; Done (cmd :: rest)
          end
      end
  end.

(** ** The list a queue stands for *)

(** [chain m p l]: the links lead from [p] through [l] to [NULL]. *)
Fixpoint chain (m : gmap Z (option Z)) (p : option Z) (l : list Z) : Prop :=
  match l with
  | [] => p = None
  | cmd :: l => p = Some cmd ∧ ∃ nx, m !! cmd = Some nx ∧ chain m nx l
  end.

Record is_queue (q : rtp_sync_cmdq) (l : list Z) : Prop := {
  iq_chain : chain (cq_next q) (cq_head q) l;
  iq_tail : cq_tail q = last l;
  iq_nodup : NoDup l;
}.

Lemma chain_insert_ne m p l cmd v : cmd ∉ l → chain m p l → chain (<[cmd := v]> m) p l.
Proof.
  revert p. induction l as [|x l IH]; intros p Hn; cbn; [done|].
  apply not_elem_of_cons in Hn as [Hx Hl]. intros (-> & nx & Hm & Hc).
  split; [done|]. exists nx. split; [by rewrite lookup_insert_ne|by apply IH].
Qed.

(** Linking a fresh command behind the last one. *)
Lemma chain_snoc m p l t cmd :
  NoDup (l ++ [t]) → cmd ∉ l ++ [t] → chain m p (l ++ [t]) → m !! cmd = Some None →
  chain (<[t := Some cmd]> m) p ((l ++ [t]) ++ [cmd]).
Proof.
  revert p. induction l as [|x l IH]; intros p Hnd Hc Hch Hm; cbn in *.
  - destruct Hch as (-> & nx & Ht & _). apply not_elem_of_cons in Hc as [Hne _].
    split; [done|]. exists (Some cmd). split; [by rewrite lookup_insert_eq|].
    split; [done|]. exists None. by rewrite lookup_insert_ne.
  - destruct Hch as (-> & nx & Hx & Hch). apply NoDup_cons in Hnd as [Hx' Hnd].
    apply not_elem_of_cons in Hc as [Hcx Hc]. split; [done|]. exists nx.
    split; [|by apply IH]. rewrite lookup_insert_ne; [done|].
    intros ->. apply Hx', elem_of_app. right. by left.
Qed.

Lemma push_ok q l cmd :
  is_queue q l → cmd ∉ l → is_Some (cq_next q !! cmd) →
  ∃ q', rtp_sync_cmdq_push q cmd = Done q' ∧ is_queue q' (l ++ [cmd]) ∧
    ∀ x, x ≠ cmd → last l ≠ Some x → cq_next q' !! x = cq_next q !! x.
Proof.
  intros [Hch Ht Hnd] Hn [old Hold]. unfold rtp_sync_cmdq_push, store_next. rewrite Hold.
  cbn [mbind outcome_bind]. rewrite Ht.
  assert (NoDup (l ++ [cmd])) as Hnd'.
  { apply NoDup_app. split; [done|]. split; [|apply NoDup_singleton].
    intros x Hx ->%list_elem_of_singleton. done. }
  destruct (last l) as [t|] eqn:El.
  - apply last_Some in El as [l' ->].
    assert (cmd ≠ t) as Hne by (intros ->; apply Hn, elem_of_app; right; by left).
    assert (is_Some (cq_next q !! t)) as [vt Hvt].
    { clear -Hch. revert Hch. generalize (cq_head q). induction l' as [|x l' IH]; cbn.
      - intros p (_ & nx & H & _). by eexists.
      - intros p (_ & nx & _ & H). by eapply IH. }
    rewrite lookup_insert_ne, Hvt by done. cbn [mbind outcome_bind].
    eexists. split; [done|]. split; [constructor|].
    + apply chain_snoc; [done|done|by apply chain_insert_ne|by rewrite lookup_insert_eq].
    + by rewrite last_snoc.
    + done.
    + intros x Hx Hx'. cbn. rewrite !lookup_insert_ne; [done|done|].
      intros ->. by destruct Hx'.
  - apply last_None in El. subst l. eexists. split; [done|]. split; [constructor|]; cbn.
    + split; [done|]. exists None. by rewrite lookup_insert_eq.
    + done.
    + done.
    + intros x Hx _. by rewrite lookup_insert_ne.
Qed.

Lemma walk_chain m p l fuel :
  (length l ≤ fuel)%nat → chain m p l → walk fuel m p = Done l.
Proof.
  revert p fuel. induction l as [|x l IH]; intros p fuel Hl Hc; cbn in Hc.
  - subst p. by destruct fuel.
  - destruct Hc as (-> & nx & Hx & Hc). destruct fuel as [|fuel]; cbn in Hl; [lia|].
    cbn. rewrite Hx. rewrite (IH nx fuel); [done|lia|done].
Qed.

(** Pushing several commands, one after the other. *)
Fixpoint push_all (q : rtp_sync_cmdq) (cmds : list Z) : outcome rtp_sync_cmdq :=
  match cmds with
  | [] => Done q
  | c :: cmds => q ← rtp_sync_cmdq_push q c; push_all q cmds
  end.

Lemma push_keeps q cmd q' :
  rtp_sync_cmdq_push q cmd = Done q' → ∀ x, is_Some (cq_next q !! x) → is_Some (cq_next q' !! x).
Proof.
  unfold rtp_sync_cmdq_push, store_next. destruct (cq_next q !! cmd); [|done].
  cbn [mbind outcome_bind]. intros H x Hx. destruct (cq_tail q) as [t|].
  - case_match; [|done]. injection H as <-. cbn. by rewrite !lookup_insert_is_Some'; auto.
  - injection H as <-. cbn. rewrite lookup_insert_is_Some'. auto.
Qed.

(** * Deadlines *)

(** [rtp_sync_cond_timedwait_abs_ns]: the time it waits for. *)
Definition abs_timespec (abs_ns : Z) : timespec :=
  {| tv_sec := abs_ns / 1000000000; tv_nsec := abs_ns mod 1000000000 |}.

(** [rtp_sync_cond_timedwait_ns]: [None] when the clock cannot be read; [time_t]
    arithmetic is signed. *)
Definition deadline_ns (now : timespec) (wait_ns : Z) : Z :=
  let sec := wait_ns / 1000000000 in
  let s := tv_sec now + sec in
  let n := tv_nsec now + wait_ns mod 1000000000 in
  let '(s, n) := if 1000000000 <=? n then (s + 1, n - 1000000000) else (s, n) in
  u64 (u64 (u64 s * 1000000000) + u64 n).

Definition rtp_sync_cond_timedwait_abs_ns (timedwait : timespec → Z) (abs_ns : Z) : Z :=
  timedwait (abs_timespec abs_ns).

Definition rtp_sync_cond_timedwait_ns (timedwait : timespec → Z) (clock : option timespec)
    (wait_ns : Z) : Z :=
  match clock with
  | None => -1
  | Some now => rtp_sync_cond_timedwait_abs_ns timedwait (deadline_ns now wait_ns)
  end.

Lemma deadline_exact now wait_ns :
  normal_ts now → 0 ≤ tv_sec now → 0 ≤ wait_ns →
  ns_of now + wait_ns < 18446744073709551616 →
  deadline_ns now wait_ns = ns_of now + wait_ns.
Proof.
  unfold normal_ts, ns_of, NSEC_IN_SEC, deadline_ns. intros Hn Hs Hw Hb.
  pose proof (Z.div_mod wait_ns 1000000000 ltac:(lia)) as E.
  pose proof (Z.mod_pos_bound wait_ns 1000000000 ltac:(lia)) as Hr.
  set (d := wait_ns / 1000000000) in *. set (r := wait_ns mod 1000000000) in *.
  assert (0 ≤ d) by lia. destruct (1000000000 <=? tv_nsec now + r) eqn:Ec; zbool.
  - rewrite (u64_small (tv_sec now + d + 1)), (u64_small (_ * _)), (u64_small (_ - _)) by lia.
    rewrite u64_small by lia. lia.
  - rewrite (u64_small (tv_sec now + d)), (u64_small (_ * _)) by lia.
    rewrite (u64_small (tv_nsec now + r)) by lia.
    rewrite u64_small by lia. lia.
Qed.

(** * The clock of a condition variable *)

Inductive clockid_t : Set := CLOCK_REALTIME | CLOCK_MONOTONIC.

(** [rtp_sync_cond_init_monotonic] where the monotonic clock can be set: the
    result and the clock the timed waits then read. *)
Definition rtp_sync_cond_init_monotonic (attr_init setclock cond_init : Z) : Z * clockid_t :=
  if negb (attr_init =? 0) then (-1, CLOCK_REALTIME)
  else
    let id := if setclock =? 0 then CLOCK_MONOTONIC else CLOCK_REALTIME in
    if negb (cond_init =? 0) then (-1, id) else (0, id).

(** * The one-shot waiter *)

Record rtp_sync_waiter : Set := { wt_done : bool; wt_status : Z }.

(** Who holds the waiter's mutex. *)
Inductive wt_owner : Set := Free | ByClient | ByWorker.

(** The client resets the waiter, hands it to the worker with a command, and
    waits; [KBlocked true]: it sleeps in [pthread_cond_wait] and a signal (or a
    spurious wake-up) has been delivered to it. *)
Inductive client_pc : Set :=
| KIdle
| KReset                        (* rtp_sync_waiter_reset: wants the lock *)
| KResetting                    (* lock held *)
| KSubmitted                    (* the command is with the worker *)
| KWaitLock                     (* rtp_sync_waiter_wait: wants the lock *)
| KTest                         (* lock held, about to test [done] *)
| KBlocked (woken : bool)
| KUnlock (status : Z)          (* lock held, leaving *)
| KReturned (status : Z).

Inductive worker_pc : Set :=
| WIdle
| WLock (status : Z)            (* rtp_sync_waiter_complete: wants the lock *)
| WSet (status : Z)             (* lock held *)
| WSignal (status : Z)
| WUnlock (status : Z)
| WDone (status : Z).

Record wsys : Set := {
  ws_waiter : rtp_sync_waiter;
  ws_owner : wt_owner;
  ws_client : client_pc;
  ws_worker : worker_pc;
}.

Definition wake (c : client_pc) : client_pc :=
  match c with KBlocked _ => KBlocked true | c => c end.

Inductive wstep : wsys → wsys → Prop :=
| w_reset w o k : wstep
    {| ws_waiter := w; ws_owner := o; ws_client := KIdle; ws_worker := k |}
    {| ws_waiter := w; ws_owner := o; ws_client := KReset; ws_worker := k |}
| w_reset_lock w k : wstep
    {| ws_waiter := w; ws_owner := Free; ws_client := KReset; ws_worker := k |}
    {| ws_waiter := w; ws_owner := ByClient; ws_client := KResetting; ws_worker := k |}
| w_reset_done w k : wstep
    {| ws_waiter := w; ws_owner := ByClient; ws_client := KResetting; ws_worker := k |}
    {| ws_waiter := {| wt_done := false; wt_status := 0 |}; ws_owner := Free;
       ws_client := KSubmitted; ws_worker := k |}
| w_worker_takes w o c s :
    c = KSubmitted ∨ c = KWaitLock ∨ c = KTest ∨ (∃ b, c = KBlocked b) → wstep
    {| ws_waiter := w; ws_owner := o; ws_client := c; ws_worker := WIdle |}
    {| ws_waiter := w; ws_owner := o; ws_client := c; ws_worker := WLock s |}
| w_worker_lock w c s : wstep
    {| ws_waiter := w; ws_owner := Free; ws_client := c; ws_worker := WLock s |}
    {| ws_waiter := w; ws_owner := ByWorker; ws_client := c; ws_worker := WSet s |}
| w_worker_set w c s : wstep
    {| ws_waiter := w; ws_owner := ByWorker; ws_client := c; ws_worker := WSet s |}
    {| ws_waiter := {| wt_done := true; wt_status := s |}; ws_owner := ByWorker;
       ws_client := c; ws_worker := WSignal s |}
| w_worker_signal w c s : wstep
    {| ws_waiter := w; ws_owner := ByWorker; ws_client := c; ws_worker := WSignal s |}
    {| ws_waiter := w; ws_owner := ByWorker; ws_client := wake c; ws_worker := WUnlock s |}
| w_worker_unlock w c s : wstep
    {| ws_waiter := w; ws_owner := ByWorker; ws_client := c; ws_worker := WUnlock s |}
    {| ws_waiter := w; ws_owner := Free; ws_client := c; ws_worker := WDone s |}
| w_wait w o k : wstep
    {| ws_waiter := w; ws_owner := o; ws_client := KSubmitted; ws_worker := k |}
    {| ws_waiter := w; ws_owner := o; ws_client := KWaitLock; ws_worker := k |}
| w_wait_lock w k : wstep
    {| ws_waiter := w; ws_owner := Free; ws_client := KWaitLock; ws_worker := k |}
    {| ws_waiter := w; ws_owner := ByClient; ws_client := KTest; ws_worker := k |}
| w_test w k : wstep
    {| ws_waiter := w; ws_owner := ByClient; ws_client := KTest; ws_worker := k |}
    (if wt_done w then
       {| ws_waiter := w; ws_owner := ByClient; ws_client := KUnlock (wt_status w);
          ws_worker := k |}
     else
       {| ws_waiter := w; ws_owner := Free; ws_client := KBlocked false; ws_worker := k |})
| w_spurious w o k : wstep
    {| ws_waiter := w; ws_owner := o; ws_client := KBlocked false; ws_worker := k |}
    {| ws_waiter := w; ws_owner := o; ws_client := KBlocked true; ws_worker := k |}
| w_relock w k : wstep
    {| ws_waiter := w; ws_owner := Free; ws_client := KBlocked true; ws_worker := k |}
    {| ws_waiter := w; ws_owner := ByClient; ws_client := KTest; ws_worker := k |}
| w_return w k s : wstep
    {| ws_waiter := w; ws_owner := ByClient; ws_client := KUnlock s; ws_worker := k |}
    {| ws_waiter := w; ws_owner := Free; ws_client := KReturned s; ws_worker := k |}.

(** [rtp_sync_waiter_init]. *)
Definition waiter_start : wsys :=
  {| ws_waiter := {| wt_done := false; wt_status := 0 |}; ws_owner := Free;
     ws_client := KIdle; ws_worker := WIdle |}.

Inductive wreach : wsys → Prop :=
| wreach_start : wreach waiter_start
| wreach_step s s' : wreach s → wstep s s' → wreach s'.

(** The worker has stored the status [v]. *)
Definition worker_stored (k : worker_pc) : option Z :=
  match k with WSignal v | WUnlock v | WDone v => Some v | _ => None end.

(** Mutual exclusion, and what [done] says about the worker. *)
Definition wt_inv (s : wsys) : Prop :=
  let w := ws_waiter s in
  (ws_owner s = ByClient ↔
     match ws_client s with KResetting | KTest | KUnlock _ => True | _ => False end) ∧
  (ws_owner s = ByWorker ↔
     match ws_worker s with WSet _ | WSignal _ | WUnlock _ => True | _ => False end) ∧
  (match ws_client s with
   | KIdle | KReset | KResetting => ws_worker s = WIdle ∧ wt_done w = false
   | KUnlock v | KReturned v =>
       wt_done w = true ∧ v = wt_status w
   | KBlocked false => wt_done w = true → ∃ v, ws_worker s = WSignal v
   | _ => True
   end) ∧
  (match worker_stored (ws_worker s) with
   | Some v => wt_done w = true ∧ wt_status w = v
   | None => wt_done w = false
   end).

Lemma wt_inv_step s s' : wt_inv s → wstep s s' → wt_inv s'.
Proof.
  unfold wt_inv. intros (H1 & H2 & H3 & H4) Hs.
  destruct Hs; cbn in *.
  all: try (destruct H as [->|[->|[->|[b ->]]]]; cbn in *).
  all: try (destruct (wt_done w) eqn:Ed; cbn in *).
  all: try (destruct c; cbn in *).
  all: try (destruct woken; cbn in *).
  all: try (destruct k; cbn in *).
  all: try (destruct b; cbn in *).
  all: split_and!; try done.
  all: try (by intros _; eexists).
  all: try (split; intros; try done; intuition congruence).
  all: try intuition congruence.
  all: exfalso; destruct H3 as [? ?]; [tauto|congruence].
Qed.

Lemma wt_inv_reach s : wreach s → wt_inv s.
Proof.
  induction 1 as [|s s' _ IH Hs]; [|by eapply wt_inv_step].
  unfold wt_inv, waiter_start. cbn. split_and!; try done; split; done.
Qed.


(** * Properties *)

(** C29: the command queue is a first-in-first-out list. Pushing any sequence of
    distinct allocated commands that are not queued, onto a queue that stands
    for [l], appends them to [l] in order; detaching then hands out a chain of
    links that leads through exactly that list and ends, and leaves an empty
    queue. *)
Theorem cmdq_fifo (q : rtp_sync_cmdq) (l cmds : list Z)
    (Hq : is_queue q l) (Hnd : NoDup (l ++ cmds))
    (Hall : Forall (λ c, is_Some (cq_next q !! c)) cmds) :
  ∃ q', push_all q cmds = Done q' ∧ is_queue q' (l ++ cmds)
    ∧ let '(first, q'') := rtp_sync_cmdq_detach_all q' in
      walk (length (l ++ cmds)) (cq_next q'') first = Done (l ++ cmds)
      ∧ is_queue q'' [].
Proof.
  revert q l Hq Hnd Hall. induction cmds as [|c cmds IH]; intros q l Hq Hnd Hall.
  - exists q. rewrite app_nil_r. split; [done|]. split; [done|]. cbn. split.
    + apply walk_chain; [done|]. apply (iq_chain q l Hq).
    + constructor; [done|done|constructor].
  - apply Forall_cons in Hall as [Hc Hall].
    assert (c ∉ l) as Hn.
    { intros Hin. apply NoDup_app in Hnd as (_ & H & _). apply (H c Hin). by left. }
    destruct (push_ok q l c Hq Hn Hc) as (q1 & Hp & Hq1 & _).
    destruct (IH q1 (l ++ [c])) as (q' & H1 & H2 & H3);
      [done|by rewrite <- app_assoc| |].
    { eapply Forall_impl; [exact Hall|]. intros x. by apply (push_keeps q c). }
    rewrite <- app_assoc in H2, H3. exists q'. split; [|by split].
    cbn [push_all]. by rewrite Hp.
Qed.

(** A timed wait waits until the time asked for: the deadline handed to
    [pthread_cond_timedwait] is a normalised time of exactly the current time
    plus the nanoseconds given, as long as that fits 64 bits of nanoseconds. *)
Theorem timedwait_deadline (timedwait : timespec → Z) (now : timespec) (wait_ns : Z)
    (Hnow : normal_ts now) (Hw : 0 ≤ wait_ns)
    (Hfit : ns_of now + wait_ns < 18446744073709551616) :
  ∃ ts, rtp_sync_cond_timedwait_ns timedwait (Some now) wait_ns = timedwait ts
    ∧ normal_ts ts ∧ ns_of ts = ns_of now + wait_ns.
Proof.
  unfold rtp_sync_cond_timedwait_ns, rtp_sync_cond_timedwait_abs_ns.
  eexists. split; [done|].
  rewrite deadline_exact by (done || apply Hnow). unfold normal_ts, ns_of, abs_timespec in *.
  cbn. unfold NSEC_IN_SEC in *. set (t := tv_sec now * 1000000000 + tv_nsec now + wait_ns) in *.
  assert (0 ≤ t) by lia. zlia.
Qed.

(** Whoever waits for a command gets that command's status, and only after
    the worker has completed it: when the wait returns [v], the worker has
    stored [v]; and the client and the worker are never both inside the
    waiter's critical section. *)
Theorem waiter_status (s : wsys) (v : Z)
    (Hs : wreach s) (Hr : ws_client s = KReturned v) :
  worker_stored (ws_worker s) = Some v.
Proof.
  pose proof (wt_inv_reach s Hs) as (_ & _ & H3 & H4). rewrite Hr in H3.
  destruct H3 as [Hd ->]. destruct (worker_stored (ws_worker s)) as [u|].
  - by destruct H4 as [_ ->].
  - congruence.
Qed.


(** * Witnesses *)

Lemma cmdq_fifo_witness :
  ∃ q', push_all {| cq_head := Some 16; cq_tail := Some 16;
                    cq_next := {[16 := None; 32 := Some 99; 48 := None]} |} [48; 32] = Done q'
    ∧ is_queue q' [16; 48; 32].
Proof.
  destruct (cmdq_fifo {| cq_head := Some 16; cq_tail := Some 16;
      cq_next := {[16 := None; 32 := Some 99; 48 := None]} |} [16] [48; 32])
    as (q' & H1 & H2 & _).
  - constructor; [|done|apply NoDup_singleton]. split; [done|]. by exists None.
  - by apply (bool_decide_unpack _).
  - repeat constructor; by eexists.
  - by exists q'.
Defined.

Lemma timedwait_deadline_witness :
  ∃ ts, rtp_sync_cond_timedwait_ns tv_nsec (Some {| tv_sec := 5; tv_nsec := 900000000 |})
          200000000 = tv_nsec ts ∧ ns_of ts = 6100000000.
Proof.
  destruct (timedwait_deadline tv_nsec {| tv_sec := 5; tv_nsec := 900000000 |} 200000000)
    as (ts & H1 & _ & H2); [done..|]. by exists ts.
Defined.

(** The worker completes before the client begins to wait. *)
Definition late_waiter (c : client_pc) (o : wt_owner) : wsys :=
  {| ws_waiter := {| wt_done := true; wt_status := 3 |}; ws_owner := o;
     ws_client := c; ws_worker := WDone 3 |}.

Lemma late_waiter_reach : wreach (late_waiter KSubmitted Free).
Proof.
  unfold late_waiter. eapply wreach_step; [|apply w_worker_unlock].
  eapply wreach_step; [|apply (w_worker_signal _ KSubmitted)].
  eapply wreach_step; [|apply (w_worker_set {| wt_done := false; wt_status := 0 |})].
  eapply wreach_step; [|apply w_worker_lock].
  eapply wreach_step; [|apply w_worker_takes; by left].
  eapply wreach_step; [|apply (w_reset_done {| wt_done := false; wt_status := 0 |})].
  eapply wreach_step; [|apply w_reset_lock].
  eapply wreach_step; [|apply w_reset]. apply wreach_start.
Qed.

Lemma late_waiter_returned : wreach (late_waiter (KReturned 3) Free).
Proof.
  unfold late_waiter. eapply wreach_step; [|apply w_return].
  eapply wreach_step; [|apply (w_test {| wt_done := true; wt_status := 3 |})].
  eapply wreach_step; [|apply w_wait_lock].
  eapply wreach_step; [|apply w_wait]. apply late_waiter_reach.
Qed.

Lemma waiter_status_witness :
  worker_stored (ws_worker (late_waiter (KReturned 3) Free)) = Some 3.
Proof. apply (waiter_status _ 3 late_waiter_returned). reflexivity. Defined.

