(* ===== verification/Utils.v ===== *)
(** The audio helpers: src/python/RtpUtils_mod.c. G.711 mu-law coding and linear
    resampling. Doubles are the IEEE binary64 numbers of the Standard Library's
    [SpecFloat], rounding to nearest even. *)
From stdpp Require Import prelude list.
From Stdlib Require Import ZArith Lia SpecFloat.
From S2P Require Import Prelude Py.
Local Open Scope Z_scope.

Definition ULAW_BIAS : Z := 132.
Definition ULAW_CLIP : Z := 32635.

(** * mu-law *)

(** The search for the highest bit: [exponent] and [mask] count down together. *)
Fixpoint ulaw_exponent (mag : Z) (exponent : nat) (mask : Z) : nat :=
  match exponent with
  | O => O
  | S e => if Z.land mag mask =? 0 then ulaw_exponent mag e (Z.shiftr mask 1) else exponent
  end.

Definition linear2ulaw_scalar (sample : Z) : outcome Z :=
  let sign := if sample <? 0 then 128 else 0 in
  mag ← (if sample <? 0 then
           _ ← ub_unless (negb (sample =? LLONG_MIN)); Done (- sample)
         else Done sample);
  let mag := if ULAW_CLIP <? mag then ULAW_CLIP else mag in
  let mag := mag + ULAW_BIAS in
  let exponent := Z.of_nat (ulaw_exponent mag 7 16384) in
  let mantissa := Z.land (Z.shiftr mag (exponent + 3)) 15 in
  Done (Z.land (Z.lnot (Z.lor (Z.lor sign (Z.shiftl exponent 4)) mantissa)) 255).

Definition ulaw2linear_scalar (ulaw : Z) : Z :=
  let ulaw := Z.land (Z.lnot ulaw) 255 in
  let sign := Z.land ulaw 128 in
  let exponent := Z.land (Z.shiftr ulaw 4) 7 in
  let mantissa := Z.land ulaw 15 in
  let sample := Z.shiftl (Z.shiftl mantissa 3 + ULAW_BIAS) exponent in
  let sample := sample - ULAW_BIAS in
  s16 (if negb (sign =? 0) then - sample else sample).

(** A loop that fills an array, entry by entry. *)
Fixpoint fill {A B} (f : A → outcome B) (l : list A) : outcome (list B) :=
  match l with
  | [] => Done []
  | x :: l => y ← f x; ys ← fill f l; Done (y :: ys)
  end.

Record ulaw_tables : Set := {
  g_pcm16_to_ulaw : list Z;
  g_ulaw_to_pcm : list Z;
}.

Definition ensure_tables : outcome ulaw_tables :=
  t1 ← fill linear2ulaw_scalar (seqZ (-32768) 65536);
  Done {| g_pcm16_to_ulaw := t1; g_ulaw_to_pcm := map ulaw2linear_scalar (seqZ 0 256) |}.

(** [table[i]]. *)
Definition rd_table (t : list Z) (i : Z) : outcome Z := rd8 t i.

(** * PCM buffers *)

(** Native 16-bit samples on a little-endian host. *)
Fixpoint samples_of_bytes (l : list Z) : list Z :=
  match l with
  | lo :: hi :: l => s16 (lo + 256 * hi) :: samples_of_bytes l
  | _ => []
  end.
Definition bytes_of_samples (l : list Z) : list Z :=
  mjoin (map (λ s, [u8 s; u8 (u16 s / 256)]) l).

(** [alloc n]: whether [PyMem_Malloc (n)] succeeds. *)
Definition pcm16_from_obj (alloc : Z → bool) (o : pyobj) : pyres (list Z) :=
  v ← PyObject_GetBuffer o;
  let (itemsize, bytes) := v : Z * list Z in
  if itemsize =? 2 then
    if negb (zlen bytes mod 2 =? 0) then Raise ValueError
    else Ret (samples_of_bytes bytes)
  else if itemsize =? 1 then
    if negb (zlen bytes mod 2 =? 0) then Raise ValueError
    else
      let nsamples := zlen bytes / 2 in
      if (0 <? nsamples) && negb (alloc (nsamples * 2)) then Raise MemoryError
      else Ret (samples_of_bytes bytes)
  else Raise TypeError.

(** What the methods return. *)
Inductive pyval : Set :=
| VInt (z : Z)
| VBytes (l : list Z)
| VArrayH (l : list Z).

(** [array_h_from_pcm16]: an [array('h')], which takes the samples as bytes. *)
Definition array_h_from_pcm16 (ctor : bool) (samples : list Z) : pyres pyval :=
  if negb ctor then Raise RuntimeError
  else Ret (VArrayH (samples_of_bytes (bytes_of_samples samples))).

Definition PyRtpUtils_linear2ulaw (alloc : Z → bool) (o : pyobj) : outcome (pyres pyval) :=
  tables ← ensure_tables;
  match o with
  | PyInt z =>
      match PyLong_AsLongLong z with
      | Raise e => Done (Raise e)
      | Ret sample => v ← linear2ulaw_scalar sample; Done (Ret (VInt v))
      end
  | _ =>
      match pcm16_from_obj alloc o with
      | Raise e => Done (Raise e)
      | Ret samples =>
          out ← fill (λ s, rd_table (g_pcm16_to_ulaw tables) (u16 (s + 32768))) samples;
          Done (Ret (VBytes out))
      end
  end.

Definition PyRtpUtils_ulaw2linear (alloc : Z → bool) (ctor : bool) (o : pyobj)
    : outcome (pyres pyval) :=
  tables ← ensure_tables;
  match o with
  | PyInt z =>
      match PyLong_AsLongLong z with
      | Raise e => Done (Raise e)
      | Ret ulaw => v ← rd_table (g_ulaw_to_pcm tables) (Z.land ulaw 255); Done (Ret (VInt v))
      end
  | _ =>
      match PyObject_GetBuffer o with
      | Raise e => Done (Raise e)
      | Ret (itemsize, bytes) =>
          if negb (itemsize =? 1) then Done (Raise TypeError)
          else if (0 <? zlen bytes) && negb (alloc (zlen bytes * 2)) then Done (Raise MemoryError)
          else
            out ← fill (rd_table (g_ulaw_to_pcm tables)) bytes;
            Done (array_h_from_pcm16 ctor out)
      end
  end.

(** * Doubles *)

Definition d_of_Z (z : Z) : spec_float := binary_normalize 53 1024 z 0 false.
Definition d_add := SFadd 53 1024.
Definition d_sub := SFsub 53 1024.
Definition d_mul := SFmul 53 1024.
Definition d_div := SFdiv 53 1024.
Definition d_lt (x y : spec_float) : bool :=
  match SFcompare x y with Some Lt => true | _ => false end.
Definition d_gt (x y : spec_float) : bool :=
  match SFcompare x y with Some Gt => true | _ => false end.
Definition d_half : spec_float := d_div (d_of_Z 1) (d_of_Z 2).

(** The conversion to an integer type truncates; what does not fit is
    undefined. *)
Definition d_trunc (x : spec_float) : outcome Z :=
  match x with
  | S754_zero _ => Done 0
  | S754_finite s m e =>
      let a := if 0 <=? e then Z.pos m * 2 ^ e else Z.pos m / 2 ^ (- e) in
      let v := if s then - a else a in
      if in_llong v then Done v else Undefined
  | _ => Undefined
  end.

(** [None]: the function returns -1. *)
Definition floor_ll (x : spec_float) : outcome (option Z) :=
  if d_gt x (d_of_Z LLONG_MAX) || d_lt x (d_of_Z LLONG_MIN) then Done None
  else
    iv ← d_trunc x;
    if d_gt (d_of_Z iv) x then
      _ ← ub_unless (in_llong (iv - 1)); Done (Some (iv - 1))
    else Done (Some iv).

Definition round_half_even_ll (x : spec_float) : outcome (option Z) :=
  r ← floor_ll x;
  match r with
  | None => Done None
  | Some fl =>
      let frac := d_sub x (d_of_Z fl) in
      if d_lt frac d_half then Done (Some fl)
      else if d_gt frac d_half then
        if fl =? LLONG_MAX then Done None else Done (Some (fl + 1))
      else if Z.land fl 1 =? 0 then Done (Some fl)
      else if fl =? LLONG_MAX then Done None
      else Done (Some (fl + 1))
  end.

(** * Resampling *)

Definition PY_SSIZE_T_MAX : Z := 9223372036854775807.

(** [in_samples[i]]. *)
Definition rd_sample (l : list Z) (i : Z) : outcome Z :=
  if 0 <=? i then match l !! Z.to_nat i with Some s => Done s | None => Undefined end
  else Undefined.

Definition clamp16 (v : Z) : Z :=
  if 32767 <? v then 32767 else if v <? -32768 then -32768 else v.

(** The sample at a position of the input: interpolated, or the last one. *)
Definition interpolate (l : list Z) (pos : spec_float) : outcome spec_float :=
  idx ← d_trunc pos;
  let frac := d_sub pos (d_of_Z idx) in
  if zlen l - 1 <=? idx then s ← rd_sample l (zlen l - 1); Done (d_of_Z s)
  else
    s0 ← rd_sample l idx;
    s1 ← rd_sample l (idx + 1);
    Done (d_add (d_of_Z s0) (d_mul (d_sub (d_of_Z s1) (d_of_Z s0)) frac)).

(** The loop: [n] samples from number [i] on; [None] on a rounding overflow. *)
Fixpoint resample_loop (l : list Z) (ratio : spec_float) (n : nat) (i : Z)
    : outcome (option (list Z)) :=
  match n with
  | O => Done (Some [])
  | S n =>
      sample ← interpolate l (d_mul (d_of_Z i) ratio);
      v ← round_half_even_ll sample;
      match v with
      | None => Done None
      | Some val_ll =>
          rest ← resample_loop l ratio n (i + 1);
          Done (match rest with
                | Some r => Some (clamp16 val_ll :: r)
                | None => None
                end)
      end
  end.

Definition resample_length (n_in in_rate out_rate : Z) : outcome (option Z) :=
  r ← round_half_even_ll (d_div (d_mul (d_of_Z n_in) (d_of_Z out_rate)) (d_of_Z in_rate));
  Done (match r with
        | None => None
        | Some n => if PY_SSIZE_T_MAX <? n then None else Some (if n <? 1 then 1 else n)
        end).

Definition PyRtpUtils_resample_linear (alloc : Z → bool) (ctor : bool)
    (pcm_obj in_rate_o out_rate_o : pyobj) : outcome (pyres pyval) :=
  match in_rate ← arg_int in_rate_o; out_rate ← arg_int out_rate_o; Ret (in_rate, out_rate) with
  | Raise e => Done (Raise e)
  | Ret (in_rate, out_rate) =>
      if (in_rate <=? 0) || (out_rate <=? 0) then Done (Raise ValueError)
      else
        match pcm16_from_obj alloc pcm_obj with
        | Raise e => Done (Raise e)
        | Ret samples =>
            if in_rate =? out_rate then Done (array_h_from_pcm16 ctor samples)
            else if zlen samples =? 0 then Done (array_h_from_pcm16 ctor [])
            else
              n_out ← resample_length (zlen samples) in_rate out_rate;
              match n_out with
              | None => Done (Raise OverflowError)
              | Some n_out =>
                  if negb (alloc (n_out * 2)) then Done (Raise MemoryError)
                  else
                    let ratio := d_div (d_of_Z in_rate) (d_of_Z out_rate) in
                    out ← resample_loop samples ratio (Z.to_nat n_out) 0;
                    Done (match out with
                          | None => Raise OverflowError
                          | Some l => array_h_from_pcm16 ctor l
                          end)
              end
        end
  end.

(** * The mu-law code *)

Lemma land_pow2_zero mag k :
  0 ≤ k → 0 ≤ mag < 2 ^ (k + 1) → (Z.land mag (2 ^ k) =? 0) = (mag <? 2 ^ k).
Proof.
  intros Hk Hm. rewrite Z.pow_add_r in Hm by lia. change (2 ^ 1) with 2 in Hm.
  destruct (mag <? 2 ^ k) eqn:E; zbool.
  - apply Z.eqb_eq. rewrite Z.land_comm, <- (Z.mod_small mag (2 ^ k)) by lia.
    apply Z.bits_inj'. intros i Hi. rewrite Z.bits_0, Z.land_spec, Z.pow2_bits_eqb by lia.
    destruct (Z.eqb_spec k i) as [->|]; [|done].
    by rewrite Z.mod_pow2_bits_high by lia.
  - apply Z.eqb_neq. intros H.
    assert (Z.testbit (Z.land mag (2 ^ k)) k = true) as Hb; [|by rewrite H, Z.bits_0 in Hb].
    rewrite Z.land_spec, Z.pow2_bits_true, andb_true_r by lia.
    apply Z.testbit_true; [done|].
    replace (mag / 2 ^ k) with 1; [done|].
    apply Z.div_unique with (mag - 2 ^ k); lia.
Qed.

Lemma ulaw_exponent_spec mag e :
  0 ≤ mag < 2 ^ (Z.of_nat e + 8) →
  let r := Z.of_nat (ulaw_exponent mag e (2 ^ (Z.of_nat e + 7))) in
  0 ≤ r ≤ Z.of_nat e ∧ mag < 2 ^ (r + 8) ∧ (0 < r → 2 ^ (r + 7) ≤ mag).
Proof.
  induction e as [|e IH]; intros Hm; cbn [ulaw_exponent]; [cbn in *; lia|].
  rewrite land_pow2_zero by (replace (Z.of_nat (S e) + 7 + 1) with (Z.of_nat (S e) + 8) by lia; lia).
  replace (Z.shiftr (2 ^ (Z.of_nat (S e) + 7)) 1) with (2 ^ (Z.of_nat e + 7)).
  2:{ rewrite Z.shiftr_div_pow2 by lia.
      replace (Z.of_nat (S e) + 7) with (Z.of_nat e + 7 + 1) by lia.
      rewrite (Z.pow_add_r 2 (Z.of_nat e + 7) 1) by lia. by rewrite Z.div_mul. }
  case_match; zbool.
  - destruct IH as (H1 & H2 & H3); [|lia].
    replace (Z.of_nat e + 8) with (Z.of_nat (S e) + 7) by lia. lia.
  - lia.
Qed.

Definition ulaw_byte_check (s : Z) : bool :=
  all_below 8 (λ r, all_below 16 (λ m,
    Z.land (Z.lnot (Z.lor (Z.lor s (Z.shiftl r 4)) m)) 255 =? 255 - (s + 16 * r + m))).

Definition ulaw_value_check (s : Z) : bool :=
  all_below 8 (λ r, all_below 16 (λ m,
    ulaw2linear_scalar (255 - (s + 16 * r + m)) =?
      (if s =? 0 then 1 else -1) * (((16 + m) * 8 + 4) * 2 ^ r - 132))).

Lemma ulaw_checks :
  ulaw_byte_check 0 && ulaw_byte_check 128 && ulaw_value_check 0 && ulaw_value_check 128 = true.
Proof. vm_compute. reflexivity. Qed.

Lemma ulaw_byte s r m :
  s = 0 ∨ s = 128 → 0 ≤ r < 8 → 0 ≤ m < 16 →
  Z.land (Z.lnot (Z.lor (Z.lor s (Z.shiftl r 4)) m)) 255 = 255 - (s + 16 * r + m) ∧
  ulaw2linear_scalar (255 - (s + 16 * r + m)) =
    (if s =? 0 then 1 else -1) * (((16 + m) * 8 + 4) * 2 ^ r - 132).
Proof.
  intros Hs Hr Hm. pose proof ulaw_checks as H.
  rewrite !andb_true_iff in H. destruct H as (((H1 & H2) & H3) & H4).
  assert (ulaw_byte_check s = true ∧ ulaw_value_check s = true) as [Hb Hv]
    by by destruct Hs as [-> | ->].
  apply (all_below_spec _ _ r) in Hb; [|done]. apply (all_below_spec _ _ m) in Hb; [|done].
  apply (all_below_spec _ _ r) in Hv; [|done]. apply (all_below_spec _ _ m) in Hv; [|done].
  cbn beta in Hb, Hv. apply Z.eqb_eq in Hb, Hv. by split.
Qed.

(** The magnitude that is coded. *)
Definition ulaw_mag (s : Z) : Z := Z.min (Z.abs s) ULAW_CLIP + ULAW_BIAS.
Definition ulaw_sign (s : Z) : Z := if s <? 0 then 128 else 0.

(** Coding picks the segment [r] and the step [m] the magnitude falls in. *)
Lemma linear2ulaw_cell s :
  s ≠ LLONG_MIN →
  ∃ r m, 0 ≤ r < 8 ∧ 0 ≤ m < 16 ∧
    (16 + m) * 2 ^ (r + 3) ≤ ulaw_mag s < (17 + m) * 2 ^ (r + 3) ∧
    linear2ulaw_scalar s = Done (255 - (ulaw_sign s + 16 * r + m)).
Proof.
  intros Hs. unfold linear2ulaw_scalar.
  assert ((if s <? 0 then _ ← ub_unless (negb (s =? LLONG_MIN)); Done (- s) else Done s)
          = Done (Z.abs s)) as ->.
  { case_match; zbool; [|by rewrite Z.abs_eq].
    rewrite bind_unless_true by (zdec; done). by rewrite Z.abs_neq by lia. }
  cbn [mbind outcome_bind].
  replace ((if ULAW_CLIP <? Z.abs s then ULAW_CLIP else Z.abs s) + ULAW_BIAS) with (ulaw_mag s)
    by (unfold ulaw_mag; case_match; zbool; lia).
  assert (132 ≤ ulaw_mag s < 32768) as Hm by (unfold ulaw_mag, ULAW_CLIP, ULAW_BIAS; lia).
  destruct (ulaw_exponent_spec (ulaw_mag s) 7) as (H1 & H2 & H3); [cbn; lia|].
  change (2 ^ (Z.of_nat 7 + 7)) with 16384 in *.
  set (r := Z.of_nat (ulaw_exponent (ulaw_mag s) 7 16384)) in *.
  set (m := Z.land (Z.shiftr (ulaw_mag s) (r + 3)) 15).
  assert (2 ^ (r + 7) ≤ ulaw_mag s) as Hlow.
  { destruct (decide (0 < r)); [by apply H3|]. replace r with 0 by lia. cbn. lia. }
  assert (2 ^ (r + 7) = 16 * 2 ^ (r + 3)) as E7.
  { replace (r + 7) with (4 + (r + 3)) by lia. by rewrite Z.pow_add_r by lia. }
  assert (2 ^ (r + 8) = 32 * 2 ^ (r + 3)) as E8.
  { replace (r + 8) with (5 + (r + 3)) by lia. by rewrite Z.pow_add_r by lia. }
  assert (0 < 2 ^ (r + 3)) as Hp by (apply Z.pow_pos_nonneg; lia).
  assert (m = ulaw_mag s / 2 ^ (r + 3) - 16 ∧ 16 ≤ ulaw_mag s / 2 ^ (r + 3) < 32) as [Em Hd].
  { assert (16 ≤ ulaw_mag s / 2 ^ (r + 3) < 32) as Hd.
    { split; [apply Z.div_le_lower_bound|apply Z.div_lt_upper_bound]; lia. }
    split; [|done]. unfold m. rewrite Z.shiftr_div_pow2 by lia.
    change 15 with (Z.ones 4). rewrite Z.land_ones by lia. change (2 ^ 4) with 16.
    rewrite <- (Z.mod_small (ulaw_mag s / 2 ^ (r + 3) - 16) 16) by lia.
    by rewrite Zminus_mod, Z_mod_same_full, Z.sub_0_r, Z.mod_mod by lia. }
  exists r, m. split; [lia|]. split; [lia|]. split.
  - pose proof (Z.mul_div_le (ulaw_mag s) _ Hp). pose proof (Z.mul_succ_div_gt (ulaw_mag s) _ Hp).
    rewrite Em. nia.
  - f_equal. apply ulaw_byte; [unfold ulaw_sign; case_match; auto|lia|lia].
Qed.

Lemma decode_cell s r m :
  0 ≤ r < 8 → 0 ≤ m < 16 →
  ulaw2linear_scalar (255 - (ulaw_sign s + 16 * r + m)) =
    (if s <? 0 then -1 else 1) * (((16 + m) * 8 + 4) * 2 ^ r - 132).
Proof.
  intros Hr Hm. destruct (ulaw_byte (ulaw_sign s) r m) as [_ ->]; [|done|done|].
  - unfold ulaw_sign. case_match; auto.
  - unfold ulaw_sign. by destruct (s <? 0).
Qed.


(** * Tables and buffers *)

Lemma fill_ok {A B} (f : A → outcome B) (g : A → B) l :
  Forall (λ x, f x = Done (g x)) l → fill f l = Done (map g l).
Proof. induction 1 as [|x l H _ IH]; [done|]. cbn. by rewrite H, IH. Qed.

Definition ulaw_code (s : Z) : Z :=
  match linear2ulaw_scalar s with Done u => u | _ => 0 end.

Lemma ulaw_code_done s : s ≠ LLONG_MIN → linear2ulaw_scalar s = Done (ulaw_code s).
Proof.
  intros Hs. unfold ulaw_code. destruct (linear2ulaw_cell s Hs) as (r & m & _ & _ & _ & ->). done.
Qed.

Lemma ulaw_code_range s : s ≠ LLONG_MIN → 0 ≤ ulaw_code s < 256.
Proof.
  intros Hs. destruct (linear2ulaw_cell s Hs) as (r & m & Hr & Hm & _ & H).
  unfold ulaw_code. rewrite H. unfold ulaw_sign. case_match; lia.
Qed.

Definition int16_ok (s : Z) : Prop := -32768 ≤ s ≤ 32767.

Lemma ensure_tables_ok :
  ensure_tables = Done {| g_pcm16_to_ulaw := map ulaw_code (seqZ (-32768) 65536);
                          g_ulaw_to_pcm := map ulaw2linear_scalar (seqZ 0 256) |}.
Proof.
  unfold ensure_tables. rewrite (fill_ok _ ulaw_code); [done|].
  apply Forall_forall. intros s Hs. apply elem_of_seqZ in Hs.
  apply ulaw_code_done. unfold LLONG_MIN. lia.
Qed.

Lemma lookup_map {A B} (f : A → B) l i : map f l !! i = f <$> l !! i.
Proof. revert i. induction l as [|x l IH]; intros [|i]; [done..|]. apply IH. Qed.

Lemma rd_table_map f a n i :
  0 ≤ i < n → rd_table (map f (seqZ a n)) i = Done (f (a + i)).
Proof.
  intros Hi. unfold rd_table, rd8. zdec.
  rewrite lookup_map. rewrite (proj2 (lookup_seqZ a n (Z.to_nat i) (a + i))) by lia. done.
Qed.

Lemma encode_entry s :
  int16_ok s →
  rd_table (map ulaw_code (seqZ (-32768) 65536)) (u16 (s + 32768)) = Done (ulaw_code s).
Proof.
  unfold int16_ok. intros Hs. rewrite u16_small by lia. rewrite rd_table_map by lia.
  do 2 f_equal. lia.
Qed.

Lemma samples_of_bytes_ok l : bytes_ok l → Forall int16_ok (samples_of_bytes l).
Proof.
  assert (∀ n l, (length l < n)%nat → bytes_ok l → Forall int16_ok (samples_of_bytes l)) as H.
  { induction n as [|n IH]; intros l' Hl Hb; [lia|].
    destruct l' as [|lo [|hi l']]; cbn; [done|done|]. cbn in Hl.
    apply Forall_cons in Hb as [_ Hb]. apply Forall_cons in Hb as [_ Hb].
    apply Forall_cons_2; [|apply IH; [lia|done]]. unfold int16_ok, s16.
    pose proof (Z.mod_pos_bound (lo + 256 * hi + 32768) 65536). lia. }
  intros Hb. by apply (H (S (length l))); [lia|].
Qed.

Lemma samples_length l : zlen l mod 2 = 0 → zlen (samples_of_bytes l) = zlen l / 2.
Proof.
  assert (∀ n l, (length l < n)%nat → zlen l mod 2 = 0 →
    zlen (samples_of_bytes l) = zlen l / 2) as H.
  { induction n as [|n IH]; intros l' Hl Hb; [lia|].
    destruct l' as [|lo [|hi l']]; [done|done|]. cbn [samples_of_bytes length] in *.
    rewrite !zlen_cons in *. rewrite IH; [zlia|lia|zlia]. }
  by apply (H (S (length l))); lia.
Qed.

Lemma samples_bytes_id l : Forall int16_ok l → samples_of_bytes (bytes_of_samples l) = l.
Proof.
  induction 1 as [|s l Hs _ IH]; [done|].
  change (samples_of_bytes (bytes_of_samples (s :: l))) with
    (s16 (u8 s + 256 * u8 (u16 s / 256)) :: samples_of_bytes (bytes_of_samples l)).
  rewrite IH. f_equal.
  unfold int16_ok, s16, u8, u16 in *. zlia.
Qed.

Lemma ulaw2linear_range u : int16_ok (ulaw2linear_scalar u).
Proof.
  unfold ulaw2linear_scalar, s16, int16_ok.
  match goal with |- _ ≤ (?x + 32768) mod 65536 - 32768 ≤ _ =>
    pose proof (Z.mod_pos_bound (x + 32768) 65536) end. lia.
Qed.

(** * Resampling *)

(** The sign of a rounded number is the sign it was given. *)
Definition sign_is (s : bool) (x : spec_float) : Prop :=
  match x with
  | S754_zero s' | S754_infinity s' | S754_finite s' _ _ => s' = s
  | S754_nan => True
  end.

Lemma round_aux_sign s m e l : sign_is s (binary_round_aux 53 1024 s m e l).
Proof.
  unfold binary_round_aux. destruct (shr_fexp _ _ _ _ _) as [r1 e1].
  destruct (shr_fexp _ _ _ _ _) as [r2 e2]. destruct (shr_m r2); [done| |done].
  by destruct (e2 <=? 1024 - 53).
Qed.

Lemma d_of_Z_sign z : 0 ≤ z → sign_is false (d_of_Z z).
Proof.
  intros Hz. unfold d_of_Z, binary_normalize. destruct z as [|p|p]; [done| |lia].
  unfold binary_round. destruct (shl_align _ _ _). apply round_aux_sign.
Qed.

Lemma d_mul_sign x y : sign_is false x → sign_is false y → sign_is false (d_mul x y).
Proof.
  unfold d_mul, SFmul. destruct x, y; cbn; intros Hx Hy; subst; try done. apply round_aux_sign.
Qed.

Lemma d_div_sign x y : sign_is false x → sign_is false y → sign_is false (d_div x y).
Proof.
  unfold d_div, SFdiv.
  destruct x, y; cbn -[SFdiv_core_binary binary_round_aux]; intros Hx Hy; subst; try done.
  destruct (SFdiv_core_binary _ _ _ _ _ _) as [[? ?] ?]. apply round_aux_sign.
Qed.

Lemma d_trunc_nonneg x i : sign_is false x → d_trunc x = Done i → 0 ≤ i.
Proof.
  destruct x as [s|s| |s m e]; cbn; try done; [by intros _ [= <-]|]. intros ->.
  case_match; [|done]. intros [= <-]. case_match; zbool.
  - apply Z.mul_nonneg_nonneg; [lia|]. by apply Z.pow_nonneg.
  - apply Z.div_pos; [lia|]. apply Z.pow_pos_nonneg; lia.
Qed.

Lemma clamp16_ok v : int16_ok (clamp16 v).
Proof. unfold clamp16, int16_ok. repeat case_match; zbool; lia. Qed.

Lemma resample_loop_spec l ratio n i out :
  resample_loop l ratio n i = Done (Some out) → length out = n ∧ Forall int16_ok out.
Proof.
  revert i out. induction n as [|n IH]; intros i out; cbn [resample_loop].
  { by intros [= <-]. }
  intros H. rewrite bind_done in H. destruct H as (x & _ & H).
  rewrite bind_done in H. destruct H as (v & _ & H). destruct v as [v|]; [|done].
  rewrite bind_done in H. destruct H as (rest & Hr & H). destruct rest as [rest|]; [|done].
  injection H as <-. destruct (IH _ _ Hr) as [Hl Hf]. split; [cbn; lia|].
  apply Forall_cons_2; [apply clamp16_ok|done].
Qed.

Lemma rd_sample_ok l i : 0 ≤ i < zlen l → ∃ s, rd_sample l i = Done s.
Proof.
  intros Hi. unfold rd_sample. zdec.
  destruct (lookup_lt_is_Some_2 l (Z.to_nat i)) as [s ->]; [unfold zlen in *; lia|]. by exists s.
Qed.

Lemma pcm16_int16 alloc o samples :
  (∀ b bytes, o = PyBuffer b bytes → bytes_ok bytes) →
  pcm16_from_obj alloc o = Ret samples → Forall int16_ok samples.
Proof.
  intros Ho. unfold pcm16_from_obj. destruct o as [|b bytes| |]; cbn; try done.
  specialize (Ho _ _ eq_refl). repeat case_match; try done; intros [= <-];
    by apply samples_of_bytes_ok.
Qed.

(** * Properties *)

(** Mu-law coding is accurate. Every sample a C [long long] can hold, the
    least one excepted, is coded to a byte; decoding it gives the sign back and
    the magnitude, clipped at 32635, to within one part in 32 of the biased
    magnitude (half a step of its segment). *)
Theorem ulaw_accuracy (s : Z) (Hs : s ≠ LLONG_MIN) :
  ∃ u, linear2ulaw_scalar s = Done u ∧ 0 ≤ u < 256
    ∧ (s < 0 → ulaw2linear_scalar u ≤ 0) ∧ (0 ≤ s → 0 ≤ ulaw2linear_scalar u)
    ∧ 32 * Z.abs (Z.abs (ulaw2linear_scalar u) - Z.min (Z.abs s) ULAW_CLIP)
      ≤ Z.min (Z.abs s) ULAW_CLIP + ULAW_BIAS.
Proof.
  destruct (linear2ulaw_cell s Hs) as (r & m & Hr & Hm & Hc & H).
  eexists. split; [exact H|]. split; [unfold ulaw_sign; case_match; lia|].
  rewrite decode_cell by done. unfold ulaw_mag, ULAW_BIAS in *.
  set (a := Z.min (Z.abs s) ULAW_CLIP) in *. clearbody a.
  rewrite Z.pow_add_r in Hc by lia. change (2 ^ 3) with 8 in Hc.
  assert (1 ≤ 2 ^ r) as Hp by (pose proof (Z.pow_pos_nonneg 2 r); lia).
  set (p := 2 ^ r) in *. clearbody p.
  assert (0 ≤ m * p) by (apply Z.mul_nonneg_nonneg; lia).
  replace (((16 + m) * 8 + 4) * p - 132) with (132 * p + 8 * (m * p) - 132) by lia.
  replace ((16 + m) * (p * 8)) with (128 * p + 8 * (m * p)) in Hc by lia.
  replace ((17 + m) * (p * 8)) with (136 * p + 8 * (m * p)) in Hc by lia.
  set (x := m * p) in *. clearbody x. case_match; zbool; lia.
Qed.

(** The only sample the coder cannot take is the least [long long], whose
    negation overflows; Python can pass it. *)
Theorem linear2ulaw_undefined (s : Z) :
  linear2ulaw_scalar s = Undefined ↔ s = LLONG_MIN.
Proof.
  split; [|by intros ->]. intros H. destruct (decide (s = LLONG_MIN)) as [|Hne]; [done|].
  by rewrite (ulaw_code_done s Hne) in H.
Qed.

(** Decoding then coding gives every byte back, except the code 0x7F of
    minus zero, which comes back as 0xFF, plus zero. *)
Theorem ulaw_round_trip (u : Z) (Hu : 0 ≤ u < 256) :
  linear2ulaw_scalar (ulaw2linear_scalar u) = Done (if u =? 127 then 255 else u).
Proof.
  pose (f := λ u, match linear2ulaw_scalar (ulaw2linear_scalar u) with
                  | Done v => v =? (if u =? 127 then 255 else u) | _ => false end).
  assert (f u = true) as H; [|subst f; cbn in H; case_match; [|done..]; zbool; by subst].
  apply (all_below_spec 256); [|done]. vm_compute. reflexivity.
Qed.

(** C34: the table driven converters apply the scalar ones to every element:
    a buffer of bytes or of 16-bit items is coded sample by sample, and coded
    bytes are decoded to an array of as many samples, for any contents. *)
Theorem ulaw_buffers (alloc : Z → bool) (itemsize : Z) (bytes : list Z)
    (Hb : bytes_ok bytes) (Hi : itemsize = 1 ∨ itemsize = 2) (Hl : zlen bytes mod 2 = 0)
    (Ha : ∀ n, alloc n = true) :
  let samples := samples_of_bytes bytes in
  ∃ codes,
    PyRtpUtils_linear2ulaw alloc (PyBuffer itemsize bytes) = Done (Ret (VBytes codes))
    ∧ Forall2 (λ s u, linear2ulaw_scalar s = Done u) samples codes
    ∧ bytes_ok codes
    ∧ PyRtpUtils_ulaw2linear alloc true (PyBuffer 1 codes) =
        Done (Ret (VArrayH (map ulaw2linear_scalar codes))).
Proof.
  intros samples. pose proof (samples_of_bytes_ok _ Hb) as Hs. fold samples in Hs.
  assert (pcm16_from_obj alloc (PyBuffer itemsize bytes) = Ret samples) as Hp.
  { unfold pcm16_from_obj, PyObject_GetBuffer. cbn [mbind pyres_bind].
    rewrite Hl, Ha, andb_false_r. by destruct Hi as [-> | ->]. }
  exists (map ulaw_code samples).
  assert (bytes_ok (map ulaw_code samples)) as Hc.
  { apply Forall_map. eapply Forall_impl; [exact Hs|]. intros s Hs'.
    apply ulaw_code_range. unfold int16_ok, LLONG_MIN in *. lia. }
  split; [|split; [|split; [done|]]].
  - unfold PyRtpUtils_linear2ulaw. rewrite ensure_tables_ok. cbn [mbind outcome_bind].
    rewrite Hp. rewrite (fill_ok _ ulaw_code); [done|].
    eapply Forall_impl; [exact Hs|]. apply encode_entry.
  - apply Forall2_fmap_r. apply Forall_Forall2_diag. eapply Forall_impl; [exact Hs|].
    intros s Hs'. apply ulaw_code_done. unfold int16_ok, LLONG_MIN in *. lia.
  - unfold PyRtpUtils_ulaw2linear. rewrite ensure_tables_ok. cbn [mbind outcome_bind].
    cbn [PyObject_GetBuffer Z.eqb Pos.eqb negb]. rewrite Ha, andb_false_r.
    rewrite (fill_ok _ ulaw2linear_scalar).
    + cbn. rewrite samples_bytes_id; [done|]. apply Forall_map, Forall_true.
      intros. apply ulaw2linear_range.
    + eapply Forall_impl; [exact Hc|]. intros u Hu. unfold byte_ok in Hu.
      cbn [g_ulaw_to_pcm]. by rewrite rd_table_map by lia.
Qed.

(** Resampling keeps to its contract. Whatever array it returns holds
    16-bit samples; with equal rates it is the input; without input it is
    empty; otherwise its length is the ratio of the rates applied to the length
    of the input, rounded half to even, and at least one. *)
Theorem resample_result (alloc : Z → bool) (ctor : bool) (o : pyobj) (in_rate out_rate : Z)
    (v : pyval)
    (Ho : ∀ b bytes, o = PyBuffer b bytes → bytes_ok bytes)
    (H : PyRtpUtils_resample_linear alloc ctor o (PyInt in_rate) (PyInt out_rate) = Done (Ret v)) :
  0 < in_rate ∧ 0 < out_rate ∧
  ∃ samples out, pcm16_from_obj alloc o = Ret samples ∧ v = VArrayH out ∧ Forall int16_ok out
    ∧ (in_rate = out_rate → out = samples)
    ∧ (samples = [] → out = [])
    ∧ (in_rate ≠ out_rate → samples ≠ [] →
        resample_length (zlen samples) in_rate out_rate = Done (Some (zlen out)) ∧ 1 ≤ zlen out).
Proof.
  unfold PyRtpUtils_resample_linear, arg_int in H.
  destruct (in_int in_rate); [|done]. destruct (in_int out_rate); [|done].
  cbn [mbind pyres_bind] in H. case_match eqn:Hpos; [done|].
  zbool. split; [done|]. split; [done|].
  destruct (pcm16_from_obj alloc o) as [samples|e] eqn:Hp; [|done].
  pose proof (pcm16_int16 _ _ _ Ho Hp) as Hs. unfold array_h_from_pcm16 in H.
  case_match eqn:Er; zbool.
  { case_match; [done|]. injection H as <-. exists samples, samples.
    rewrite samples_bytes_id by done. by split_and!. }
  case_match eqn:El; zbool.
  { case_match; [done|]. injection H as <-. destruct samples; [|zlen]. by exists [], []. }
  rewrite bind_done in H. destruct H as (n_out & Hn & H). destruct n_out as [n_out|]; [|done].
  case_match; [done|]. rewrite bind_done in H. destruct H as (out & Hloop & H).
  destruct out as [out|]; [|done]. case_match; [done|]. injection H as <-.
  apply resample_loop_spec in Hloop as [Hlen Hout]. rewrite samples_bytes_id by done.
  assert (1 ≤ n_out) as Hn1.
  { unfold resample_length in Hn. rewrite bind_done in Hn. destruct Hn as (r & _ & Hn).
    injection Hn as Hn. destruct r as [n|]; [|done]. case_match; [done|].
    injection Hn as <-. case_match; zbool; lia. }
  assert (zlen out = n_out) as Ez by (unfold zlen; lia).
  exists samples, out. split_and!; try done; [by intros -> |].
  intros _ _. rewrite Ez. by split.
Qed.

(** The resampler reads inside the input. The position of every output
    sample, once converted to an index, is not negative, and the one or two
    samples it is computed from are there. *)
Theorem resample_in_bounds (l : list Z) (in_rate out_rate i idx : Z)
    (Hl : l ≠ []) (Hin : 0 < in_rate) (Hout : 0 < out_rate) (Hi : 0 ≤ i)
    (Hidx : d_trunc (d_mul (d_of_Z i) (d_div (d_of_Z in_rate) (d_of_Z out_rate))) = Done idx) :
  0 ≤ idx ∧
  ∃ s, interpolate l (d_mul (d_of_Z i) (d_div (d_of_Z in_rate) (d_of_Z out_rate))) = Done s.
Proof.
  set (pos := d_mul _ _) in *.
  assert (0 ≤ idx) as H0.
  { apply (d_trunc_nonneg pos); [|done].
    apply d_mul_sign; [apply d_of_Z_sign; lia|apply d_div_sign; apply d_of_Z_sign; lia]. }
  split; [done|]. unfold interpolate. rewrite Hidx. cbn [mbind outcome_bind].
  assert (0 < zlen l) by (destruct l; [done|zlen]).
  case_match; zbool.
  - destruct (rd_sample_ok l (zlen l - 1)) as [s ->]; [lia|]. by eexists.
  - destruct (rd_sample_ok l idx) as [s0 ->]; [lia|].
    destruct (rd_sample_ok l (idx + 1)) as [s1 ->]; [lia|]. by eexists.
Qed.

(** * Witnesses *)

Example resample_up :
  PyRtpUtils_resample_linear (λ _, true) true (PyBuffer 1 [0;0; 100;0; 0;1]) (PyInt 8000) (PyInt 16000)
  = Done (Ret (VArrayH [0; 50; 100; 178; 256; 256])).
Proof. vm_compute. reflexivity. Qed.

Lemma ulaw_accuracy_witness :
  ∃ u, linear2ulaw_scalar (-1000) = Done u ∧ 0 ≤ u < 256.
Proof.
  destruct (ulaw_accuracy (-1000)) as (u & H1 & H2 & _); [done|]. by exists u.
Defined.

Lemma ulaw_round_trip_witness : linear2ulaw_scalar (ulaw2linear_scalar 127) = Done 255.
Proof. by apply (ulaw_round_trip 127). Defined.

Lemma ulaw_buffers_witness :
  ∃ codes, PyRtpUtils_linear2ulaw (λ _, true) (PyBuffer 2 [24; 252; 0; 128]) =
    Done (Ret (VBytes codes)) ∧ length codes = 2%nat.
Proof.
  destruct (ulaw_buffers (λ _, true) 2 [24; 252; 0; 128]) as (codes & H1 & H2 & _);
    [bytes_tac|by right|done|done|].
  exists codes. split; [exact H1|]. by rewrite <- (Forall2_length _ _ _ H2).
Defined.

Lemma resample_result_witness :
  ∃ out, Forall int16_ok out ∧
    resample_length 3 8000 16000 = Done (Some (zlen out)) ∧ zlen out = 6.
Proof.
  destruct (resample_result (λ _, true) true (PyBuffer 1 [0;0; 100;0; 0;1]) 8000 16000 _
    ltac:(intros b bytes [= <- <-]; bytes_tac) resample_up)
    as (_ & _ & samples & out & Hp & [= <-] & Hf & _ & _ & Hl).
  exists [0; 50; 100; 178; 256; 256]. injection Hp as <-. split; [done|]. split; [|done].
  by apply Hl.
Defined.

Lemma resample_in_bounds_witness :
  ∃ s, interpolate [5; 6] (d_mul (d_of_Z 3) (d_div (d_of_Z 8000) (d_of_Z 16000))) = Done s.
Proof.
  refine (proj2 (resample_in_bounds [5; 6] 8000 16000 3 1 _ _ _ _ _)); try done; by vm_compute.
Defined.
