(* ===== verification/PySynth.v ===== *)
(** The Python type of the packet generator: src/python/RtpSynth_mod.c, and the
    streams it produces. *)
From stdpp Require Import prelude list.
From Stdlib Require Import ZArith Lia.
From S2P Require Import Prelude Rtp Synth Py.
Local Open Scope Z_scope.

(** * The random callback *)

Section Module.
Context {W : Type} (random : W * option exn → Z * (W * option exn)).

(** What calling a Python callable comes to. *)
Inductive callres : Set :=
| CallInt (z : Z)
| CallOther
| CallTypeError
| CallError (e : exn).

(** A callable, called without arguments or with one [int]. *)
Definition pyfun : Type := option Z → W → callres * W.

(** The interpreter: the outside world and the pending exception. *)
Definition interp : Type := W * option exn.

(** [PyLong_AsUnsignedLongLong]. *)
Definition as_ulonglong (r : callres) : pyres Z :=
  match r with
  | CallInt z => if (0 <=? z) && (z <=? U64_MAX) then Ret z else Raise OverflowError
  | _ => Raise TypeError
  end.

Definition PyRtpSynth_randfunc (g_randfunc : option pyfun) : rsynth_randfunc_t (world := interp) :=
  λ _ '(w, err),
    match g_randfunc with
    | None => (0, (w, Some RuntimeError))
    | Some callable =>
        let '(res, w) := callable None w in
        let '(res, w) :=
          match res with CallTypeError => callable (Some 32) w | _ => (res, w) end in
        match res with
        | CallTypeError | CallError _ => (0, (w, Some RuntimeError))
        | _ =>
            match as_ulonglong res with
            | Ret tmp =>
                (* an exception that was pending already also counts *)
                match err with None => (u32 tmp, (w, None)) | Some e => (0, (w, Some e)) end
            | Raise e => (0, (w, Some e))
            end
        end
    end.

(** The module's globals: [g_randfunc] and the library's hook. *)
Record module_state : Type := {
  g_randfunc : option pyfun;
  hook : rand_hook (world := interp);
}.

Inductive randfunc_arg : Type := ArgNone | ArgCallable (f : pyfun) | ArgOther.

Definition PyRtpSynth_set_randfunc (st : module_state) (arg : randfunc_arg)
    : pyres pyobj * module_state :=
  match arg with
  | ArgNone =>
      (Ret PyNone, {| g_randfunc := None; hook := rsynth_set_randfunc random None 0 |})
  | ArgOther => (Raise TypeError, st)
  | ArgCallable f =>
      (Ret PyNone, {| g_randfunc := Some f;
                      hook := rsynth_set_randfunc random (Some (PyRtpSynth_randfunc (Some f))) 0 |})
  end.

(** [PyRtpSynth_init]: the new value of [self->rs]. *)
Definition PyRtpSynth_init (st : module_state) (alloc : bool) (clock : option timespec)
    (rs : option rsynth_inst) (srate ptime : pyobj) (i : interp)
    : outcome (pyres () * option rsynth_inst * interp) :=
  match arg_int srate, arg_int ptime with
  | Ret srate, Ret ptime =>
      r ← rsynth_ctor (hook st) alloc srate ptime clock i;
      match r with
      | (Some inst, i) => Done (Ret (), Some inst, i)
      | (None, i) => Done (Raise RuntimeError, None, i)
      end
  | Raise e, _ => Done (Raise e, rs, i)
  | _, Raise e => Done (Raise e, rs, i)
  end.
End Module.

(** * Methods *)

(** [bytes(pload)] of an object that has the buffer protocol. *)
Definition PyObject_Bytes (o : pyobj) : pyres (list Z) :=
  match o with PyBuffer _ bytes => Ret bytes | _ => Raise TypeError end.

(** The payload argument: [None] when it is absent. *)
Definition payload_arg (pload : pyobj) (pktlen : Z) : pyres (option (list Z)) :=
  match pload with
  | PyNone => Ret None
  | _ =>
      bytes ← PyObject_Bytes pload;
      if pktlen <? zlen bytes then Raise ValueError else Ret (Some bytes)
  end.

(** [next_pkt(plen, pt, pload)]: [mem n] is the fresh bytes object of [n]
    uninitialised bytes, if there is memory. *)
Definition PyRtpSynth_next_pkt (mem : Z → option (list Z)) (clock : option timespec)
    (rs : option rsynth_inst) (plen_o pt_o pload : pyobj)
    : outcome (pyres (list Z) * option rsynth_inst) :=
  match rs with
  | None => Done (Raise RuntimeError, rs)
  | Some inst =>
      match arg_int plen_o, arg_int pt_o with
      | Ret plen, Ret pt =>
          pktlen ← int_chk (plen + 32);
          if pktlen <=? 0 then Done (Raise ValueError, rs)
          else
            match payload_arg pload pktlen with
            | Raise e => Done (Raise e, rs)
            | Ret payload =>
                match mem pktlen with
                | None => Done (Raise MemoryError, rs)
                | Some buf =>
                    buf ← (match payload with
                           | None => Done buf
                           | Some bytes =>
                               buf ← memset buf 0 0 pktlen; mem_write buf 0 bytes
                           end);
                    r ← rsynth_next_pkt_pa inst plen pt buf pktlen
                          (match payload with None => 0 | Some _ => 1 end) clock;
                    let '(outlen, inst, buf) := r : Z * rsynth_inst * list Z in
                    if (outlen <? 0) || (pktlen <? outlen)
                    then Done (Raise RuntimeError, Some inst)
                    else Done (Ret (take (Z.to_nat outlen) buf), Some inst)
                end
            end
      | Raise e, _ => Done (Raise e, rs)
      | _, Raise e => Done (Raise e, rs)
      end
  end.

(** The ["I"] unit converts without a check. *)
Definition PyRtpSynth_set_mbt (rs : option rsynth_inst) (new_st : pyobj)
    : pyres pyobj * option rsynth_inst :=
  match rs with
  | None => (Raise RuntimeError, rs)
  | Some inst =>
      match new_st with
      | PyInt z =>
          let (old, inst) := Synth.rsynth_set_mbt inst (u32 z) in
          (Ret (PyInt old), Some inst)
      | _ => (Raise TypeError, rs)
      end
  end.

(** [resync()] and [resync(ts, seq)]: the arguments are parsed and lost. *)
Definition PyRtpSynth_resync (clock : option timespec) (uninit : timespec)
    (rs : option rsynth_inst) (args : list pyobj) : pyres pyobj * option rsynth_inst :=
  match rs with
  | None => (Raise RuntimeError, rs)
  | Some inst =>
      match args with
      | [] | [PyInt _; PyInt _] => (Ret PyNone, Some (rsynth_resync inst clock uninit).2)
      | _ => (Raise TypeError, rs)
      end
  end.

Definition PyRtpSynth_skip (rs : option rsynth_inst) (npkts : pyobj)
    : outcome (pyres pyobj * option rsynth_inst) :=
  match rs with
  | None => Done (Raise RuntimeError, rs)
  | Some inst =>
      match arg_int npkts with
      | Raise e => Done (Raise e, rs)
      | Ret n => inst ← rsynth_skip inst n; Done (Ret PyNone, Some inst)
      end
  end.

(** [pkt_free]: the address that is freed, if any. *)
Inductive free_arg : Set := FreeCapsule (ptr : option Z) | FreeInt (z : Z) | FreeOther.

Definition PyRtpSynth_pkt_free (a : free_arg) : pyres (option Z) :=
  match a with
  | FreeCapsule p => match p with Some p => Ret (Some p) | None => Ret None end
  | FreeInt z =>
      if (0 <=? z) && (z <=? U64_MAX) then Ret (if z =? 0 then None else Some z)
      else Raise OverflowError
  | FreeOther => Raise TypeError
  end.

(** * One packet *)

Lemma set_pt_mask b pt : set_pt b (pt mod 128) = set_pt b pt.
Proof.
  unfold set_pt. f_equal. change 128 with (2 ^ 7). rewrite <- Z.land_ones by lia.
  change 127 with (Z.ones 7). by rewrite <- Z.land_assoc, Z.land_diag.
Qed.

Lemma next_pkt_pa_pt r plen pt buf blen filled clock :
  rsynth_next_pkt_pa r plen (pt mod 128) buf blen filled clock =
  rsynth_next_pkt_pa r plen pt buf blen filled clock.
Proof.
  unfold rsynth_next_pkt_pa, write_header. case_match; [done|].
  destruct (place_payload _ _ _ _ _) as [b| | |]; [|done..]. cbn [mbind outcome_bind].
  destruct (mem_write b 0 (model r)) as [b1| | |]; [|done..]. cbn [mbind outcome_bind].
  destruct (rd8 b1 1) as [x| | |]; [|done..]. cbn [mbind outcome_bind]. by rewrite set_pt_mask.
Qed.

(** The payload that is sent: what was given, cut or padded with zeros to
    [plen] bytes. *)
Definition sent_payload (plen : Z) (payload : option (list Z)) : list Z :=
  take (Z.to_nat plen) (default [] payload ++ replicate (Z.to_nat plen) 0).

Lemma sent_payload_bytes plen payload :
  (∀ p, payload = Some p → bytes_ok p) → bytes_ok (sent_payload plen payload).
Proof.
  intros Hp. unfold sent_payload, bytes_ok. apply Forall_take, Forall_app. split.
  - destruct payload; cbn; [by apply Hp|constructor].
  - by apply Forall_replicate.
Qed.

Lemma zeros_written n bytes :
  zlen bytes ≤ n →
  ∀ buf, zlen buf = n →
  (b ← memset buf 0 0 n; mem_write b 0 bytes) =
    Done (bytes ++ replicate (Z.to_nat (n - zlen bytes)) 0).
Proof.
  intros Hb buf Hn. pose proof (zlen_nonneg bytes). unfold memset. zdec.
  rewrite mem_write_ok by (autorewrite with zlen; lia). cbn [mbind outcome_bind].
  rewrite zlen_replicate, Z2Nat.id, drop_ge by (unfold zlen in *; lia).
  cbn [app]. rewrite app_nil_r.
  rewrite mem_write_ok by (autorewrite with zlen; lia).
  change (Z.to_nat 0) with 0%nat. rewrite !take_0. cbn [app].
  do 2 f_equal.
  rewrite drop_replicate. f_equal. lia.
Qed.

Lemma py_next_pkt_ok mem clock inst plen pt pload payload :
  synth_wf inst → 0 ≤ plen → plen + 32 ≤ MAX_PACKET → INT_MIN ≤ pt ≤ INT_MAX →
  (∀ n, 0 ≤ n → ∃ b, mem n = Some b ∧ zlen b = n) →
  payload_arg pload (plen + 32) = Ret payload →
  PyRtpSynth_next_pkt mem clock (Some inst) (PyInt plen) (PyInt pt) pload =
    Done (Ret (serialize (synth_packet inst (pt mod 128) (sent_payload plen payload))),
          Some (synth_advance inst clock)).
Proof.
  intros Hwf Hpl Hmax Hpt Hmem Hpay. unfold MAX_PACKET in Hmax.
  unfold PyRtpSynth_next_pkt, arg_int.
  assert (in_int plen = true) as -> by (unfold in_int, INT_MIN, INT_MAX; zdec; done).
  assert (in_int pt = true) as -> by (unfold in_int in *; zdec; done).
  rewrite int_chk_ok by (unfold INT_MIN, INT_MAX; lia). cbn [mbind outcome_bind].
  zdec. rewrite Hpay. destruct (Hmem (plen + 32)) as (buf & -> & Hbuf); [lia|].
  assert (∃ buf', (match payload with
           | None => Done buf
           | Some bytes => b ← memset buf 0 0 (plen + 32); mem_write b 0 bytes
           end) = Done buf' ∧ zlen buf' = plen + 32 ∧
           (if (match payload with None => 0 | Some _ => 1 end) =? 0
            then replicate (Z.to_nat plen) 0 else take (Z.to_nat plen) buf')
           = sent_payload plen payload) as (buf' & -> & Hl' & Hp').
  { unfold sent_payload. destruct payload as [bytes|]; cbn [Z.eqb default].
    - assert (zlen bytes ≤ plen + 32) as Hle.
      { unfold payload_arg in Hpay. destruct pload; try done; cbn in Hpay;
          (case_match; [done|]); injection Hpay as <-; zbool; lia. }
      eexists. split; [by apply zeros_written|]. split.
      + pose proof (zlen_nonneg bytes). autorewrite with zlen. lia.
      + cbn. rewrite !take_app. f_equal. rewrite !take_replicate. f_equal.
        unfold zlen in *. lia.
    - exists buf. split; [done|]. split; [done|]. cbn. rewrite take_replicate. f_equal. lia. }
  cbn [mbind outcome_bind]. rewrite <- next_pkt_pa_pt.
  rewrite next_pkt_pa_ok; [|done|by apply Z.mod_pos_bound|done|unfold SIZEOF_RTP_HDR; lia|done|unfold MAX_PACKET; lia].
  cbn [mbind outcome_bind]. unfold SIZEOF_RTP_HDR. zdec. cbn [orb].
  rewrite Hp'. do 3 f_equal. apply take_app_length'.
  assert (zlen (sent_payload plen payload) = plen) as Hsl.
  { unfold sent_payload, zlen. rewrite length_take, length_app, length_replicate. lia. }
  assert (zlen (serialize (synth_packet inst (pt mod 128) (sent_payload plen payload))) = 12 + plen)
    as Hz; [|unfold zlen in Hz; lia].
  unfold serialize. cbn [synth_packet pk_csrc pk_ext pk_payload pk_pad ext_bytes pad_bytes].
  unfold fixed_header. autorewrite with zlen. rewrite Hsl. lia.
Qed.

(** * Streams *)

(** The generator after [i] packets. *)
Fixpoint synth_after (clocks : nat → option timespec) (i : nat) (r : rsynth_inst) : rsynth_inst :=
  match i with
  | O => r
  | S i => synth_advance (synth_after clocks i r) (clocks i)
  end.

Lemma synth_after_fields clocks i r :
  synth_wf r →
  let r' := synth_after clocks i r in
  synth_wf r' ∧ ts_inc r' = ts_inc r ∧
  sq_seq (l r') = u64 (sq_seq (l r) + Z.of_nat i) ∧
  sq_ts (l r') = u64 (sq_ts (l r) + Z.of_nat i * ts_inc r) ∧
  synth_ssrc r' = synth_ssrc r ∧
  (hdr_mbt (byte_at (model r') 1) =? 1) = (if i is O then hdr_mbt (byte_at (model r) 1) =? 1 else false).
Proof.
  intros Hwf. induction i as [|i IH]; cbn zeta in *.
  - cbn [synth_after]. rewrite !u64_small by (destruct Hwf; lia). split_and!; try done; lia.
  - destruct IH as (H1 & H2 & H3 & H4 & H5 & _). cbn [synth_after].
    set (r' := synth_after clocks i r) in *.
    split; [by apply synth_advance_wf|]. split; [done|].
    cbn [synth_advance l sq_seq sq_ts]. rewrite H2, H3, H4. split_and!.
    + unfold u64. rewrite Zplus_mod_idemp_l. f_equal. lia.
    + unfold u64. rewrite Zplus_mod_idemp_l. f_equal. lia.
    + rewrite <- H5. unfold synth_ssrc. cbn [synth_advance model].
      destruct (model_shape r' H1) as (?&?&?&?&?&?&?&?&?&?&?&Hm&_). rewrite Hm. done.
    + cbn [synth_advance model].
      destruct (model_shape r' H1) as (b1&?&?&?&?&?&?&?&?&?&?&Hm&Hb1&_). rewrite Hm.
      cbn [byte_at nth insert list_insert].
      by destruct (set_mbt_spec b1 0 Hb1) as [-> _].
Qed.

(** The packet number [i] of the stream a generator is about to produce. *)
Definition stream_packet (r : rsynth_inst) (pt i : Z) (payload : list Z) : packet :=
  {| pk_marker := (i =? 0) && (hdr_mbt (byte_at (model r) 1) =? 1); pk_pt := pt;
     pk_seq := (sq_seq (l r) + i) mod 65536;
     pk_ts := (sq_ts (l r) + i * ts_inc r) mod 4294967296;
     pk_ssrc := synth_ssrc r; pk_csrc := []; pk_ext := None;
     pk_payload := payload; pk_pad := None |}.

Lemma stream_packet_after clocks r pt i payload :
  synth_wf r →
  synth_packet (synth_after clocks i r) pt payload = stream_packet r pt (Z.of_nat i) payload.
Proof.
  intros Hwf. destruct (synth_after_fields clocks i r Hwf) as (_ & _ & H3 & H4 & H5 & H6).
  unfold synth_packet, stream_packet. rewrite H3, H4, H5, H6. f_equal.
  - by destruct i.
  - unfold u64. rewrite Z.mod_mod_divide; [done|]. by exists 281474976710656.
  - unfold u64. rewrite Z.mod_mod_divide; [done|]. by exists 4294967296.
Qed.

(** Calling [next_pkt] once for each payload, with its own length. *)
Fixpoint gen_stream (mem : Z → option (list Z)) (clocks : nat → option timespec) (pt : Z)
    (rs : option rsynth_inst) (i : nat) (payloads : list (list Z))
    : outcome (pyres (list (list Z)) * option rsynth_inst) :=
  match payloads with
  | [] => Done (Ret [], rs)
  | p :: ps =>
      x ← PyRtpSynth_next_pkt mem (clocks i) rs (PyInt (zlen p)) (PyInt pt) (PyBuffer 1 p);
      match x with
      | (Raise e, rs) => Done (Raise e, rs)
      | (Ret pkt, rs) =>
          y ← gen_stream mem clocks pt rs (S i) ps;
          match y with
          | (Raise e, rs) => Done (Raise e, rs)
          | (Ret pkts, rs) => Done (Ret (pkt :: pkts), rs)
          end
      end
  end.

Lemma sent_payload_all p : sent_payload (zlen p) (Some p) = p.
Proof.
  unfold sent_payload, zlen. cbn. rewrite Nat2Z.id. by rewrite take_app_length.
Qed.

Lemma gen_stream_ok mem clocks pt r payloads i :
  synth_wf r → INT_MIN ≤ pt ≤ INT_MAX →
  (∀ n, 0 ≤ n → ∃ b, mem n = Some b ∧ zlen b = n) →
  Forall (λ p, zlen p + 32 ≤ MAX_PACKET) payloads →
  gen_stream mem clocks pt (Some (synth_after clocks i r)) i payloads =
    Done (Ret (imap (λ j p, serialize (stream_packet r (pt mod 128) (Z.of_nat (i + j)) p)) payloads),
          Some (synth_after clocks (i + length payloads) r)).
Proof.
  intros Hwf Hpt Hmem Hp. revert i. induction Hp as [|p ps Hp _ IH]; intros i.
  { cbn. by rewrite Nat.add_0_r. }
  cbn [gen_stream]. pose proof (synth_after_fields clocks i r Hwf) as [Hwf' _].
  rewrite (py_next_pkt_ok mem (clocks i) _ (zlen p) pt (PyBuffer 1 p) (Some p));
    [|done|apply zlen_nonneg|done|done|done|].
  2:{ unfold payload_arg. cbn. by zdec. }
  cbn [mbind outcome_bind].
  change (synth_advance (synth_after clocks i r) (clocks i)) with (synth_after clocks (S i) r).
  rewrite IH. cbn [mbind outcome_bind]. rewrite sent_payload_all, stream_packet_after by done.
  rewrite imap_cons, Nat.add_0_r. cbn [length]. do 3 f_equal.
  - f_equal. apply imap_ext. intros j x _. cbn. by rewrite Nat.add_succ_r.
  - f_equal. by rewrite Nat.add_succ_r.
Qed.

Lemma stream_packet_wf r pt i payload :
  synth_wf r → 0 ≤ pt < 128 → bytes_ok payload → packet_wf (stream_packet r pt i payload).
Proof.
  intros Hwf Hpt Hb. destruct (model_shape r Hwf) as
    (?&?&?&?&?&?&?&?&?&?&?&_&_&_&Hs).
  split; cbn; try done; try (apply Z.mod_pos_bound; lia).
  split_and!; try done. constructor.
Qed.

(** * Properties *)

(** C33: what [next_pkt] returns to Python is exactly one RTP packet: for every
    payload length up to the limit, any integer payload type (which is reduced
    to its low seven bits) and any payload that fits, the bytes are the wire
    form of the packet the generator's state describes, with the payload cut or
    padded with zeros to the length asked for; they parse back to it, and the
    generator moves on by one packet. *)
Theorem py_next_pkt_wire (mem : Z → option (list Z)) (clock : option timespec)
    (inst : rsynth_inst) (plen pt : Z) (pload : pyobj) (payload : option (list Z))
    (Hwf : synth_wf inst) (Hplen : 0 ≤ plen) (Hmax : plen + 32 ≤ MAX_PACKET)
    (Hpt : INT_MIN ≤ pt ≤ INT_MAX)
    (Hmem : ∀ n, 0 ≤ n → ∃ b, mem n = Some b ∧ zlen b = n)
    (Hpay : payload_arg pload (plen + 32) = Ret payload)
    (Hbytes : ∀ p, payload = Some p → bytes_ok p) :
  let p := synth_packet inst (pt mod 128) (sent_payload plen payload) in
  PyRtpSynth_next_pkt mem clock (Some inst) (PyInt plen) (PyInt pt) pload =
    Done (Ret (serialize p), Some (synth_advance inst clock))
  ∧ rtp_packet_parse_raw (serialize p) (zlen (serialize p)) rtp_info_zero
    = Done (RTP_PARSER_OK, packet_info p).
Proof.
  intros p. split; [by apply py_next_pkt_ok|].
  assert (packet_wf p) as Hp.
  { apply synth_packet_wf; [done|by apply Z.mod_pos_bound|by apply sent_payload_bytes]. }
  apply parse_serialize; [done|]. unfold serialize, p.
  cbn [synth_packet pk_csrc pk_ext pk_payload pk_pad ext_bytes pad_bytes].
  unfold fixed_header, sent_payload. autorewrite with zlen.
  assert (zlen (take (Z.to_nat plen) (default [] payload ++ replicate (Z.to_nat plen) 0)) ≤ plen).
  { unfold zlen. rewrite length_take. lia. }
  lia.
Qed.

(** A stream is a stream. Successive calls give the packets numbered
    consecutively modulo 2^16, with timestamps that advance by the increment
    modulo 2^32, one SSRC and payload type throughout, the marker at most on
    the first, each carrying its payload, whatever the clock does. *)
Theorem py_stream (mem : Z → option (list Z)) (clocks : nat → option timespec)
    (r : rsynth_inst) (pt : Z) (payloads : list (list Z))
    (Hwf : synth_wf r) (Hpt : INT_MIN ≤ pt ≤ INT_MAX)
    (Hmem : ∀ n, 0 ≤ n → ∃ b, mem n = Some b ∧ zlen b = n)
    (Hlen : Forall (λ p, zlen p + 32 ≤ MAX_PACKET) payloads) :
  ∃ pkts r', gen_stream mem clocks pt (Some r) 0 payloads = Done (Ret pkts, Some r')
    ∧ length pkts = length payloads
    ∧ (∀ i d, pkts !! i = Some d → ∃ p, payloads !! i = Some p ∧
         d = serialize (stream_packet r (pt mod 128) (Z.of_nat i) p))
    ∧ synth_wf r' ∧ sq_seq (l r') = u64 (sq_seq (l r) + zlen payloads).
Proof.
  pose proof (gen_stream_ok mem clocks pt r payloads 0 Hwf Hpt Hmem Hlen) as H.
  destruct (synth_after_fields clocks (length payloads) r Hwf) as (H1 & _ & H3 & _).
  eexists _, _. split; [exact H|]. split; [by rewrite length_imap|]. split; [|by split].
  intros i d Hd. rewrite list_lookup_imap in Hd.
  destruct (payloads !! i) as [p|]; [|done]. injection Hd as <-. by exists p.
Qed.

(** Every way [next_pkt] fails is a Python exception that leaves the
    generator alone: without an instance, for a length of -32 or less, for a
    payload that does not fit, and without memory. *)
Theorem py_next_pkt_errors (mem : Z → option (list Z)) (clock : option timespec)
    (rs : option rsynth_inst) (plen pt : Z) (pload : pyobj)
    (Hplen : INT_MIN ≤ plen ≤ INT_MAX - 32) (Hpt : INT_MIN ≤ pt ≤ INT_MAX)
    (Hbad : rs = None ∨ plen ≤ -32
            ∨ (∃ e, payload_arg pload (plen + 32) = Raise e) ∨ mem (plen + 32) = None) :
  ∃ e, PyRtpSynth_next_pkt mem clock rs (PyInt plen) (PyInt pt) pload = Done (Raise e, rs).
Proof.
  unfold PyRtpSynth_next_pkt, arg_int. destruct rs as [inst|]; [|by eexists].
  assert (in_int plen = true) as -> by (unfold in_int, INT_MIN, INT_MAX in *; zdec; done).
  assert (in_int pt = true) as -> by (unfold in_int in *; zdec; done).
  rewrite int_chk_ok by (unfold INT_MIN, INT_MAX in *; lia). cbn [mbind outcome_bind].
  case_match eqn:E; [by eexists|zbool].
  destruct (payload_arg pload (plen + 32)) as [payload|e]; [|by eexists].
  destruct Hbad as [?|[?|[[e ?]|Hm]]]; [done|lia|done|]. rewrite Hm. by eexists.
Qed.

(** * Witnesses and examples *)

Definition fresh_mem (n : Z) : option (list Z) := Some (replicate (Z.to_nat n) 85).

Lemma fresh_mem_ok n : 0 ≤ n → ∃ b, fresh_mem n = Some b ∧ zlen b = n.
Proof. intros Hn. eexists. split; [done|]. rewrite zlen_replicate. lia. Qed.

Lemma py_next_pkt_wire_witness :
  PyRtpSynth_next_pkt fresh_mem None (Some sample_synth) (PyInt 4) (PyInt 128)
    (PyBuffer 1 [1; 2]) =
    Done (Ret (serialize (synth_packet sample_synth 0 [1; 2; 0; 0])),
          Some (synth_advance sample_synth None)).
Proof.
  refine (proj1 (py_next_pkt_wire fresh_mem None sample_synth 4 128 (PyBuffer 1 [1; 2])
    (Some [1; 2]) sample_synth_wf _ _ _ fresh_mem_ok _ _)); try done.
  intros p [= <-]. bytes_tac.
Defined.

Lemma py_stream_witness :
  ∃ pkts r', gen_stream fresh_mem (λ _, None) 0 (Some sample_synth) 0 [[1]; [2]; [3]] =
    Done (Ret pkts, Some r') ∧ length pkts = 3%nat.
Proof.
  destruct (py_stream fresh_mem (λ _, None) sample_synth 0 [[1]; [2]; [3]] sample_synth_wf
    ltac:(done) fresh_mem_ok) as (pkts & r' & H1 & H2 & _); [by repeat constructor|].
  by exists pkts, r'.
Defined.

Lemma py_next_pkt_errors_witness :
  ∃ e, PyRtpSynth_next_pkt fresh_mem None (Some sample_synth) (PyInt (-40)) (PyInt 0) PyNone
       = Done (Raise e, Some sample_synth).
Proof. apply py_next_pkt_errors; [done|done|]. right. left. done. Defined.

(** A negative length that is not rejected: the call runs outside its buffer. *)
Example negative_length_undefined :
  PyRtpSynth_next_pkt fresh_mem None (Some sample_synth) (PyInt (-5)) (PyInt 0)
    (PyBuffer 1 [1]) = Undefined.
Proof. vm_compute. reflexivity. Qed.

(** A random callback that does not return an [int]: the constructor succeeds
    with an exception pending. *)
Example init_with_pending_exception :
  ∃ r, PyRtpSynth_init
    (PyRtpSynth_set_randfunc (λ i : unit * option exn, (7, i))
       {| g_randfunc := None; hook := rsynth_set_randfunc (λ i, (7, i)) None 0 |}
       (ArgCallable (λ _ w, (CallOther, w)))).2
    true None None (PyInt 8000) (PyInt 20) ((), None)
  = Done (Ret (), Some r, ((), Some TypeError)).
Proof. eexists. vm_compute. reflexivity. Qed.
