(* ===== verification/Stream.v ===== *)
(** End to end: the packets of a generator, shuffled by a network, through a
    jitter buffer. *)
From stdpp Require Import prelude list sorting.
From Stdlib Require Import ZArith Lia.
From S2P Require Import Prelude Rtp Synth Py PySynth JBuf JBufProofs JBufOrder.
Local Open Scope Z_scope.

Section shuffle.
Context (r : rsynth_inst) (pt : Z) (payloads : list (list Z)) (n : Z).
Hypothesis r_wf : synth_wf r.
Hypothesis payloads_ok : Forall (λ p, bytes_ok p ∧ zlen p + 32 ≤ MAX_PACKET) payloads.
Hypothesis aligned : sq_seq (l r) mod 65536 = (n + 1) mod 65536.

(** The packet with the logical number [q], when the buffer has seen up to
    [n]: the one the generator makes after [q - n - 1] others. *)
Definition sent (q : Z) : packet :=
  stream_packet r (pt mod 128) (q - (n + 1)) (nth (Z.to_nat (q - (n + 1))) payloads []).

Lemma sent_payload_ok q : bytes_ok (pk_payload (sent q)) ∧ zlen (pk_payload (sent q)) + 32 ≤ MAX_PACKET.
Proof.
  cbn. set (i := Z.to_nat _). destruct (payloads !! i) as [p|] eqn:E.
  - rewrite (nth_lookup_Some _ _ _ _ E). rewrite Forall_lookup in payloads_ok.
    by apply (payloads_ok i).
  - rewrite nth_lookup, E. cbn. split; [constructor|]. unfold MAX_PACKET, zlen. cbn. lia.
Qed.

Lemma sent_wf q : packet_wf (sent q).
Proof.
  apply stream_packet_wf; [done|by apply Z.mod_pos_bound|].
  apply (sent_payload_ok q).
Qed.

Lemma sent_short q : zlen (serialize (sent q)) ≤ MAX_PACKET.
Proof.
  pose proof (sent_payload_ok q) as [_ H]. unfold serialize, fixed_header in *.
  cbn [sent stream_packet pk_csrc pk_ext pk_pad pk_payload ext_bytes pad_bytes] in *.
  autorewrite with zlen. lia.
Qed.

Lemma sent_num q : pk_seq (sent q) = q mod 65536.
Proof.
  cbn. rewrite <- Zplus_mod_idemp_l, aligned, Zplus_mod_idemp_l. f_equal. lia.
Qed.
End shuffle.

(** C8: a stream survives a network that reorders. The packets a generator makes
    from a list of payloads, fewer than the buffer's capacity and at most 535,
    delivered in any order to a jitter buffer that has handed out everything up
    to number [n] and expects the generator's next number, come out complete
    and in order, with the timestamps, payload type, marker and SSRC the
    generator gave them, and nothing is dropped or reported lost. *)
Theorem stream_through_jbuf (mem : Z → option (list Z)) (clocks : nat → option timespec)
    (r : rsynth_inst) (pt n : Z) (payloads : list (list Z)) (addr : Z → Z)
    (st : rtpjbuf_inst) (order : list Z)
    (Hwf : synth_wf r) (Hpt : INT_MIN ≤ pt ≤ INT_MAX)
    (Hmem : ∀ n, 0 ≤ n → ∃ b, mem n = Some b ∧ zlen b = n)
    (Hpay : Forall (λ p, bytes_ok p ∧ zlen p + 32 ≤ MAX_PACKET) payloads)
    (Hseq : sq_seq (l r) mod 65536 = (n + 1) mod 65536)
    (Hinv : jb_inv st) (Hmask : mask_current st) (Hempty : head st = [])
    (Hlast : last_lseq st = n) (Hn : 0 ≤ n) (Hbudget : n + 131072 + WRAP_WINDOW < LSEQ_BUDGET)
    (Hcap : zlen payloads < capacity st) (Hwin : zlen payloads ≤ WRAP_WINDOW)
    (Horder : order ≡ₚ seqZ (n + 1) (zlen payloads)) :
  ∃ pkts r' st',
    gen_stream mem clocks pt (Some r) 0 payloads = Done (Ret pkts, Some r')
    ∧ jb_run st (map (λ q, OpUdpIn true (addr q) (nth (Z.to_nat (q - (n + 1))) pkts [])) order)
      = Done (st', map (λ q, RFT_RTP
          {| rp_info := packet_info (sent r pt payloads n q); lseq := q; jbcnt := 0;
             rp_data := addr q |}) (seqZ (n + 1) (zlen payloads)), [])
    ∧ head st' = [] ∧ last_lseq st' = n + zlen payloads.
Proof.
  pose proof (gen_stream_ok mem clocks pt r payloads 0 Hwf Hpt Hmem) as Hgen.
  set (k := zlen payloads) in *. pose proof (zlen_nonneg payloads) as Hk.
  set (pkt := sent r pt payloads n).
  assert (burst_inv pkt addr n k st [] []) as Hb.
  { constructor; [done|done|done| |by rewrite Hempty|].
    - rewrite (jc_max _ (inv_core _ Hinv)), Hempty. cbn. lia.
    - rewrite next_out_some by (unfold LSEQ_BUDGET in *; lia). rewrite Hlast. constructor. }
  destruct (burst_run pkt addr n k (sent_wf r pt payloads n Hwf Hpay)
    (sent_short r pt payloads n Hpay) (sent_num r pt payloads n Hseq) (conj Hn Hbudget)
    st [] [] order Hb (conj Hk Hwin)) as (st' & out & Hr & Hb'); [by rewrite app_nil_r|].
  destruct (burst_complete _ _ _ _ _ _ _ Hb') as (Eout & Eh & Elast); [|lia|].
  { by rewrite app_nil_r, <- Permutation_rev. }
  eexists _, _, st'. split; [apply Hgen|split; [|by split]].
  { eapply Forall_impl; [exact Hpay|]. by intros p [_ ?]. }
  cbn in Eout. subst out. rewrite map_map in Hr. etrans; [|exact Hr]. f_equal.
  apply map_ext_in. intros q Hin. rewrite <- list_elem_of_In, Horder in Hin.
  apply elem_of_seqZ in Hin. unfold burst_op. f_equal.
  apply nth_lookup_Some. rewrite list_lookup_imap.
  destruct (lookup_lt_is_Some_2 payloads (Z.to_nat (q - (n + 1)))) as [p Hp];
    [unfold k, zlen in *; lia|].
  rewrite Hp. change (Some (serialize (stream_packet r (pt mod 128)
    (Z.of_nat (Z.to_nat (q - (n + 1)))) p)) = Some (serialize (pkt q))).
  unfold pkt, sent. rewrite (nth_lookup_Some _ _ _ _ Hp). rewrite Z2Nat.id by lia. done.
Qed.

Lemma stream_through_jbuf_witness :
  ∃ pkts r' st' out,
    gen_stream fresh_mem (λ _, None) 0 (Some sample_synth) 0 [[1]; [2]; [3]] =
      Done (Ret pkts, Some r')
    ∧ jb_run (midstream 20 65534)
        (map (λ q, OpUdpIn true q (nth (Z.to_nat (q - 65535)) pkts [])) [65537; 65535; 65536])
      = Done (st', out, [])
    ∧ head st' = [] ∧ last_lseq st' = 65537.
Proof.
  destruct (midstream_inv 20 65534) as [Hi Hm]; [lia|unfold LSEQ_BUDGET; lia|].
  destruct (stream_through_jbuf fresh_mem (λ _, None) sample_synth 0 65534 [[1]; [2]; [3]] id
    (midstream 20 65534) [65537; 65535; 65536] sample_synth_wf)
    as (pkts & r' & st' & H1 & H2 & H3 & H4); try done.
  - apply fresh_mem_ok.
  - repeat (apply Forall_cons_2; [split; [bytes_tac|done]|]). apply Forall_nil_2.
  - apply NoDup_Permutation; [by apply (bool_decide_unpack _)|apply NoDup_seqZ|].
    intros q. rewrite elem_of_seqZ, !elem_of_cons, elem_of_nil.
    change (zlen [[1]; [2]; [3]]) with 3. lia.
  - by eexists pkts, r', st', _.
Defined.
