(* ===== verification/Sched.v ===== *)
(** The channel table of src/python/RtpProc_mod.c: the array of channels, the
    intrusive list of scheduled ones that runs through it, and the growth of the
    array under that list. A pointer to a channel is the address of the array
    and an index, so that a pointer kept across a move of the array dangles. *)
From stdpp Require Import prelude list sorting.
From Stdlib Require Import ZArith Lia.
From S2P Require Import Prelude Py.
Local Open Scope Z_scope.

(** * Channels, and the table *)

Record cptr : Set := { cp_base : Z; cp_idx : nat }.
#[export] Instance cptr_eq_dec : EqDecision cptr.
Proof. solve_decision. Defined.

(** An exception taken out of the interpreter ([py_exc_info]): its type, and the
    object that is its value. It is normalized, and the traceback belongs to the
    value, so the three references of the code are one here. *)
Record py_exc_info : Set := { exc_type : exn; exc_value : Z }.
#[export] Instance py_exc_info_eq_dec : EqDecision py_exc_info.
Proof. solve_decision. Defined.

(** The callback is named by the address of the callable; [ch_cb_exc] is the
    exception it left. *)
Record proc_channel_state : Set := {
  ch_active : bool;
  ch_scheduled : bool;
  ch_id : Z;
  ch_next_run_ns : Z;
  ch_proc_in_cb : option Z;
  ch_cb_exc : option py_exc_info;
  ch_sched_next : option cptr;
}.

(** What [memset(0)] leaves. *)
Definition zero_channel : proc_channel_state :=
  {| ch_active := false; ch_scheduled := false; ch_id := 0; ch_next_run_ns := 0;
     ch_proc_in_cb := None; ch_cb_exc := None; ch_sched_next := None |}.

(** [channels] (address and contents), [channels_cap] (the length of the
    contents), [channels_active] and [sched_head]. *)
Record table : Set := {
  t_base : Z;
  t_chans : list proc_channel_state;
  t_active : Z;
  t_head : option cptr;
}.

Definition empty_table : table :=
  {| t_base := 0; t_chans := []; t_active := 0; t_head := None |}.

Definition set_chans (t : table) (l : list proc_channel_state) : table :=
  {| t_base := t_base t; t_chans := l; t_active := t_active t; t_head := t_head t |}.
Definition set_head (t : table) (h : option cptr) : table :=
  {| t_base := t_base t; t_chans := t_chans t; t_active := t_active t; t_head := h |}.
Definition set_active (t : table) (n : Z) : table :=
  {| t_base := t_base t; t_chans := t_chans t; t_active := n; t_head := t_head t |}.

Definition set_next (v : option cptr) (c : proc_channel_state) : proc_channel_state :=
  {| ch_active := ch_active c; ch_scheduled := ch_scheduled c; ch_id := ch_id c;
     ch_next_run_ns := ch_next_run_ns c; ch_proc_in_cb := ch_proc_in_cb c;
     ch_cb_exc := ch_cb_exc c; ch_sched_next := v |}.
(** [scheduled] and [sched_next] together. *)
Definition set_sched (b : bool) (v : option cptr) (c : proc_channel_state) : proc_channel_state :=
  {| ch_active := ch_active c; ch_scheduled := b; ch_id := ch_id c;
     ch_next_run_ns := ch_next_run_ns c; ch_proc_in_cb := ch_proc_in_cb c;
     ch_cb_exc := ch_cb_exc c; ch_sched_next := v |}.
(** [next_run_ns], [scheduled] and [sched_next], as [schedule_channel] sets them. *)
Definition set_run (ns : Z) (c : proc_channel_state) : proc_channel_state :=
  {| ch_active := ch_active c; ch_scheduled := true; ch_id := ch_id c;
     ch_next_run_ns := ns; ch_proc_in_cb := ch_proc_in_cb c;
     ch_cb_exc := ch_cb_exc c; ch_sched_next := None |}.
Definition set_exc (e : option py_exc_info) (c : proc_channel_state) : proc_channel_state :=
  {| ch_active := ch_active c; ch_scheduled := ch_scheduled c; ch_id := ch_id c;
     ch_next_run_ns := ch_next_run_ns c; ch_proc_in_cb := ch_proc_in_cb c;
     ch_cb_exc := e; ch_sched_next := ch_sched_next c |}.

(** [&self->channels[i]], and the accesses through such a pointer. *)
Definition chan_at (t : table) (i : nat) : cptr := {| cp_base := t_base t; cp_idx := i |}.

Definition rd_chan (t : table) (p : cptr) : outcome proc_channel_state :=
  if cp_base p =? t_base t then
    match t_chans t !! cp_idx p with Some c => Done c | None => Undefined end
  else Undefined.

Definition upd_chan (t : table) (p : cptr) (f : proc_channel_state → proc_channel_state)
    : outcome table :=
  c ← rd_chan t p; Done (set_chans t (<[cp_idx p := f c]> (t_chans t))).

(** A [ProcChannelState **]: the address of [sched_head] ([None]) or of the
    [sched_next] of a channel. *)
Definition rd_link (t : table) (loc : option cptr) : outcome (option cptr) :=
  match loc with
  | None => Done (t_head t)
  | Some p => c ← rd_chan t p; Done (ch_sched_next c)
  end.
Definition wr_link (t : table) (loc v : option cptr) : outcome table :=
  match loc with
  | None => Done (set_head t v)
  | Some p => upd_chan t p (set_next v)
  end.

(** * The schedule list *)

(** The search loop of [unschedule_channel]. *)
Fixpoint find_prev (fuel : nat) (t : table) (prev it : option cptr) (ch : cptr)
    : outcome (option cptr * option cptr) :=
  match it with
  | None => Done (prev, None)
  | Some p =>
      if decide (p = ch) then Done (prev, Some p)
      else
        match fuel with
        | O => OutOfFuel
        | S fuel => c ← rd_chan t p; find_prev fuel t (Some p) (ch_sched_next c) ch
        end
  end.

Definition unschedule_channel (t : table) (ch : cptr) : outcome table :=
  c ← rd_chan t ch;
  if negb (ch_scheduled c) then Done t
  else
    '(prev, it) ← find_prev (length (t_chans t)) t None (t_head t) ch;
    match it with
    | None => upd_chan t ch (set_sched false None)
    | Some _ =>
        t ← match prev with
            | None => Done (set_head t (ch_sched_next c))
            | Some p => upd_chan t p (set_next (ch_sched_next c))
            end;
        upd_chan t ch (set_sched false None)
    end.

(** The insertion loop of [schedule_channel] and [rebuild_schedule_list]. *)
Fixpoint seek_after (fuel : nat) (t : table) (it : option cptr) (next_ns : Z)
    : outcome (option cptr) :=
  l ← rd_link t it;
  match l with
  | None => Done it
  | Some p =>
      c ← rd_chan t p;
      if ch_next_run_ns c <=? next_ns then
        match fuel with O => OutOfFuel | S fuel => seek_after fuel t (Some p) next_ns end
      else Done it
  end.

(** [ch->sched_next = *it; *it = ch] *)
Definition link_in (t : table) (ch : cptr) (next_ns : Z) : outcome table :=
  it ← seek_after (length (t_chans t)) t None next_ns;
  nx ← rd_link t it;
  t ← upd_chan t ch (set_next nx);
  wr_link t it (Some ch).

Definition schedule_channel (t : table) (ch : cptr) (next_ns : Z) : outcome table :=
  c ← rd_chan t ch;
  t ← (if ch_scheduled c then unschedule_channel t ch else Done t);
  t ← upd_chan t ch (set_run next_ns);
  link_in t ch next_ns.

Definition rebuild_step (t : table) (i : nat) : outcome table :=
  c ← rd_chan t (chan_at t i);
  t ← upd_chan t (chan_at t i) (set_next None);
  if negb (ch_active c) || negb (ch_scheduled c) then Done t
  else link_in t (chan_at t i) (ch_next_run_ns c).

Fixpoint rebuild_loop (t : table) (slots : list nat) : outcome table :=
  match slots with
  | [] => Done t
  | i :: slots => t ← rebuild_step t i; rebuild_loop t slots
  end.

Definition rebuild_schedule_list (t : table) : outcome table :=
  rebuild_loop (set_head t None) (seq 0 (length (t_chans t))).

Definition pop_due_channel (t : table) (now_ns : Z) : outcome (option cptr * table) :=
  match t_head t with
  | None => Done (None, t)
  | Some ch =>
      c ← rd_chan t ch;
      if now_ns <? ch_next_run_ns c then Done (None, t)
      else
        t ← upd_chan (set_head t (ch_sched_next c)) ch (set_sched false None);
        Done (Some ch, t)
  end.

(** * Slots *)

Definition SIZE_MAX : Z := U64_MAX.
Definition SIZEOF_CHANNEL : Z := 64.

(** Doubling: from 4 or the old capacity, 63 doublings reach [SIZE_MAX / 2]. *)
Fixpoint grow_cap (fuel : nat) (new_cap need : Z) : outcome (option Z) :=
  if new_cap <? need then
    match fuel with
    | O => OutOfFuel
    | S fuel =>
        if SIZE_MAX / 2 <? new_cap then Done None else grow_cap fuel (new_cap * 2) need
    end
  else Done (Some new_cap).

(** The table once the array is at [base], with [n] cleared channels more. *)
Definition grown (t : table) (base : Z) (n : nat) : table :=
  {| t_base := base; t_chans := t_chans t ++ replicate n zero_channel;
     t_active := t_active t; t_head := t_head t |}.

(** [realloc old size] is the new address, or [None]. *)
Definition ensure_channel_capacity (realloc : Z → Z → option Z) (t : table) (need : Z)
    : outcome (bool * table) :=
  let cap := zlen (t_chans t) in
  if need <=? cap then Done (true, t)
  else
    new_cap ← grow_cap 64 (if cap =? 0 then 4 else cap) need;
    match new_cap with
    | None => Done (false, t)
    | Some new_cap =>
        match realloc (t_base t) (u64 (new_cap * SIZEOF_CHANNEL)) with
        | None => Done (false, t)
        | Some base =>
            _ ← ub_unless (new_cap * SIZEOF_CHANNEL =? u64 (new_cap * SIZEOF_CHANNEL));
            let t' := grown t base (Z.to_nat (new_cap - cap)) in
            if negb (t_base t =? base) && has (t_head t) then
              t' ← rebuild_schedule_list t'; Done (true, t')
            else Done (true, t')
        end
    end.

(** The index of the first channel that satisfies [p]. *)
Fixpoint first_chan (p : proc_channel_state → bool) (l : list proc_channel_state) (i : nat)
    : option nat :=
  match l with
  | [] => None
  | c :: l => if p c then Some i else first_chan p l (S i)
  end.

Definition alloc_channel_slot (realloc : Z → Z → option Z) (t : table)
    : outcome (option nat * table) :=
  match first_chan (λ c, negb (ch_active c)) (t_chans t) 0 with
  | Some i => Done (Some i, t)
  | None =>
      let old_cap := zlen (t_chans t) in
      '(ok, t) ← ensure_channel_capacity realloc t (if old_cap =? 0 then 4 else u64 (old_cap * 2));
      Done (if ok : bool then Some (Z.to_nat old_cap) else None, t)
  end.

Definition find_channel_index (t : table) (id : Z) : option nat :=
  first_chan (λ c, ch_active c && (ch_id c =? id)) (t_chans t) 0.

Definition release_channel_state (t : table) (ch : cptr) : outcome table :=
  c ← rd_chan t ch;
  if negb (ch_active c) then Done t
  else
    t ← unschedule_channel t ch;
    upd_chan t ch (λ c, {| ch_active := false; ch_scheduled := ch_scheduled c; ch_id := 0;
                           ch_next_run_ns := 0; ch_proc_in_cb := None; ch_cb_exc := None;
                           ch_sched_next := None |}).

Fixpoint release_all (t : table) (slots : list nat) : outcome table :=
  match slots with
  | [] => Done t
  | i :: slots => t ← release_channel_state t (chan_at t i); release_all t slots
  end.

Definition clear_channels (t : table) : outcome table :=
  _ ← release_all t (seq 0 (length (t_chans t)));
  Done empty_table.

(** The exception the removed channel held, taken when there is one to report. *)
Definition remove_channel (t : table) (id : Z) : outcome (bool * option py_exc_info * table) :=
  match find_channel_index t id with
  | None => Done (false, None, t)
  | Some i =>
      c ← rd_chan t (chan_at t i);
      t ← upd_chan t (chan_at t i) (set_exc None);
      t ← release_channel_state t (chan_at t i);
      Done (true, ch_cb_exc c,
            if 0 <? t_active t then set_active t (t_active t - 1) else t)
  end.

(** * The agenda a table stands for *)

(** Times with the index of the channel to run. *)
Definition agenda : Set := list (Z * nat).

(** Behind everything that is due no later. *)
Fixpoint insert_due (ns : Z) (i : nat) (ag : agenda) : agenda :=
  match ag with
  | [] => [(ns, i)]
  | x :: rest => if x.1 <=? ns then x :: insert_due ns i rest else (ns, i) :: ag
  end.
Definition cancel (i : nat) (ag : list (Z * nat)) : list (Z * nat) := filter (λ x, x.2 ≠ i) ag.

(** [seg t p ag q]: from [p] the links run through [ag] and arrive at [q]. *)
Fixpoint seg (t : table) (p : option cptr) (ag : agenda) (q : option cptr) : Prop :=
  match ag with
  | [] => p = q
  | x :: ag =>
      p = Some (chan_at t x.2) ∧
      ∃ c, t_chans t !! x.2 = Some c ∧ ch_scheduled c = true ∧ ch_next_run_ns c = x.1 ∧
           seg t (ch_sched_next c) ag q
  end.

Definition earlier (x y : Z * nat) : Prop := x.1 ≤ y.1.

Record scheduled_as (t : table) (ag : agenda) : Prop := {
  sa_seg : seg t (t_head t) ag None;
  sa_nodup : NoDup ag.*2;
  sa_sorted : StronglySorted earlier ag;
  sa_flag : ∀ i c, t_chans t !! i = Some c → ch_scheduled c = true →
            i ∈ ag.*2 ∧ ch_active c = true;
}.

(** The table without its links. *)
Definition erase (t : table) : list proc_channel_state := set_next None <$> t_chans t.

(** ** Segments *)

Lemma seg_app t p a b q :
  seg t p (a ++ b) q ↔ ∃ m, seg t p a m ∧ seg t m b q.
Proof.
  revert p. induction a as [|x a IH]; intros p; cbn.
  - split; [by eauto|]. by intros (m & -> & H).
  - split.
    + intros (-> & c & Hc & Hs & Hn & (m & Ha & Hb)%IH). eauto 10.
    + intros (m & (-> & c & Hc & Hs & Hn & Ha) & Hb). split; [done|].
      exists c. repeat split; [done..|]. apply IH. by eauto.
Qed.

Lemma seg_frame t t' p ag q :
  t_base t' = t_base t →
  (∀ i, i ∈ ag.*2 → t_chans t' !! i = t_chans t !! i) →
  seg t p ag q → seg t' p ag q.
Proof.
  intros Hb. revert p. induction ag as [|x ag IH]; intros p Hf; cbn; [done|].
  intros (-> & c & Hc & Hs & Hn & H). unfold chan_at. rewrite Hb. split; [done|].
  exists c. rewrite Hf by (cbn; left). repeat split; [done..|].
  apply IH; [|done]. intros i Hi. apply Hf. cbn. by right.
Qed.

Lemma seg_elem t p ag q x :
  seg t p ag q → x ∈ ag →
  ∃ c, t_chans t !! x.2 = Some c ∧ ch_scheduled c = true ∧ ch_next_run_ns c = x.1.
Proof.
  revert p. induction ag as [|y ag IH]; intros p; [by intros _ ?%elem_of_nil|].
  cbn. intros (-> & c & Hc & Hs & Hn & H) [->|Hx]%elem_of_cons; [by eauto|by eapply IH].
Qed.

Lemma seg_length t p ag q :
  seg t p ag q → NoDup ag.*2 → (length ag ≤ length (t_chans t))%nat.
Proof.
  intros Hseg Hnd. rewrite <- (length_fmap snd), <- (length_seq (length (t_chans t)) 0).
  apply submseteq_length, NoDup_submseteq; [done|].
  intros i (x & -> & Hx)%list_elem_of_fmap. apply elem_of_seq.
  destruct (seg_elem _ _ _ _ _ Hseg Hx) as (c & Hc%lookup_lt_Some & _). lia.
Qed.

Lemma rd_chan_at t i c : t_chans t !! i = Some c → rd_chan t (chan_at t i) = Done c.
Proof. intros H. unfold rd_chan, chan_at. cbn. by rewrite Z.eqb_refl, H. Qed.

Lemma upd_chan_at t i c f :
  t_chans t !! i = Some c →
  upd_chan t (chan_at t i) f = Done (set_chans t (<[i := f c]> (t_chans t))).
Proof. intros H. unfold upd_chan. by rewrite (rd_chan_at _ _ _ H). Qed.

(** The address of the link behind [pre]. *)
Definition loc_of (t : table) (pre : agenda) (loc : option cptr) : option cptr :=
  match last pre with None => loc | Some x => Some (chan_at t x.2) end.

Lemma rd_link_loc t pre m :
  seg t (t_head t) pre m → rd_link t (loc_of t pre None) = Done m.
Proof.
  unfold loc_of. destruct (last pre) as [x|] eqn:E.
  - apply last_Some in E as [a ->]. intros (m' & _ & -> & c & Hc & _ & _ & Hm)%seg_app.
    cbn. rewrite (rd_chan_at _ _ _ Hc). cbn in Hm |- *. by rewrite Hm.
  - apply last_None in E as ->. by intros <-.
Qed.

(** Storing into the link behind [pre] redirects the segment. *)
Lemma wr_link_loc t pre m v :
  seg t (t_head t) pre m → NoDup pre.*2 →
  ∃ t', wr_link t (loc_of t pre None) v = Done t' ∧ seg t' (t_head t') pre v ∧
    t_base t' = t_base t ∧ t_active t' = t_active t ∧ erase t' = erase t ∧
    ∀ i, i ∉ pre.*2 → t_chans t' !! i = t_chans t !! i.
Proof.
  unfold loc_of. destruct (last pre) as [x|] eqn:E.
  - apply last_Some in E as [a ->]. intros (m' & Ha & -> & c & Hc & Hs & Hn & Hm)%seg_app.
    rewrite fmap_app. intros (_ & Hd & _)%NoDup_app. cbn [wr_link].
    rewrite (upd_chan_at _ _ _ _ Hc). eexists. split; [done|].
    assert (x.2 ∉ a.*2) as Hx by (intros H; apply (Hd _ H); by left).
    assert (∀ i, i ≠ x.2 → <[x.2 := set_next v c]> (t_chans t) !! i = t_chans t !! i)
      as Hne by (intros; by apply list_lookup_insert_ne).
    split; [|repeat split].
    + apply seg_app. exists (Some (chan_at t x.2)). split.
      * apply (seg_frame t); [done| |done]. cbn. intros i Hi. apply Hne. by intros ->.
      * cbn. split; [done|]. exists (set_next v c).
        rewrite list_lookup_insert_eq by (by eapply lookup_lt_Some). done.
    + unfold erase. cbn. rewrite list_fmap_insert. cbn.
      rewrite list_insert_id; [done|]. by rewrite list_lookup_fmap, Hc.
    + cbn. intros i Hi. apply Hne. intros ->. apply Hi, elem_of_app. right. by left.
  - apply last_None in E as ->. intros <- _. by exists (set_head t v).
Qed.

(** ** The insertion loop *)

Lemma insert_due_split ns i ag :
  ∃ a b, ag = a ++ b ∧ insert_due ns i ag = a ++ (ns, i) :: b ∧
    Forall (λ x, x.1 ≤ ns) a ∧ match b with [] => True | y :: _ => ns < y.1 end.
Proof.
  induction ag as [|x ag (a & b & -> & IH & Ha & Hb)]; cbn.
  - by exists [], [].
  - destruct (x.1 <=? ns) eqn:E; zbool.
    + exists (x :: a), b. rewrite IH. repeat split; [by constructor|done].
    + exists [], (x :: a ++ b). done.
Qed.

Lemma insert_due_perm ns i ag : insert_due ns i ag ≡ₚ (ns, i) :: ag.
Proof.
  destruct (insert_due_split ns i ag) as (a & b & -> & -> & _). by rewrite Permutation_middle.
Qed.

Lemma insert_due_sorted ns i ag :
  StronglySorted earlier ag → StronglySorted earlier (insert_due ns i ag).
Proof.
  induction 1 as [|x ag Hs IH Hx]; cbn; [by repeat constructor|].
  destruct (x.1 <=? ns) eqn:E; zbool.
  - constructor; [done|]. rewrite insert_due_perm. by constructor.
  - constructor; [by constructor|]. unfold earlier in *. constructor; [cbn; lia|].
    eapply Forall_impl; [done|]. cbn. lia.
Qed.

Lemma insert_due_nodup ns i ag :
  i ∉ ag.*2 → NoDup ag.*2 → NoDup (insert_due ns i ag).*2.
Proof. intros Hi Hn. rewrite insert_due_perm. cbn. by constructor. Qed.

Lemma seek_after_ok fuel t pre m a b ns :
  seg t (t_head t) pre m → seg t m (a ++ b) None → (length a ≤ fuel)%nat →
  Forall (λ x, x.1 ≤ ns) a → match b with [] => True | y :: _ => ns < y.1 end →
  seek_after fuel t (loc_of t pre None) ns = Done (loc_of t (pre ++ a) None).
Proof.
  revert pre m fuel. induction a as [|x a IH]; intros pre m fuel Hpre Hab Hf Ha Hb; cbn in Hab.
  - rewrite app_nil_r. destruct fuel as [|fuel]; cbn; rewrite (rd_link_loc _ _ _ Hpre); cbn;
      (destruct b as [|y b]; cbn in Hab; [by rewrite Hab|]);
      destruct Hab as (-> & c & Hc & _ & Hn & _); rewrite (rd_chan_at _ _ _ Hc); cbn;
      rewrite Hn; by zdec.
  - destruct fuel as [|fuel]; cbn in Hf; [lia|]. cbn. rewrite (rd_link_loc _ _ _ Hpre).
    pose proof (Forall_inv Ha) as Hx. apply Forall_inv_tail in Ha. cbn in Hx.
    destruct Hab as (-> & c & Hc & Hs & Hn & Hab). cbn. rewrite (rd_chan_at _ _ _ Hc). cbn.
    rewrite Hn. zdec.
    replace (Some (chan_at t x.2)) with (loc_of t (pre ++ [x]) None)
      by (unfold loc_of; by rewrite last_snoc).
    rewrite (IH _ (ch_sched_next c)); [by rewrite <- app_assoc| |done|lia|done|done].
    apply seg_app. exists (Some (chan_at t x.2)). split; [done|]. cbn. eauto 10.
Qed.

Lemma erase_set_next t i c v :
  t_chans t !! i = Some c → erase (set_chans t (<[i := set_next v c]> (t_chans t))) = erase t.
Proof.
  intros Hc. unfold erase. cbn. rewrite list_fmap_insert. cbn.
  apply list_insert_id. by rewrite list_lookup_fmap, Hc.
Qed.

Lemma link_in_ok t ag i c :
  seg t (t_head t) ag None → NoDup ag.*2 → i ∉ ag.*2 →
  t_chans t !! i = Some c → ch_scheduled c = true →
  ∃ t', link_in t (chan_at t i) (ch_next_run_ns c) = Done t' ∧
    seg t' (t_head t') (insert_due (ch_next_run_ns c) i ag) None ∧
    t_base t' = t_base t ∧ t_active t' = t_active t ∧ erase t' = erase t.
Proof.
  intros Hseg Hnd Hi Hc Hs. pose proof (seg_length _ _ _ _ Hseg Hnd) as Hlen.
  destruct (insert_due_split (ch_next_run_ns c) i ag) as (a & b & -> & -> & Ha & Hb).
  pose proof Hseg as Hsegs. apply seg_app in Hsegs as (m & Hsa & Hsb).
  rewrite length_app in Hlen. rewrite fmap_app in *.
  apply NoDup_app in Hnd as (Hna & Hdis & Hnb). rewrite elem_of_app in Hi.
  unfold link_in. change (@None cptr) with (loc_of t [] None) at 1.
  rewrite (seek_after_ok _ t [] (t_head t) a b) by (done || lia).
  cbn [mbind outcome_bind app]. rewrite (rd_link_loc _ _ _ Hsa).
  cbn [mbind outcome_bind]. rewrite (upd_chan_at _ _ _ _ Hc). cbn [mbind outcome_bind].
  set (t1 := set_chans _ _).
  assert (∀ j, j ≠ i → t_chans t1 !! j = t_chans t !! j) as Hne
    by (intros; by apply list_lookup_insert_ne).
  assert (seg t1 (t_head t1) a m) as Hsa1
    by (apply (seg_frame t); [done|intros j Hj; apply Hne; intros ->; tauto|done]).
  change (loc_of t a None) with (loc_of t1 a None).
  destruct (wr_link_loc t1 a m (Some (chan_at t i)) Hsa1 Hna)
    as (t' & -> & Hsa' & Hbase & Hact & Her & Hfr).
  exists t'. split; [done|]. split; [|split; [done|split; [done|]]].
  - apply seg_app. exists (Some (chan_at t i)). split; [done|].
    cbn [seg fst snd]. split; [unfold chan_at; by rewrite Hbase|].
    exists (set_next m c). rewrite Hfr by tauto. cbn [t_chans t1 set_chans].
    rewrite list_lookup_insert_eq by (by eapply lookup_lt_Some).
    split; [done|]. split; [done|]. split; [done|].
    apply (seg_frame t); [done| |done]. intros j Hj. rewrite Hfr by (intros ?; by eapply Hdis).
    apply Hne. intros ->. tauto.
  - rewrite Her. by apply erase_set_next.
Qed.

(** ** Each operation on the agenda *)

Lemma find_prev_ok fuel t p prev a x b :
  seg t p (a ++ x :: b) None → x.2 ∉ a.*2 → (length a ≤ fuel)%nat →
  find_prev fuel t prev p (chan_at t x.2) =
    Done (loc_of t a prev, Some (chan_at t x.2)).
Proof.
  revert p prev fuel. induction a as [|y a IH]; intros p prev fuel Hseg Hx Hf; cbn in Hseg.
  - destruct Hseg as (-> & _). destruct fuel; cbn; by rewrite decide_True.
  - destruct Hseg as (-> & c & Hc & _ & _ & Hseg). destruct fuel as [|fuel]; cbn in Hf; [lia|].
    cbn in Hx. apply not_elem_of_cons in Hx as [Hxy Hx]. cbn.
    rewrite decide_False by (intros [=]; congruence).
    rewrite (rd_chan_at _ _ _ Hc). cbn. rewrite (IH _ _ _ Hseg Hx) by lia.
    unfold loc_of. destruct a as [|z a]; cbn; [done|].
    destruct (last (z :: a)) eqn:E; [done|]. by apply last_None in E.
Qed.

Lemma cancel_notin i ag : i ∉ ag.*2 → cancel i ag = ag.
Proof.
  induction ag as [|x ag IH]; [done|]. rewrite fmap_cons, not_elem_of_cons. intros [Hi H].
  unfold cancel. rewrite filter_cons_True by congruence. f_equal. by apply IH.
Qed.

Lemma cancel_mid i a x b :
  x.2 = i → i ∉ a.*2 → i ∉ b.*2 → cancel i (a ++ x :: b) = a ++ b.
Proof.
  intros Hx Ha Hb. unfold cancel. rewrite filter_app, filter_cons_False by (intros ?; congruence).
  fold (cancel i a) (cancel i b). by rewrite !cancel_notin.
Qed.

Lemma elem_of_cancel i j ag : j ∈ (cancel i ag).*2 ↔ j ≠ i ∧ j ∈ ag.*2.
Proof.
  rewrite !list_elem_of_fmap. unfold cancel. split.
  - intros (x & -> & [? ?]%list_elem_of_filter). eauto.
  - intros (? & x & -> & ?). exists x. split; [done|]. by apply list_elem_of_filter.
Qed.

Lemma cancel_sorted i ag : StronglySorted earlier ag → StronglySorted earlier (cancel i ag).
Proof.
  unfold cancel. induction 1 as [|x ag Hs IH Hx]; [constructor|]. rewrite filter_cons.
  destruct (decide _); [|done]. constructor; [done|].
  rewrite Forall_forall in Hx |- *. intros y [_ Hy]%list_elem_of_filter. by apply Hx.
Qed.

Lemma cancel_nodup i ag : NoDup ag.*2 → NoDup (cancel i ag).*2.
Proof.
  induction ag as [|x ag IH]; [done|]. rewrite fmap_cons. intros [Hx Hn]%NoDup_cons.
  unfold cancel. rewrite filter_cons. destruct (decide _); [|by apply IH].
  cbn. constructor; [|by apply IH]. by intros [_ ?]%elem_of_cancel.
Qed.

(** Flags of a table whose links and one channel changed. *)
Lemma erase_lookup t i c : t_chans t !! i = Some c → erase t !! i = Some (set_next None c).
Proof. intros H. unfold erase. by rewrite list_lookup_fmap, H. Qed.

Lemma erase_inv t i c :
  erase t !! i = Some c → ∃ c', t_chans t !! i = Some c' ∧ c = set_next None c'.
Proof. unfold erase. rewrite list_lookup_fmap. destruct (t_chans t !! i); [|done]. intros [= <-]; eauto. Qed.

Lemma erase_length t : length (erase t) = length (t_chans t).
Proof. apply length_fmap. Qed.

(** What is known of a channel after channel [i] became [d]. *)
Lemma erase_flag t t' i c d j cj :
  erase t' = <[i := d]> (erase t) → t_chans t !! i = Some c → t_chans t' !! j = Some cj →
  (j = i ∧ set_next None cj = d) ∨
  (j ≠ i ∧ ∃ c', t_chans t !! j = Some c' ∧ set_next None cj = set_next None c').
Proof.
  intros He Hc Hj%erase_lookup. rewrite He in Hj. destruct (decide (i = j)) as [<-|Hne].
  - rewrite list_lookup_insert_eq in Hj by (rewrite erase_length; by eapply lookup_lt_Some).
    injection Hj as <-. by left.
  - right. split; [done|]. rewrite list_lookup_insert_ne in Hj by done.
    by apply erase_inv in Hj as (c' & ? & ?); eauto.
Qed.

Lemma same_flags c c' :
  set_next None c = set_next None c' →
  ch_scheduled c = ch_scheduled c' ∧ ch_active c = ch_active c'.
Proof. intros [=]. done. Qed.

Lemma sa_entry t ag i c :
  scheduled_as t ag → t_chans t !! i = Some c → ch_scheduled c = true →
  ∃ a b, (ag = a ++ (ch_next_run_ns c, i) :: b) ∧ (i ∉ a.*2) ∧ (i ∉ b.*2).
Proof.
  intros Hok Hc Hs. destruct (sa_flag _ _ Hok _ _ Hc Hs) as [Hi _].
  apply list_elem_of_fmap in Hi as (x & -> & Hx).
  destruct (seg_elem _ _ _ _ _ (sa_seg _ _ Hok) Hx) as (c' & Hc' & _ & Hn).
  apply list_elem_of_split in Hx as (a & b & ->).
  exists a, b. rewrite Hc in Hc'. injection Hc' as <-. rewrite Hn.
  pose proof (sa_nodup _ _ Hok) as Hnd. rewrite fmap_app in Hnd. cbn in Hnd.
  apply NoDup_app in Hnd as (_ & Hd & [Hb _]%NoDup_cons). split; [by destruct x|].
  split; [|done]. intros Ha. apply (Hd _ Ha). left.
Qed.

Lemma sa_unscheduled t ag i c :
  scheduled_as t ag → t_chans t !! i = Some c → ch_scheduled c = false → i ∉ ag.*2.
Proof.
  intros Hok Hc Hs (x & -> & Hx)%list_elem_of_fmap.
  destruct (seg_elem _ _ _ _ _ (sa_seg _ _ Hok) Hx) as (c' & Hc' & Hs' & _). congruence.
Qed.

Lemma erase_insert t i c : erase (set_chans t (<[i := c]> (t_chans t))) = <[i := set_next None c]> (erase t).
Proof. unfold erase. cbn. by rewrite list_fmap_insert. Qed.

Lemma unschedule_ok t ag i c :
  scheduled_as t ag → t_chans t !! i = Some c →
  ∃ t', unschedule_channel t (chan_at t i) = Done t' ∧ scheduled_as t' (cancel i ag) ∧
    t_base t' = t_base t ∧ t_active t' = t_active t ∧
    erase t' = <[i := set_sched false None c]> (erase t).
Proof.
  intros Hok Hc. unfold unschedule_channel. rewrite (rd_chan_at _ _ _ Hc). cbn [mbind outcome_bind].
  destruct (ch_scheduled c) eqn:Hs; cbn [negb].
  2:{ exists t. split; [done|]. rewrite cancel_notin by (by eapply sa_unscheduled).
      split; [done|]. split; [done|]. split; [done|]. rewrite list_insert_id; [done|].
      rewrite (erase_lookup _ _ _ Hc). unfold set_next, set_sched. by rewrite Hs. }
  destruct (sa_entry _ _ _ _ Hok Hc Hs) as (a & b & -> & Ha & Hb).
  pose proof (sa_seg _ _ Hok) as Hseg. pose proof (sa_nodup _ _ Hok) as Hnd.
  pose proof (seg_length _ _ _ _ Hseg Hnd) as Hlen. rewrite length_app in Hlen.
  rewrite (find_prev_ok _ t _ None a (ch_next_run_ns c, i) b) by (done || lia).
  cbn [mbind outcome_bind]. pose proof Hseg as (m & Hsa & -> & c' & Hc' & _ & _ & Hsb)%seg_app.
  cbn [snd] in Hc'. rewrite Hc in Hc'. injection Hc' as <-.
  pose proof Hnd as Hnd'. rewrite fmap_app in Hnd'. cbn in Hnd'.
  apply NoDup_app in Hnd' as (Hna & Hdis & [_ Hnb]%NoDup_cons).
  destruct (wr_link_loc t a _ (ch_sched_next c) Hsa Hna)
    as (t1 & Hw & Hsa1 & Hb1 & Hac1 & He1 & Hf1).
  replace (match loc_of t a None with None => _ | Some p => _ end) with (@Done table t1)
    by (rewrite <- Hw; by destruct (loc_of t a None)).
  cbn [mbind outcome_bind]. assert (t_chans t1 !! i = Some c) as Hc1 by (by rewrite Hf1).
  replace (chan_at t i) with (chan_at t1 i) by (unfold chan_at; by rewrite Hb1).
  rewrite (upd_chan_at _ _ _ _ Hc1). eexists. split; [done|].
  rewrite cancel_mid by done.
  assert (erase (set_chans t1 (<[i := set_sched false None c]> (t_chans t1))) =
          <[i := set_sched false None c]> (erase t)) as He
    by (rewrite erase_insert, He1; done).
  split; [|done]. constructor.
  - apply seg_app. exists (ch_sched_next c). split.
    + apply (seg_frame t1); [done| |done]. intros j Hj. apply list_lookup_insert_ne. by intros <-.
    + apply (seg_frame t); [done| |done]. intros j Hj. cbn.
      rewrite list_lookup_insert_ne by (by intros <-). apply Hf1. intros Hja.
      apply (Hdis _ Hja). by right.
  - rewrite <- (cancel_mid i a (ch_next_run_ns c, i) b) by done. by apply cancel_nodup.
  - rewrite <- (cancel_mid i a (ch_next_run_ns c, i) b) by done. by apply cancel_sorted, Hok.
  - intros j cj Hj Hsj. destruct (erase_flag _ _ _ _ _ _ _ He Hc Hj)
      as [[-> [=]]|(Hne & c' & Hc' & [Es Ea]%same_flags)]; [congruence|].
    destruct (sa_flag _ _ Hok _ _ Hc') as [Hin Hact]; [congruence|].
    split; [|congruence]. rewrite fmap_app in Hin |- *. cbn in Hin.
    rewrite elem_of_app, elem_of_cons in Hin. rewrite elem_of_app. tauto.
Qed.

(** A change of one unscheduled channel leaves the agenda alone. *)
Lemma seg_set t ag i c p q :
  i ∉ ag.*2 → seg t p ag q → seg (set_chans t (<[i := c]> (t_chans t))) p ag q.
Proof.
  intros Hi. apply seg_frame; [done|]. cbn. intros j Hj.
  apply list_lookup_insert_ne. by intros <-.
Qed.

Lemma schedule_ok t ag i c ns :
  scheduled_as t ag → t_chans t !! i = Some c → ch_active c = true →
  ∃ t', schedule_channel t (chan_at t i) ns = Done t' ∧
    scheduled_as t' (insert_due ns i (cancel i ag)) ∧
    t_base t' = t_base t ∧ t_active t' = t_active t ∧
    erase t' = <[i := set_run ns c]> (erase t).
Proof.
  intros Hok Hc Hact. unfold schedule_channel. rewrite (rd_chan_at _ _ _ Hc). cbn [mbind outcome_bind].
  assert (∃ t1 c1, (if ch_scheduled c then unschedule_channel t (chan_at t i) else Done t) = Done t1 ∧
    scheduled_as t1 (cancel i ag) ∧ t_base t1 = t_base t ∧ t_active t1 = t_active t ∧
    t_chans t1 !! i = Some c1 ∧ set_run ns c1 = set_run ns c ∧
    <[i := set_run ns c]> (erase t1) = <[i := set_run ns c]> (erase t))
    as (t1 & c1 & -> & Hok1 & Hb1 & Ha1 & Hc1 & Hrun & He1).
  { destruct (ch_scheduled c) eqn:Hs.
    - destruct (unschedule_ok _ _ _ _ Hok Hc) as (t1 & -> & Hok1 & Hb1 & Ha1 & He1).
      destruct (erase_inv t1 i (set_sched false None c)) as (c1 & Hc1 & E).
      { rewrite He1. apply list_lookup_insert_eq. rewrite erase_length. by eapply lookup_lt_Some. }
      exists t1, c1. do 5 (split; [done|]). split.
      + injection E. intros. unfold set_run. congruence.
      + by rewrite He1, list_insert_insert_eq.
    - exists t, c. rewrite cancel_notin by (by eapply sa_unscheduled). done. }
  cbn [mbind outcome_bind].
  replace (chan_at t i) with (chan_at t1 i) by (unfold chan_at; by rewrite Hb1).
  rewrite (upd_chan_at _ _ _ _ Hc1), Hrun. cbn [mbind outcome_bind].
  set (t2 := set_chans _ _).
  assert (i ∉ (cancel i ag).*2) as Hni by (by intros [? _]%elem_of_cancel).
  assert (t_chans t2 !! i = Some (set_run ns c)) as Hc2
    by (apply list_lookup_insert_eq; by eapply lookup_lt_Some).
  destruct (link_in_ok t2 (cancel i ag) i (set_run ns c)) as (t' & Hl & Hseg & Hb' & Ha' & He');
    [apply seg_set; [done|apply Hok1]|apply Hok1|done|done|done|].
  cbn [ch_next_run_ns set_run] in Hl, Hseg. exists t'. split; [exact Hl|].
  assert (erase t' = <[i := set_run ns c]> (erase t)) as He
    by (rewrite He'; unfold t2; rewrite erase_insert; exact He1).
  split; [|split; [exact (eq_trans Hb' Hb1)|split; [exact (eq_trans Ha' Ha1)|done]]]. constructor.
  - done.
  - apply insert_due_nodup; [done|apply Hok1].
  - apply insert_due_sorted, Hok1.
  - intros j cj Hj Hsj. setoid_rewrite insert_due_perm. cbn. rewrite elem_of_cons.
    destruct (erase_flag _ _ _ _ _ _ _ He Hc Hj) as [[-> [=]]|(Hne & c' & Hc' & [Es Ea]%same_flags)].
    + split; [by left|congruence].
    + destruct (sa_flag _ _ Hok _ _ Hc') as [Hin ?]; [congruence|].
      split; [|congruence]. right. by apply elem_of_cancel.
Qed.

(** What [pop_due_channel] does to an agenda. *)
Definition pop_due (ag : agenda) (now : Z) : option nat * agenda :=
  match ag with
  | x :: rest => if now <? x.1 then (None, ag) else (Some x.2, rest)
  | [] => (None, [])
  end.

Lemma pop_due_none t ag now :
  scheduled_as t ag → pop_due ag now = (None, ag) → pop_due_channel t now = Done (None, t).
Proof.
  intros Hok. pose proof (sa_seg _ _ Hok) as Hseg. unfold pop_due_channel.
  destruct ag as [|x ag]; cbn in Hseg |- *; [by rewrite Hseg|].
  destruct Hseg as (-> & c & Hc & _ & Hn & _). destruct (now <? x.1) eqn:E; [|done].
  rewrite (rd_chan_at _ _ _ Hc). cbn. by rewrite Hn, E.
Qed.

Lemma pop_due_some t ns i ag now :
  scheduled_as t ((ns, i) :: ag) → ns ≤ now →
  ∃ t' c, pop_due_channel t now = Done (Some (chan_at t i), t') ∧ scheduled_as t' ag ∧
    t_base t' = t_base t ∧ t_active t' = t_active t ∧
    t_chans t !! i = Some c ∧ ch_active c = true ∧ ch_next_run_ns c = ns ∧
    erase t' = <[i := set_sched false None c]> (erase t).
Proof.
  intros Hok Hns. pose proof (sa_seg _ _ Hok) as (Hh & c & Hc & Hs & Hn & Hseg).
  cbn [fst snd] in *. unfold pop_due_channel. rewrite Hh, (rd_chan_at _ _ _ Hc).
  cbn [mbind outcome_bind]. rewrite Hn. zdec.
  change (chan_at t i) with (chan_at (set_head t (ch_sched_next c)) i).
  rewrite (upd_chan_at _ _ c) by done. eexists _, c. split; [done|].
  pose proof (sa_nodup _ _ Hok) as [Hi Hnd]%NoDup_cons.
  pose proof (sa_sorted _ _ Hok) as [Hsrt _]%StronglySorted_inv.
  destruct (sa_flag _ _ Hok _ _ Hc Hs) as [_ Hact].
  assert (erase (set_chans (set_head t (ch_sched_next c))
            (<[i := set_sched false None c]> (t_chans (set_head t (ch_sched_next c))))) =
          <[i := set_sched false None c]> (erase t)) as He
    by (exact (erase_insert t i (set_sched false None c))).
  split; [|repeat split; done]. constructor; [|done|done|].
  - cbn [t_head set_chans set_head]. apply seg_set; [done|].
    apply (seg_frame t); [done|by intros|done].
  - intros j cj Hj Hsj.
    destruct (erase_flag _ _ _ _ _ _ _ He Hc Hj) as [[-> [=]]|(Hne & c' & Hc' & [Es Ea]%same_flags)];
      [congruence|].
    destruct (sa_flag _ _ Hok _ _ Hc') as [Hin Ha]; [congruence|].
    split; [|congruence]. apply elem_of_cons in Hin as [?|?]; [done|done].
Qed.

(** ** Rebuilding the list after a move of the array *)

Definition runs (c : proc_channel_state) : bool := ch_active c && ch_scheduled c.

(** The entries of the scheduled channels in the order of the array. *)
Fixpoint entries (l : list proc_channel_state) (k : nat) : list (Z * nat) :=
  match l with
  | [] => []
  | c :: l => (if runs c then [(ch_next_run_ns c, k)] else []) ++ entries l (S k)
  end.
Fixpoint rebuild_agenda (l : list proc_channel_state) (k : nat) (ag : agenda) : agenda :=
  match l with
  | [] => ag
  | c :: l => rebuild_agenda l (S k) (if runs c then insert_due (ch_next_run_ns c) k ag else ag)
  end.

Lemma rebuild_agenda_perm l k ag : rebuild_agenda l k ag ≡ₚ ag ++ entries l k.
Proof.
  revert k ag. induction l as [|c l IH]; intros k ag; cbn; [by rewrite app_nil_r|].
  rewrite IH. destruct (runs c); [|done].
  rewrite insert_due_perm. cbn. by rewrite Permutation_middle.
Qed.

Lemma rebuild_agenda_sorted l k ag :
  StronglySorted earlier ag → StronglySorted earlier (rebuild_agenda l k ag).
Proof.
  revert k ag. induction l as [|c l IH]; intros k ag H; cbn; [done|].
  apply IH. destruct (runs c); [by apply insert_due_sorted|done].
Qed.

Lemma elem_of_entries l k x :
  x ∈ entries l k ↔ ∃ j c, l !! j = Some c ∧ runs c = true ∧ x = (ch_next_run_ns c, k + j)%nat.
Proof.
  revert k. induction l as [|c l IH]; intros k; cbn.
  - rewrite elem_of_nil. split; [done|]. by intros (j & c & ? & _).
  - rewrite elem_of_app, IH. split.
    + intros [H|(j & d & Hj & Hr & ->)].
      * destruct (runs c) eqn:E; [|by apply elem_of_nil in H].
        apply list_elem_of_singleton in H as ->. exists 0%nat, c. by rewrite Nat.add_0_r.
      * exists (S j), d. repeat split; [done..|]. f_equal. lia.
    + intros ([|j] & d & Hj & Hr & ->).
      * left. injection Hj as ->. rewrite Hr, Nat.add_0_r. by left.
      * right. exists j, d. repeat split; [done..|]. f_equal. lia.
Qed.

Lemma entries_nodup l k : NoDup (entries l k).*2.
Proof.
  revert k. induction l as [|c l IH]; intros k; cbn; [constructor|].
  destruct (runs c); cbn; [|done]. constructor; [|done].
  intros (x & E & Hx)%list_elem_of_fmap. apply elem_of_entries in Hx as (j & d & _ & _ & ->).
  cbn in E. lia.
Qed.

Lemma rebuild_loop_ok l k t ag :
  drop k (erase t) = l → seg t (t_head t) ag None → NoDup ag.*2 →
  (∀ j, j ∈ ag.*2 → (j < k)%nat) →
  ∃ t', rebuild_loop t (seq k (length l)) = Done t' ∧
    seg t' (t_head t') (rebuild_agenda l k ag) None ∧
    t_base t' = t_base t ∧ t_active t' = t_active t ∧ erase t' = erase t.
Proof.
  revert k t ag. induction l as [|d l IH]; intros k t ag Hl Hseg Hnd Hk; cbn [length seq].
  { by exists t. }
  assert (erase t !! k = Some d) as (c & Hc & ->)%erase_inv
    by (rewrite <- (Nat.add_0_r k), <- lookup_drop, Hl; done).
  assert (k ∉ ag.*2) as Hni by (intros ?%Hk; lia).
  cbn [rebuild_loop rebuild_agenda]. unfold rebuild_step. rewrite (rd_chan_at _ _ _ Hc).
  cbn [mbind outcome_bind]. rewrite (upd_chan_at _ _ _ _ Hc). cbn [mbind outcome_bind].
  set (t1 := set_chans _ _). assert (erase t1 = erase t) as He1 by (by apply erase_set_next).
  assert (seg t1 (t_head t1) ag None) as Hseg1 by (by apply seg_set).
  assert (t_chans t1 !! k = Some (set_next None c)) as Hc1
    by (apply list_lookup_insert_eq; by eapply lookup_lt_Some).
  assert (∀ t2, erase t2 = erase t → drop (S k) (erase t2) = l) as Hdrop
    by (intros t2 ->; by rewrite <- Nat.add_1_r, <- drop_drop, Hl).
  change (runs (set_next None c)) with (runs c). unfold runs.
  destruct (ch_active c && ch_scheduled c) eqn:E.
  - apply andb_prop in E as [E1 E2]. rewrite E1, E2. cbn [negb orb].
    destruct (link_in_ok t1 ag k _ Hseg1 Hnd Hni Hc1) as (t2 & Hl2 & Hseg2 & Hb2 & Ha2 & He2); [done|].
    cbn [ch_next_run_ns set_next] in Hl2, Hseg2. change (chan_at t k) with (chan_at t1 k).
    rewrite Hl2. cbn [mbind outcome_bind].
    destruct (IH (S k) t2 _ (Hdrop _ (eq_trans He2 He1)) Hseg2) as (t' & Hr & ? & Hb' & Ha' & He').
    + by apply insert_due_nodup.
    + setoid_rewrite insert_due_perm. cbn. intros j [->|?%Hk]%elem_of_cons; lia.
    + exists t'. repeat split; [done|done|by rewrite Hb', Hb2|by rewrite Ha', Ha2|].
      by rewrite He', He2.
  - rewrite andb_false_iff in E.
    replace (negb (ch_active c) || negb (ch_scheduled c)) with true
      by (symmetry; apply orb_true_iff; rewrite !negb_true_iff; done).
    cbn [mbind outcome_bind].
    destruct (IH (S k) t1 ag (Hdrop _ He1) Hseg1 Hnd) as (t' & Hr & ? & Hb' & Ha' & He').
    + intros j ?%Hk. lia.
    + exists t'. repeat split; [done..|]. by rewrite He'.
Qed.

(** A table whose links are not to be trusted, with the flags of an agenda. *)
Lemma rebuild_ok t ag :
  NoDup ag.*2 → (∀ x, x ∈ ag ↔ x ∈ entries (erase t) 0) →
  (∀ i c, t_chans t !! i = Some c → ch_scheduled c = true → ch_active c = true) →
  ∃ t', rebuild_schedule_list t = Done t' ∧
    scheduled_as t' (rebuild_agenda (erase t) 0 []) ∧ rebuild_agenda (erase t) 0 [] ≡ₚ ag ∧
    t_base t' = t_base t ∧ t_active t' = t_active t ∧ erase t' = erase t.
Proof.
  intros Hnd Hin Hfl. unfold rebuild_schedule_list. rewrite <- (erase_length t).
  destruct (rebuild_loop_ok (erase t) 0 (set_head t None) []) as (t' & Hr & Hseg & Hb & Ha & He).
  { done. } { done. } { constructor. } { by intros j ?%elem_of_nil. }
  exists t'. split; [exact Hr|].
  pose proof (rebuild_agenda_perm (erase t) 0 []) as Hp. cbn [app] in Hp.
  assert (rebuild_agenda (erase t) 0 [] ≡ₚ ag) as Hpa.
  { rewrite Hp. apply NoDup_Permutation; [|by eapply NoDup_fmap_1|by intros x; rewrite Hin].
    eapply (NoDup_fmap_1 snd), entries_nodup. }
  split; [|split; [done|split; [exact Hb|split; [exact Ha|exact He]]]]. constructor; [done| | |].
  - rewrite Hp. apply entries_nodup.
  - apply rebuild_agenda_sorted. constructor.
  - intros i c Hi Hs. apply erase_lookup in Hi. rewrite He in Hi.
    change (erase (set_head t None)) with (erase t) in Hi.
    destruct (erase_inv _ _ _ Hi) as (c' & Hc' & [Es Ea]%same_flags).
    assert (ch_active c' = true) as Hac by (eapply Hfl; [done|congruence]).
    split; [|congruence]. setoid_rewrite Hp.
    apply list_elem_of_fmap. exists (ch_next_run_ns c, i). split; [done|].
    apply elem_of_entries. exists i, (set_next None c). repeat split; [done|].
    unfold runs. cbn. by rewrite Ea, Es, Hac, <- Es, Hs.
Qed.

(** ** Slots *)

Lemma sa_entries t ag : scheduled_as t ag → ∀ x, x ∈ ag ↔ x ∈ entries (erase t) 0.
Proof.
  intros Hok x. rewrite elem_of_entries. split.
  - intros Hx. destruct (seg_elem _ _ _ _ _ (sa_seg _ _ Hok) Hx) as (c & Hc & Hs & Hn).
    destruct (sa_flag _ _ Hok _ _ Hc Hs) as [_ Ha]. exists x.2, (set_next None c).
    split; [by apply erase_lookup|]. split; [unfold runs; cbn; by rewrite Hs, Ha|].
    destruct x. cbn in *. by subst.
  - intros (j & c & (c' & Hc & ->)%erase_inv & Hr & ->). unfold runs in Hr. cbn in *.
    apply andb_prop in Hr as [_ Hs]. destruct (sa_entry _ _ _ _ Hok Hc Hs) as (a & b & -> & _).
    apply elem_of_app. right. by left.
Qed.

Lemma entries_zero l n k : entries (l ++ replicate n zero_channel) k = entries l k.
Proof.
  revert k. induction l as [|c l IH]; intros k; cbn; [|by rewrite IH].
  revert k. induction n as [|n IH]; intros k; cbn; [done|apply IH].
Qed.

Lemma grow_cap_eq fuel cap need :
  grow_cap (S fuel) cap need =
    if cap <? need then
      if SIZE_MAX / 2 <? cap then Done None else grow_cap fuel (cap * 2) need
    else Done (Some cap).
Proof. done. Qed.

Lemma grow_cap_ok need fuel : ∀ cap, 0 < cap → SIZE_MAX / 2 < cap * 2 ^ Z.of_nat fuel →
  ∃ r, grow_cap (S fuel) cap need = Done r ∧
    ∀ n, r = Some n → cap ≤ n ∧ need ≤ n ∧ (n = cap ∨ n < need * 2).
Proof.
  induction fuel as [|fuel IH]; intros cap Hc Hf; rewrite grow_cap_eq;
    destruct (cap <? need) eqn:E; zbool.
  2, 4: (exists (Some cap); split; [done|]; intros n [= <-]; lia).
  - change (2 ^ Z.of_nat 0) with 1 in Hf. rewrite (proj2 (Z.ltb_lt _ _)) by lia. by exists None.
  - destruct (SIZE_MAX / 2 <? cap); [by exists None|].
    destruct (IH (cap * 2)) as (r & -> & Hr); [lia| |].
    + replace (Z.of_nat (S fuel)) with (1 + Z.of_nat fuel) in Hf by lia.
      rewrite Z.pow_add_r in Hf by lia. lia.
    + exists r. split; [done|]. intros n Hn. specialize (Hr n Hn). lia.
Qed.

(** Far more channels than an address space holds. *)
Definition CHANNEL_BUDGET : Z := 1099511627776.

Lemma erase_grown t base n : erase (grown t base n) = erase t ++ replicate n zero_channel.
Proof. unfold erase. cbn. by rewrite fmap_app, fmap_replicate. Qed.

Lemma grown_old t base n i c :
  t_chans (grown t base n) !! i = Some c → ch_scheduled c = true → t_chans t !! i = Some c.
Proof.
  cbn. intros [H|[_ H]]%lookup_app_Some Hs; [done|]. apply lookup_replicate in H as [-> _]. done.
Qed.

(** The list stays good where the array did not move, or the list is empty. *)
Lemma grown_stays t ag base n :
  scheduled_as t ag → negb (t_base t =? base) && has (t_head t) = false →
  scheduled_as (grown t base n) ag.
Proof.
  intros Hok Hb. constructor; [|apply Hok..|].
  - pose proof (sa_seg _ _ Hok) as Hseg. cbn. destruct (t_head t) as [h|] eqn:Eh.
    + rewrite andb_true_r in Hb. zbool. apply (seg_frame t); [done| |done].
      intros i (x & -> & Hx)%list_elem_of_fmap. cbn.
      destruct (seg_elem _ _ _ _ _ Hseg Hx) as (c & Hc & _).
      rewrite lookup_app_l; [done|by eapply lookup_lt_Some].
    + destruct ag; [done|]. by destruct Hseg.
  - intros i c Hi Hs. eapply (sa_flag _ _ Hok); [|done]. by eapply grown_old.
Qed.

(** Where it did move, rebuilding makes it good. *)
Lemma grown_rebuilt t ag base n :
  scheduled_as t ag →
  ∃ t' ag', rebuild_schedule_list (grown t base n) = Done t' ∧ scheduled_as t' ag' ∧
    ag' ≡ₚ ag ∧ t_active t' = t_active t ∧ erase t' = erase t ++ replicate n zero_channel.
Proof.
  intros Hok. destruct (rebuild_ok (grown t base n) ag) as (t' & H & Hok' & Hp & _ & Ha' & He').
  - apply Hok.
  - intros x. rewrite erase_grown, entries_zero. by apply sa_entries.
  - intros i c Hi Hs. by apply (sa_flag _ _ Hok _ _ (grown_old _ _ _ _ _ Hi Hs)).
  - rewrite erase_grown in He'. eauto 10.
Qed.

Lemma erase_zlen t l : erase t = l → zlen (t_chans t) = zlen l.
Proof. intros <-. unfold zlen. by rewrite erase_length. Qed.

Lemma ensure_ok realloc t ag need :
  scheduled_as t ag → zlen (t_chans t) < CHANNEL_BUDGET → need ≤ CHANNEL_BUDGET * 2 →
  ∃ ok t' ag' n, ensure_channel_capacity realloc t need = Done (ok, t') ∧
    scheduled_as t' ag' ∧ ag' ≡ₚ ag ∧ t_active t' = t_active t ∧
    erase t' = erase t ++ replicate n zero_channel ∧
    (ok = true → need ≤ zlen (t_chans t')) ∧ (ok = false → t' = t).
Proof.
  intros Hok Hlen Hneed. unfold ensure_channel_capacity. cbv zeta.
  pose proof (zlen_nonneg (t_chans t)) as Hpos. unfold CHANNEL_BUDGET in *.
  assert (erase t = erase t ++ replicate 0 zero_channel) as E0 by (by rewrite app_nil_r).
  destruct (need <=? zlen (t_chans t)) eqn:E; zbool.
  { exists true, t, ag, 0%nat. by rewrite <- E0. }
  set (cap0 := if _ =? 0 then 4 else _).
  assert (0 < cap0 ≤ Z.max 4 (zlen (t_chans t)) ∧ zlen (t_chans t) ≤ cap0) as [Hcap0 Hcap0'].
  { unfold cap0. destruct (_ =? 0) eqn:E'; zbool; lia. }
  destruct (grow_cap_ok need 63 cap0) as (r & -> & Hr);
    [lia|unfold SIZE_MAX, U64_MAX; change (2 ^ Z.of_nat 63) with 9223372036854775808; zlia|].
  cbn [mbind outcome_bind]. destruct r as [n|]; [|exists false, t, ag, 0%nat; by rewrite <- E0].
  destruct (Hr n eq_refl) as (Hn1 & Hn2 & Hn3).
  destruct (realloc _ _) as [base|]; [|exists false, t, ag, 0%nat; by rewrite <- E0].
  rewrite bind_unless_true by (unfold SIZEOF_CHANNEL; rewrite u64_small by lia; apply Z.eqb_refl).
  set (k := Z.to_nat _).
  assert (∀ t', erase t' = erase t ++ replicate k zero_channel → need ≤ zlen (t_chans t')) as Hz.
  { intros t' ->%erase_zlen. autorewrite with zlen. rewrite <- (erase_zlen t _ eq_refl).
    unfold k. lia. }
  destruct (negb (t_base t =? base) && has (t_head t)) eqn:Em.
  - destruct (grown_rebuilt t ag base k Hok) as (t' & ag' & -> & Hok' & Hp & Ha' & He').
    exists true, t', ag', k. do 5 (split; [done|]). split; [|done]. intros _. by apply Hz.
  - exists true, (grown t base k), ag, k. pose proof (erase_grown t base k) as He.
    split; [done|].
    split; [by apply grown_stays|]. do 3 (split; [done|]). split; [|done]. intros _. by apply Hz.
Qed.

Lemma first_chan_some p l : ∀ k i, first_chan p l k = Some i →
  ∃ j c, i = (k + j)%nat ∧ l !! j = Some c ∧ p c = true.
Proof.
  induction l as [|c l IH]; intros k i; cbn; [done|]. destruct (p c) eqn:E.
  - intros [= <-]. exists 0%nat, c. by rewrite Nat.add_0_r.
  - intros (j & d & -> & Hj & Hp)%IH. exists (S j), d. split; [lia|done].
Qed.

Lemma first_chan_none p l k : first_chan p l k = None → ∀ i c, l !! i = Some c → p c = false.
Proof.
  revert k. induction l as [|c l IH]; intros k; cbn; [done|]. destruct (p c) eqn:E; [done|].
  intros H [|i] d Hd; [by injection Hd as <-|by eapply IH].
Qed.

(** A slot is a channel that is not active, and nothing else changes. *)
Lemma alloc_ok realloc t ag :
  scheduled_as t ag → zlen (t_chans t) < CHANNEL_BUDGET →
  ∃ r t' ag' n, alloc_channel_slot realloc t = Done (r, t') ∧
    scheduled_as t' ag' ∧ ag' ≡ₚ ag ∧ t_active t' = t_active t ∧
    erase t' = erase t ++ replicate n zero_channel ∧
    match r with
    | Some i => ∃ c, t_chans t' !! i = Some c ∧ ch_active c = false
    | None => t' = t
    end.
Proof.
  intros Hok Hlen. unfold alloc_channel_slot.
  destruct (first_chan _ _ _) as [i|] eqn:Ef.
  { destruct (first_chan_some _ _ _ _ Ef) as (j & c & -> & Hc & Ha). zbool.
    exists (Some (0 + j)%nat), t, ag, 0%nat. rewrite app_nil_r. eauto 10. }
  cbv zeta. pose proof (zlen_nonneg (t_chans t)) as Hpos. unfold CHANNEL_BUDGET in *.
  rewrite u64_small by lia. set (need := if _ =? 0 then 4 else _).
  assert (zlen (t_chans t) < need ≤ 1099511627776 * 2) as [Hn1 Hn2].
  { unfold need. destruct (_ =? 0) eqn:E; zbool; lia. }
  destruct (ensure_ok realloc t ag need Hok Hlen Hn2)
    as (ok & t' & ag' & n & -> & Hok' & Hp & Ha & He & Ht & Hf).
  cbn [mbind outcome_bind]. exists (if ok then Some (Z.to_nat (zlen (t_chans t))) else None), t', ag', n.
  repeat (split; [done|]). destruct ok; [|by apply Hf]. specialize (Ht eq_refl).
  destruct (lookup_lt_is_Some_2 (t_chans t') (Z.to_nat (zlen (t_chans t)))) as [c Hc];
    [unfold zlen in *; lia|].
  exists c. split; [done|]. apply erase_lookup in Hc. rewrite He in Hc.
  rewrite lookup_app_r in Hc by (rewrite erase_length; unfold zlen; lia).
  apply lookup_replicate in Hc as [E _]. by injection E.
Qed.

Lemma release_ok t ag i c :
  scheduled_as t ag → t_chans t !! i = Some c →
  ∃ t', release_channel_state t (chan_at t i) = Done t' ∧ scheduled_as t' (cancel i ag) ∧
    t_base t' = t_base t ∧ t_active t' = t_active t ∧
    erase t' = <[i := if ch_active c then zero_channel else set_next None c]> (erase t).
Proof.
  intros Hok Hc. unfold release_channel_state. rewrite (rd_chan_at _ _ _ Hc). cbn [mbind outcome_bind].
  destruct (ch_active c) eqn:Ea; cbn [negb].
  2:{ assert (ch_scheduled c = false) as Hs.
      { destruct (ch_scheduled c) eqn:Hs; [|done]. destruct (sa_flag _ _ Hok _ _ Hc Hs). congruence. }
      exists t. rewrite cancel_notin by (by eapply sa_unscheduled). repeat (split; [done|]).
      by rewrite list_insert_id by (by apply erase_lookup). }
  destruct (unschedule_ok _ _ _ _ Hok Hc) as (t1 & -> & Hok1 & Hb1 & Ha1 & He1).
  cbn [mbind outcome_bind].
  destruct (erase_inv t1 i (set_sched false None c)) as (c1 & Hc1 & E).
  { rewrite He1. apply list_lookup_insert_eq. rewrite erase_length. by eapply lookup_lt_Some. }
  replace (chan_at t i) with (chan_at t1 i) by (unfold chan_at; by rewrite Hb1).
  rewrite (upd_chan_at _ _ _ _ Hc1). eexists. split; [done|].
  set (z := {| ch_active := false |}).
  assert (z = zero_channel) as -> by (injection E; intros; unfold z; by subst; f_equal).
  assert (erase (set_chans t1 (<[i := zero_channel]> (t_chans t1))) =
          <[i := zero_channel]> (erase t)) as He
    by (by rewrite erase_insert, He1, list_insert_insert_eq).
  split; [|repeat split; done]. constructor; [|apply Hok1|apply Hok1|].
  - apply seg_set; [by intros [? _]%elem_of_cancel|apply Hok1].
  - intros j cj Hj Hsj. destruct (erase_flag _ _ _ _ _ _ _ He Hc Hj)
      as [[-> [=]]|(Hne & c' & Hc' & [Es Ea']%same_flags)]; [congruence|].
    destruct (sa_flag _ _ Hok _ _ Hc') as [Hin ?]; [congruence|].
    split; [|congruence]. by apply elem_of_cancel.
Qed.

(** * Refinement *)

Inductive table_op : Type :=
| TSchedule (i : nat) (ns : Z)
| TUnschedule (i : nat)
| TPopDue (now : Z)
| TGrow (realloc : Z → Z → option Z) (need : Z)
| TRelease (i : nat).

Definition exec_table (t : table) (op : table_op) : outcome (option cptr * table) :=
  match op with
  | TSchedule i ns => t ← schedule_channel t (chan_at t i) ns; Done (None, t)
  | TUnschedule i => t ← unschedule_channel t (chan_at t i); Done (None, t)
  | TPopDue now => pop_due_channel t now
  | TGrow realloc need => '(_, t) ← ensure_channel_capacity realloc t need; Done (None, t)
  | TRelease i => t ← release_channel_state t (chan_at t i); Done (None, t)
  end.

(** The calls the worker makes: on a channel of the table, scheduling an active one. *)
Definition table_call (t : table) (op : table_op) : Prop :=
  match op with
  | TSchedule i _ => ∃ c, t_chans t !! i = Some c ∧ ch_active c = true
  | TUnschedule i | TRelease i => is_Some (t_chans t !! i)
  | TPopDue _ => True
  | TGrow _ need => zlen (t_chans t) < CHANNEL_BUDGET ∧ need ≤ CHANNEL_BUDGET * 2
  end.

(** The same on an agenda; growing may reorder channels that are due together. *)
Definition agenda_step (op : table_op) (ag : agenda) (r : option nat) (ag' : agenda) : Prop :=
  match op with
  | TSchedule i ns => r = None ∧ ag' = insert_due ns i (cancel i ag)
  | TUnschedule i | TRelease i => r = None ∧ ag' = cancel i ag
  | TPopDue now => (r, ag') = pop_due ag now
  | TGrow _ _ => r = None ∧ ag' ≡ₚ ag
  end.

(** C7: Every operation on the channel table runs without touching memory
    outside the array or through a pointer into an array that has moved, ends,
    and does to the intrusive schedule list exactly what the specification does
    to a sorted agenda: scheduling replaces the channel's entry by one behind
    everything due no later, unscheduling and releasing take it out, popping
    takes the first entry if it is due, and growing the array, wherever
    [realloc] puts it, keeps all entries, sorted. *)
Theorem table_refines_agenda (t : table) (ag : agenda) (op : table_op) :
  scheduled_as t ag → table_call t op →
  ∃ r t' ag', exec_table t op = Done (chan_at t <$> r, t') ∧
    scheduled_as t' ag' ∧ agenda_step op ag r ag'.
Proof.
  intros Hok. destruct op as [i ns|i|now|realloc need|i]; cbn.
  - intros (c & Hc & Ha). destruct (schedule_ok t ag i c ns Hok Hc Ha) as (t' & -> & ? & _).
    by exists None, t', (insert_due ns i (cancel i ag)).
  - intros [c Hc]. destruct (unschedule_ok t ag i c Hok Hc) as (t' & -> & ? & _).
    by exists None, t', (cancel i ag).
  - intros _. destruct ag as [|[m i] ag].
    { exists None, t, []. by rewrite (pop_due_none t []). }
    cbn. destruct (now <? m) eqn:E; zbool.
    + exists None, t, ((m, i) :: ag). rewrite (pop_due_none t ((m, i) :: ag)); [done|done|].
      cbn. by zdec.
    + destruct (pop_due_some t m i ag now Hok E) as (t' & c & -> & ? & _).
      by exists (Some i), t', ag.
  - intros [H1 H2]. destruct (ensure_ok realloc t ag need Hok H1 H2)
      as (ok & t' & ag' & n & -> & ? & ? & _). by exists None, t', ag'.
  - intros [c Hc]. destruct (release_ok t ag i c Hok Hc) as (t' & -> & ? & _).
    by exists None, t', (cancel i ag).
Qed.

Lemma empty_table_ok : scheduled_as empty_table [].
Proof. constructor; [done|constructor|constructor|]. by intros [|i] c H. Qed.

(** A table of four channels at address 100, of which 2 and 0 run at time 5. *)
Definition busy_channel (ns : Z) (next : option nat) : proc_channel_state :=
  {| ch_active := true; ch_scheduled := true; ch_id := 1; ch_next_run_ns := ns;
     ch_proc_in_cb := Some 7; ch_cb_exc := None;
     ch_sched_next := (λ i, {| cp_base := 100; cp_idx := i |}) <$> next |}.
Definition busy_table : table :=
  {| t_base := 100; t_active := 2; t_head := Some {| cp_base := 100; cp_idx := 2 |};
     t_chans := [busy_channel 5 None; zero_channel; busy_channel 5 (Some 0%nat); zero_channel] |}.

Lemma busy_table_ok : scheduled_as busy_table [(5, 2%nat); (5, 0%nat)].
Proof.
  constructor.
  - cbn. split; [done|]. eexists. repeat split. eexists. repeat split.
  - apply (bool_decide_unpack (NoDup _)). reflexivity.
  - repeat constructor; unfold earlier; cbn; lia.
  - intros [|[|[|[|i]]]] c [= <-]; try done; intros _; cbn; set_solver.
Qed.

(** Moving the array turns the two channels round. *)
Example move_reorders :
  ('(_, t) ← ensure_channel_capacity (λ _ _, Some 900) busy_table 8; Done (t_head t)) =
  Done (Some {| cp_base := 900; cp_idx := 0 |}).
Proof. vm_compute. reflexivity. Qed.

Lemma table_refines_agenda_witness :
  ∃ r t' ag', exec_table busy_table (TGrow (λ _ _, Some 900) 8) = Done (chan_at busy_table <$> r, t') ∧
    scheduled_as t' ag' ∧ agenda_step (TGrow (λ _ _, Some 900) 8) [(5, 2%nat); (5, 0%nat)] r ag'.
Proof. apply table_refines_agenda; [apply busy_table_ok|split; reflexivity || discriminate]. Defined.
