(* ===== verification/Proc.v ===== *)
(** The callback scheduler: src/python/RtpProc_mod.c. The worker thread (command
    handling, due callbacks, the wait it then enters) on the channel table of
    [Sched], and the methods close and shutdown, each cut where it gives the
    interpreter lock away, one after the other and without reference counts; the
    arguments of a callback can always be made here. [ProcObj] has [create_channel],
    the counts, the deallocations and the interleaving. *)
From stdpp Require Import prelude list sorting.
From Stdlib Require Import ZArith Lia.
From S2P Require Import Prelude Py Synth Sync Sched.
Local Open Scope Z_scope.

Definition ENOMEM : Z := 12.

(** A command; [true] where it carries the process-wide waiter. *)
Inductive ProcCmd : Set :=
| CMD_ADD_CHANNEL (id proc_in_cb : Z) (waiter : bool)
| CMD_REMOVE_CHANNEL (id : Z) (waiter : bool)
| CMD_SHUTDOWN.

Definition cmd_waits (cmd : ProcCmd) : bool :=
  match cmd with CMD_ADD_CHANNEL _ _ w | CMD_REMOVE_CHANNEL _ w => w | CMD_SHUTDOWN => false end.

(** [cmds]: the list that starts at [cmd_head] (the queue of [Sync.cmdq_fifo]). *)
Record PyRtpProc : Set := {
  worker_running : bool;
  mutex_inited : bool;
  cond_inited : bool;
  cmd_waiter_inited : bool;
  cmd_waiter_busy : bool;
  shutdown_queued : bool;
  accepting_commands : bool;
  next_channel_id : Z;
  cmd_cv_clock : clockid_t;
  cmd_waiter : rtp_sync_waiter;
  cmds : list ProcCmd;
  close_exc : option py_exc_info;
  tab : table;
}.

(** The command side: [cmd_waiter_busy], [cmd_waiter], [cmds]. *)
Definition set_cmd (p : PyRtpProc) (busy : bool) (w : rtp_sync_waiter) (l : list ProcCmd)
    : PyRtpProc :=
  {| worker_running := worker_running p; mutex_inited := mutex_inited p;
     cond_inited := cond_inited p; cmd_waiter_inited := cmd_waiter_inited p;
     cmd_waiter_busy := busy; shutdown_queued := shutdown_queued p;
     accepting_commands := accepting_commands p; next_channel_id := next_channel_id p;
     cmd_cv_clock := cmd_cv_clock p; cmd_waiter := w; cmds := l;
     close_exc := close_exc p; tab := tab p |}.
(** The worker side: [close_exc] and the table. *)
Definition set_tab (p : PyRtpProc) (e : option py_exc_info) (t : table) : PyRtpProc :=
  {| worker_running := worker_running p; mutex_inited := mutex_inited p;
     cond_inited := cond_inited p; cmd_waiter_inited := cmd_waiter_inited p;
     cmd_waiter_busy := cmd_waiter_busy p; shutdown_queued := shutdown_queued p;
     accepting_commands := accepting_commands p; next_channel_id := next_channel_id p;
     cmd_cv_clock := cmd_cv_clock p; cmd_waiter := cmd_waiter p; cmds := cmds p;
     close_exc := e; tab := t |}.
(** The life of the worker: [worker_running], [shutdown_queued],
    [accepting_commands]; and [next_channel_id]. *)
Definition set_life (p : PyRtpProc) (running queued accepting : bool) (id : Z) : PyRtpProc :=
  {| worker_running := running; mutex_inited := mutex_inited p;
     cond_inited := cond_inited p; cmd_waiter_inited := cmd_waiter_inited p;
     cmd_waiter_busy := cmd_waiter_busy p; shutdown_queued := queued;
     accepting_commands := accepting; next_channel_id := id;
     cmd_cv_clock := cmd_cv_clock p; cmd_waiter := cmd_waiter p; cmds := cmds p;
     close_exc := close_exc p; tab := tab p |}.
(** What [PyRtpProc_init] sets up, step by step. *)
Definition set_inited (p : PyRtpProc) (mutex cond waiter : bool) (clk : clockid_t) : PyRtpProc :=
  {| worker_running := worker_running p; mutex_inited := mutex;
     cond_inited := cond; cmd_waiter_inited := waiter;
     cmd_waiter_busy := cmd_waiter_busy p; shutdown_queued := shutdown_queued p;
     accepting_commands := accepting_commands p; next_channel_id := next_channel_id p;
     cmd_cv_clock := clk; cmd_waiter := cmd_waiter p; cmds := cmds p;
     close_exc := close_exc p; tab := tab p |}.

(** * The life of the object *)

Definition PyRtpProc_fresh : PyRtpProc :=
  {| worker_running := false; mutex_inited := false; cond_inited := false;
     cmd_waiter_inited := false; cmd_waiter_busy := false; shutdown_queued := false;
     accepting_commands := true; next_channel_id := 1; cmd_cv_clock := CLOCK_REALTIME;
     cmd_waiter := {| wt_done := false; wt_status := 0 |}; cmds := []; close_exc := None;
     tab := empty_table |}.

(** [PyRtpProc_new]: the singleton, made at the first call. *)
Definition PyRtpProc_new (singleton : option PyRtpProc) : PyRtpProc :=
  match singleton with Some p => p | None => PyRtpProc_fresh end.

(** [PyRtpProc_init] without arguments; the results of [pthread_mutex_init], of
    [rtp_sync_cond_init_monotonic] (with the clock it chose), of
    [rtp_sync_waiter_init] and of [pthread_create]. *)
Definition PyRtpProc_init (p : PyRtpProc) (mutex_rc : Z) (cond : Z * clockid_t)
    (waiter_rc create_rc : Z) : pyres unit * PyRtpProc :=
  if worker_running p || mutex_inited p || cond_inited p || cmd_waiter_inited p then (Ret (), p)
  else if negb (mutex_rc =? 0) then (Raise RuntimeError, p)
  else
    let '(cond_rc, clk) := cond in
    if negb (cond_rc =? 0) then (Raise RuntimeError, set_inited p false false false clk)
    else if negb (waiter_rc =? 0) then (Raise RuntimeError, set_inited p false false false clk)
    else
      let p := set_cmd p false {| wt_done := false; wt_status := 0 |} (cmds p) in
      if negb (create_rc =? 0) then (Raise RuntimeError, set_inited p false false false clk)
      else (Ret (), set_life (set_inited p true true true clk) true false true (next_channel_id p)).

(** * The command queue and its waiter *)

Definition proc_waiter_release (p : PyRtpProc) : PyRtpProc :=
  if negb (mutex_inited p) then p else set_cmd p false (cmd_waiter p) (cmds p).

(** [rtp_sync_waiter_reset] clears the result of the last command. *)
Definition proc_waiter_acquire (p : PyRtpProc) : pyres unit * PyRtpProc :=
  if negb (cmd_waiter_inited p) then (Raise RuntimeError, p)
  else if cmd_waiter_busy p then (Raise RuntimeError, p)
  else (Ret (), set_cmd p true {| wt_done := false; wt_status := 0 |} (cmds p)).

(** [None]: queued; otherwise the error, which is set where the caller asks. *)
Definition enqueue_command (p : PyRtpProc) (cmd : ProcCmd) : option exn * PyRtpProc :=
  if negb (mutex_inited p) || negb (cond_inited p) then (Some RuntimeError, p)
  else if negb (accepting_commands p) then (Some RuntimeError, p)
  else (None, set_cmd p (cmd_waiter_busy p) (cmd_waiter p) (cmds p ++ [cmd])).

Definition detach_commands (p : PyRtpProc) : list ProcCmd * PyRtpProc :=
  if negb (mutex_inited p) then ([], p)
  else (cmds p, set_cmd p (cmd_waiter_busy p) (cmd_waiter p) []).

Definition rtp_sync_waiter_complete (p : PyRtpProc) (status : Z) : PyRtpProc :=
  set_cmd p (cmd_waiter_busy p) {| wt_done := true; wt_status := status |} (cmds p).

(** [wait_for_commands]: the queue when it is first looked at, and then what each
    return of the wait brings, its result and the queue. [None]: still waiting. *)
Definition ETIMEDOUT : Z := 110.
Fixpoint wait_for_commands (queue : list ProcCmd) (wakes : list (Z * list ProcCmd)) : option Z :=
  match queue with
  | _ :: _ => Some 0
  | [] =>
      match wakes with
      | [] => None
      | (rc, queue) :: wakes =>
          if negb (rc =? 0) then Some (if rc =? ETIMEDOUT then 0 else rc)
          else wait_for_commands queue wakes
      end
  end.

(** * The worker *)

(** A call of a callback. *)
Record proc_call : Set := { pc_cb : Z; pc_now : Z; pc_deadline : Z }.

(** The world: how often the clock was read, and the calls made, latest first. *)
Record world : Set := { w_tick : nat; w_calls : list proc_call }.

(** [monotonic_deadline_to_cmd_clock]; [cmd_now] reads the condition variable's
    clock, and a failure aborts. *)
Definition monotonic_deadline_to_cmd_clock (clk : clockid_t) (cmd_now : option Z)
    (monotonic_deadline monotonic_now : Z) : outcome Z :=
  match clk with
  | CLOCK_MONOTONIC =>
      Done (if monotonic_deadline <=? monotonic_now then monotonic_now else monotonic_deadline)
  | CLOCK_REALTIME =>
      match cmd_now with
      | None => Aborted
      | Some cmd_now =>
          Done (if monotonic_deadline <=? monotonic_now then cmd_now
                else
                  let wait_ns := u64 (monotonic_deadline - monotonic_now) in
                  if u64 (U64_MAX - cmd_now) <? wait_ns then U64_MAX
                  else u64 (cmd_now + wait_ns))
      end
  end.

(** [PyLong_AsUnsignedLongLong]. *)
Definition PyLong_AsUnsignedLongLong (o : pyobj) : pyres Z :=
  match o with
  | PyInt z => if (0 <=? z) && (z <=? U64_MAX) then Ret z else Raise OverflowError
  | _ => Raise TypeError
  end.

(** What a call of a callback comes to: whether its arguments could be made, what
    it returns or raises, and the address of the exception object, if one is made. *)
Record cb_outcome : Set := { co_args : bool; co_result : pyres pyobj; co_exc : Z }.

(** What [invoke_proc_callback] leaves in [next_ns], [has_next] and [exc_out]:
    success with or without a time for the next run, or failure with or without
    an exception. *)
Inductive call_res : Set :=
| Wants (next : option Z)
| Failed (exc : option py_exc_info).

Definition call_result (o : cb_outcome) : call_res :=
  let fail e := Failed (Some {| exc_type := e; exc_value := co_exc o |}) in
  if negb (co_args o) then Failed None
  else
    match co_result o with
    | Raise e => fail e
    | Ret PyNone => Wants None
    | Ret res =>
        match PyLong_AsUnsignedLongLong res with Ret z => Wants (Some z) | Raise e => fail e end
    end.

(** [channel_set_callback_exception], when there is one. *)
Definition keep_exception (t : table) (ch : cptr) (exc : option py_exc_info) : outcome table :=
  match exc with Some _ => upd_chan t ch (set_exc exc) | None => Done t end.

(** After the first call, made when the channel is added: never before [now_ns]. *)
Definition settle_first (t : table) (ch : cptr) (now_ns : Z) (res : call_res) : outcome table :=
  match res with
  | Failed exc => keep_exception t ch exc
  | Wants None => Done t
  | Wants (Some next_ns) =>
      schedule_channel t ch (if next_ns <? now_ns then now_ns else next_ns)
  end.

(** After a call that was due: the time as it is, if the channel is still in use. *)
Definition settle_due (t : table) (ch : cptr) (res : call_res) : outcome table :=
  match res with
  | Failed exc => keep_exception t ch exc
  | Wants None => Done t
  | Wants (Some next_ns) =>
      c ← rd_chan t ch;
      if ch_active c then schedule_channel t ch next_ns else Done t
  end.

Section Worker.
(** The monotonic clock, reading by reading; what a callback does, which may
    depend on every call made before; and [realloc]. *)
Context (clock : nat → option timespec).
Context (callback : list proc_call → proc_call → cb_outcome).
Context (realloc : Z → Z → option Z).

Definition now_ns_monotonic (w : world) : Z * world :=
  (match clock (w_tick w) with
   | None => 0
   | Some ts => u64 (u64 (u64 (tv_sec ts) * 1000000000) + u64 (tv_nsec ts))
   end, {| w_tick := S (w_tick w); w_calls := w_calls w |}).

(** Without arguments the callable is not called. *)
Definition invoke_proc_callback (w : world) (cb now_ns deadline_ns : Z) : call_res * world :=
  let c := {| pc_cb := cb; pc_now := now_ns; pc_deadline := deadline_ns |} in
  let o := callback (w_calls w) c in
  (call_result o,
   {| w_tick := w_tick w; w_calls := if co_args o then c :: w_calls w else w_calls w |}).

(** The [CMD_ADD_CHANNEL] branch of [process_commands] up to the call of the
    callback: the channel taken into use, [None] where there was no memory. *)
Definition claim_slot (t : table) (id cb : Z) : outcome (option cptr * table) :=
  '(slot, t) ← alloc_channel_slot realloc t;
  match slot with
  | None => Done (None, t)
  | Some i =>
      let ch := chan_at t i in
      c ← rd_chan t ch;
      _ ← d_assert (negb (ch_active c));
      t ← upd_chan t ch (λ c,
            {| ch_active := true; ch_scheduled := false; ch_id := id; ch_next_run_ns := 0;
               ch_proc_in_cb := Some cb; ch_cb_exc := ch_cb_exc c; ch_sched_next := None |});
      Done (Some ch, set_active t (u64 (t_active t + 1)))
  end.

(** The whole branch: the status, the table. *)
Definition add_channel (t : table) (w : world) (id cb : Z) : outcome (Z * table * world) :=
  '(slot, t) ← claim_slot t id cb;
  match slot with
  | None => Done (ENOMEM, t, w)
  | Some ch =>
      let '(now_ns, w) := now_ns_monotonic w in
      let '(res, w) := invoke_proc_callback w cb now_ns 0 in
      t ← settle_first t ch now_ns res;
      Done (0, t, w)
  end.

(** One turn of the loop of [process_commands]; [true]: a shutdown was seen. *)
Definition process_command (p : PyRtpProc) (w : world) (cmd : ProcCmd)
    : outcome (bool * PyRtpProc * world) :=
  '(shutdown_seen, cmd_status, p, w) ←
    match cmd with
    | CMD_ADD_CHANNEL id cb _ =>
        '(status, t, w) ← add_channel (tab p) w id cb;
        Done (false, status, set_tab p (close_exc p) t, w)
    | CMD_REMOVE_CHANNEL id waiter =>
        '(_, exc, t) ← remove_channel (tab p) id;
        Done (false, 0, set_tab p (if waiter && has exc then exc else close_exc p) t, w)
    | CMD_SHUTDOWN => Done (true, 0, p, w)
    end;
  Done (shutdown_seen, if cmd_waits cmd then rtp_sync_waiter_complete p cmd_status else p, w).

Fixpoint process_list (p : PyRtpProc) (w : world) (l : list ProcCmd) (shutdown_seen : bool)
    : outcome (bool * PyRtpProc * world) :=
  match l with
  | [] => Done (shutdown_seen, p, w)
  | cmd :: l => '(seen, p, w) ← process_command p w cmd; process_list p w l (shutdown_seen || seen)
  end.

Definition process_commands (p : PyRtpProc) (w : world) : outcome (bool * PyRtpProc * world) :=
  let '(l, p) := detach_commands p in process_list p w l false.

(** The inner loop of [rtp_proc_worker]. *)
Fixpoint run_due (fuel : nat) (t : table) (w : world) (now_ns : Z) : outcome (table * world) :=
  '(ch, t) ← pop_due_channel t now_ns;
  match ch with
  | None => Done (t, w)
  | Some ch =>
      match fuel with
      | O => OutOfFuel
      | S fuel =>
          c ← rd_chan t ch;
          match ch_active c, ch_proc_in_cb c with
          | true, Some cb =>
              let deadline_ns := ch_next_run_ns c in
              let '(res, w) := invoke_proc_callback w cb now_ns deadline_ns in
              t ← settle_due t ch res;
              let '(now_ns, w) := now_ns_monotonic w in
              run_due fuel t w now_ns
          | _, _ => run_due fuel t w now_ns
          end
      end
  end.

(** What an iteration of the outer loop comes to. *)
Inductive worker_next : Set :=
| WaitForever
| WaitUntil (ns : Z)
| RunAgain
| WorkerExit.

Definition rtp_proc_worker_iter (fuel : nat) (p : PyRtpProc) (w : world) (cmd_now : option Z)
    : outcome (worker_next * PyRtpProc * world) :=
  '(shutdown_seen, p, w) ← process_commands p w;
  if shutdown_seen : bool then
    t ← clear_channels (tab p);
    let '(_, p) := detach_commands (set_tab p (close_exc p) t) in
    Done (WorkerExit, p, w)
  else
    let '(now_ns, w) := now_ns_monotonic w in
    '(t, w) ← run_due fuel (tab p) w now_ns;
    let p := set_tab p (close_exc p) t in
    match t_head t with
    | None => Done (WaitForever, p, w)
    | Some ch =>
        let '(now_ns, w) := now_ns_monotonic w in
        c ← rd_chan t ch;
        if ch_next_run_ns c <=? now_ns then Done (RunAgain, p, w)
        else
          wait_until ← monotonic_deadline_to_cmd_clock (cmd_cv_clock p) cmd_now
                         (ch_next_run_ns c) now_ns;
          Done (WaitUntil wait_until, p, w)
    end.
End Worker.

(** * Methods *)

(** A method up to where it waits for the worker without the interpreter lock,
    or to its end. *)
Inductive begun (A : Type) : Type :=
| Ended (r : A)
| Waiting.
Arguments Ended {A} _.
Arguments Waiting {A}.

(** [proc_obj] is kept as whether it is there. *)
Record PyRtpProcChannel : Set := { pch_id : Z; pch_proc_obj : bool; pch_closed : bool }.

Definition set_closed (ch : PyRtpProcChannel) : PyRtpProcChannel :=
  {| pch_id := pch_id ch; pch_proc_obj := pch_proc_obj ch; pch_closed := true |}.

(** The outcomes of [close]: [ChannelProcFailed] is [ChannelProcError], chained
    from the exception of the callback. *)
Inductive close_result : Set :=
| Closed
| CloseRaises (e : exn)
| ChannelProcFailed (cause : py_exc_info).

(** [raise_channel_proc_error_from], where the error object can be made. *)
Definition proc_pop_close_exception (p : PyRtpProc) : option py_exc_info * PyRtpProc :=
  (close_exc p, set_tab p None (tab p)).

Definition close_finish (p : PyRtpProc) (ch : PyRtpProcChannel) (with_error : bool)
    : close_result * PyRtpProc * PyRtpProcChannel :=
  let ch := set_closed ch in
  if with_error then
    match proc_pop_close_exception p with
    | (Some e, p) => (ChannelProcFailed e, p, ch)
    | (None, p) => (Closed, p, ch)
    end
  else (Closed, p, ch).

Definition rtp_proc_channel_close_begin (p : PyRtpProc) (ch : PyRtpProcChannel)
    (with_error alloc_cmd : bool) : begun close_result * PyRtpProc * PyRtpProcChannel :=
  if pch_closed ch then
    (Ended (if with_error then CloseRaises RuntimeError else Closed), p, ch)
  else if negb (pch_proc_obj ch) then (Ended Closed, p, set_closed ch)
  else if negb alloc_cmd then
    (Ended (if with_error then CloseRaises MemoryError else Closed), p, ch)
  else
    let '(acquired, p) :=
      if with_error then proc_waiter_acquire (set_tab p None (tab p)) else (Ret (), p) in
    match acquired with
    | Raise e => (Ended (CloseRaises e), p, ch)
    | Ret _ =>
        match enqueue_command p (CMD_REMOVE_CHANNEL (pch_id ch) with_error) with
        | (Some _, p) =>
            (* the error of a queue that is gone or closing is forgotten *)
            let '(r, p, ch) :=
              close_finish (if with_error then proc_waiter_release p else p) ch with_error in
            (Ended r, p, ch)
        | (None, p) =>
            if with_error then (Waiting, p, ch)
            else let '(r, p, ch) := close_finish p ch false in (Ended r, p, ch)
        end
    end.

Definition rtp_proc_channel_close_end (p : PyRtpProc) (ch : PyRtpProcChannel)
    : close_result * PyRtpProc * PyRtpProcChannel :=
  let status := wt_status (cmd_waiter p) in
  let p := proc_waiter_release p in
  if negb (status =? 0) then (CloseRaises RuntimeError, p, ch)
  else close_finish p ch true.

(** [shutdown], up to [pthread_join] and after it. *)
Definition rtp_proc_shutdown_begin (p : PyRtpProc) (alloc_cmd : bool)
    : begun (pyres unit) * PyRtpProc :=
  if negb (worker_running p) then (Ended (Ret ()), p)
  else if shutdown_queued p then (Waiting, p)
  else if negb alloc_cmd then (Ended (Raise MemoryError), p)
  else
    let p := set_cmd p (cmd_waiter_busy p) (cmd_waiter p) (cmds p ++ [CMD_SHUTDOWN]) in
    (Waiting, set_life p (worker_running p) true false (next_channel_id p)).

Definition rtp_proc_shutdown_end (p : PyRtpProc) : PyRtpProc :=
  set_life p false (shutdown_queued p) (accepting_commands p) (next_channel_id p).

(** * What the worker's table says of a channel *)

(** Callback, time of the next run, exception left behind. *)
Definition view_of (c : proc_channel_state) : option Z * option Z * option py_exc_info :=
  (ch_proc_in_cb c, if ch_scheduled c then Some (ch_next_run_ns c) else None, ch_cb_exc c).

Definition view (t : table) (id : Z) : option (option Z * option Z * option py_exc_info) :=
  match find_channel_index t id with
  | Some i => view_of <$> t_chans t !! i
  | None => None
  end.

(** Slots that are not in use are clear, the others have a callback. *)
Definition slot_ok (c : proc_channel_state) : Prop :=
  if ch_active c then is_Some (ch_proc_in_cb c) else c = zero_channel.

Definition ids_ok (l : list proc_channel_state) : Prop :=
  ∀ i j c d, l !! i = Some c → l !! j = Some d →
    ch_active c = true → ch_active d = true → ch_id c = ch_id d → i = j.

Record table_ok (t : table) (ag : agenda) : Prop := {
  to_sched : scheduled_as t ag;
  to_slots : Forall slot_ok (erase t);
  to_ids : ids_ok (erase t);
}.

(** * Tables and their views *)

Definition has_id (id : Z) (c : proc_channel_state) : bool := ch_active c && (ch_id c =? id).

Lemma has_id_true id c : has_id id c = true ↔ ch_active c = true ∧ ch_id c = id.
Proof. unfold has_id. by rewrite andb_true_iff, Z.eqb_eq. Qed.

(** The view, from the table without its links. *)
Definition view_list (l : list proc_channel_state) (id : Z) : option (option Z * option Z * option py_exc_info) :=
  match first_chan (has_id id) l 0 with Some i => view_of <$> l !! i | None => None end.

Lemma first_chan_fmap p f l : (∀ c, p (f c) = p c) → ∀ k, first_chan p (f <$> l) k = first_chan p l k.
Proof.
  intros Hp. induction l as [|c l IH]; intros k; cbn; [done|]. rewrite Hp. by destruct (p c).
Qed.

Lemma view_erase t id : view t id = view_list (erase t) id.
Proof.
  unfold view, view_list, find_channel_index, erase.
  rewrite first_chan_fmap by done. fold (has_id id).
  destruct (first_chan _ _ _); [|done]. rewrite list_lookup_fmap. by destruct (t_chans t !! n).
Qed.

Lemma view_list_none l id : view_list l id = None ↔ ∀ i c, l !! i = Some c → has_id id c = false.
Proof.
  unfold view_list. destruct (first_chan _ _ _) as [i|] eqn:E.
  - destruct (first_chan_some _ _ _ _ E) as (j & c & -> & Hc & Hi). cbn. rewrite Hc. cbn.
    split; [done|]. intros H. by rewrite (H _ _ Hc) in Hi.
  - split; [|done]. intros _. by eapply first_chan_none.
Qed.

Lemma view_list_some l id v :
  ids_ok l → view_list l id = Some v ↔ ∃ i c, l !! i = Some c ∧ has_id id c = true ∧ v = view_of c.
Proof.
  intros Hids. split.
  - unfold view_list. destruct (first_chan _ _ _) as [i|] eqn:E; [|done].
    destruct (first_chan_some _ _ _ _ E) as (j & c & -> & Hc & Hi). cbn. rewrite Hc. intros [= <-].
    eauto 10.
  - intros (i & c & Hc & Hi & ->). unfold view_list. destruct (first_chan _ _ _) as [k|] eqn:E.
    + destruct (first_chan_some _ _ _ _ E) as (j & d & -> & Hd & Hj). cbn in *.
      apply has_id_true in Hi as [Hi1 Hi2], Hj as [Hj1 Hj2].
      rewrite (Hids j i d c) by (done || congruence). by rewrite Hc.
    + by rewrite (first_chan_none _ _ _ E _ _ Hc) in Hi.
Qed.

Lemma view_list_ext l l' id :
  ids_ok l → ids_ok l' →
  (∀ c, has_id id c = true → (∃ i, l !! i = Some c) ↔ (∃ i, l' !! i = Some c)) →
  view_list l' id = view_list l id.
Proof.
  intros Hl Hl' H. apply option_eq. intros v. rewrite !view_list_some by done. split.
  - intros (i & c & Hc & Hi & ->). destruct (proj2 (H c Hi)) as [j Hj]; [by eauto|]. eauto 10.
  - intros (i & c & Hc & Hi & ->). destruct (proj1 (H c Hi)) as [j Hj]; [by eauto|]. eauto 10.
Qed.

(** A slot changes: its old number goes, its new one comes. *)
Lemma ids_insert l i c d :
  ids_ok l → l !! i = Some c →
  (ch_active d = true → has_id (ch_id d) c = true ∨ view_list l (ch_id d) = None) →
  ids_ok (<[i := d]> l).
Proof.
  intros Hids Hc Hd.
  assert (∀ j e, j ≠ i → l !! j = Some e → ch_active d = true → ch_active e = true →
          ch_id e = ch_id d → False) as Hno.
  { intros j e Hj He Had Hae Eid. destruct (Hd Had) as [[Hac Hid]%has_id_true|Hn].
    - apply Hj. apply (Hids j i e c); congruence.
    - pose proof (proj1 (view_list_none _ _) Hn j e He) as Hf.
      assert (has_id (ch_id d) e = true) by (by apply has_id_true). congruence. }
  assert (i < length l)%nat as Hi by (by eapply lookup_lt_Some).
  intros j k a b. rewrite !list_lookup_insert. repeat case_decide; intros; simplify_eq; try lia.
  - exfalso. eapply (Hno k b); [intros ->; tauto|done..|congruence].
  - exfalso. eapply (Hno j a); [intros ->; tauto|done..|congruence].
  - eapply Hids; done.
Qed.

Lemma view_insert_ne l i c d id :
  ids_ok l → ids_ok (<[i := d]> l) → l !! i = Some c →
  has_id id c = false → has_id id d = false → view_list (<[i := d]> l) id = view_list l id.
Proof.
  intros Hl Hl' Hc Hfc Hfd. apply view_list_ext; [done..|]. intros e He.
  split; intros [j Hj]; exists j.
  - rewrite list_lookup_insert_ne; [done|]. intros <-. congruence.
  - destruct (decide (i = j)) as [<-|Hne]; [|by rewrite list_lookup_insert_ne in Hj].
    rewrite list_lookup_insert_eq in Hj by (by eapply lookup_lt_Some). congruence.
Qed.

Lemma view_insert_eq l i c d :
  ids_ok (<[i := d]> l) → l !! i = Some c → ch_active d = true →
  view_list (<[i := d]> l) (ch_id d) = Some (view_of d).
Proof.
  intros Hl Hc Hd. apply view_list_some; [done|]. exists i, d.
  rewrite list_lookup_insert_eq by (by eapply lookup_lt_Some). split; [done|].
  split; [by apply has_id_true|done].
Qed.

(** Clear slots at the end are not seen. *)
Lemma zeros_ok l n :
  Forall slot_ok l → ids_ok l →
  Forall slot_ok (l ++ replicate n zero_channel) ∧ ids_ok (l ++ replicate n zero_channel) ∧
  ∀ id, view_list (l ++ replicate n zero_channel) id = view_list l id.
Proof.
  intros Hs Hids.
  assert (∀ i c, (l ++ replicate n zero_channel) !! i = Some c → ch_active c = true → l !! i = Some c)
    as Hold.
  { intros i c [H|[_ H]]%lookup_app_Some Ha; [done|]. apply lookup_replicate in H as [-> _]. done. }
  assert (ids_ok (l ++ replicate n zero_channel)) as Hids'.
  { intros i j c d Hc Hd Hac Had. by eapply Hids; eauto. }
  split; [|split; [done|]].
  - apply Forall_app. split; [done|]. apply Forall_replicate. done.
  - intros id. apply view_list_ext; [done..|]. intros c [Ha _]%has_id_true.
    split; intros [i Hi]; exists i; [|by apply Hold].
    rewrite lookup_app_l; [done|by eapply lookup_lt_Some].
Qed.

(** ** Changes to one channel *)

Lemma set_active_sched t n ag : scheduled_as t ag → scheduled_as (set_active t n) ag.
Proof.
  intros [Hs Hn Ho Hf]. constructor; [|done..]. by apply (seg_frame t).
Qed.

(** A channel that is not scheduled changes, and is still not scheduled. *)
Lemma fill_sched t ag i c f :
  scheduled_as t ag → t_chans t !! i = Some c → ch_scheduled c = false → ch_scheduled (f c) = false →
  ∃ t', upd_chan t (chan_at t i) f = Done t' ∧ scheduled_as t' ag ∧ t_base t' = t_base t ∧
    t_active t' = t_active t ∧ t_chans t' !! i = Some (f c) ∧
    erase t' = <[i := set_next None (f c)]> (erase t).
Proof.
  intros Hok Hc Hs Hs'. rewrite (upd_chan_at _ _ _ _ Hc). eexists. split; [done|].
  split; [|repeat split; [apply list_lookup_insert_eq; by eapply lookup_lt_Some|apply erase_insert]].
  constructor; [|apply Hok..|].
  - apply seg_set; [by eapply sa_unscheduled|apply Hok].
  - cbn. intros j d. rewrite list_lookup_insert. case_decide; [intros [= <-]; congruence|].
    apply Hok.
Qed.

(** A channel changes in its exception only. *)
Lemma exc_sched t ag i c e :
  scheduled_as t ag → t_chans t !! i = Some c →
  ∃ t', upd_chan t (chan_at t i) (set_exc e) = Done t' ∧ scheduled_as t' ag ∧
    t_base t' = t_base t ∧ t_active t' = t_active t ∧ t_chans t' !! i = Some (set_exc e c) ∧
    erase t' = <[i := set_exc e (set_next None c)]> (erase t).
Proof.
  intros Hok Hc. rewrite (upd_chan_at _ _ _ _ Hc). eexists. split; [done|].
  assert (i < length (t_chans t))%nat as Hi by (by eapply lookup_lt_Some).
  split; [|repeat split; [by apply list_lookup_insert_eq|apply erase_insert]].
  constructor; [|apply Hok..|].
  - generalize (sa_seg _ _ Hok). cbn [t_head set_chans]. generalize (t_head t).
    clear Hok. induction ag as [|x ag IH]; intros p; cbn; [done|].
    intros (-> & d & Hd & Hs & Hn & H%IH). split; [done|]. rewrite list_lookup_insert.
    case_decide as Ex; [|by eauto 10]. destruct Ex as [-> _]. rewrite Hc in Hd. injection Hd as <-.
    eexists. split; [done|]. done.
  - cbn. intros j d. rewrite list_lookup_insert. case_decide as Ex; [|apply Hok].
    intros [= <-] Hs. destruct Ex as [-> _]. exact (sa_flag _ _ Hok _ _ Hc Hs).
Qed.

Lemma slot_inactive l i c :
  Forall slot_ok l → l !! i = Some c → ch_active c = false → c = zero_channel.
Proof. intros Hl Hc Ha. pose proof (Forall_lookup_1 _ _ _ _ Hl Hc) as H. unfold slot_ok in H. by rewrite Ha in H. Qed.

Lemma remove_ok t ag id :
  table_ok t ag →
  ∃ found exc t' ag', remove_channel t id = Done (found, exc, t') ∧ table_ok t' ag' ∧
    length (t_chans t') = length (t_chans t) ∧
    exc = match view t id with Some (_, _, exc) => exc | None => None end ∧
    found = has (view t id) ∧ view t' id = None ∧ (∀ id', id' ≠ id → view t' id' = view t id') ∧
    erase t' = match find_channel_index t id with
               | Some i => <[i := zero_channel]> (erase t)
               | None => erase t
               end.
Proof.
  intros Htab. pose proof Htab as [Hok Hsl Hids]. unfold remove_channel, view at 1 2.
  destruct (find_channel_index t id) as [i|] eqn:Ef.
  2:{ exists false, None, t, ag. repeat (split; [done|]). split; [unfold view; by rewrite Ef|done]. }
  destruct (first_chan_some _ _ _ _ Ef) as (j & c & -> & Hc & [Ha Hid]%has_id_true). cbn [Nat.add] in *.
  rewrite (rd_chan_at _ _ _ Hc), Hc. cbn [mbind outcome_bind fmap option_fmap option_map view_of has].
  destruct (exc_sched t ag j c None Hok Hc) as (t1 & -> & Hok1 & Hb1 & Ha1 & Hc1 & He1).
  cbn [mbind outcome_bind]. replace (chan_at t j) with (chan_at t1 j) by (unfold chan_at; by rewrite Hb1).
  destruct (release_ok t1 ag j _ Hok1 Hc1) as (t2 & -> & Hok2 & _ & _ & He2).
  cbn [mbind outcome_bind]. cbn [ch_active set_exc] in He2. rewrite Ha in He2.
  rewrite He1, list_insert_insert_eq in He2.
  set (t3 := if _ <? _ then _ else _).
  assert (erase t3 = <[j := zero_channel]> (erase t) ∧ scheduled_as t3 (cancel j ag)) as [He3 Hok3].
  { unfold t3. destruct (_ <? _); [|done]. split; [done|]. by apply set_active_sched. }
  pose proof (erase_lookup _ _ _ Hc) as He.
  assert (ids_ok (<[j := zero_channel]> (erase t))) as Hids3 by (by apply (ids_insert _ _ _ _ Hids He)).
  exists true, (ch_cb_exc c), t3, (cancel j ag). split; [done|].
  assert (length (t_chans t3) = length (t_chans t)) as Hlen3.
  { rewrite <- !erase_length, He3. apply length_insert. }
  split; [|split; [done|]].
  - constructor; [done|..]; rewrite He3; [|done]. by apply Forall_insert.
  - split; [done|]. split; [done|]. split.
    + rewrite view_erase, He3. apply view_list_none. intros k d.
      rewrite list_lookup_insert. case_decide; [by intros [= <-]|]. intros Hd.
      destruct (has_id id d) eqn:E; [|done]. apply has_id_true in E as [Had Hidd].
      assert (k = j) as ->; [|rewrite erase_length in *; apply lookup_lt_Some in Hc; tauto].
      eapply Hids; [done..|]. cbn. congruence.
    + split; [|done]. intros id' Hne. rewrite !view_erase, He3. eapply view_insert_ne; [done..| |done].
      unfold has_id. cbn. rewrite Hid. zdec. apply andb_false_r.
Qed.

Section Worker_ok.
Context (clock : nat → option timespec).
Context (callback : list proc_call → proc_call → cb_outcome).
Context (realloc : Z → Z → option Z).

(** What a channel is after a call of its callback: [None] as the time of the
    next run when it wants no more or failed. *)
Definition after_call (cb : Z) (exc : option py_exc_info) (res : call_res) (least : Z)
    : option Z * option Z * option py_exc_info :=
  match res with
  | Failed (Some e) => (Some cb, None, Some e)
  | Failed None | Wants None => (Some cb, None, exc)
  | Wants (Some ns) => (Some cb, Some (Z.max least ns), exc)
  end.

Lemma settle_due_eq t i c res :
  t_chans t !! i = Some c → ch_active c = true →
  settle_due t (chan_at t i) res =
  match res with
  | Failed exc => keep_exception t (chan_at t i) exc
  | Wants None => Done t
  | Wants (Some _) =>
      schedule_channel t (chan_at t i) (match res with Wants (Some z) => z | _ => 0 end)
  end.
Proof.
  intros Hc Ha. destruct res as [[?|]|?]; [|done..]. cbn.
  rewrite (rd_chan_at _ _ _ Hc). cbn. by rewrite Ha.
Qed.

(** The end of a call: the channel, taken off the list before, is put back or not. *)
Lemma settle_ok t ag i c cb (res : call_res) ns :
  table_ok t ag → t_chans t !! i = Some c → ch_scheduled c = false →
  ch_active c = true → ch_proc_in_cb c = Some cb →
  ∃ t' ag' d, match res with
    | Failed exc => keep_exception t (chan_at t i) exc
    | Wants None => Done t
    | Wants (Some _) => schedule_channel t (chan_at t i) ns
    end = Done t' ∧ table_ok t' ag' ∧ erase t' = <[i := d]> (erase t) ∧ ch_active d = true ∧
    ch_id d = ch_id c ∧ ch_proc_in_cb d = Some cb ∧
    view_of d = match res with
                | Failed (Some e) => (Some cb, None, Some e)
                | Failed None | Wants None => (Some cb, None, ch_cb_exc c)
                | Wants (Some _) => (Some cb, Some ns, ch_cb_exc c)
                end ∧
    ag' = match res with Wants (Some _) => insert_due ns i ag | _ => ag end.
Proof.
  intros [Hok Hsl Hids] Hc Hs Ha Hcb. pose proof (erase_lookup _ _ _ Hc) as He.
  assert (∀ t' ag' d, scheduled_as t' ag' → erase t' = <[i := d]> (erase t) →
    ch_active d = true → ch_id d = ch_id c → ch_proc_in_cb d = Some cb → table_ok t' ag') as Hmk.
  { intros t' ag' d Hok' He' Hda Hdi Hdc. constructor; [done|..]; rewrite He'.
    - apply Forall_insert; [done|]. unfold slot_ok. rewrite Hda, Hdc. by eexists.
    - apply (ids_insert _ _ _ _ Hids He). intros _. left. by apply has_id_true. }
  assert (table_ok t ag) as Htab by done.
  assert (view_of (set_next None c) = (Some cb, None, ch_cb_exc c)) as Hvc
    by (unfold view_of; cbn; by rewrite Hs, Hcb).
  destruct res as [[z|]|[e|]]; cbn [keep_exception].
  - destruct (schedule_ok t ag i c ns Hok Hc Ha) as (t' & -> & Hok' & _ & _ & He').
    rewrite cancel_notin in Hok' by (by eapply sa_unscheduled).
    exists t', (insert_due ns i ag), (set_run ns c). split; [done|].
    split; [by eapply Hmk|]. repeat split; try done. unfold view_of. cbn. by rewrite Hcb.
  - exists t, ag, (set_next None c). by rewrite list_insert_id.
  - destruct (exc_sched t ag i c (Some e) Hok Hc) as (t' & -> & Hok' & _ & _ & _ & He').
    eexists t', ag, _. split; [done|]. split; [by eapply Hmk|]. split; [exact He'|].
    repeat split; try done. unfold view_of. cbn. by rewrite Hs, Hcb.
  - exists t, ag, (set_next None c). by rewrite list_insert_id.
Qed.

(** A channel just taken into use. *)
Definition claimed (id cb : Z) : proc_channel_state :=
  {| ch_active := true; ch_scheduled := false; ch_id := id; ch_next_run_ns := 0;
     ch_proc_in_cb := Some cb; ch_cb_exc := None; ch_sched_next := None |}.

(** The slot was clear, in the table or in the part it grew by. *)
Definition claims (t t' : table) (i : nat) (id cb : Z) : Prop :=
  ∃ n, (erase t ++ replicate n zero_channel) !! i = Some zero_channel ∧
    erase t' = <[i := claimed id cb]> (erase t ++ replicate n zero_channel).

Lemma claim_ok t ag id cb :
  table_ok t ag → view t id = None → zlen (t_chans t) < CHANNEL_BUDGET →
  ∃ r t' ag', claim_slot realloc t id cb = Done (r, t') ∧ table_ok t' ag' ∧
    match r with
    | None => t' = t
    | Some ch => ∃ i, ch = chan_at t' i ∧ t_chans t' !! i = Some (claimed id cb) ∧ claims t t' i id cb
    end.
Proof.
  intros Htab Hview Hlen. pose proof Htab as [Hok Hsl Hids]. unfold claim_slot.
  destruct (alloc_ok realloc t ag Hok Hlen) as (r & t1 & ag1 & n & -> & Hok1 & _ & _ & He1 & Hr).
  cbn [mbind outcome_bind]. destruct r as [i|]; [|subst t1; by exists None, t, ag].
  destruct Hr as (c & Hc & Ha). rewrite (rd_chan_at _ _ _ Hc). cbn [mbind outcome_bind].
  rewrite bind_assert_true by (by rewrite Ha).
  destruct (zeros_ok (erase t) n Hsl Hids) as (Hsl1 & Hids1 & Hv1). rewrite <- He1 in *.
  pose proof (erase_lookup _ _ _ Hc) as Hec.
  pose proof (slot_inactive _ _ _ Hsl1 Hec Ha) as Hz. rewrite Hz in Hec.
  assert (ch_scheduled c = false ∧ ch_cb_exc c = None) as [Hs Hexc] by (injection Hz; by intros).
  destruct (fill_sched t1 ag1 i c (λ c,
            {| ch_active := true; ch_scheduled := false; ch_id := id; ch_next_run_ns := 0;
               ch_proc_in_cb := Some cb; ch_cb_exc := ch_cb_exc c; ch_sched_next := None |})
            Hok1 Hc Hs eq_refl) as (t2 & -> & Hok2 & Hb2 & _ & Hc2 & He2).
  cbn [mbind outcome_bind]. rewrite Hexc in *. fold (claimed id cb) in *.
  change (set_next None (claimed id cb)) with (claimed id cb) in He2.
  eexists _, (set_active t2 _), ag1. split; [done|]. split.
  - constructor; [by apply set_active_sched|..]; change (erase (set_active t2 _)) with (erase t2); rewrite He2.
    + apply Forall_insert; [done|]. by eexists.
    + apply (ids_insert _ _ _ _ Hids1 Hec). intros _. right. cbn. by rewrite Hv1, <- view_erase.
  - exists i. split; [unfold chan_at; by rewrite <- Hb2|]. split; [done|]. exists n. by rewrite <- He1.
Qed.

(** What the rest of the program sees of a slot that was taken and then settled. *)
Lemma claims_view t ag t' ag' i d id cb t2 ag2 :
  table_ok t ag → table_ok t' ag' → table_ok t2 ag2 → claims t t' i id cb →
  erase t2 = <[i := d]> (erase t') → ch_active d = true → ch_id d = id →
  (∀ id', id' ≠ id → view t2 id' = view t id') ∧ view t2 id = Some (view_of d).
Proof.
  intros Htab Htab' Htab2 (n & Hz & He) He2 Had Hid.
  destruct (zeros_ok (erase t) n (to_slots _ _ Htab) (to_ids _ _ Htab)) as (_ & Hids1 & Hv1).
  rewrite He, list_insert_insert_eq in He2. pose proof (to_ids _ _ Htab2) as Hids2. rewrite He2 in Hids2.
  split.
  - intros id' Hne. rewrite !view_erase, He2, <- Hv1. eapply view_insert_ne; [done|done|done|done|].
    unfold has_id. rewrite Hid. zdec. apply andb_false_r.
  - subst id. rewrite view_erase, He2. by apply (view_insert_eq _ _ _ _ Hids2 Hz).
Qed.

(** A first call that wants a time before [now] gets [now]. *)
Definition first_time (now : Z) (res : call_res) : Z :=
  match res with Wants (Some ns) => if ns <? now then now else ns | _ => 0 end.

Lemma settle_first_eq t ch now res :
  settle_first t ch now res =
  match res with
  | Failed exc => keep_exception t ch exc
  | Wants None => Done t
  | Wants (Some _) => schedule_channel t ch (first_time now res)
  end.
Proof. by destruct res as [[?|]|?]. Qed.

Lemma add_ok t ag w id cb :
  table_ok t ag → view t id = None → zlen (t_chans t) < CHANNEL_BUDGET →
  ∃ status t' w' ag', add_channel clock callback realloc t w id cb = Done (status, t', w') ∧
    table_ok t' ag' ∧
    ((status = ENOMEM ∧ t' = t ∧ w' = w) ∨
     (status = 0 ∧ (∀ id', id' ≠ id → view t' id' = view t id') ∧
      let '(now, w1) := now_ns_monotonic clock w in
      let '(res, w2) := invoke_proc_callback callback w1 cb now 0 in
      w' = w2 ∧ view t' id = Some (after_call cb None res now))).
Proof.
  intros Htab Hview Hlen. unfold add_channel.
  destruct (claim_ok t ag id cb Htab Hview Hlen) as (r & t1 & ag1 & -> & Htab1 & Hr).
  cbn [mbind outcome_bind]. destruct r as [ch|].
  2:{ subst t1. exists ENOMEM, t, w, ag. split; [done|]. split; [done|by left]. }
  destruct Hr as (i & -> & Hc & Hcl).
  destruct (now_ns_monotonic clock w) as [now w1] eqn:Enow.
  destruct (invoke_proc_callback callback w1 cb now 0) as [res w2] eqn:Ecall.
  destruct (settle_ok t1 ag1 i _ cb res (first_time now res) Htab1 Hc eq_refl eq_refl eq_refl)
    as (t2 & ag2 & d & Hset & Htab2 & He2 & Had & Hid & _ & Hvd & _).
  rewrite settle_first_eq, Hset. cbn [mbind outcome_bind].
  destruct (claims_view t ag t1 ag1 i d id cb t2 ag2) as [Hne Heq]; [done..|].
  exists 0, t2, w2, ag2. split; [done|]. split; [done|]. right.
  split; [done|]. split; [done|]. split; [done|]. rewrite Heq, Hvd. f_equal.
  unfold after_call, first_time. cbn [ch_cb_exc claimed]. destruct res as [[z|]|[e|]]; [|done..].
  do 2 f_equal. destruct (z <? now) eqn:E; zbool; f_equal; lia.
Qed.

(** ** The inner loop *)

Definition reading (n : nat) : Z :=
  fst (now_ns_monotonic clock {| w_tick := n; w_calls := [] |}).

Definition cb_of (t : table) (i : nat) : option Z := erase t !! i ≫= ch_proc_in_cb.

Lemma cb_of_insert t t' i c d j :
  erase t' = <[i := d]> (erase t) → t_chans t !! i = Some c →
  ch_proc_in_cb d = ch_proc_in_cb c → cb_of t' j = cb_of t j.
Proof.
  intros He Hc Hd. unfold cb_of. rewrite He, list_lookup_insert.
  case_decide as E; [|done]. destruct E as [-> _]. by rewrite (erase_lookup _ _ _ Hc).
Qed.

(** The channel [pop_due_channel] returns is in use and has a callback. *)
Lemma pop_table_ok t ns i ag now :
  table_ok t ((ns, i) :: ag) → ns ≤ now →
  ∃ t' c cb, pop_due_channel t now = Done (Some (chan_at t' i), t') ∧ table_ok t' ag ∧
    t_chans t' !! i = Some c ∧ ch_scheduled c = false ∧ ch_active c = true ∧
    ch_proc_in_cb c = Some cb ∧ ch_next_run_ns c = ns ∧ cb_of t i = Some cb ∧
    (∀ j, cb_of t' j = cb_of t j) ∧
    ∃ d, t_chans t !! i = Some d ∧ erase t' = <[i := set_sched false None d]> (erase t).
Proof.
  intros [Hok Hsl Hids] Hns.
  destruct (pop_due_some t ns i ag now Hok Hns) as (t' & c & Hpop & Hok' & Hb & _ & Hc & Ha & Hn & He').
  pose proof (erase_lookup _ _ _ Hc) as He.
  pose proof (Forall_lookup_1 _ _ _ _ Hsl He) as Hcb. unfold slot_ok in Hcb. cbn in Hcb.
  rewrite Ha in Hcb. destruct Hcb as [cb Hcb].
  destruct (erase_inv t' i (set_sched false None c)) as (c' & Hc' & E).
  { rewrite He'. apply list_lookup_insert_eq. by eapply lookup_lt_Some. }
  exists t', c', cb. split; [rewrite Hpop; unfold chan_at; by rewrite Hb|].
  assert (cb_of t i = Some cb) as Hcbi by (unfold cb_of; by rewrite He).
  injection E; intros. split; [|repeat split; try congruence].
  - constructor; [done|..]; rewrite He'.
    + apply Forall_insert; [done|]. unfold slot_ok. cbn. rewrite Ha, Hcb. by eexists.
    + apply (ids_insert _ _ _ _ Hids He). intros _. left. by apply has_id_true.
  - intros j. by apply (cb_of_insert _ _ _ _ _ _ He' Hc).
  - by exists c.
Qed.

Lemma insert_due_app ns i a b :
  Forall (λ x, x.1 ≤ ns) a → insert_due ns i (a ++ b) = a ++ insert_due ns i b.
Proof. induction 1 as [|x a Hx Ha IH]; cbn; [done|]. zdec. by rewrite IH. Qed.

(** One turn of the loop, on a due entry. *)
Lemma run_due_turn fuel t w now ns i ag :
  table_ok t ((ns, i) :: ag) → ns ≤ now →
  ∃ t' cb, cb_of t i = Some cb ∧ (∀ j, cb_of t' j = cb_of t j) ∧
    let '(res, w1) := invoke_proc_callback callback w cb now ns in
    table_ok t' (match res with Wants (Some z) => insert_due z i ag | _ => ag end) ∧
    run_due clock callback (S fuel) t w now =
      run_due clock callback fuel t' (snd (now_ns_monotonic clock w1)) (fst (now_ns_monotonic clock w1)).
Proof.
  intros Htab Hns. destruct (pop_table_ok t ns i ag now Htab Hns)
    as (t1 & c & cb & Hpop & Htab1 & Hc & Hs & Ha & Hcb & Hn & Hcbi & Hcbs & _).
  destruct (invoke_proc_callback callback w cb now ns) as [res w1] eqn:Einv.
  destruct (settle_ok t1 ag i c cb res (match res with Wants (Some z) => z | _ => 0 end) Htab1 Hc Hs Ha Hcb)
    as (t2 & ag2 & d & Hset & Htab2 & He2 & _ & _ & Hcbd & _ & Hag2).
  exists t2, cb. split; [done|]. split.
  { intros j. rewrite <- Hcbs. apply (cb_of_insert _ _ _ _ _ _ He2 Hc). congruence. }
  rewrite Einv. split; [destruct res as [[z|]|e]; by subst ag2|].
  cbn [run_due]. rewrite Hpop. cbn [mbind outcome_bind]. rewrite (rd_chan_at _ _ _ Hc).
  cbn [mbind outcome_bind]. rewrite Ha, Hcb, Hn, Einv, (settle_due_eq _ _ _ _ Hc Ha), Hset. done.
Qed.

(** The calls of a run of the loop, oldest first: one for each entry taken, with
    its time as the deadline and not before it. *)
Definition due_call (t : table) (x : Z * nat) (c : proc_call) : Prop :=
  pc_deadline c = x.1 ∧ x.1 ≤ pc_now c ∧ cb_of t x.2 = Some (pc_cb c).

Lemma run_due_ok horizon t w now low high fuel :
  table_ok t (low ++ high) → (length low ≤ fuel)%nat →
  Forall (λ x, x.1 ≤ horizon) low → Forall (λ x, horizon < x.1) high → now ≤ horizon →
  (∀ n, reading n ≤ horizon) →
  (∀ calls c, co_args (callback calls c) = true) →
  (∀ calls c z, call_result (callback calls c) = Wants (Some z) → horizon < z) →
  ∃ ran rest high' calls t' w', low = ran ++ rest ∧
    run_due clock callback fuel t w now = Done (t', w') ∧
    table_ok t' (rest ++ high') ∧ Forall (λ x, horizon < x.1) high' ∧
    w_calls w' = rev calls ++ w_calls w ∧ Forall2 (due_call t) ran calls ∧
    w_tick w' = (w_tick w + length ran)%nat ∧
    ∀ x, x ∈ rest ++ high' →
      (match ran with [] => now | _ => reading (pred (w_tick w')) end) < x.1.
Proof.
  intros Htab Hf Hlow Hhigh Hnow Hread Hargs Hcall.
  revert t w now high fuel Htab Hf Hhigh Hnow.
  induction low as [|[ns i] low IH]; intros t w now high fuel Htab Hf Hhigh Hnow.
  { exists [], [], high, [], t, w. split; [done|]. split.
    - assert (pop_due high now = (None, high)) as Hp.
      { destruct high as [|x high]; [done|]. pose proof (Forall_inv Hhigh) as Hx. cbn in Hx |- *. by zdec. }
      pose proof (pop_due_none _ _ _ (to_sched _ _ Htab) Hp) as Hpop.
      destruct fuel; cbn; by rewrite Hpop.
    - rewrite Nat.add_0_r. split_and!; [done..|constructor|done|].
      intros x Hx. rewrite Forall_forall in Hhigh. specialize (Hhigh x Hx). lia. }
  cbn [length] in Hf. destruct fuel as [|fuel]; [lia|].
  destruct (decide (ns ≤ now)) as [Hns|Hns].
  2:{ exists [], ((ns, i) :: low), high, [], t, w. split; [done|]. split.
      - assert (pop_due ((ns, i) :: low ++ high) now = (None, (ns, i) :: low ++ high)) as Hp by (cbn; by zdec).
        cbn [run_due]. by rewrite (pop_due_none _ _ _ (to_sched _ _ Htab) Hp).
      - rewrite Nat.add_0_r. split_and!; [done..|constructor|done|].
        intros x Hx. pose proof (sa_sorted _ _ (to_sched _ _ Htab)) as Hs. cbn [app] in Hs, Hx.
        apply StronglySorted_inv in Hs as [_ Hs]. rewrite Forall_forall in Hs.
        apply elem_of_cons in Hx as [->|Hx]; [cbn; lia|]. specialize (Hs x Hx). unfold earlier in Hs.
        cbn in Hs. lia. }
  destruct (run_due_turn fuel t w now ns i (low ++ high) Htab Hns) as (t1 & cb & Hcb & Hcbs & Hturn).
  destruct (invoke_proc_callback callback w cb now ns) as [res w1] eqn:Einv.
  destruct Hturn as [Htab1 Hrun]. pose proof (Forall_inv_tail Hlow) as Hlow'.
  assert (∃ high1, table_ok t1 (low ++ high1) ∧ Forall (λ x, horizon < x.1) high1) as (high1 & Htab1' & Hhigh1).
  { destruct res as [[z|]|e]; [|by exists high..]. exists (insert_due z i high).
    assert (horizon < z) as Hz by (injection Einv as Eres _; by eapply Hcall).
    rewrite <- insert_due_app; [split; [done|]|].
    - rewrite insert_due_perm. by constructor.
    - eapply Forall_impl; [done|]. cbn. lia. }
  assert (w1 = {| w_tick := w_tick w;
                  w_calls := {| pc_cb := cb; pc_now := now; pc_deadline := ns |} :: w_calls w |}) as ->
    by (unfold invoke_proc_callback in Einv; rewrite Hargs in Einv; by injection Einv).
  destruct (IH Hlow' t1 (snd (now_ns_monotonic clock {| w_tick := w_tick w; w_calls := {| pc_cb := cb; pc_now := now; pc_deadline := ns |} :: w_calls w |}))
    (reading (w_tick w)) high1 fuel Htab1') as (ran & rest & high' & calls & t' & w' & -> & Hr & Htab' & Hh' & Hc' & Hd' & Ht' & Hlt);
    [lia|done|apply Hread|].
  exists ((ns, i) :: ran), rest, high', ({| pc_cb := cb; pc_now := now; pc_deadline := ns |} :: calls), t', w'.
  split; [done|]. split; [by rewrite Hrun|]. split; [done|]. split; [done|]. split.
  { rewrite Hc'. cbn. by rewrite <- app_assoc. }
  split; [constructor; [done|]|].
  { eapply Forall2_impl; [done|]. intros x c (? & ? & ?). split; [done|]. split; [done|]. by rewrite <- Hcbs. }
  split; [rewrite Ht'; cbn; lia|].
  intros x Hx. specialize (Hlt x Hx). destruct ran; [|done].
  rewrite Ht'. cbn. by rewrite Nat.add_0_r.
Qed.

(** ** Commands *)

Lemma process_remove p w ag id waits :
  table_ok (tab p) ag →
  let exc := match view (tab p) id with Some (_, _, exc) => exc | None => None end in
  ∃ t' ag', process_command clock callback realloc p w (CMD_REMOVE_CHANNEL id waits) =
      Done (false,
            (if waits then λ p, rtp_sync_waiter_complete p 0 else λ p, p)
              (set_tab p (if waits && has exc then exc else close_exc p) t'), w) ∧
    table_ok t' ag' ∧ length (t_chans t') = length (t_chans (tab p)) ∧
    view t' id = None ∧ ∀ id', id' ≠ id → view t' id' = view (tab p) id'.
Proof.
  intros Htab. cbv zeta. unfold process_command.
  destruct (remove_ok _ _ id Htab) as (found & exc & t' & ag' & -> & Htab' & Hlen & -> & _ & Hv & Hne & _).
  cbn [mbind outcome_bind]. exists t', ag'. split; [by destruct waits|done].
Qed.

(** Removals by channels that were collected, in front of a waiting one. *)
Lemma process_removes p w ag ids l seen :
  table_ok (tab p) ag →
  ∃ t' ag', process_list clock callback realloc p w
      (((λ id, CMD_REMOVE_CHANNEL id false) <$> ids) ++ l) seen =
      process_list clock callback realloc (set_tab p (close_exc p) t') w l seen ∧
    table_ok t' ag' ∧ (∀ id', id' ∉ ids → view t' id' = view (tab p) id').
Proof.
  revert p ag. induction ids as [|id ids IH]; intros p ag Htab; cbn [fmap list_fmap app].
  { exists (tab p), ag. split; [by destruct p|done]. }
  destruct (process_remove p w ag id false Htab) as (t1 & ag1 & E & Htab1 & _ & _ & Hne).
  cbn [process_list]. rewrite E. cbn [mbind outcome_bind andb]. rewrite orb_false_r.
  destruct (IH (set_tab p (close_exc p) t1) ag1 Htab1) as (t2 & ag2 & -> & Htab2 & Hv).
  exists t2, ag2. split; [done|]. split; [done|].
  intros id' [Hn Hn']%not_elem_of_cons. rewrite Hv by done. by apply Hne.
Qed.

(** Times that are never later than the clock keep the loop going for ever. *)
Lemma past_deadlines_starve t w now ag past :
  table_ok t ag → match ag with [] => False | x :: _ => x.1 ≤ past end → past ≤ now →
  past ≤ U64_MAX → (∀ n, past ≤ reading n) →
  (∀ calls c, ∃ z, call_result (callback calls c) = Wants (Some z) ∧ 0 ≤ z ≤ past) →
  ∀ fuel, run_due clock callback fuel t w now = OutOfFuel.
Proof.
  intros Htab Hag Hnow Hmax Hread Hcall fuel. revert t w now ag Htab Hag Hnow.
  induction fuel as [|fuel IH]; intros t w now [|[ns i] ag] Htab Hag Hnow; try done; cbn in Hag.
  { destruct (pop_table_ok t ns i ag now Htab) as (t' & c & cb & Hpop & _); [lia|].
    cbn. by rewrite Hpop. }
  destruct (run_due_turn fuel t w now ns i ag Htab) as (t' & cb & _ & _ & Hturn); [lia|].
  destruct (invoke_proc_callback callback w cb now ns) as [res w1] eqn:Einv.
  destruct Hturn as [Htab' ->]. unfold invoke_proc_callback in Einv.
  destruct (Hcall (w_calls w) {| pc_cb := cb; pc_now := now; pc_deadline := ns |}) as (z & Ez & Hz).
  rewrite Ez in Einv. injection Einv as <- <-. eapply IH; [exact Htab'| |apply Hread].
  destruct ag as [|x ag]; cbn; [lia|]. destruct (x.1 <=? z) eqn:E; zbool; cbn; lia.
Qed.

End Worker_ok.

(** An exception that another thread's [close] takes away: the second call
    clears it before it finds the waiter busy. *)
Lemma close_race_drops_exception p ch1 ch2 e :
  close_exc p = Some e → wt_status (cmd_waiter p) = 0 → mutex_inited p = true →
  cmd_waiter_inited p = true → cmd_waiter_busy p = true →
  pch_closed ch2 = false → pch_proc_obj ch2 = true →
  fst (fst (rtp_proc_channel_close_end p ch1)) = ChannelProcFailed e ∧
  let '(r, p', _) := rtp_proc_channel_close_begin p ch2 true true in
  r = Ended (CloseRaises RuntimeError) ∧
  fst (fst (rtp_proc_channel_close_end p' ch1)) = Closed.
Proof.
  intros He Hst Hm Hi Hb Hc Ho.
  unfold rtp_proc_channel_close_end, rtp_proc_channel_close_begin, proc_waiter_release,
    proc_waiter_acquire, close_finish, proc_pop_close_exception.
  rewrite Hst, Hm, Hc, Ho. cbn. rewrite He, Hi, Hb. cbn. by rewrite Hst, Hm.
Qed.

(** * Properties *)

(** C18: Whatever the callbacks do, the worker handles every command without
    leaving the channel table or following a stale pointer, and the table stays
    well formed: adding a channel runs its callback once, at once, with deadline
    0, and stores what it asked for (the next run, never before now; nothing; or
    its exception), or reports [ENOMEM] and changes nothing; removing takes out
    exactly that channel and hands its exception to a waiting [close]; no other
    channel changes; a waiting command is completed with its status. *)
Theorem worker_command_effect (clock : nat → option timespec)
    (callback : list proc_call → proc_call → cb_outcome) (realloc : Z → Z → option Z)
    (p : PyRtpProc) (w : world) (ag : agenda) (cmd : ProcCmd) :
  table_ok (tab p) ag → zlen (t_chans (tab p)) < CHANNEL_BUDGET →
  match cmd with CMD_ADD_CHANNEL id _ _ => view (tab p) id = None | _ => True end →
  ∃ p' w' ag' status,
    process_command clock callback realloc p w cmd =
      Done (match cmd with CMD_SHUTDOWN => true | _ => false end, p', w') ∧
    table_ok (tab p') ag' ∧
    cmd_waiter p' = (if cmd_waits cmd then {| wt_done := true; wt_status := status |}
                     else cmd_waiter p) ∧
    match cmd with
    | CMD_ADD_CHANNEL id cb _ =>
        close_exc p' = close_exc p ∧
        (status = ENOMEM ∧ tab p' = tab p ∧ w' = w ∨
         status = 0 ∧ (∀ id', id' ≠ id → view (tab p') id' = view (tab p) id') ∧
         let '(now, w1) := now_ns_monotonic clock w in
         let '(res, w2) := invoke_proc_callback callback w1 cb now 0 in
         w' = w2 ∧ view (tab p') id = Some (after_call cb None res now))
    | CMD_REMOVE_CHANNEL id waits =>
        status = 0 ∧ w' = w ∧ view (tab p') id = None ∧
        (∀ id', id' ≠ id → view (tab p') id' = view (tab p) id') ∧
        close_exc p' = match view (tab p) id with
                       | Some (_, _, Some e) => if waits then Some e else close_exc p
                       | _ => close_exc p
                       end
    | CMD_SHUTDOWN => p' = p ∧ w' = w
    end.
Proof.
  intros Htab Hlen Hfresh. destruct cmd as [id cb waits|id waits|].
  - unfold process_command.
    destruct (add_ok clock callback realloc _ _ w id cb Htab Hfresh Hlen)
      as (status & t' & w' & ag' & -> & Htab' & Heff).
    cbn [mbind outcome_bind]. eexists _, w', ag', status. split; [done|]. by destruct waits.
  - destruct (process_remove clock callback realloc p w ag id waits Htab)
      as (t' & ag' & -> & Htab' & _ & Hv & Hne).
    eexists _, w, ag', 0. split; [done|].
    destruct (view (tab p) id) as [[[? ?] [e|]]|]; by destruct waits.
  - by exists p, w, ag, 0.
Qed.

(** C19: As long as the clock stays at or below a horizon and the callbacks ask
    for times beyond it, the inner loop of the worker ends, after at most as
    many calls as there were entries up to the horizon: it calls exactly the callbacks of a prefix of
    the agenda, each once, in the order of their times, with that time as the
    deadline and a [now] not before it, and leaves no entry that is due at the
    last reading of the clock. *)
Theorem due_callbacks_run (clock : nat → option timespec)
    (callback : list proc_call → proc_call → cb_outcome) (horizon : Z)
    (t : table) (w : world) (now : Z) (low high : agenda) (fuel : nat) :
  table_ok t (low ++ high) → (length low ≤ fuel)%nat →
  Forall (λ x, x.1 ≤ horizon) low → Forall (λ x, horizon < x.1) high → now ≤ horizon →
  (∀ n, reading clock n ≤ horizon) →
  (∀ calls c, co_args (callback calls c) = true) →
  (∀ calls c z, call_result (callback calls c) = Wants (Some z) → horizon < z) →
  ∃ ran rest high' calls t' w', low = ran ++ rest ∧
    run_due clock callback fuel t w now = Done (t', w') ∧
    table_ok t' (rest ++ high') ∧
    w_calls w' = rev calls ++ w_calls w ∧ Forall2 (due_call t) ran calls ∧
    ∀ x, x ∈ rest ++ high' →
      (match ran with [] => now | _ => reading clock (pred (w_tick w')) end) < x.1.
Proof.
  intros Htab Hf Hlow Hhigh Hnow Hread Hargs Hcall.
  destruct (run_due_ok clock callback horizon t w now low high fuel)
    as (ran & rest & high' & calls & t' & w' & H1 & H2 & H3 & _ & H5 & H6 & _ & H8); [done..|].
  by exists ran, rest, high', calls, t', w'.
Qed.

(** C28: A [close] that no other command interferes with removes its channel and
    only it (and the collected channels queued before), returns once the worker
    has run the commands, raises [ChannelProcError] from the exception the
    callback left, if it left one, and returns otherwise; the waiter is free
    again. *)
Theorem close_reports_error (clock : nat → option timespec)
    (callback : list proc_call → proc_call → cb_outcome) (realloc : Z → Z → option Z)
    (p : PyRtpProc) (w : world) (ag : agenda) (ch : PyRtpProcChannel) (collected : list Z)
    (cb next : option Z) (exc : option py_exc_info) :
  table_ok (tab p) ag → mutex_inited p = true → cond_inited p = true →
  cmd_waiter_inited p = true → cmd_waiter_busy p = false → accepting_commands p = true →
  cmds p = ((λ id, CMD_REMOVE_CHANNEL id false) <$> collected) →
  pch_closed ch = false → pch_proc_obj ch = true → pch_id ch ∉ collected →
  view (tab p) (pch_id ch) = Some (cb, next, exc) →
  ∃ p1 p2 p3 ag',
    rtp_proc_channel_close_begin p ch true true = (Waiting, p1, ch) ∧
    process_commands clock callback realloc p1 w = Done (false, p2, w) ∧
    wt_done (cmd_waiter p2) = true ∧ table_ok (tab p2) ag' ∧
    rtp_proc_channel_close_end p2 ch =
      (match exc with Some e => ChannelProcFailed e | None => Closed end, p3, set_closed ch) ∧
    cmds p3 = [] ∧ cmd_waiter_busy p3 = false ∧ close_exc p3 = None ∧
    view (tab p3) (pch_id ch) = None ∧
    ∀ id, id ≠ pch_id ch → id ∉ collected → view (tab p3) id = view (tab p) id.
Proof.
  intros Htab Hm Hc Hi Hb Ha Hl Hcl Ho Hn Hv.
  unfold rtp_proc_channel_close_begin, proc_waiter_acquire, enqueue_command.
  rewrite Hcl, Ho. cbn. rewrite Hi, Hb. cbn. rewrite Hm, Hc, Ha. cbn. rewrite Hl.
  match goal with |- context [(Waiting, ?q, ch) = _] => exists q end.
  unfold process_commands, detach_commands. cbn [mutex_inited set_cmd set_tab]. rewrite Hm.
  cbn [negb cmds set_cmd].
  set (p1 := set_cmd _ _ _ []). assert (table_ok (tab p1) ag) as Htab1 by done.
  destruct (process_removes clock callback realloc p1 w ag collected
              [CMD_REMOVE_CHANNEL (pch_id ch) true] false Htab1) as (t1 & ag1 & -> & Htab2 & Hv1).
  cbn [process_list].
  destruct (process_remove clock callback realloc (set_tab p1 (close_exc p1) t1) w ag1
              (pch_id ch) true Htab2) as (t2 & ag2 & -> & Htab3 & _ & Hv2 & Hne).
  cbn [mbind outcome_bind orb tab set_tab]. rewrite (Hv1 _ Hn).
  change (view (tab p1) (pch_id ch)) with (view (tab p) (pch_id ch)). rewrite Hv.
  eexists _, _, ag2. split; [done|]. split; [done|]. split; [done|]. split; [done|].
  unfold rtp_proc_channel_close_end, proc_waiter_release, close_finish, proc_pop_close_exception.
  cbn. rewrite Hm. cbn. split; [destruct exc; cbn; done|].
  destruct exc; cbn; (split_and!; [done..|]); intros id Hid Hcol; rewrite Hne, Hv1 by done; done.
Qed.

(** * A scheduler at work *)

Definition work_exc : py_exc_info := {| exc_type := ValueError; exc_value := 9 |}.

(** Channel 5 runs at 10; the callback of channel 6 has failed. *)
Definition work_table : table :=
  {| t_base := 100; t_active := 2; t_head := Some {| cp_base := 100; cp_idx := 0 |};
     t_chans :=
       [{| ch_active := true; ch_scheduled := true; ch_id := 5; ch_next_run_ns := 10;
           ch_proc_in_cb := Some 1; ch_cb_exc := None; ch_sched_next := None |};
        {| ch_active := true; ch_scheduled := false; ch_id := 6; ch_next_run_ns := 0;
           ch_proc_in_cb := Some 2; ch_cb_exc := Some work_exc; ch_sched_next := None |};
        zero_channel] |}.

Lemma work_table_ok : table_ok work_table [(10, 0%nat)].
Proof.
  constructor.
  - constructor.
    + cbn. split; [done|]. eexists. repeat split.
    + apply (bool_decide_unpack (NoDup _)). reflexivity.
    + repeat constructor.
    + intros [|[|[|i]]] c [= <-]; try done. intros _. split; [by left|done].
  - repeat constructor; by eexists.
  - intros [|[|[|i]]] [|[|[|j]]] c d; cbn; intros [= <-] [= <-]; cbn; done.
Qed.

Definition work_proc : PyRtpProc :=
  set_tab (snd (PyRtpProc_init PyRtpProc_fresh 0 (0, CLOCK_MONOTONIC) 0 0)) None work_table.
Definition work_clock (n : nat) : option timespec := Some {| tv_sec := 0; tv_nsec := 50 |}.
Definition work_callback (calls : list proc_call) (c : proc_call) : cb_outcome :=
  {| co_args := true; co_result := Ret (PyInt 1010); co_exc := 0 |}.

(** One turn of the worker: the callback due at 10 runs, and asks for 1010. *)
Example work_iter :
  match rtp_proc_worker_iter work_clock work_callback (λ _ _, None) 1 work_proc
          {| w_tick := 0; w_calls := [] |} None with
  | Done (next, _, w) => (next, w_calls w) =
      (WaitUntil 1010, [{| pc_cb := 1; pc_now := 50; pc_deadline := 10 |}])
  | _ => False
  end.
Proof. vm_compute. reflexivity. Qed.

Lemma worker_command_effect_witness :
  ∃ p' w' ag' status,
    process_command work_clock work_callback (λ _ _, None) work_proc
        {| w_tick := 0; w_calls := [] |} (CMD_ADD_CHANNEL 7 3 true) = Done (false, p', w') ∧
    table_ok (tab p') ag' ∧
    cmd_waiter p' = {| wt_done := true; wt_status := status |} ∧
    (close_exc p' = None ∧
     (status = ENOMEM ∧ tab p' = work_table ∧ w' = {| w_tick := 0; w_calls := [] |} ∨
      status = 0 ∧ (∀ id', id' ≠ 7 → view (tab p') id' = view work_table id') ∧
      let '(now, w1) := now_ns_monotonic work_clock {| w_tick := 0; w_calls := [] |} in
      let '(res, w2) := invoke_proc_callback work_callback w1 3 now 0 in
      w' = w2 ∧ view (tab p') 7 = Some (after_call 3 None res now))).
Proof.
  apply (worker_command_effect work_clock work_callback (λ _ _, None) work_proc
           {| w_tick := 0; w_calls := [] |} [(10, 0%nat)] (CMD_ADD_CHANNEL 7 3 true)).
  - exact work_table_ok.
  - reflexivity.
  - reflexivity.
Defined.

Lemma due_callbacks_run_witness :
  ∃ ran rest high' calls t' w', [(10, 0%nat)] = ran ++ rest ∧
    run_due work_clock work_callback 1 work_table {| w_tick := 0; w_calls := [] |} 50 = Done (t', w') ∧
    table_ok t' (rest ++ high') ∧
    w_calls w' = rev calls ++ [] ∧ Forall2 (due_call work_table) ran calls ∧
    ∀ x, x ∈ rest ++ high' →
      (match ran with [] => 50 | _ => reading work_clock (pred (w_tick w')) end) < x.1.
Proof.
  apply (due_callbacks_run work_clock work_callback 60
           work_table {| w_tick := 0; w_calls := [] |} 50 [(10, 0%nat)] [] 1).
  - exact work_table_ok.
  - done.
  - by repeat constructor.
  - constructor.
  - lia.
  - intros n. vm_compute. discriminate.
  - done.
  - intros calls c z [= <-]. lia.
Defined.

Lemma close_reports_error_witness :
  let p := set_cmd work_proc false {| wt_done := false; wt_status := 0 |} [CMD_REMOVE_CHANNEL 5 false] in
  let ch := {| pch_id := 6; pch_proc_obj := true; pch_closed := false |} in
  let w := {| w_tick := 0; w_calls := [] |} in
  ∃ p1 p2 p3 ag',
    rtp_proc_channel_close_begin p ch true true = (Waiting, p1, ch) ∧
    process_commands work_clock work_callback (λ _ _, None) p1 w = Done (false, p2, w) ∧
    wt_done (cmd_waiter p2) = true ∧ table_ok (tab p2) ag' ∧
    rtp_proc_channel_close_end p2 ch = (ChannelProcFailed work_exc, p3, set_closed ch) ∧
    cmds p3 = [] ∧ cmd_waiter_busy p3 = false ∧ close_exc p3 = None ∧
    view (tab p3) 6 = None ∧
    ∀ id, id ≠ 6 → id ∉ [5] → view (tab p3) id = view work_table id.
Proof.
  intros p ch w.
  apply (close_reports_error work_clock work_callback (λ _ _, None) p w [(10, 0%nat)] ch [5]
           (Some 2) None (Some work_exc)); try reflexivity.
  - exact work_table_ok.
  - apply (bool_decide_unpack (6 ∉ [5])). reflexivity.
Defined.
