(* ===== verification/ProcObj.v ===== *)
(** The scheduler of [Proc] among reference-counted Python objects, and with its
    worker and the threads of the program interleaved: src/python/RtpProc_mod.c
    again, now with what every function does to the references to callables,
    channels, exceptions and the scheduler itself. *)
From stdpp Require Import prelude list gmap.
From Stdlib Require Import ZArith Lia.
From S2P Require Import Prelude Py RcHeap RcGraph Synth Sync Sched Proc.
Local Open Scope Z_scope.

(** * Objects *)

(** The scheduler, a channel, a callable with what it refers to, an exception with
    its cause. *)
Inductive pobj : Set :=
| OProc
| OChannel (ch : PyRtpProcChannel)
| OCallable (captured : list Z)
| OExc (cause : option Z).

(** The scheduler's fields, and the objects. *)
Record pworld : Type := { prc : PyRtpProc; ob : gmap Z (cell pobj) }.

Definition set_prc (w : pworld) (p : PyRtpProc) : pworld := {| prc := p; ob := ob w |}.
Definition set_ob (w : pworld) (h : gmap Z (cell pobj)) : pworld := {| prc := prc w; ob := h |}.
Definition set_table (w : pworld) (t : table) : pworld :=
  set_prc w (set_tab (prc w) (close_exc (prc w)) t).
Definition set_close (w : pworld) (e : option py_exc_info) : pworld :=
  set_prc w (set_tab (prc w) e (tab (prc w))).

Definition exc_ref (e : option py_exc_info) : list Z := opt_list (exc_value <$> e).

Section Objects.
(** The address of the scheduler object. *)
Context (self : Z).

Definition fields (o : pobj) : list Z :=
  match o with
  | OProc => []
  | OChannel ch => if pch_proc_obj ch then [self] else []
  | OCallable captured => captured
  | OExc cause => opt_list cause
  end.

(** [PyRtpProcChannel_dealloc] closes the channel without waiting, and drops
    [proc_obj]; [mem]: whether there is memory for the command of the channel at
    an address. The scheduler's own deallocation waits for its worker, and is not
    made here: see [dealloc_step]. *)
Definition finalize (mem : Z → bool) (a : Z) (o : pobj) (p : PyRtpProc) : PyRtpProc :=
  match o with
  | OChannel ch => let '(_, p, _) := rtp_proc_channel_close_begin p ch false (mem a) in p
  | _ => p
  end.

(** [Py_DECREF] of references, one after the other. *)
Definition decref_all (mem : Z → bool) (w : pworld) (l : list Z) : outcome pworld :=
  '(h, p) ← py_drop fields (finalize mem) (ob w) (prc w) l;
  Done {| prc := p; ob := h |}.

Definition py_xdecref_on_worker (mem : Z → bool) (w : pworld) (o : option Z) : outcome pworld :=
  decref_all mem w (opt_list o).

Definition py_exc_info_clear (mem : Z → bool) (w : pworld) (e : option py_exc_info)
    : outcome pworld := decref_all mem w (exc_ref e).

(** * The worker's operations *)

(** What deallocations do does not touch the table, so the slot is cleared first
    here and its references are dropped then. *)
Definition release_channel (mem : Z → bool) (w : pworld) (ch : cptr) : outcome pworld :=
  c ← rd_chan (tab (prc w)) ch;
  if negb (ch_active c) then Done w
  else
    t ← release_channel_state (tab (prc w)) ch;
    w ← py_xdecref_on_worker mem (set_table w t) (ch_proc_in_cb c);
    py_exc_info_clear mem w (ch_cb_exc c).

(** The callable of the channel with a number. *)
Definition callback_of (t : table) (id : Z) : option Z :=
  match find_channel_index t id with
  | Some i => t_chans t !! i ≫= ch_proc_in_cb
  | None => None
  end.

(** [remove_channel]: the exception it hands out keeps its reference. *)
Definition drop_channel (mem : Z → bool) (w : pworld) (id : Z)
    : outcome (option py_exc_info * pworld) :=
  let cb := callback_of (tab (prc w)) id in
  '(_, exc, t) ← remove_channel (tab (prc w)) id;
  w ← py_xdecref_on_worker mem (set_table w t) cb;
  Done (exc, w).

Definition proc_set_close_exception_steal (mem : Z → bool) (w : pworld) (e : option py_exc_info)
    : outcome pworld :=
  w ← py_exc_info_clear mem w (close_exc (prc w));
  Done (set_close w e).

(** The [CMD_REMOVE_CHANNEL] branch of [process_commands]. *)
Definition remove_command (mem : Z → bool) (w : pworld) (id : Z) (waiter : bool) : outcome pworld :=
  '(exc, w) ← drop_channel mem w id;
  if waiter && has exc then proc_set_close_exception_steal mem w exc
  else py_exc_info_clear mem w exc.

Definition free_command (mem : Z → bool) (w : pworld) (cmd : ProcCmd) : outcome pworld :=
  match cmd with
  | CMD_ADD_CHANNEL _ cb _ => py_xdecref_on_worker mem w (Some cb)
  | _ => Done w
  end.

Fixpoint free_command_list (mem : Z → bool) (w : pworld) (l : list ProcCmd) : outcome pworld :=
  match l with
  | [] => Done w
  | cmd :: l => w ← free_command mem w cmd; free_command_list mem w l
  end.

(** [rtp_sync_waiter_complete], where the command has the waiter. *)
Definition complete (w : pworld) (waits : bool) (status : Z) : pworld :=
  if waits then set_prc w (rtp_sync_waiter_complete (prc w) status) else w.

(** [channel_set_callback_exception] drops an exception kept before. *)
Definition settle (mem : Z → bool) (w : pworld) (ch : cptr) (f : table → outcome table)
    (res : call_res) : outcome pworld :=
  w ← match res with
      | Failed (Some _) => c ← rd_chan (tab (prc w)) ch; py_exc_info_clear mem w (ch_cb_exc c)
      | _ => Done w
      end;
  t ← f (tab (prc w));
  Done (set_table w t).

Fixpoint release_slots (mem : Z → bool) (w : pworld) (slots : list nat) : outcome pworld :=
  match slots with
  | [] => Done w
  | i :: slots => w ← release_channel mem w (chan_at (tab (prc w)) i); release_slots mem w slots
  end.

(** [clear_channels] in one go, as [PyRtpProc_dealloc] calls it. *)
Definition clear_all (mem : Z → bool) (w : pworld) : outcome pworld :=
  w ← release_slots mem w (seq 0 (length (t_chans (tab (prc w)))));
  Done (set_table w empty_table).

(** * Methods *)

(** [callable]: [PyCallable_Check]; the address of the new channel object, and
    whether there is memory for the command. *)
Record create_env : Set := { ce_callable : bool; ce_channel : option Z; ce_cmd : bool }.

(** The end of a [create_channel] that fails: [closed = 1], [Py_CLEAR(proc_obj)],
    [Py_DECREF(channel)]. *)
Definition create_fail (mem : Z → bool) (w : pworld) (a : Z) : outcome pworld :=
  match ob w !! a with
  | Some c =>
      match val c with
      | OChannel ch =>
          let ch' := {| pch_id := pch_id ch; pch_proc_obj := false; pch_closed := true |} in
          w ← decref_all mem (set_ob w (<[a := {| rc := rc c; val := OChannel ch' |}]> (ob w)))
                (fields (OChannel ch));
          decref_all mem w [a]
      | _ => Undefined
      end
  | None => Undefined
  end.

Definition PyRtpProc_create_channel_begin (mem : Z → bool) (w : pworld) (proc_in : Z)
    (env : create_env) : outcome (begun (pyres Z) * pworld) :=
  if negb (ce_callable env) then Done (Ended (Raise TypeError), w)
  else
    match ce_channel env with
    | None => Done (Ended (Raise MemoryError), w)
    | Some a =>
        h ← py_incref (ob w) self;
        let p := prc w in
        let id := next_channel_id p in
        let p := set_life p (worker_running p) (shutdown_queued p) (accepting_commands p) (u64 (id + 1)) in
        let ch := {| pch_id := id; pch_proc_obj := true; pch_closed := false |} in
        let w := {| prc := p; ob := <[a := {| rc := 1; val := OChannel ch |}]> h |} in
        if negb (ce_cmd env) then
          w ← decref_all mem w [a]; Done (Ended (Raise MemoryError), w)
        else
          h ← py_incref (ob w) proc_in;
          let w := set_ob w h in
          let '(got, p) := proc_waiter_acquire (prc w) in
          match got with
          | Raise e =>
              w ← free_command mem w (CMD_ADD_CHANNEL id proc_in false);
              w ← create_fail mem w a;
              Done (Ended (Raise e), w)
          | Ret _ =>
              let '(err, p) := enqueue_command p (CMD_ADD_CHANNEL id proc_in true) in
              match err with
              | Some e =>
                  w ← free_command mem (set_prc w p) (CMD_ADD_CHANNEL id proc_in true);
                  w ← create_fail mem (set_prc w (proc_waiter_release (prc w))) a;
                  Done (Ended (Raise e), w)
              | None => Done (Waiting, set_prc w p)
              end
          end
    end.

Definition PyRtpProc_create_channel_end (mem : Z → bool) (w : pworld) (a : Z)
    : outcome (pyres Z * pworld) :=
  let status := wt_status (cmd_waiter (prc w)) in
  let w := set_prc w (proc_waiter_release (prc w)) in
  if status =? 0 then Done (Ret a, w)
  else
    w ← create_fail mem w a;
    Done (Raise (if status =? ENOMEM then MemoryError else RuntimeError), w).

(** [rtp_proc_channel_close_internal] with [with_error], on the channel object. *)
Definition channel_close_begin (mem : Z → bool) (w : pworld) (a : Z) (cmd_mem : bool)
    : outcome (begun close_result * pworld) :=
  o ← py_read (ob w) a;
  match o with
  | OChannel ch =>
      w ← (if negb (pch_closed ch) && pch_proc_obj ch && cmd_mem then
             w ← py_exc_info_clear mem w (close_exc (prc w)); Done (set_close w None)
           else Done w);
      let '(r, p, ch') := rtp_proc_channel_close_begin (prc w) ch true cmd_mem in
      match ob w !! a with
      | Some c => Done (r, {| prc := p; ob := <[a := {| rc := rc c; val := OChannel ch' |}]> (ob w) |})
      | None => Undefined
      end
  | _ => Undefined
  end.

(** The error object at [err], [None] where there is no memory: its cause takes the
    reference over. *)
Definition raise_channel_proc_error_from (mem : Z → bool) (w : pworld) (cause : py_exc_info)
    (err : option Z) : outcome (list Z * pworld) :=
  match err with
  | None => w ← py_exc_info_clear mem w (Some cause); Done ([], w)
  | Some a =>
      Done ([a], set_ob w (<[a := {| rc := 1; val := OExc (Some (exc_value cause)) |}]> (ob w)))
  end.

(** The result, and the error object the caller gets. *)
Definition channel_close_end (mem : Z → bool) (w : pworld) (a : Z) (err : option Z)
    : outcome (close_result * list Z * pworld) :=
  match ob w !! a with
  | Some c =>
      match val c with
      | OChannel ch =>
          let '(r, p, ch') := rtp_proc_channel_close_end (prc w) ch in
          let w := {| prc := p; ob := <[a := {| rc := rc c; val := OChannel ch' |}]> (ob w) |} in
          match r with
          | ChannelProcFailed e => '(l, w) ← raise_channel_proc_error_from mem w e err; Done (r, l, w)
          | _ => Done (r, [], w)
          end
      | _ => Undefined
      end
  | None => Undefined
  end.

Definition PyRtpProcChannel_new : pyres Z := Raise TypeError.
Definition PyRtpProcChannel_get_closed (ch : PyRtpProcChannel) : bool := pch_closed ch.
Definition PyRtpProcChannel_get_id (ch : PyRtpProcChannel) : Z := pch_id ch.

(** [PyRtpProc_dealloc] after the worker was joined; waiter, condition variable and
    mutex are destroyed last. *)
Definition PyRtpProc_dealloc_end (mem : Z → bool) (w : pworld) : outcome pworld :=
  let '(l, p) := detach_commands (prc w) in
  w ← free_command_list mem (set_prc w p) l;
  w ← clear_all mem w;
  w ← py_exc_info_clear mem w (close_exc (prc w));
  let p := prc (set_close w None) in
  Done (set_prc w (set_inited p false false false (cmd_cv_clock p))).

(** * The worker and the program, interleaved *)

(** Where a callback was called from: [process_commands], for a command, with those
    behind it; or the loop over what is due. *)
Inductive call_site : Set :=
| FirstCall (now : Z) (cmd : ProcCmd) (rest : list ProcCmd) (seen : bool)
| DueCall.

(** The program points of [rtp_proc_worker] between which it touches shared state
    under one lock, or nothing but its own table. *)
Inductive proc_pc : Set :=
| PTop
| PCmds (cmd : ProcCmd) (rest : list ProcCmd) (seen : bool)
| PCall (ch : cptr) (site : call_site)
| PStart
| PDue (now : Z)
| PSleep
| PWait (until : option Z)
| PClear (i : nat)
| PExit.

Definition next_cmd (rest : list ProcCmd) (seen : bool) : proc_pc :=
  match rest with
  | cmd :: rest => PCmds cmd rest seen
  | [] => if seen then PClear 0 else PStart
  end.

(** The call that waits for the worker's answer, and the one that waits for the
    end of the worker. *)
Inductive pcall : Set := CallCreate (a cb : Z) | CallClose (a : Z).
Inductive joiner : Set := JShutdown | JDealloc.

(** [pend]: with whether a callback, on the worker itself, made the call. [held]:
    the references of the program, its callbacks included. [asked]: the calls the
    worker set out on, latest first, with the number of the channel. *)
Record psys : Type := {
  wld : pworld;
  pc : proc_pc;
  pend : option (bool * pcall);
  joining : option joiner;
  held : list Z;
  asked : list (Z * proc_call);
  freed : bool;
}.

Inductive plabel : Type :=
| LDetach
| LCmd (realloc : Z → Z → option Z) (now : Z) (mem : Z → bool)
| LReturn (o : cb_outcome) (now : Z) (mem : Z → bool)
| LClock (now : Z)
| LPop
| LSleep (now : Z) (cmd_now : option Z)
| LWake
| LClear (mem : Z → bool)
| LNew (a : Z) (o : pobj)
| LTake (a : Z)
| LDrop (a : Z) (mem : Z → bool) (cmd_mem : bool)
| LCapture (f a : Z)
| LCreate (on_worker : bool) (proc_in : Z) (env : create_env) (mem : Z → bool)
| LClose (on_worker : bool) (a : Z) (cmd_mem : bool) (mem : Z → bool)
| LEnd (err : option Z) (mem : Z → bool)
| LShutdown (on_worker cmd_mem : bool)
| LJoin (mem : Z → bool).

Definition by_worker (l : plabel) : bool :=
  match l with
  | LDetach | LCmd _ _ _ | LReturn _ _ _ | LClock _ | LPop | LSleep _ _ | LWake | LClear _ => true
  | _ => false
  end.

Definition put (s : psys) (w : pworld) (p : proc_pc) : psys :=
  {| wld := w; pc := p; pend := pend s; joining := joining s; held := held s;
     asked := asked s; freed := freed s |}.
Definition put_held (s : psys) (w : pworld) (hl : list Z) : psys :=
  {| wld := w; pc := pc s; pend := pend s; joining := joining s; held := hl;
     asked := asked s; freed := freed s |}.
Definition put_pend (s : psys) (w : pworld) (p : option (bool * pcall)) (hl : list Z) : psys :=
  {| wld := w; pc := pc s; pend := p; joining := joining s; held := hl;
     asked := asked s; freed := freed s |}.
Definition put_join (s : psys) (w : pworld) (j : option joiner) (hl : list Z) (fr : bool) : psys :=
  {| wld := w; pc := pc s; pend := pend s; joining := j; held := hl;
     asked := asked s; freed := fr |}.

(** The worker goes on with a scheduler that is there; if it dropped the last
    reference itself, it deallocated what it runs on. *)
Definition worker_goes (s : psys) (w : pworld) (p : proc_pc) : outcome psys :=
  if has (ob (wld s) !! self) && negb (has (ob w !! self)) then Undefined else Done (put s w p).

(** A callback is entered. *)
Definition enter (s : psys) (w : pworld) (ch : cptr) (site : call_site) (id : Z) (c : proc_call) : psys :=
  {| wld := w; pc := PCall ch site; pend := pend s; joining := joining s; held := held s;
     asked := (id, c) :: asked s; freed := freed s |}.

(** [process_commands], one command; an addition stops at the callback. *)
Definition command_step (s : psys) (realloc : Z → Z → option Z) (now : Z) (mem : Z → bool)
    (cmd : ProcCmd) (rest : list ProcCmd) (seen : bool) : outcome psys :=
  let w := wld s in
  match cmd with
  | CMD_ADD_CHANNEL id cb waits =>
      '(slot, t) ← claim_slot realloc (tab (prc w)) id cb;
      match slot with
      | Some ch =>
          Done (enter s (set_table w t) ch (FirstCall now cmd rest seen) id
                  {| pc_cb := cb; pc_now := now; pc_deadline := 0 |})
      | None =>
          w ← free_command mem (complete (set_table w t) waits ENOMEM) cmd;
          worker_goes s w (next_cmd rest seen)
      end
  | CMD_REMOVE_CHANNEL id waits =>
      w ← remove_command mem w id waits;
      worker_goes s (complete w waits 0) (next_cmd rest seen)
  | CMD_SHUTDOWN => Done (put s w (next_cmd rest true))
  end.

(** The exception a callback raised belongs to the worker now. *)
Definition raised (res : call_res) : list Z :=
  match res with Failed exc => exc_ref exc | Wants _ => [] end.

Definition return_step (s : psys) (o : cb_outcome) (now : Z) (mem : Z → bool) (ch : cptr)
    (site : call_site) : outcome psys :=
  let res := call_result o in
  let s := put_held s (wld s) (foldr remove_one (held s) (raised res)) in
  match site with
  | FirstCall start cmd rest seen =>
      w ← settle mem (wld s) ch (λ t, settle_first t ch start res) res;
      worker_goes s (complete w (cmd_waits cmd) 0) (next_cmd rest seen)
  | DueCall =>
      w ← settle mem (wld s) ch (λ t, settle_due t ch res) res;
      worker_goes s w (PDue now)
  end.

(** The end of the outer loop's body: what to wait for. *)
Definition sleep_step (s : psys) (now : Z) (cmd_now : option Z) : outcome psys :=
  let w := wld s in
  match t_head (tab (prc w)) with
  | None => Done (put s w (PWait None))
  | Some ch =>
      c ← rd_chan (tab (prc w)) ch;
      if ch_next_run_ns c <=? now then Done (put s w PTop)
      else
        until ← monotonic_deadline_to_cmd_clock (cmd_cv_clock (prc w)) cmd_now (ch_next_run_ns c) now;
        Done (put s w (PWait (Some until)))
  end.

Definition pop_step (s : psys) (now : Z) : outcome psys :=
  let w := wld s in
  '(ch, t) ← pop_due_channel (tab (prc w)) now;
  match ch with
  | None => Done (put s (set_table w t) PSleep)
  | Some ch =>
      c ← rd_chan t ch;
      match ch_active c, ch_proc_in_cb c with
      | true, Some cb =>
          Done (enter s (set_table w t) ch DueCall (ch_id c)
                  {| pc_cb := cb; pc_now := now; pc_deadline := ch_next_run_ns c |})
      | _, _ => Done (put s (set_table w t) (PDue now))
      end
  end.

(** After the last slot the array is freed, and the commands still queued. *)
Definition clear_step (s : psys) (mem : Z → bool) (i : nat) : outcome psys :=
  let w := wld s in
  if (i <? length (t_chans (tab (prc w))))%nat then
    w ← release_channel mem w (chan_at (tab (prc w)) i);
    worker_goes s w (PClear (S i))
  else
    let '(l, p) := detach_commands (prc (set_table w empty_table)) in
    w ← free_command_list mem (set_prc w p) l;
    worker_goes s w PExit.

Definition proc_worker_exec (l : plabel) (s : psys) : outcome psys :=
  if freed s then Undefined
  else
    match l, pc s with
    | LDetach, PTop =>
        let '(cs, p) := detach_commands (prc (wld s)) in
        Done (put s (set_prc (wld s) p) (next_cmd cs false))
    | LCmd realloc now mem, PCmds cmd rest seen => command_step s realloc now mem cmd rest seen
    | LReturn o now mem, PCall ch site => return_step s o now mem ch site
    | LClock now, PStart => Done (put s (wld s) (PDue now))
    | LPop, PDue now => pop_step s now
    | LSleep now cmd_now, PSleep => sleep_step s now cmd_now
    | LWake, PWait _ => Done (put s (wld s) PTop)
    | LClear mem, PClear i => clear_step s mem i
    | _, _ => Done s
    end.

(** ** The program *)

(** The references in the frame of a waiting call. *)
Definition call_refs (p : pcall) : list Z :=
  match p with CallCreate a cb => [self; cb; a] | CallClose a => [a] end.
Definition pend_refs (s : psys) : list Z :=
  match pend s with Some (_, p) => call_refs p | None => [] end.
Definition join_refs (s : psys) : list Z :=
  match joining s with Some JShutdown => [self] | _ => [] end.

Definition call_end (s : psys) (p : pcall) (err : option Z) (mem : Z → bool) : outcome psys :=
  match p with
  | CallCreate a cb =>
      '(r, w) ← PyRtpProc_create_channel_end mem (wld s) a;
      Done (put_pend s w None (self :: cb :: (match r with Ret a => [a] | Raise _ => [] end) ++ held s))
  | CallClose a =>
      '(_, l, w) ← channel_close_end mem (wld s) a err;
      Done (put_pend s w None (a :: l ++ held s))
  end.

(** [PyRtpProc_dealloc]: the worker is stopped first, if it runs. *)
Definition dealloc_step (s : psys) (mem : Z → bool) (cmd_mem : bool) : outcome psys :=
  let '(r, p) := rtp_proc_shutdown_begin (prc (wld s)) cmd_mem in
  let w := set_prc (wld s) p in
  match r with
  | Waiting => Done (put_join s w (Some JDealloc) (held s) false)
  | Ended _ => w ← PyRtpProc_dealloc_end mem w; Done (put_join s w None (held s) true)
  end.

(** A [pthread_join] of a thread that another thread joins is undefined; of the
    calling thread itself it fails at once, which nobody looks at. *)
Definition shutdown_step (s : psys) (on_worker cmd_mem : bool) : outcome psys :=
  let '(r, p) := rtp_proc_shutdown_begin (prc (wld s)) cmd_mem in
  let w := set_prc (wld s) p in
  match r with
  | Ended _ => Done (put_held s w (held s))
  | Waiting =>
      if on_worker then Done (put_held s (set_prc w (rtp_proc_shutdown_end p)) (held s))
      else
        match joining s with
        | Some _ => Undefined
        | None => Done (put_join s w (Some JShutdown) (remove_one self (held s)) false)
        end
  end.

Definition join_step (s : psys) (mem : Z → bool) : outcome psys :=
  let w := set_prc (wld s) (rtp_proc_shutdown_end (prc (wld s))) in
  match joining s with
  | Some JShutdown => Done (put_join s w None (self :: held s) false)
  | Some JDealloc => w ← PyRtpProc_dealloc_end mem w; Done (put_join s w None (held s) true)
  | None => Done s
  end.

Definition program_exec (l : plabel) (s : psys) : outcome psys :=
  let w := wld s in
  match l with
  | LNew a o =>
      Done (put_held s (set_ob w (<[a := {| rc := 1; val := o |}]> (ob w)))
              (a :: foldr remove_one (held s) (fields o)))
  | LTake a => h ← py_incref (ob w) a; Done (put_held s (set_ob w h) (a :: held s))
  | LDrop a mem cmd_mem =>
      w ← decref_all mem w [a];
      let s' := put_held s w (remove_one a (held s)) in
      if has (ob w !! self) || freed s || has (joining s) then Done s' else dealloc_step s' mem cmd_mem
  | LCapture f a =>
      match ob w !! f with
      | Some c =>
          match val c with
          | OCallable captured =>
              Done (put_held s (set_ob w (<[f := {| rc := rc c; val := OCallable (a :: captured) |}]> (ob w)))
                      (remove_one a (held s)))
          | _ => Undefined
          end
      | None => Undefined
      end
  | LCreate on_worker cb env mem =>
      '(r, w) ← PyRtpProc_create_channel_begin mem w cb env;
      Done (match r, ce_channel env with
            | Waiting, Some a =>
                put_pend s w (Some (on_worker, CallCreate a cb)) (remove_one cb (remove_one self (held s)))
            | _, _ => put_held s w (held s)
            end)
  | LClose on_worker a cmd_mem mem =>
      '(r, w) ← channel_close_begin mem w a cmd_mem;
      Done (match r with
            | Waiting => put_pend s w (Some (on_worker, CallClose a)) (remove_one a (held s))
            | Ended _ => put_held s w (held s)
            end)
  | LEnd err mem => match pend s with Some (_, p) => call_end s p err mem | None => Done s end
  | LShutdown on_worker cmd_mem => shutdown_step s on_worker cmd_mem
  | LJoin mem => join_step s mem
  | _ => Done s
  end.

Definition proc_exec (l : plabel) (s : psys) : outcome psys :=
  if by_worker l then proc_worker_exec l s else program_exec l s.

(** ** Which steps may be taken *)

Definition channel_at (w : pworld) (a : Z) (ch : PyRtpProcChannel) : Prop :=
  py_read (ob w) a = Done (OChannel ch).

(** The scheduler has not begun its deallocation. *)
Definition serving (s : psys) : bool :=
  negb (freed s) && match joining s with Some JDealloc => false | _ => true end.

(** The program holds the scheduler, or a channel that does, or deallocates it: the
    last reference to a scheduler is not one a callback's objects hold. *)
Definition owned (s : psys) : Prop :=
  serving s = false ∨
  ∃ a, a ∈ held s ++ pend_refs s ++ join_refs s ∧
    (a = self ∨ ∃ ch, channel_at (wld s) a ch ∧ pch_proc_obj ch = true).

(** References taken out of a list of them. *)
Fixpoint take_all (l hl : list Z) : option (list Z) :=
  match l with
  | [] => Some hl
  | a :: l =>
      match take_all l hl with
      | Some hl => if bool_decide (a ∈ hl) then Some (remove_one a hl) else None
      | None => None
      end
  end.

Definition in_callback (s : psys) : Prop := ∃ ch site, pc s = PCall ch site.

(** Channel numbers do not wrap around. *)
Definition ID_BUDGET : Z := U64_MAX.

(** Clocks that work, tables that fit; and the interpreter's rules: methods are
    called on objects one holds, new objects are at new addresses, a callable is
    not the scheduler, what a callback raises is an exception. Left out: a
    [shutdown] by a callback, or while another thread is in [shutdown]; the last
    reference dropped by the worker, or without memory for the command that stops
    it; see the end of ProcSpec. *)
Definition proc_enabled (l : plabel) (s : psys) : Prop :=
  let w := wld s in
  match l with
  | LDetach => pc s = PTop
  | LCmd _ now _ =>
      (∃ cmd rest seen, pc s = PCmds cmd rest seen) ∧
      zlen (t_chans (tab (prc w))) < CHANNEL_BUDGET ∧ owned s
  | LReturn o now _ =>
      in_callback s ∧ (∀ p, pend s ≠ Some (true, p)) ∧ owned s ∧
      ∀ e, call_result o = Failed (Some e) →
        exc_value e ∈ held s ∧ ∃ cause, py_read (ob w) (exc_value e) = Done (OExc cause)
  | LClock now => pc s = PStart
  | LPop => ∃ now, pc s = PDue now
  | LSleep now cmd_now => pc s = PSleep ∧ cmd_now ≠ None
  | LWake => ∃ until, pc s = PWait until ∧ (until = None → cmds (prc w) ≠ [])
  | LClear _ => (∃ i, pc s = PClear i) ∧ owned s
  | LNew a o =>
      a ≠ self ∧ ob w !! a = None ∧ is_Some (take_all (fields o) (held s)) ∧
      match o with OCallable _ | OExc _ => True | _ => False end
  | LTake a => is_Some (ob w !! a)
  | LDrop a _ cmd_mem => a ∈ held s ∧ cmd_mem = true
  | LCapture f a =>
      a ∈ held s ∧ (∃ l, py_read (ob w) f = Done (OCallable l)) ∧
      (a = self ∨ ∃ ch, channel_at w a ch)
  | LCreate on_worker cb env _ =>
      self ∈ held s ∧ cb ∈ remove_one self (held s) ∧
      (∀ a, ce_channel env = Some a → ob w !! a = None) ∧
      next_channel_id (prc w) < ID_BUDGET ∧ (on_worker = true → in_callback s)
  | LClose on_worker a _ _ =>
      a ∈ held s ∧ (∃ ch, channel_at w a ch) ∧ (on_worker = true → in_callback s)
  | LEnd err _ =>
      pend s ≠ None ∧ wt_done (cmd_waiter (prc w)) = true ∧ ∀ a, err = Some a → ob w !! a = None
  | LShutdown on_worker _ => self ∈ held s ∧ on_worker = false ∧ joining s = None
  | LJoin _ => joining s ≠ None ∧ pc s = PExit
  end.

(** A scheduler just made, that the program holds. *)
Definition fresh_psys (p : PyRtpProc) : psys :=
  {| wld := {| prc := p; ob := {[self := {| rc := 1; val := OProc |}]} |};
     pc := PTop; pend := None; joining := None; held := [self]; asked := []; freed := false |}.

Inductive preach : psys → Prop :=
| preach_start clk p :
    PyRtpProc_init (PyRtpProc_new None) 0 (0, clk) 0 0 = (Ret (), p) → preach (fresh_psys p)
| preach_step l s s' : preach s → proc_enabled l s → proc_exec l s = Done s' → preach s'.
End Objects.
