(* ===== verification/ProcInv.v ===== *)
(** The invariant of the running scheduler of [ProcObj]: who holds which
    reference, the channel table, the commands on their way and the life of the
    worker; and what dropping references does to it. *)
From stdpp Require Import prelude list gmap.
From Stdlib Require Import ZArith Lia.
From S2P Require Import Prelude Py RcHeap RcGraph Synth Sync Sched Proc ProcObj.
Local Open Scope Z_scope.

(** * References in the table and in commands *)

Definition chan_refs (c : proc_channel_state) : list Z :=
  opt_list (ch_proc_in_cb c) ++ exc_ref (ch_cb_exc c).
Definition slot_refs (l : list proc_channel_state) : list Z := l ≫= chan_refs.
Definition table_refs (t : table) : list Z := slot_refs (t_chans t).

Definition cmd_refs (cmd : ProcCmd) : list Z :=
  match cmd with CMD_ADD_CHANNEL _ cb _ => [cb] | _ => [] end.
Definition queue_refs (l : list ProcCmd) : list Z := l ≫= cmd_refs.

Lemma table_refs_erase t : table_refs t = slot_refs (erase t).
Proof.
  unfold table_refs, slot_refs, erase. by induction (t_chans t) as [|c l IH]; [|cbn; f_equal].
Qed.

Lemma slot_refs_cons c l : slot_refs (c :: l) = chan_refs c ++ slot_refs l.
Proof. done. Qed.

Lemma slot_refs_insert l i c d :
  l !! i = Some c → slot_refs (<[i := d]> l) ++ chan_refs c ≡ₚ chan_refs d ++ slot_refs l.
Proof.
  revert i. induction l as [|x l IH]; intros [|i] Hi; try done; cbn in Hi.
  - injection Hi as ->. change (<[0%nat := d]> (c :: l)) with (d :: l). rewrite !slot_refs_cons. generalize (chan_refs c), (chan_refs d), (slot_refs l).
    intros a b r. perm_count.
  - specialize (IH i Hi). change (<[S i := d]> (x :: l)) with (x :: <[i := d]> l).
    rewrite !slot_refs_cons. revert IH.
    generalize (chan_refs c), (chan_refs d), (chan_refs x), (slot_refs l), (slot_refs (<[i:=d]> l)).
    intros a b y r r' IH. perm_count.
Qed.

Lemma slot_refs_zeros l n : slot_refs (l ++ replicate n zero_channel) = slot_refs l.
Proof.
  induction l as [|c l IH]; [induction n; done|]. cbn [app]. by rewrite !slot_refs_cons, IH.
Qed.
#[local] Opaque slot_refs.

Lemma claims_refs t t' i id cb : claims t t' i id cb → table_refs t' ≡ₚ cb :: table_refs t.
Proof.
  intros (n & Hz & He). rewrite !table_refs_erase, He.
  pose proof (slot_refs_insert _ _ _ (claimed id cb) Hz) as Hp. rewrite slot_refs_zeros in Hp.
  change (chan_refs zero_channel) with (@nil Z) in Hp. rewrite app_nil_r in Hp. exact Hp.
Qed.

Lemma view_of_refs c : chan_refs c = opt_list (view_of c).1.1 ++ exc_ref (view_of c).2.
Proof. done. Qed.

(** A slot changes in the table without its links. *)
Lemma replaced_refs t t' i c d :
  t_chans t !! i = Some c → erase t' = <[i := d]> (erase t) →
  table_refs t' ++ chan_refs c ≡ₚ chan_refs d ++ table_refs t.
Proof.
  intros Hc He. rewrite !table_refs_erase, He.
  apply (slot_refs_insert _ _ (set_next None c)). by apply erase_lookup.
Qed.

Lemma removed_refs t t' id exc :
  erase t' = match find_channel_index t id with Some i => <[i := zero_channel]> (erase t) | None => erase t end →
  exc = match view t id with Some (_, _, exc) => exc | None => None end →
  table_refs t ≡ₚ opt_list (callback_of t id) ++ exc_ref exc ++ table_refs t'.
Proof.
  intros He ->. unfold callback_of, view. destruct (find_channel_index t id) as [i|] eqn:E.
  - destruct (first_chan_some _ _ _ _ E) as (j & c & -> & Hc & _). cbn [Nat.add] in *.
    rewrite Hc. cbn. pose proof (replaced_refs _ _ _ _ _ Hc He) as Hp.
    change (chan_refs zero_channel) with (@nil Z) in Hp. unfold chan_refs in Hp. cbn in Hp.
    rewrite <- Hp. perm_count.
  - by rewrite !table_refs_erase, He.
Qed.

(** A slot keeps its number, or gives it up. *)
Lemma replaced_view t t' i c d id :
  t_chans t !! i = Some c → erase t' = <[i := d]> (erase t) →
  (has_id id d = true → has_id id c = true) → view t id = None → view t' id = None.
Proof.
  intros Hc He Hd. rewrite !view_erase, !view_list_none. intros Hn j e. rewrite He, list_lookup_insert.
  case_decide as Hj; [intros [= <-]|apply Hn]. destruct Hj as [<- _].
  destruct (has_id id d) eqn:E; [|done]. specialize (Hd eq_refl).
  pose proof (Hn i (set_next None c) (erase_lookup _ _ _ Hc)) as Hf.
  change (has_id id (set_next None c)) with (has_id id c) in Hf. congruence.
Qed.

(** * Commands pushed by deallocations *)

Definition pushed (p : PyRtpProc) (ids : list Z) : PyRtpProc :=
  set_cmd p (cmd_waiter_busy p) (cmd_waiter p) (cmds p ++ ((λ id, CMD_REMOVE_CHANNEL id false) <$> ids)).

Lemma pushed_nil p : pushed p [] = p.
Proof. unfold pushed. cbn. rewrite app_nil_r. by destruct p. Qed.

Lemma pushed_app p ids ids' : pushed (pushed p ids) ids' = pushed p (ids ++ ids').
Proof. unfold pushed, set_cmd. cbn. by rewrite fmap_app, app_assoc. Qed.

(** Commands are refused once a shutdown is queued. *)
Definition pushes (p p' : PyRtpProc) : Prop :=
  ∃ ids, p' = pushed p ids ∧ (accepting_commands p = false → ids = []).

#[export] Instance pushes_preorder : PreOrder pushes.
Proof.
  split.
  - intros p. exists []. by rewrite pushed_nil.
  - intros p1 p2 p3 (ids & -> & H1) (ids' & -> & H2). exists (ids ++ ids'). rewrite pushed_app.
    split; [done|]. intros Ha. by rewrite H1, H2.
Qed.

Section Drop.
Context (self : Z).
Abbreviation fields := (fields self).
Abbreviation graph_ok := (graph_ok fields).
Abbreviation acyclic := (acyclic fields).

Lemma finalize_pushes mem a o p : pushes p (finalize mem a o p).
Proof.
  destruct o as [|ch|l|c]; cbn [finalize]; [done| |done..].
  unfold rtp_proc_channel_close_begin.
  destruct (pch_closed ch); [done|]. destruct (pch_proc_obj ch); [cbn [negb]|done].
  destruct (mem a); [cbn [negb]|done]. unfold enqueue_command.
  destruct (_ || _); [by destruct p|]. destruct (accepting_commands p) eqn:Ea; [|by destruct p].
  exists [pch_id ch]. by rewrite Ea.
Qed.

Lemma finalize_all_pushes mem gone p : pushes p (finalize_all (finalize mem) gone p).
Proof.
  revert p. induction gone as [|x gone IH]; intros p; [done|]. cbn.
  etrans; [apply (finalize_pushes mem x.1 x.2)|apply IH].
Qed.

(** The objects, and who holds them from outside. *)
Record mem_ok (w : pworld) (l : list Z) : Prop := {
  mo_graph : graph_ok (ob w) l;
  mo_acyclic : acyclic (ob w);
}.

#[export] Instance mem_ok_perm w : Proper (Permutation ==> iff) (mem_ok w).
Proof. intros l l' E. split; intros [Hg Ha]; constructor; try done; [by rewrite <- E|by rewrite E]. Qed.

Lemma mem_ok_prc w p l : mem_ok w l → mem_ok (set_prc w p) l.
Proof. intros [Hg Ha]. by constructor. Qed.

(** What a function may do on the way to others: drop objects, push removals. *)
Record drops (w w' : pworld) : Prop := {
  dr_keeps : keeps (ob w) (ob w');
  dr_pushes : pushes (prc w) (prc w');
}.

#[export] Instance drops_preorder : PreOrder drops.
Proof.
  split; [by intros w|]. intros w1 w2 w3 [H1 H2] [H3 H4]. split; [by etrans|by etrans].
Qed.

Lemma decrefs_ok mem w l rest :
  mem_ok w (l ++ rest) →
  ∃ w', decref_all self mem w l = Done w' ∧ mem_ok w' rest ∧ drops w w'.
Proof.
  intros [Hg Ha]. unfold decref_all.
  destruct (py_drop_ok fields (finalize mem) (ob w) (prc w) l rest Hg) as (h & gone & -> & Hg' & Hk & _).
  cbn [mbind outcome_bind]. eexists. split; [done|]. split; [|split; [done|apply finalize_all_pushes]].
  split; [done|]. by apply (acyclic_objs _ (ob w)).
Qed.

(** Deallocations see neither the table nor [close_exc]. *)
Lemma decref_all_tab mem w l e t :
  decref_all self mem (set_prc w (set_tab (prc w) e t)) l =
  (w' ← decref_all self mem w l; Done (set_prc w' (set_tab (prc w') e t))).
Proof.
  unfold decref_all, py_drop. cbn [ob prc set_prc].
  rewrite (drop_refs_map _ _ (λ p, set_tab p e t)).
  - by destruct (drop_refs _ _ _ _ _) as [[h p]| | |].
  - intros a [|ch| |] p; cbn [finalize]; [done| |done..]. unfold rtp_proc_channel_close_begin.
    destruct (pch_closed ch); [done|]. destruct (pch_proc_obj ch); [|done]. destruct (mem a); [|done].
    cbn [negb]. unfold enqueue_command. cbn [mutex_inited cond_inited accepting_commands set_tab].
    by destruct (_ || _), (accepting_commands p).
Qed.

Lemma decref_all_pushes mem w l w' : decref_all self mem w l = Done w' → pushes (prc w) (prc w').
Proof.
  unfold decref_all, py_drop. rewrite bind_done. intros ([h p] & E & [= <-]).
  destruct (drop_refs_done _ _ _ _ _ _ _ _ E) as [gone ->]. apply finalize_all_pushes.
Qed.

Lemma decref_all_nil mem w : decref_all self mem w [] = Done w.
Proof. unfold decref_all, py_drop. destruct w. by destruct (drop_fuel _ _ _). Qed.

Lemma mem_alive w l a : mem_ok w l → a ∈ l → ∃ o, py_read (ob w) a = Done o.
Proof.
  intros [Hg _] Ha. destruct (graph_alive _ _ _ _ Hg Ha) as [c Hc]. exists (val c).
  by apply py_read_some.
Qed.

(** What is held from outside is not changed by drops. *)
Lemma drops_read w w' l a : drops w w' → mem_ok w' l → a ∈ l → py_read (ob w') a = py_read (ob w) a.
Proof.
  intros [Hk _] Hm Ha. destruct (mem_alive _ _ _ Hm Ha) as [o Ho]. by rewrite Ho, (Hk _ _ Ho).
Qed.

(** An object a held channel refers to is there. *)
Lemma channel_keeps_self w l a ch :
  mem_ok w l → channel_at w a ch → pch_proc_obj ch = true → ∃ c, ob w !! self = Some c.
Proof.
  intros [Hg _] Ha Hp. unfold channel_at, py_read in Ha. destruct (ob w !! a) as [c|] eqn:Ec; [|done].
  injection Ha as Hv. apply (graph_alive_field _ _ _ a c self Hg Ec). rewrite Hv. cbn. rewrite Hp. by left.
Qed.

Lemma mem_incref w l a :
  mem_ok w l → (∃ c, ob w !! a = Some c) →
  ∃ h, py_incref (ob w) a = Done h ∧ mem_ok (set_ob w h) (a :: l) ∧
    ∀ b, py_read h b = py_read (ob w) b.
Proof.
  intros [Hg Ha] Hin. destruct (graph_incref fields _ l a Hg) as (h & E & Hg' & _ & Hr).
  { apply (heap_ok_elem _ _ a Hg). destruct Hin as [c Hc]. by exists c. }
  exists h. split; [done|]. split; [|done]. split; [done|].
  apply (acyclic_objs _ (ob w)); [|done]. intros b v. cbn. by rewrite Hr.
Qed.

Lemma mem_make w l a o :
  mem_ok w (fields o ++ l) → ob w !! a = None →
  mem_ok (set_ob w (<[a := {| rc := 1; val := o |}]> (ob w))) (a :: l) ∧
  (∀ b v, py_read (ob w) b = Done v → py_read (<[a := {| rc := 1; val := o |}]> (ob w)) b = Done v).
Proof.
  intros [Hg Ha] Hn. split; [split; cbn [ob set_ob]|].
  - by apply graph_make.
  - apply (acyclic_make _ _ (fields o ++ l)); [done|done|done|]. cbn [val]. intros Hin.
    destruct (graph_alive _ _ _ a Hg) as [c Hc]; [apply elem_of_app; by left|]. congruence.
  - intros b v. unfold py_read. destruct (decide (b = a)) as [->|Hne]; [by rewrite Hn|].
    by rewrite lookup_insert_ne.
Qed.
End Drop.

(** * The invariant *)

Definition pc_cmds (p : proc_pc) : list ProcCmd :=
  match p with
  | PCmds cmd rest _ => cmd :: rest
  | PCall _ (FirstCall _ _ rest _) => rest
  | _ => []
  end.
Definition in_hand (p : proc_pc) : list ProcCmd :=
  match p with PCall _ (FirstCall _ cmd _ _) => [cmd] | _ => [] end.
(** The worker knows it is to stop. *)
Definition seen_stop (p : proc_pc) : bool :=
  match p with
  | PCmds _ _ b | PCall _ (FirstCall _ _ _ b) => b
  | PClear _ | PExit => true
  | _ => false
  end.

Definition waiting_cmds (l : list ProcCmd) : list ProcCmd := filter (λ c, cmd_waits c = true) l.
Definition add_ids (l : list ProcCmd) : list Z :=
  omap (λ c, match c with CMD_ADD_CHANNEL id _ _ => Some id | _ => None end) l.

(** Commands that wait or were taken out, by the worker's program point. *)
Definition queue (p : PyRtpProc) (c : proc_pc) : list ProcCmd := pc_cmds c ++ cmds p.

(** Start, life and end of the worker. A shutdown is the last command there is. *)
Record ctl_ok (p : PyRtpProc) (c : proc_pc) (j : option joiner) (fr : bool) : Prop := {
  ct_init : fr = false → mutex_inited p = true ∧ cond_inited p = true ∧ cmd_waiter_inited p = true;
  ct_acc : accepting_commands p = negb (shutdown_queued p);
  ct_stop : if shutdown_queued p then
              if seen_stop c then queue p c = []
              else ∃ l, queue p c = l ++ [CMD_SHUTDOWN] ∧ CMD_SHUTDOWN ∉ l
            else seen_stop c = false ∧ CMD_SHUTDOWN ∉ queue p c;
  ct_run : worker_running p = false → c = PExit;
  ct_join : j ≠ None → shutdown_queued p = true ∧ worker_running p = true;
  ct_freed : fr = true → c = PExit ∧ j = None;
}.

(** The channel whose callback runs is in use, and off the list. *)
Definition pc_ok (t : table) (c : proc_pc) : Prop :=
  match c with
  | PCall ch site =>
      ∃ i c cb, ch = chan_at t i ∧ t_chans t !! i = Some c ∧ ch_active c = true ∧
        ch_scheduled c = false ∧ ch_proc_in_cb c = Some cb ∧
        match site with
        | FirstCall _ cmd _ _ => ∃ waits, cmd = CMD_ADD_CHANNEL (ch_id c) cb waits
        | DueCall => True
        end
  | PClear i => ∀ j c, (j < i)%nat → t_chans t !! j = Some c → ch_active c = false
  | PExit => t = empty_table
  | _ => True
  end.

(** Numbers a proof keeps an eye on: they were given up for good. *)
Class Retired := retired : Z → Prop.

(** Somebody waits for every channel to be added. *)
Definition add_waits (cmd : ProcCmd) : Prop :=
  match cmd with CMD_ADD_CHANNEL _ _ waits => waits = true | _ => True end.

(** Numbers are used once. *)
Record numbers_ok `{!Retired} (p : PyRtpProc) (c : proc_pc) : Prop := {
  no_nodup : NoDup (add_ids (queue p c));
  no_new : ∀ id, id ∈ add_ids (queue p c) → view (tab p) id = None;
  no_bound : ∀ id, id ∈ add_ids (queue p c) ∨ view (tab p) id ≠ None → id < next_channel_id p;
  no_next : 1 ≤ next_channel_id p ≤ ID_BUDGET;
  no_retired : ∀ id, retired id →
    id < next_channel_id p ∧ (id ∉ add_ids (queue p c)) ∧ view (tab p) id = None;
  no_waits : Forall add_waits (queue p c);
}.

Definition call_chan (c : pcall) : Z := match c with CallCreate a _ | CallClose a => a end.
(** The command of a call. *)
Definition cmd_of (c : pcall) (ch : PyRtpProcChannel) : ProcCmd :=
  match c with
  | CallCreate _ cb => CMD_ADD_CHANNEL (pch_id ch) cb true
  | CallClose _ => CMD_REMOVE_CHANNEL (pch_id ch) true
  end.

Definition waited (s : psys) : list ProcCmd :=
  waiting_cmds (in_hand (pc s) ++ queue (prc (wld s)) (pc s)).

Section Inv.
Context `{Rt : !Retired} (self : Z).

Definition roots (s : psys) : list Z :=
  let p := prc (wld s) in
  held s ++ pend_refs self s ++ join_refs self s ++ queue_refs (queue p (pc s)) ++
  table_refs (tab p) ++ exc_ref (close_exc p).

(** [x]: references in the hand of a function that runs. *)
Record psys_inv (x : list Z) (s : psys) : Prop := {
  pi_mem : mem_ok self (wld s) (x ++ roots s);
  pi_self : if serving s then py_read (ob (wld s)) self = Done OProc else ob (wld s) !! self = None;
  pi_ctl : ctl_ok (prc (wld s)) (pc s) (joining s) (freed s);
  pi_table : ∃ ag, table_ok (tab (prc (wld s))) ag;
  pi_numbers : numbers_ok (prc (wld s)) (pc s);
  pi_busy : cmd_waiter_busy (prc (wld s)) = has (pend s);
  pi_waits : match pend s with
             | None => waited s = []
             | Some (_, c) => ∃ ch, channel_at (wld s) (call_chan c) ch ∧ pch_proc_obj ch = true ∧
                 waited s = if wt_done (cmd_waiter (prc (wld s))) then [] else [cmd_of c ch]
             end;
  pi_ids : ∀ a ch, channel_at (wld s) a ch → pch_id ch < next_channel_id (prc (wld s));
  pi_gone : ∀ ow a ch, pend s = Some (ow, CallClose a) → channel_at (wld s) a ch →
    wt_done (cmd_waiter (prc (wld s))) = true → view (tab (prc (wld s))) (pch_id ch) = None;
}.

(** Between steps. *)
Record psys_ok (s : psys) : Prop := {
  po_inv : psys_inv [] s;
  po_pc : pc_ok (tab (prc (wld s))) (pc s);
}.

(** ** Removals pushed by deallocations *)

Lemma waiting_app a b : waiting_cmds (a ++ b) = waiting_cmds a ++ waiting_cmds b.
Proof. apply filter_app. Qed.
Lemma add_ids_app a b : add_ids (a ++ b) = add_ids a ++ add_ids b.
Proof. apply omap_app. Qed.
Lemma queue_refs_app a b : queue_refs (a ++ b) = queue_refs a ++ queue_refs b.
Proof. apply bind_app. Qed.

Lemma removals_plain ids (l := (λ id, CMD_REMOVE_CHANNEL id false) <$> ids) :
  waiting_cmds l = [] ∧ add_ids l = [] ∧ queue_refs l = [] ∧ CMD_SHUTDOWN ∉ l.
Proof.
  subst l. induction ids as [|id ids (H1 & H2 & H3 & H4)]; cbn.
  - split_and!; try done. apply not_elem_of_nil.
  - split_and!; try done. by apply not_elem_of_cons.
Qed.

Lemma removals_wait ids : Forall add_waits ((λ id, CMD_REMOVE_CHANNEL id false) <$> ids).
Proof. by induction ids; constructor. Qed.

Lemma queue_pushed p ids c :
  queue (pushed p ids) c = queue p c ++ ((λ id, CMD_REMOVE_CHANNEL id false) <$> ids).
Proof. unfold queue, pushed. cbn. by rewrite app_assoc. Qed.

Lemma ctl_pushes p p' c j fr : pushes p p' → ctl_ok p c j fr → ctl_ok p' c j fr.
Proof.
  intros (ids & -> & Ha) [H1 H2 H3 H4 H5 H6].
  destruct (removals_plain ids) as (_ & _ & _ & Hs).
  constructor; try done. rewrite queue_pushed. cbn [shutdown_queued pushed set_cmd].
  destruct (shutdown_queued p).
  - rewrite Ha by done. cbn. rewrite app_nil_r. done.
  - destruct H3 as [H3 H3']. split; [done|]. rewrite not_elem_of_app. done.
Qed.

Lemma numbers_pushes p p' c : pushes p p' → numbers_ok p c → numbers_ok p' c.
Proof.
  intros (ids & -> & _) [H1 H2 H3 H4 H5 H6]. destruct (removals_plain ids) as (_ & Hi & _ & _).
  constructor; try rewrite queue_pushed; try rewrite add_ids_app, Hi, app_nil_r; try done.
  apply Forall_app. split; [done|apply removals_wait].
Qed.

Lemma pushes_refs p p' c :
  pushes p p' → queue_refs (queue p' c) = queue_refs (queue p c) ∧
  waiting_cmds (in_hand c ++ queue p' c) = waiting_cmds (in_hand c ++ queue p c).
Proof.
  intros (ids & -> & _). destruct (removals_plain ids) as (Hw & _ & Hr & _).
  rewrite queue_pushed, queue_refs_app, app_assoc, waiting_app, Hr, Hw, !app_nil_r. done.
Qed.

Lemma pushes_same p p' :
  pushes p p' → tab p' = tab p ∧ close_exc p' = close_exc p ∧ cmd_waiter p' = cmd_waiter p ∧
    cmd_waiter_busy p' = cmd_waiter_busy p ∧ next_channel_id p' = next_channel_id p ∧
    mutex_inited p' = mutex_inited p ∧ shutdown_queued p' = shutdown_queued p ∧
    worker_running p' = worker_running p ∧ accepting_commands p' = accepting_commands p ∧
    cmd_waiter_inited p' = cmd_waiter_inited p ∧ cond_inited p' = cond_inited p.
Proof. by intros (ids & -> & _). Qed.

Lemma drops_roots s w : drops (wld s) w → roots (put s w (pc s)) = roots s.
Proof.
  intros [_ Hp]. unfold roots. cbn.
  destruct (pushes_refs _ _ (pc s) Hp) as [-> _]. by destruct (pushes_same _ _ Hp) as (-> & -> & _).
Qed.

(** Objects may go, as long as the scheduler and what is held stay. *)
Lemma inv_drops x x' s w :
  psys_inv x s → drops (wld s) w → mem_ok self w (x' ++ roots s) →
  (if serving s then ∃ c, ob w !! self = Some c else True) →
  psys_inv x' (put s w (pc s)).
Proof.
  intros [Hm Hs Hc Ht Hn Hb Hw Hcn Hcl] Hd Hm' Hself. pose proof Hd as [Hk Hp].
  destruct (pushes_same _ _ Hp) as (E1 & E2 & E3 & E4 & E5 & _).
  pose proof (pushes_refs _ _ (pc s) Hp) as [Er Ew].
  constructor; cbn [wld put pc joining freed pend].
  - by rewrite drops_roots.
  - change (serving (put s w (pc s))) with (serving s). destruct (serving s).
    + destruct Hself as [c Hc']. pose proof (py_read_some _ _ _ Hc') as Hr. rewrite Hr.
      apply Hk in Hr. by rewrite Hs in Hr.
    + destruct (ob w !! self) as [c|] eqn:E; [|done]. pose proof (py_read_some _ _ _ E) as Hr.
      apply Hk in Hr. unfold py_read in Hr. by rewrite Hs in Hr.
  - by apply (ctl_pushes (prc (wld s))).
  - by rewrite E1.
  - by apply (numbers_pushes (prc (wld s))).
  - by rewrite E4.
  - unfold waited in *. cbn [pc put wld]. rewrite Ew, E3. destruct (pend s) as [[b c]|] eqn:Ep; [|done].
    destruct Hw as (ch & Hch & Hpo & Hw). exists ch. split; [|done].
    unfold channel_at in *. rewrite <- Hch. apply (drops_read self _ w _ _ Hd Hm').
    apply elem_of_app. right. unfold roots, pend_refs. rewrite Ep.
    apply elem_of_app. right. apply elem_of_app. left. destruct c; cbn [call_refs call_chan];
    rewrite ?elem_of_cons; auto.
  - intros a ch Ha. rewrite E5. apply (Hcn a). by apply Hk.
  - intros ow a ch Hpe Ha. rewrite E1, E3. apply (Hcl ow a); [done|]. by apply Hk.
Qed.

(** The scheduler stays while somebody outside keeps it. *)
Lemma owned_alive x s w :
  owned self s → drops (wld s) w → mem_ok self w (x ++ roots s) →
  if serving s then ∃ c, ob w !! self = Some c else True.
Proof.
  intros Ho Hd Hm. destruct (serving s) eqn:Es; [|done]. destruct Ho as [Hj|(a & Hin & Hor)]; [congruence|].
  assert (a ∈ x ++ roots s) as Hr.
  { unfold roots. cbn zeta. rewrite !elem_of_app in Hin. rewrite !elem_of_app. tauto. }
  pose proof (mo_graph _ _ _ Hm) as Hg. destruct Hor as [->|(ch & Hch & Hpo)].
  - by apply (graph_alive _ _ _ _ Hg).
  - apply (channel_keeps_self self w _ a ch Hm); [|done]. unfold channel_at in *.
    rewrite <- Hch. by apply (drops_read self _ w _ _ Hd Hm).
Qed.

Lemma owned_drops x s w c :
  owned self s → drops (wld s) w → mem_ok self w (x ++ roots s) → owned self (put s w c).
Proof.
  intros [Hj|(a & Hin & Hor)] Hd Hm; [by left|]. right. exists a. split; [done|].
  destruct Hor as [->|(ch & Hch & Hpo)]; [by left|right]. exists ch. split; [|done].
  unfold channel_at in *. cbn [wld put]. rewrite <- Hch. apply (drops_read self _ w _ _ Hd Hm).
  unfold roots. cbn zeta. rewrite !elem_of_app in Hin. rewrite !elem_of_app. tauto.
Qed.

(** ** Dropping references in a state *)

Lemma put_put s w c w' c' : put (put s w c) w' c' = put s w' c'.
Proof. done. Qed.

Lemma put_id s : put s (wld s) (pc s) = s.
Proof. by destruct s. Qed.

Lemma inv_perm x x' s : x ≡ₚ x' → psys_inv x s → psys_inv x' s.
Proof. intros Hp [Hm ? ? ? ? ? ?]. constructor; try done. by rewrite <- Hp. Qed.

Lemma inv_decref mem l x s :
  psys_inv (l ++ x) s → owned self s →
  ∃ w, decref_all self mem (wld s) l = Done w ∧ psys_inv x (put s w (pc s)) ∧
    (∀ c, owned self (put s w c)) ∧ drops (wld s) w.
Proof.
  intros Hi Ho. pose proof (pi_mem _ _ Hi) as Hm. rewrite <- app_assoc in Hm.
  destruct (decrefs_ok self mem (wld s) l (x ++ roots s) Hm) as (w & E & Hm' & Hd).
  exists w. split; [done|]. split; [|split; [|done]].
  - apply (inv_drops (l ++ x)); [done..|]. by apply (owned_alive x).
  - intros c. by apply (owned_drops x).
Qed.

(** ** The commands in turn *)

Lemma queue_next p rest b : queue p (next_cmd rest b) = rest ++ cmds p.
Proof. by destruct rest, b. Qed.
Lemma seen_next rest b : seen_stop (next_cmd rest b) = b.
Proof. by destruct rest, b. Qed.
Lemma pc_ok_next t rest b : pc_ok t (next_cmd rest b).
Proof. destruct rest, b; cbn; try done. lia. Qed.
Lemma next_not_exit rest b : next_cmd rest b ≠ PExit.
Proof. by destruct rest, b. Qed.
Lemma hand_next rest b : in_hand (next_cmd rest b) = [].
Proof. by destruct rest, b. Qed.

(** The first command is taken. *)
Lemma ctl_advance p cmd q j fr c c' :
  ctl_ok p c j fr → c ≠ PExit → queue p c = cmd :: q → queue p c' = q →
  seen_stop c' = seen_stop c → cmd ≠ CMD_SHUTDOWN → ctl_ok p c' j fr.
Proof.
  intros [H1 H2 H3 H4 H5 H6] Hx Hq Hq' Hs Hne. constructor; try done.
  - rewrite Hq', Hs. rewrite Hq in H3. destruct (shutdown_queued p).
    2:{ destruct H3 as [? [_ ?]%not_elem_of_cons]. done. }
    destruct (seen_stop c); [done|]. destruct H3 as ([|d l] & E & Hn); [by injection E|].
    injection E as -> E. exists l. split; [done|].
    by apply not_elem_of_cons in Hn as [_ ?].
  - intros Hr. by destruct (Hx (H4 Hr)).
  - intros Hf. by destruct (Hx (proj1 (H6 Hf))).
Qed.

Lemma ctl_tab p c j fr e t : ctl_ok p c j fr → ctl_ok (set_tab p e t) c j fr.
Proof. intros [H1 H2 H3 H4 H5 H6]. by constructor. Qed.

Definition done_with (p : PyRtpProc) (waits : bool) (st : Z) : PyRtpProc :=
  if waits then rtp_sync_waiter_complete p st else p.

Lemma complete_prc w waits st : complete w waits st = set_prc w (done_with (prc w) waits st).
Proof. destruct waits; [done|]. by destruct w. Qed.

Lemma ctl_done p c j fr waits st : ctl_ok p c j fr → ctl_ok (done_with p waits st) c j fr.
Proof. destruct waits; [|done]. intros [H1 H2 H3 H4 H5 H6]. by constructor. Qed.
Lemma numbers_done p c waits st : numbers_ok p c → numbers_ok (done_with p waits st) c.
Proof. destruct waits; [|done]. intros [H1 H2 H3 H4 H5 H6]. by constructor. Qed.
Lemma done_same p waits st :
  tab (done_with p waits st) = tab p ∧ cmds (done_with p waits st) = cmds p ∧
  close_exc (done_with p waits st) = close_exc p ∧ cmd_waiter_busy (done_with p waits st) = cmd_waiter_busy p ∧
  next_channel_id (done_with p waits st) = next_channel_id p.
Proof. by destruct waits. Qed.

(** The waiting call learns that its command is done. *)
Lemma waits_next x s cmd rest b st :
  psys_inv x s →
  waited s = waiting_cmds (cmd :: rest ++ cmds (prc (wld s))) →
  match pend s with
  | None => waited (put s (complete (wld s) (cmd_waits cmd) st) (next_cmd rest b)) = []
  | Some (_, c) => ∃ ch, channel_at (wld s) (call_chan c) ch ∧ pch_proc_obj ch = true ∧
      waited (put s (complete (wld s) (cmd_waits cmd) st) (next_cmd rest b)) =
        if wt_done (cmd_waiter (done_with (prc (wld s)) (cmd_waits cmd) st)) then [] else [cmd_of c ch]
  end.
Proof.
  intros Hi Hq. pose proof (pi_waits _ _ Hi) as Hw. rewrite complete_prc. unfold waited at 1 2. cbn [pc wld put prc set_prc].
  rewrite queue_next, hand_next. destruct (done_same (prc (wld s)) (cmd_waits cmd) st) as (_ & -> & _).
  cbn [app]. unfold waiting_cmds in Hq. rewrite filter_cons in Hq. fold (waiting_cmds (rest ++ cmds (prc (wld s)))) in Hq.
  destruct (pend s) as [[ow c]|].
  - destruct Hw as (ch & Hch & Hpo & Hw). exists ch. split; [done|]. split; [done|].
    destruct (cmd_waits cmd) eqn:Ew; cbn [done_with rtp_sync_waiter_complete cmd_waiter set_cmd wt_done];
      rewrite ?decide_True, ?decide_False in Hq by done.
    + destruct (wt_done _); rewrite Hw in Hq; [done|]. by injection Hq.
    + by rewrite <- Hq.
  - destruct (cmd_waits cmd) eqn:Ew; rewrite ?decide_True, ?decide_False in Hq by done; [by rewrite Hw in Hq|].
    by rewrite <- Hq.
Qed.

Lemma numbers_next p c cmd rest b :
  numbers_ok p c → queue p c = cmd :: rest ++ cmds p ∨ queue p c = rest ++ cmds p →
  numbers_ok p (next_cmd rest b).
Proof.
  intros [H1 H2 H3 H4 H5 H6] Hq.
  assert (∀ id, id ∈ add_ids (rest ++ cmds p) → id ∈ add_ids (queue p c)) as Hsub.
  { intros id Hid. destruct Hq as [-> | ->]; [|done]. cbn. destruct cmd; [by right|done..]. }
  constructor; rewrite ?queue_next; [|by auto| |done|..].
  - destruct Hq as [Hq|Hq]; rewrite Hq in H1; [|done]. cbn in H1.
    destruct cmd; [by apply NoDup_cons in H1 as [_ ?]|done..].
  - intros id [Hid|Hv]; apply H3; auto.
  - intros id Hid. destruct (H5 id Hid) as (? & ? & ?). split; [done|]. split; [|done]. by intros ?%Hsub.
  - destruct Hq as [Hq|Hq]; rewrite Hq in H6; [|done]. by apply Forall_cons in H6 as [_ ?].
Qed.

(** A call of [close] learns that its channel is gone. *)
Lemma gone_next x s cmd l st :
  psys_inv x s → waited s = waiting_cmds (cmd :: l) →
  (∀ id, cmd = CMD_REMOVE_CHANNEL id true → view (tab (prc (wld s))) id = None) →
  ∀ ow a ch, pend s = Some (ow, CallClose a) → channel_at (wld s) a ch →
    wt_done (cmd_waiter (done_with (prc (wld s)) (cmd_waits cmd) st)) = true →
    view (tab (prc (wld s))) (pch_id ch) = None.
Proof.
  intros Hi Hq Hcmd ow a ch Hp Ha Hd. pose proof (pi_waits _ _ Hi) as Hw. rewrite Hp in Hw.
  destruct Hw as (ch' & Ha' & _ & Hw). cbn [call_chan] in Ha'. unfold channel_at in *.
  assert (ch' = ch) as -> by congruence.
  destruct (wt_done (cmd_waiter (prc (wld s)))) eqn:Ed; [by apply (pi_gone _ _ Hi ow a ch)|].
  destruct (cmd_waits cmd) eqn:Ew; [|cbn [done_with] in Hd; congruence].
  rewrite Hq in Hw. unfold waiting_cmds in Hw. rewrite filter_cons, decide_True in Hw by done.
  injection Hw as -> _. by apply Hcmd.
Qed.

(** A command taken out of the list is done with: what it refers to is in the
    worker's hand. *)
Lemma inv_next_cmd x s cmd rest b st :
  psys_inv x s → pc s = PCmds cmd rest b → cmd ≠ CMD_SHUTDOWN →
  (∀ id, cmd = CMD_REMOVE_CHANNEL id true → view (tab (prc (wld s))) id = None) →
  psys_inv (cmd_refs cmd ++ x) (put s (complete (wld s) (cmd_waits cmd) st) (next_cmd rest b)).
Proof.
  intros Hi Hpc Hne Hcmd. pose proof Hi as [Hm Hs Hc Ht Hn Hb _ Hcn Hcl].
  destruct (done_same (prc (wld s)) (cmd_waits cmd) st) as (Et & Eq & Ee & Eb & En).
  assert (queue (prc (wld s)) (pc s) = cmd :: rest ++ cmds (prc (wld s))) as Hq by by rewrite Hpc.
  rewrite complete_prc. constructor; cbn [wld put pc joining freed pend prc set_prc].
  - unfold roots in *. cbn [wld put pc held prc set_prc].
    rewrite queue_next, Et, Eq, Ee. rewrite Hq in Hm.
    change (queue_refs (cmd :: ?l)) with (cmd_refs cmd ++ queue_refs l) in Hm.
    apply (mem_ok_prc self (wld s)). eapply mem_ok_perm; [|exact Hm].
    change (pend_refs self (put _ _ _)) with (pend_refs self s).
    change (join_refs self (put _ _ _)) with (join_refs self s).
    generalize (cmd_refs cmd), (queue_refs (rest ++ cmds (prc (wld s)))). intros a q. perm_count.
  - done.
  - apply (ctl_done _ _ _ _ (cmd_waits cmd) st). eapply ctl_advance; [done|by rewrite Hpc|done|apply queue_next|by rewrite seen_next, Hpc|done].
  - by rewrite Et.
  - apply numbers_done. eapply numbers_next; [done|by left].
  - by rewrite Eb.
  - pose proof (waits_next x s cmd rest b st Hi) as Hw. rewrite complete_prc in Hw. apply Hw.
    unfold waited. by rewrite Hq, Hpc.
  - intros a d Ha. rewrite En. by apply (Hcn a).
  - intros ow a d Hpe Ha. rewrite Et. apply (gone_next x s cmd (rest ++ cmds (prc (wld s))) st Hi) with (ow := ow) (a := a); try done.
    unfold waited. by rewrite Hq, Hpc.
Qed.

(** The callback of a command has returned. *)
Lemma inv_next_call x s ch start cmd rest b st :
  psys_inv x s → pc s = PCall ch (FirstCall start cmd rest b) →
  (∀ id, cmd = CMD_REMOVE_CHANNEL id true → view (tab (prc (wld s))) id = None) →
  psys_inv x (put s (complete (wld s) (cmd_waits cmd) st) (next_cmd rest b)).
Proof.
  intros Hi Hpc Hcmd. pose proof Hi as [Hm Hs Hc Ht Hn Hb _ Hcn Hcl].
  destruct (done_same (prc (wld s)) (cmd_waits cmd) st) as (Et & Eq & Ee & Eb & En).
  assert (queue (prc (wld s)) (pc s) = rest ++ cmds (prc (wld s))) as Hq by by rewrite Hpc.
  rewrite complete_prc. constructor; cbn [wld put pc joining freed pend prc set_prc].
  - unfold roots in *. cbn [wld put pc held prc set_prc].
    rewrite queue_next, Et, Eq, Ee. rewrite Hq in Hm. by apply (mem_ok_prc self (wld s)).
  - done.
  - apply (ctl_done _ _ _ _ (cmd_waits cmd) st). destruct Hc as [H1 H2 H3 H4 H5 H6].
    constructor; try done; rewrite ?queue_next, ?seen_next.
    + by rewrite Hq, Hpc in H3.
    + rewrite Hpc in H4. intros Hr. by specialize (H4 Hr).
    + rewrite Hpc in H6. intros Hf. by destruct (H6 Hf).
  - by rewrite Et.
  - apply numbers_done. apply (numbers_next _ (pc s) cmd); [done|by right].
  - by rewrite Eb.
  - pose proof (waits_next x s cmd rest b st Hi) as Hw. rewrite complete_prc in Hw. apply Hw.
    unfold waited. by rewrite Hq, Hpc.
  - intros a d Ha. rewrite En. by apply (Hcn a).
  - intros ow a d Hpe Ha. rewrite Et. apply (gone_next x s cmd (rest ++ cmds (prc (wld s))) st Hi) with (ow := ow) (a := a); try done.
    unfold waited. by rewrite Hq, Hpc.
Qed.
End Inv.
