(* ===== verification/ProcSteps.v ===== *)
(** The worker of the scheduler of [ProcObj]: each of its steps can be made, without
    an abort or an access to something freed, and keeps the invariant of [ProcInv]. *)
From stdpp Require Import prelude list gmap.
From Stdlib Require Import ZArith Lia.
From S2P Require Import Prelude Py RcHeap RcGraph Synth Sync Sched Proc ProcObj ProcInv.
Local Open Scope Z_scope.

Section Steps.
Context `{Rt : !Retired} (self : Z).
Abbreviation psys_inv := (psys_inv self).

Definition proc_steps (l : plabel) (s : psys) : Prop :=
  ∃ s', proc_exec self l s = Done s' ∧ psys_ok self s'.

Lemma not_freed x s : psys_inv x s → pc s ≠ PExit → freed s = false.
Proof.
  intros Hi Hp. destruct (freed s) eqn:E; [|done].
  by destruct (Hp (proj1 (ct_freed _ _ _ _ (pi_ctl _ _ _ Hi) E))).
Qed.

Lemma goes_ok x x' s w c :
  psys_inv x s → psys_inv x' (put s w c) → worker_goes self s w c = Done (put s w c).
Proof.
  intros Hi Hi'. unfold worker_goes. pose proof (pi_self _ _ _ Hi) as H. pose proof (pi_self _ _ _ Hi') as H'.
  change (serving (put s w c)) with (serving s) in H'. cbn [wld put] in H'. destruct (serving s).
  - unfold py_read in H'. destruct (ob w !! self); [|done]. by rewrite andb_false_r.
  - by rewrite H.
Qed.

Lemma owned_put s w c : owned self s → ob w = ob (wld s) → owned self (put s w c).
Proof.
  intros [Hj|(a & Hin & Hor)] E; [by left|right]. exists a. split; [done|].
  unfold channel_at in *. cbn [wld put]. by rewrite E.
Qed.

(** ** Table, exception and program point change *)

Lemma roots_tab x x' s e t c' :
  pc_cmds c' = pc_cmds (pc s) →
  x ++ table_refs (tab (prc (wld s))) ++ exc_ref (close_exc (prc (wld s))) ≡ₚ
    x' ++ table_refs t ++ exc_ref e →
  x ++ roots self s ≡ₚ x' ++ roots self (put s (set_prc (wld s) (set_tab (prc (wld s)) e t)) c').
Proof.
  intros Ec Hr. unfold roots, queue. cbn [wld put pc prc set_prc held tab close_exc set_tab cmds].
  rewrite Ec.
  change (pend_refs self (put _ _ _)) with (pend_refs self s).
  change (join_refs self (put _ _ _)) with (join_refs self s).
  revert Hr. generalize (table_refs t), (table_refs (tab (prc (wld s)))), (exc_ref e),
    (exc_ref (close_exc (prc (wld s)))). intros a b d f Hr. perm_count.
Qed.

Lemma numbers_tab p c c' e t :
  numbers_ok p c → queue p c' = queue p c →
  (∀ id, view (tab p) id = None → view t id = None) → numbers_ok (set_tab p e t) c'.
Proof.
  intros [H1 H2 H3 H4 H5 H6] Hq Hv. constructor; try done; change (queue (set_tab p e t)) with (queue p);
    rewrite ?Hq; cbn [tab set_tab]; try done; [auto|..].
  - intros id [Hid|Hid]; apply H3; [by left|right]. intros E. by apply Hid, Hv.
  - intros id Hid. destruct (H5 id Hid) as (? & ? & ?). split_and!; [done..|]. by apply Hv.
Qed.

Lemma inv_tab x x' s e t c' :
  psys_inv x s → (∃ ag, table_ok t ag) →
  pc_cmds c' = pc_cmds (pc s) → in_hand c' = in_hand (pc s) → seen_stop c' = seen_stop (pc s) →
  (pc s = PExit → c' = PExit) →
  x ++ table_refs (tab (prc (wld s))) ++ exc_ref (close_exc (prc (wld s))) ≡ₚ
    x' ++ table_refs t ++ exc_ref e →
  (∀ id, view (tab (prc (wld s))) id = None → view t id = None) →
  psys_inv x' (put s (set_prc (wld s) (set_tab (prc (wld s)) e t)) c').
Proof.
  intros [Hm Hs Hc Ht Hn Hb Hw Hcn Hcl] Ht' Ec Eh Es Ex Hr Hv.
  assert (∀ p, cmds p = cmds (prc (wld s)) → queue p c' = queue (prc (wld s)) (pc s)) as Hq
    by (intros p Hp; unfold queue; by rewrite Ec, Hp).
  constructor; cbn [wld put pc joining freed pend prc set_prc tab set_tab]; try done.
  - apply (mem_ok_prc self (wld s)). by rewrite <- (roots_tab x).
  - destruct Hc as [H1 H2 H3 H4 H5 H6]. constructor; try done; cbn [shutdown_queued set_tab worker_running].
    + rewrite Hq by done. by rewrite Es.
    + intros Hrun. by apply Ex, H4.
    + intros Hf. destruct (H6 Hf) as [? ?]. split; [by apply Ex|done].
  - apply (numbers_tab _ (pc s)); [done|by apply Hq|done].
  - unfold waited in *. cbn [wld put pc prc set_prc]. by rewrite Hq, Eh.
  - intros ow a ch Hpe Ha Hd. by apply Hv, (Hcl ow a).
Qed.

Lemma set_prc_id w : set_prc w (set_tab (prc w) (close_exc (prc w)) (tab (prc w))) = w.
Proof. destruct w as [p h]. by destruct p. Qed.

Lemma inv_pc x s c' :
  psys_inv x s →
  pc_cmds c' = pc_cmds (pc s) → in_hand c' = in_hand (pc s) → seen_stop c' = seen_stop (pc s) →
  (pc s = PExit → c' = PExit) → psys_inv x (put s (wld s) c').
Proof.
  intros Hi Ec Eh Es Ex. rewrite <- (set_prc_id (wld s)). apply (inv_tab x x); try done. apply (pi_table _ _ _ Hi).
Qed.

(** The table changes, and references it held are dropped. *)
Lemma inv_tab_drop mem x l s e t :
  psys_inv x s → owned self s → (∃ ag, table_ok t ag) →
  x ++ table_refs (tab (prc (wld s))) ++ exc_ref (close_exc (prc (wld s))) ≡ₚ
    l ++ table_refs t ++ exc_ref e →
  (∀ id, view (tab (prc (wld s))) id = None → view t id = None) →
  ∃ w, decref_all self mem (set_prc (wld s) (set_tab (prc (wld s)) e t)) l = Done w ∧
    psys_inv [] (put s w (pc s)) ∧ (∀ c, owned self (put s w c)) ∧ tab (prc w) = t ∧ close_exc (prc w) = e ∧
    keeps (ob (wld s)) (ob w).
Proof.
  intros Hi Ha Ht Hr Hv.
  set (s1 := put s (set_prc (wld s) (set_tab (prc (wld s)) e t)) (pc s)).
  assert (psys_inv (l ++ []) s1) as Hi1 by (rewrite app_nil_r; by apply (inv_tab x)).
  destruct (inv_decref self mem l [] s1 Hi1) as (w & E & Hi2 & Ho2 & [Hk Hp]).
  - by apply owned_put.
  - exists w. do 3 (split; [done|]). by destruct (pushes_same _ _ Hp) as (-> & -> & _).
Qed.

(** ** Steps that only move on *)

Lemma pstep_clock s now : psys_ok self s → proc_enabled self (LClock now) s → proc_steps (LClock now) s.
Proof.
  intros [Hi _] Hpc. cbn in Hpc. unfold proc_steps, proc_exec. cbn [by_worker]. unfold proc_worker_exec.
  rewrite (not_freed [] s Hi), Hpc by (by rewrite Hpc). eexists. split; [done|].
  split; [by apply inv_pc; rewrite ?Hpc|done].
Qed.

Lemma pstep_wake s : psys_ok self s → proc_enabled self LWake s → proc_steps LWake s.
Proof.
  intros [Hi _] (until & Hpc & _). unfold proc_steps, proc_exec. cbn [by_worker]. unfold proc_worker_exec.
  rewrite (not_freed [] s Hi), Hpc by (by rewrite Hpc). eexists. split; [done|].
  split; [by apply inv_pc; rewrite ?Hpc|done].
Qed.

Lemma pstep_sleep s now cmd_now :
  psys_ok self s → proc_enabled self (LSleep now cmd_now) s → proc_steps (LSleep now cmd_now) s.
Proof.
  intros [Hi _] [Hpc Hclk]. unfold proc_steps, proc_exec. cbn [by_worker]. unfold proc_worker_exec.
  rewrite (not_freed [] s Hi), Hpc by (by rewrite Hpc). unfold sleep_step.
  assert (∀ c', c' = PTop ∨ (∃ u, c' = PWait u) → psys_ok self (put s (wld s) c')) as Hgo.
  { intros c' Hc'. split; [apply inv_pc; rewrite ?Hpc; try done|]; by destruct Hc' as [->|[u ->]]. }
  destruct (pi_table _ _ _ Hi) as [ag Ht]. pose proof (sa_seg _ _ (to_sched _ _ Ht)) as Hseg.
  destruct (t_head _) as [ch|]; [|eexists; split; [done|]; apply Hgo; right; by eexists].
  destruct ag as [|x ag]; [done|]. destruct Hseg as (Ech & c & Hc & _). injection Ech as ->.
  rewrite (rd_chan_at _ _ _ Hc). cbn [mbind outcome_bind].
  destruct (_ <=? now); [eexists; split; [done|]; apply Hgo; by left|].
  unfold monotonic_deadline_to_cmd_clock. destruct (cmd_cv_clock _), cmd_now as [cn|]; try done;
    cbn [mbind outcome_bind]; (eexists; split; [done|]; apply Hgo; right; by eexists).
Qed.

Lemma pstep_detach s : psys_ok self s → proc_enabled self LDetach s → proc_steps LDetach s.
Proof.
  intros [Hi _] Hpc. cbn in Hpc. unfold proc_steps, proc_exec. cbn [by_worker]. unfold proc_worker_exec.
  assert (freed s = false) as Hf by (apply (not_freed [] s Hi); by rewrite Hpc).
  rewrite Hf, Hpc. pose proof Hi as [Hm Hs Hc Ht Hn Hb Hw Hcn Hcl]. unfold detach_commands.
  destruct (ct_init _ _ _ _ Hc Hf) as (-> & _). cbn [negb]. eexists. split; [done|].
  set (p := set_cmd _ _ _ []).
  assert (queue p (next_cmd (cmds (prc (wld s))) false) = queue (prc (wld s)) (pc s)) as Hq.
  { rewrite queue_next, Hpc. cbn. by rewrite app_nil_r. }
  split; [|apply pc_ok_next].
  constructor; cbn [wld put pc joining freed pend prc set_prc]; try done.
  - apply (mem_ok_prc self (wld s)). unfold roots in *. cbn [wld put pc prc set_prc held]. by rewrite Hq.
  - destruct Hc as [H1 H2 H3 H4 H5 H6]. constructor; try done.
    + rewrite Hq, seen_next. by rewrite Hpc in H3 |- *.
    + intros Hr. specialize (H4 Hr). congruence.
    + congruence.
  - destruct Hn as [H1 H2 H3 H4 H5 H6]. by constructor; rewrite ?Hq.
  - unfold waited in *. cbn [wld put pc prc set_prc]. rewrite Hq, hand_next. by rewrite Hpc in Hw |- *.
Qed.

(** ** The loop over what is due *)

Lemma same_refs t t' i c d :
  t_chans t !! i = Some c → erase t' = <[i := d]> (erase t) → chan_refs d = chan_refs c →
  table_refs t' ≡ₚ table_refs t.
Proof.
  intros Hc He Hd. pose proof (replaced_refs _ _ _ _ _ Hc He) as Hp. rewrite Hd in Hp.
  apply (Permutation_app_inv_l (chan_refs c)). by rewrite <- Hp, Permutation_app_comm.
Qed.

Lemma ok_asked s w c a :
  psys_ok self (put s w c) →
  psys_ok self {| wld := w; pc := c; pend := pend s; joining := joining s; held := held s;
                asked := a; freed := freed s |}.
Proof. intros [[H1 H2 H3 H4 H5 H6 H7 H8' H9'] H8]. split; [by constructor|done]. Qed.

Lemma pstep_pop s : psys_ok self s → proc_enabled self LPop s → proc_steps LPop s.
Proof.
  intros [Hi _] [now Hpc]. unfold proc_steps, proc_exec. cbn [by_worker]. unfold proc_worker_exec.
  rewrite (not_freed [] s Hi), Hpc by (by rewrite Hpc). unfold pop_step, set_table.
  destruct (pi_table _ _ _ Hi) as [ag Ht].
  assert (∀ t c', (∃ ag, table_ok t ag) → pc_ok t c' → pc_cmds c' = [] → in_hand c' = [] →
    seen_stop c' = false → table_refs t ≡ₚ table_refs (tab (prc (wld s))) →
    (∀ id, view (tab (prc (wld s))) id = None → view t id = None) →
    psys_ok self (put s (set_prc (wld s) (set_tab (prc (wld s)) (close_exc (prc (wld s))) t)) c')) as Hgo.
  { intros t c' Htt Hpc' E1 E2 E3 Hr Hv. split; [|done]. apply (inv_tab []); rewrite ?Hpc; try done. by rewrite Hr. }
  destruct (match ag with [] => false | x :: _ => x.1 <=? now end) eqn:Hdue.
  - destruct ag as [|[ns i] ag]; [done|]. cbn in Hdue. zbool.
    destruct (pop_table_ok _ ns i ag now Ht Hdue)
      as (t' & c & cb & -> & Ht' & Hc & Hs & Ha & Hcb & _ & _ & _ & d & Hd & He).
    cbn [mbind outcome_bind]. rewrite (rd_chan_at _ _ _ Hc). cbn [mbind outcome_bind]. rewrite Ha, Hcb.
    eexists. split; [done|]. apply ok_asked. apply Hgo; try done; [by exists ag|by exists i, c, cb|..].
    + by apply (same_refs _ _ _ _ _ Hd He).
    + intros id. by apply (replaced_view _ _ _ _ _ id Hd He).
  - assert (pop_due ag now = (None, ag)) as Hp by (destruct ag as [|x ag]; [done|]; cbn in *; zbool; by zdec).
    rewrite (pop_due_none _ _ _ (to_sched _ _ Ht) Hp). cbn [mbind outcome_bind].
    eexists. split; [done|]. apply Hgo; try done. by exists ag.
Qed.

(** ** The return of a callback *)

Lemma take_all_perm l hl r : take_all l hl = Some r → hl ≡ₚ l ++ r ∧ r = foldr remove_one hl l.
Proof.
  revert r. induction l as [|a l IH]; intros r; cbn; [by intros [= <-]|].
  destruct (take_all l hl) as [r'|]; [|done]. destruct (IH r' eq_refl) as [Hp ->].
  case_bool_decide as Hin; [|done]. intros [= <-]. split; [|done].
  pose proof (remove_one_perm a _ Hin). perm_count.
Qed.

(** References of the program go to a function. *)
Lemma inv_hand x l s :
  psys_inv x s → is_Some (take_all l (held s)) →
  psys_inv (l ++ x) (put_held s (wld s) (foldr remove_one (held s) l)).
Proof.
  intros [H1 H2 H3 H4 H5 H6 H7 H8' H9'] [r Hr]. destruct (take_all_perm _ _ _ Hr) as [Hp <-].
  constructor; try done. eapply mem_ok_perm; [|exact H1]. unfold roots. cbn [held put_held wld pc].
  change (pend_refs self (put_held _ _ _)) with (pend_refs self s).
  change (join_refs self (put_held _ _ _)) with (join_refs self s).
  rewrite Hp. generalize (held s), (pend_refs self s), (join_refs self s), (queue_refs (queue (prc (wld s)) (pc s))),
    (table_refs (tab (prc (wld s)))), (exc_ref (close_exc (prc (wld s)))).
  intros a b c d e f. perm_count.
Qed.

Lemma remove_one_other a b l : a ∈ l → a ≠ b → a ∈ remove_one b l.
Proof.
  intros Ha Hne. destruct (decide (b ∈ l)) as [Hb|Hb].
  - rewrite (remove_one_perm b l Hb) in Ha. by apply elem_of_cons in Ha as [?|?].
  - clear Hne. revert Ha Hb. induction l as [|c l IH]; [done|]. cbn. intros Ha [Hbc Hb]%not_elem_of_cons.
    rewrite (proj2 (Z.eqb_neq c b)) by done. apply elem_of_cons in Ha as [->|Ha]; [by left|right; by apply IH].
Qed.

(** An exception is not what keeps the scheduler. *)
Lemma owned_raise x s res :
  psys_inv x s → owned self s →
  (∀ e, res = Failed (Some e) →
     exc_value e ∈ held s ∧ ∃ cause, py_read (ob (wld s)) (exc_value e) = Done (OExc cause)) →
  is_Some (take_all (raised res) (held s)) ∧
  owned self (put_held s (wld s) (foldr remove_one (held s) (raised res))).
Proof.
  intros Hi Ho He. destruct res as [?|[e|]]; cbn [raised exc_ref opt_list fmap option_fmap option_map foldr take_all];
    [by split; [eexists|destruct s]| |by split; [eexists|destruct s]].
  destruct (He e eq_refl) as (Hin & cause & Hr). rewrite bool_decide_eq_true_2 by done. split; [by eexists|].
  destruct Ho as [Hj|(a & Ha & Hor)]; [by left|right]. exists a. split; [|done]. cbn [held put_held].
  change (pend_refs self (put_held _ _ _)) with (pend_refs self s).
  change (join_refs self (put_held _ _ _)) with (join_refs self s).
  rewrite !elem_of_app in Ha |- *. destruct Ha as [Ha|Ha]; [left|by right].
  apply remove_one_other; [done|]. intros ->. destruct Hor as [E|(ch & Hch & _)].
  - pose proof (pi_self _ _ _ Hi) as Hs. rewrite E in Hr. destruct (serving s); [congruence|].
    unfold py_read in Hr. by rewrite Hs in Hr.
  - unfold channel_at in Hch. congruence.
Qed.

(** An exception kept before gives way to a new one. *)
Definition old_exc (c : proc_channel_state) (res : call_res) : list Z :=
  match res with Failed (Some _) => exc_ref (ch_cb_exc c) | _ => [] end.

Lemma settle_eq mem w ch f res c t :
  rd_chan (tab (prc w)) ch = Done c → f (tab (prc w)) = Done t →
  settle self mem w ch f res =
  decref_all self mem (set_table w t) (old_exc c res).
Proof.
  intros Hc Hf. unfold settle, set_table at 2. rewrite decref_all_tab.
  set (old := old_exc c res).
  assert (match res with
          | Failed (Some _) => c ← rd_chan (tab (prc w)) ch; py_exc_info_clear self mem w (ch_cb_exc c)
          | _ => Done w end = decref_all self mem w old) as ->.
  { unfold old, old_exc. destruct res as [?|[?|]]; rewrite ?decref_all_nil; try done. by rewrite Hc. }
  destruct (decref_all self mem w old) as [w'| | |] eqn:E; try done. cbn [mbind outcome_bind].
  apply decref_all_pushes in E. destruct (pushes_same _ _ E) as (-> & Ee & _). rewrite Hf.
  cbn [mbind outcome_bind]. unfold set_table. by rewrite Ee.
Qed.

(** What the function that puts the channel back does, for either call site. *)
Definition settles (f : table → outcome table) (t : table) (i : nat) (res : call_res) : Prop :=
  ∃ ns, f t = match res with
              | Failed exc => keep_exception t (chan_at t i) exc
              | Wants None => Done t
              | Wants (Some _) => schedule_channel t (chan_at t i) ns
              end.

Lemma settle_step mem s i c cb f res :
  psys_inv (raised res) s → owned self s → t_chans (tab (prc (wld s))) !! i = Some c →
  ch_active c = true → ch_scheduled c = false → ch_proc_in_cb c = Some cb →
  settles f (tab (prc (wld s))) i res →
  ∃ w, settle self mem (wld s) (chan_at (tab (prc (wld s))) i) f res = Done w ∧
    psys_inv [] (put s w (pc s)) ∧ ∀ c, owned self (put s w c).
Proof.
  intros Hi Ho Hc Ha Hs Hcb [ns Hf]. destruct (pi_table _ _ _ Hi) as [ag Ht].
  destruct (settle_ok _ ag i c cb res ns Ht Hc Hs Ha Hcb)
    as (t & ag' & d & Hset & Ht' & He & Had & Hid & Hcbd & Hvd & _).
  rewrite (settle_eq mem _ _ _ _ c t) by (by rewrite ?(rd_chan_at _ _ _ Hc) || by rewrite Hf).
  destruct (inv_tab_drop mem (raised res) (old_exc c res) s
    (close_exc (prc (wld s))) t) as (w & E & Hi' & Ho' & _); [done|done|by exists ag'|..].
  - pose proof (replaced_refs _ _ _ _ _ Hc He) as Hp. revert Hp.
    rewrite !view_of_refs, Hvd. unfold view_of. rewrite Hcb, Hs. cbn [fst snd].
    generalize (table_refs t), (table_refs (tab (prc (wld s)))), (exc_ref (close_exc (prc (wld s)))).
    intros a b e Hp. unfold old_exc.
    destruct res as [[?|]|[?|]]; cbn [fst snd raised] in *; change (exc_ref None) with (@nil Z); perm_count.
  - intros id. apply (replaced_view _ _ _ _ _ id Hc He). unfold has_id. by rewrite Had, Hid, Ha.
  - exists w. by split.
Qed.

Lemma pstep_return s o now mem :
  psys_ok self s → proc_enabled self (LReturn o now mem) s → proc_steps (LReturn o now mem) s.
Proof.
  intros [Hi Hpok] ((ch & site & Hpc) & _ & Ho & He). unfold proc_steps, proc_exec. cbn [by_worker].
  unfold proc_worker_exec. rewrite (not_freed [] s Hi), Hpc by (by rewrite Hpc).
  rewrite Hpc in Hpok. destruct Hpok as (i & c & cb & -> & Hc & Ha & Hs & Hcb & Hadd).
  destruct (owned_raise [] s _ Hi Ho He) as [Htk Ho1]. pose proof (inv_hand [] _ _ Hi Htk) as Hi1.
  rewrite app_nil_r in Hi1. unfold return_step. set (res := call_result o) in *.
  set (s1 := put_held s _ _) in *. change (wld s1) with (wld s).
  destruct site as [start cmd rest seen|].
  - destruct (settle_step mem s1 i c cb (λ t, settle_first t (chan_at (tab (prc (wld s))) i) start res) res)
      as (w & E & Hi2 & Ho2); [done..| |].
    { exists (first_time start res). apply settle_first_eq. }
    change (wld s1) with (wld s) in E. rewrite E. cbn [mbind outcome_bind].
    pose proof (inv_next_call self [] (put s1 w (pc s1)) _ start cmd rest seen 0 Hi2 Hpc) as Hi3.
    specialize (Hi3 ltac:(by destruct Hadd as [? ->])).
    rewrite (goes_ok (raised res) [] s1) by done. eexists. split; [done|]. split; [done|apply pc_ok_next].
  - destruct (settle_step mem s1 i c cb (λ t, settle_due t (chan_at (tab (prc (wld s))) i) res) res)
      as (w & E & Hi2 & Ho2); [done..| |].
    { eexists. by apply (settle_due_eq _ _ _ _ Hc). }
    change (wld s1) with (wld s) in E. rewrite E. cbn [mbind outcome_bind].
    assert (psys_inv [] (put s1 w (PDue now))) as Hi3.
    { change (put s1 w (PDue now)) with (put (put s1 w (pc s1)) (wld (put s1 w (pc s1))) (PDue now)).
      apply inv_pc; [done|..]; change (pc (put s1 w (pc s1))) with (pc s); by rewrite Hpc. }
    rewrite (goes_ok (raised res) [] s1) by done. eexists. split; [done|]. by split.
Qed.

(** ** Commands *)

(** The channel is in use and its callback is called. *)
Lemma inv_enter s now id cb waits rest seen t ch i :
  psys_inv [] s → pc s = PCmds (CMD_ADD_CHANNEL id cb waits) rest seen →
  (∃ ag, table_ok t ag) → ch = chan_at t i → t_chans t !! i = Some (claimed id cb) →
  claims (tab (prc (wld s))) t i id cb →
  psys_ok self (put s (set_table (wld s) t)
                  (PCall ch (FirstCall now (CMD_ADD_CHANNEL id cb waits) rest seen))).
Proof.
  intros [Hm Hs Hc [ag Ht] Hn Hb Hw Hcn Hcl] Hpc [ag' Ht'] -> Hch Hclaim.
  set (p := prc (wld s)) in *. set (c' := PCall _ _).
  assert (queue p (pc s) = CMD_ADD_CHANNEL id cb waits :: rest ++ cmds p) as Hq by by rewrite Hpc.
  assert ((∀ id', id' ≠ id → view t id' = view (tab p) id') ∧ view t id = Some (view_of (claimed id cb))) as [Hne Heq].
  { apply (claims_view (tab p) ag t ag' i (claimed id cb) id cb t ag'); try done.
    by rewrite (list_insert_id (erase t) i) by (by apply (erase_lookup t i (claimed id cb))). }
  split; [|by exists i, (claimed id cb), cb; split_and!; [..|by exists waits]].
  constructor; cbn [wld put pc joining freed pend prc set_prc set_table]; try done.
  - apply (mem_ok_prc self (wld s)). unfold roots in *. cbn [wld put pc prc set_prc set_table held tab close_exc set_tab].
    cbn zeta in Hm. fold p in Hm |- *. rewrite Hq in Hm. change (queue_refs (_ :: ?l)) with (cb :: queue_refs l) in Hm.
    change (queue_refs (queue _ c')) with (queue_refs (rest ++ cmds p)).
    change (pend_refs self (put _ _ _)) with (pend_refs self s).
    change (join_refs self (put _ _ _)) with (join_refs self s).
    eapply mem_ok_perm; [|exact Hm]. pose proof (claims_refs _ _ _ _ _ Hclaim) as Hr. fold p in Hr.
    revert Hr. generalize (table_refs t), (table_refs (tab p)), (queue_refs (rest ++ cmds p)). intros a b q Hr.
    perm_count.
  - apply ctl_tab. apply (ctl_advance p (CMD_ADD_CHANNEL id cb waits) (rest ++ cmds p) _ _ (pc s)); try done; by rewrite Hpc.
  - by exists ag'.
  - destruct Hn as [H1 H2 H3 H4 H5 H6]. rewrite Hq in *. cbn in H1. apply NoDup_cons in H1 as [Hni Hnd].
    change (queue (set_tab p (close_exc p) t) c') with (rest ++ cmds p).
    assert (id ∈ add_ids (CMD_ADD_CHANNEL id cb waits :: rest ++ cmds p)) as Hin by by left.
    constructor; try done; change (queue (set_tab p (close_exc p) t) c') with (rest ++ cmds p); cbn [tab set_tab].
    + intros id' Hid'. rewrite Hne by (intros ->; done). apply H2. by right.
    + intros id' [Hid'|Hid']; apply H3; [left; by right|]. destruct (decide (id' = id)) as [->|Hd]; [by left|].
      right. by rewrite <- Hne.
    + intros id' Hid'. destruct (H5 id' Hid') as (? & Hni' & ?). split; [done|].
      cbn in Hni'. apply not_elem_of_cons in Hni' as [Hd ?]. split; [done|]. by rewrite Hne.
    + by apply Forall_cons in H6 as [_ ?].
  - unfold waited in *. fold p in Hw. cbn [wld put pc prc set_prc set_table]. rewrite Hq, Hpc in Hw. exact Hw.
  - intros ow a d Hpe Ha Hd. exfalso. rewrite Hpe in Hw. destruct Hw as (d' & Ha' & _ & Hw).
    pose proof (no_waits _ _ Hn) as Hwt. unfold waited in Hw. fold p in Hw, Hd. rewrite Hq in Hwt. rewrite Hq, Hpc in Hw.
    apply Forall_cons in Hwt as [Hwt _]. cbn in Hwt. subst waits. 
    change (cmd_waiter (set_tab _ _ _)) with (cmd_waiter p) in Hd. by rewrite Hd in Hw.
Qed.

Lemma steal_eq mem w e :
  proc_set_close_exception_steal self mem w e =
  decref_all self mem (set_close w e) (exc_ref (close_exc (prc w))).
Proof.
  unfold proc_set_close_exception_steal, py_exc_info_clear, set_close at 2. rewrite decref_all_tab.
  destruct (decref_all _ _ _ _) as [w'| | |] eqn:E; try done. cbn [mbind outcome_bind].
  apply decref_all_pushes in E. destruct (pushes_same _ _ E) as (Et & _). unfold set_close. by rewrite Et.
Qed.

(** The channel goes, its callable goes, its exception goes or is handed over. *)
Lemma remove_step mem s id waits :
  psys_inv [] s → owned self s →
  ∃ w, remove_command self mem (wld s) id waits = Done w ∧ psys_inv [] (put s w (pc s)) ∧
    view (tab (prc w)) id = None.
Proof.
  intros Hi Ho. destruct (pi_table _ _ _ Hi) as [ag Ht].
  destruct (remove_ok _ ag id Ht) as (found & exc & t & ag' & Er & Ht' & _ & Hexc & _ & Hv & Hne & He).
  pose proof (removed_refs _ _ _ _ He Hexc) as Hr. unfold remove_command, drop_channel. rewrite Er.
  cbn [mbind outcome_bind]. set (cb := callback_of _ _) in *.
  set (s1 := put s (set_table (wld s) t) (pc s)).
  assert (psys_inv (opt_list cb ++ exc_ref exc) s1) as Hi1.
  { apply (inv_tab []); try done; [by exists ag'| |].
    - revert Hr. generalize (table_refs t), (table_refs (tab (prc (wld s)))), (exc_ref exc), (opt_list cb),
        (exc_ref (close_exc (prc (wld s)))). intros a b d e f Hr. perm_count.
    - intros id' Hid'. destruct (decide (id' = id)) as [->|Hd]; [done|]. by rewrite Hne. }
  destruct (inv_decref self mem _ _ s1 Hi1 (owned_put s _ (pc s) Ho eq_refl)) as (w1 & E & Hi2 & Ho2 & [_ Hp]).
  unfold py_xdecref_on_worker. change (wld s1) with (set_table (wld s) t) in E. rewrite E. cbn [mbind outcome_bind].
  change (put s1 w1 (pc s1)) with (put s w1 (pc s)) in Hi2.
  destruct (pushes_same _ _ Hp) as (Et & _). change (tab (prc (wld s1))) with t in Et.
  destruct (waits && has exc).
  - rewrite steal_eq. unfold set_close.
    destruct (inv_tab_drop mem (exc_ref exc) (exc_ref (close_exc (prc w1))) (put s w1 (pc s)) exc (tab (prc w1)))
      as (w & E' & Hi3 & _ & Et' & _); [done|apply (Ho2 (pc s))|apply (pi_table _ _ _ Hi2)| |done|].
    { cbn [wld put]. generalize (exc_ref exc), (table_refs (tab (prc w1))), (exc_ref (close_exc (prc w1))).
      intros a b d. perm_count. }
    exists w. split; [done|]. split; [done|]. by rewrite Et', Et.
  - rewrite <- (app_nil_r (exc_ref exc)) in Hi2.
    destruct (inv_decref self mem _ _ _ Hi2 (Ho2 (pc s))) as (w & E' & Hi3 & _ & [_ Hp']).
    exists w. split; [done|]. split; [done|]. destruct (pushes_same _ _ Hp') as (Et' & _).
    cbn [wld put] in Et'. by rewrite Et', Et.
Qed.

(** The last command tells the worker to stop. *)
Lemma inv_seen s rest seen :
  psys_inv [] s → pc s = PCmds CMD_SHUTDOWN rest seen → psys_inv [] (put s (wld s) (next_cmd rest true)).
Proof.
  intros [Hm Hs Hc Ht Hn Hb Hw Hcn Hcl] Hpc. set (p := prc (wld s)) in *.
  assert (queue p (pc s) = CMD_SHUTDOWN :: rest ++ cmds p) as Hq by by rewrite Hpc.
  pose proof (ct_stop _ _ _ _ Hc) as Hst. fold p in Hst. rewrite Hq, Hpc in Hst. cbn [seen_stop] in Hst.
  destruct (shutdown_queued p) eqn:Eq.
  2:{ destruct Hst as [_ [? _]%not_elem_of_cons]. done. }
  destruct seen; [done|]. destruct Hst as ([|d l] & E & Hn'); [|injection E as <- _; by apply not_elem_of_cons in Hn' as [? _]].
  injection E as E.
  assert (queue p (next_cmd rest true) = []) as Hq' by by rewrite queue_next.
  constructor; cbn [wld put pc joining freed pend]; try done; fold p.
  - eapply mem_ok_perm; [|exact Hm]. unfold roots. cbn [wld put pc held]. fold p. rewrite Hq, Hq', E. done.
  - destruct Hc as [H1 H2 H3 H4 H5 H6]. constructor; try done.
    + fold p. by rewrite Eq, seen_next.
    + intros Hr. specialize (H4 Hr). congruence.
    + intros Hf. destruct (H6 Hf). congruence.
  - destruct Hn as [H1 H2 H3 H4 H5 H6]. fold p in H1, H2, H3. rewrite Hq, E in *. by constructor; rewrite ?Hq'.
  - unfold waited in *. cbn [wld put pc]. fold p in Hw |- *. rewrite hand_next, Hq'. rewrite Hpc in Hw. cbn in Hw.
    rewrite E in Hw. exact Hw.
Qed.

Lemma pstep_cmd s realloc now mem :
  psys_ok self s → proc_enabled self (LCmd realloc now mem) s → proc_steps (LCmd realloc now mem) s.
Proof.
  intros [Hi _] ((cmd & rest & seen & Hpc) & Hlen & Ho). unfold proc_steps, proc_exec. cbn [by_worker].
  unfold proc_worker_exec. rewrite (not_freed [] s Hi), Hpc by (by rewrite Hpc). unfold command_step.
  destruct cmd as [id cb waits|id waits|].
  - destruct (pi_table _ _ _ Hi) as [ag Ht].
    destruct (claim_ok realloc _ ag id cb Ht) as (r & t & ag' & -> & Ht' & Hr); [|done|].
    { apply (no_new _ _ (pi_numbers _ _ _ Hi)). rewrite Hpc. by left. }
    cbn [mbind outcome_bind]. destruct r as [ch|].
    + destruct Hr as (i & -> & Hc & Hcl). eexists. split; [done|]. apply ok_asked.
      eapply (inv_enter s now id cb waits rest seen t); try done. by exists ag'.
    + subst t. pose proof (inv_next_cmd self [] s _ _ _ ENOMEM Hi Hpc) as Hi1. cbn [cmd_waits cmd_refs] in Hi1.
      unfold set_table. rewrite set_prc_id. cbn [free_command]. unfold py_xdecref_on_worker.
      destruct (inv_decref self mem [cb] [] _ (Hi1 ltac:(done) ltac:(done))) as (w & E & Hi2 & _).
      { apply owned_put; [done|]. by rewrite complete_prc. }
      cbn [wld put] in E. cbn [opt_list]. rewrite E. cbn [mbind outcome_bind].
      change (put (put s ?w0 ?c) w (pc (put s ?w0 ?c))) with (put s w (next_cmd rest seen)) in Hi2.
      rewrite (goes_ok [] [] s) by done. eexists. split; [done|]. split; [done|apply pc_ok_next].
  - destruct (remove_step mem s id waits Hi Ho) as (w & -> & Hi1 & Hv). cbn [mbind outcome_bind].
    pose proof (inv_next_cmd self [] (put s w (pc s)) _ _ _ 0 Hi1 Hpc) as Hi2.
    specialize (Hi2 ltac:(done) ltac:(by intros ? [= <- _])). cbn [cmd_refs app cmd_waits wld put] in Hi2.
    rewrite (goes_ok [] [] s) by done. eexists. split; [done|]. split; [done|apply pc_ok_next].
  - eexists. split; [done|]. split; [by apply (inv_seen s rest seen)|apply pc_ok_next].
Qed.

(** ** The end of the worker *)

Lemma empty_ok : table_ok empty_table [].
Proof. constructor; [apply empty_table_ok|done|]. intros i j c d Hc. by destruct i. Qed.

(** Slots out of use hold nothing. *)
Lemma inactive_refs t ag :
  table_ok t ag → (∀ j c, t_chans t !! j = Some c → ch_active c = false) → table_refs t = [].
Proof.
  intros Ht Hall. rewrite table_refs_erase. unfold slot_refs.
  assert (Forall (λ c, c = zero_channel) (erase t)) as Hz.
  { apply Forall_lookup. intros j c Hc. apply (slot_inactive (erase t) j); [apply (to_slots _ _ Ht)|done|].
    apply list_lookup_fmap_Some in Hc as (d & -> & Hd). by rewrite <- (Hall j d Hd). }
  induction Hz as [|c l -> _ IH]; [done|]. exact IH.
Qed.

Lemma release_step mem s i c :
  psys_inv [] s → owned self s → t_chans (tab (prc (wld s))) !! i = Some c → ch_active c = true →
  ∃ w t, release_channel self mem (wld s) (chan_at (tab (prc (wld s))) i) = Done w ∧
    psys_inv [] (put s w (pc s)) ∧ tab (prc w) = t ∧
    erase t = <[i := zero_channel]> (erase (tab (prc (wld s)))).
Proof.
  intros Hi Ho Hc Ha. destruct (pi_table _ _ _ Hi) as [ag Ht]. unfold release_channel.
  rewrite (rd_chan_at _ _ _ Hc). cbn [mbind outcome_bind]. rewrite Ha. cbn [negb].
  destruct (release_ok _ ag i c (to_sched _ _ Ht) Hc) as (t & -> & Hsch & _ & _ & He). rewrite Ha in He.
  cbn [mbind outcome_bind].
  pose proof (erase_lookup _ _ _ Hc) as Hec.
  assert (table_ok t (cancel i ag)) as Ht'.
  { constructor; [done|..]; rewrite He.
    - apply Forall_insert; [apply (to_slots _ _ Ht)|done].
    - by apply (ids_insert _ _ _ _ (to_ids _ _ Ht) Hec). }
  pose proof (replaced_refs _ _ _ _ _ Hc He) as Hr. change (chan_refs zero_channel) with (@nil Z) in Hr.
  set (s1 := put s (set_table (wld s) t) (pc s)).
  assert (psys_inv (opt_list (ch_proc_in_cb c) ++ exc_ref (ch_cb_exc c)) s1) as Hi1.
  { apply (inv_tab []); try done; [by exists (cancel i ag)| |].
    - unfold chan_refs in Hr. revert Hr. generalize (table_refs t), (table_refs (tab (prc (wld s)))),
        (exc_ref (ch_cb_exc c)), (opt_list (ch_proc_in_cb c)), (exc_ref (close_exc (prc (wld s)))).
      intros a b d e f Hr. perm_count.
    - intros id. by apply (replaced_view _ _ _ _ _ id Hc He). }
  destruct (inv_decref self mem _ _ s1 Hi1 (owned_put s _ (pc s) Ho eq_refl)) as (w1 & E & Hi2 & Ho2 & [_ Hp]).
  unfold py_xdecref_on_worker. change (wld s1) with (set_table (wld s) t) in E. rewrite E. cbn [mbind outcome_bind].
  rewrite <- (app_nil_r (exc_ref _)) in Hi2.
  destruct (inv_decref self mem _ _ _ Hi2 (Ho2 (pc s))) as (w & E' & Hi3 & _ & [_ Hp']).
  exists w, t. split; [done|]. split; [done|]. split; [|done].
  destruct (pushes_same _ _ Hp') as (-> & _). cbn [wld put]. by destruct (pushes_same _ _ Hp) as (-> & _).
Qed.

(** The array goes, and the worker is at its end. *)
Lemma inv_exit s i p :
  psys_ok self s → pc s = PClear i → (length (t_chans (tab (prc (wld s)))) ≤ i)%nat →
  p = set_cmd (prc (set_table (wld s) empty_table)) (cmd_waiter_busy (prc (wld s))) (cmd_waiter (prc (wld s))) [] →
  psys_ok self (put s (set_prc (wld s) p) PExit).
Proof.
  intros [Hi Hpok] Hpc Hlen ->. rewrite Hpc in Hpok. cbn in Hpok. pose proof Hi as [Hm Hs Hc [ag Ht] Hn Hb Hw Hcn Hcl].
  assert (table_refs (tab (prc (wld s))) = []) as Hr.
  { apply (inactive_refs _ ag Ht). intros j c Hj. apply (Hpok j c); [|done].
    pose proof (lookup_lt_Some _ _ _ Hj). lia. }
  assert (cmds (prc (wld s)) = []) as Hq.
  { pose proof (ct_stop _ _ _ _ Hc) as Hst. rewrite Hpc in Hst. cbn in Hst.
    destruct (shutdown_queued _); [done|by destruct Hst]. }
  set (p := set_cmd _ _ _ []). assert (p = set_tab (prc (wld s)) (close_exc (prc (wld s))) empty_table) as ->.
  { unfold p, set_cmd, set_table, set_tab. cbn. by rewrite Hq. }
  split; [|done]. apply (inv_tab []); rewrite ?Hpc; try done; [by exists []; apply empty_ok|].
  by rewrite Hr.
Qed.

Lemma inv_cleared s w i :
  pc s = PClear i → psys_inv [] (put s w (pc s)) →
  (∀ j c, (j < S i)%nat → t_chans (tab (prc w)) !! j = Some c → ch_active c = false) →
  psys_ok self (put s w (PClear (S i))).
Proof.
  intros Hpc Hiw Hj. split; [|done].
  change (put s w (PClear (S i))) with (put (put s w (pc s)) (wld (put s w (pc s))) (PClear (S i))).
  apply inv_pc; [done|..]; change (pc (put s w (pc s))) with (pc s); by rewrite Hpc.
Qed.

(** One slot. *)
Lemma clear_slot mem s i :
  psys_ok self s → owned self s → pc s = PClear i → (i < length (t_chans (tab (prc (wld s)))))%nat →
  ∃ w, release_channel self mem (wld s) (chan_at (tab (prc (wld s))) i) = Done w ∧
    psys_ok self (put s w (PClear (S i))).
Proof.
  intros [Hi Hpok] Ho Hpc El. rewrite Hpc in Hpok. cbn in Hpok.
  destruct (lookup_lt_is_Some_2 _ _ El) as [c Hc]. destruct (ch_active c) eqn:Ha.
  - destruct (release_step mem s i c Hi Ho Hc Ha) as (w & t & -> & Hi' & Et & He).
    exists w. split; [done|]. apply inv_cleared; [done..|]. rewrite Et. intros j d Hj Hd.
    pose proof (erase_lookup _ _ _ Hd) as Hd'.
    rewrite He, list_lookup_insert in Hd'. case_decide as Hij; [by destruct d; injection Hd'; intros; subst|].
    apply erase_inv in Hd' as (e & He' & Ee). pose proof (Hpok j e) as Hae.
    rewrite erase_length in Hij. destruct d, e; injection Ee; intros; subst. apply Hae; [|done].
    apply not_and_l in Hij as [Hij|Hij]; [lia|]. by apply lookup_lt_Some in Hc.
  - unfold release_channel. rewrite (rd_chan_at _ _ _ Hc). cbn [mbind outcome_bind]. rewrite Ha.
    exists (wld s). split; [done|]. apply inv_cleared; [done|by rewrite put_id|].
    intros j d Hj Hd. destruct (decide (j = i)) as [->|Hne]; [congruence|]. apply (Hpok j d); [lia|done].
Qed.

Lemma pstep_clear s mem : psys_ok self s → proc_enabled self (LClear mem) s → proc_steps (LClear mem) s.
Proof.
  intros Hok ([i Hpc] & Ho). pose proof (po_inv _ _ Hok) as Hi. unfold proc_steps, proc_exec. cbn [by_worker].
  assert (freed s = false) as Hf by (apply (not_freed [] s Hi); by rewrite Hpc).
  unfold proc_worker_exec. rewrite Hf, Hpc. unfold clear_step.
  destruct (i <? length (t_chans (tab (prc (wld s)))))%nat eqn:El.
  - apply Nat.ltb_lt in El. destruct (clear_slot mem s i Hok Ho Hpc El) as (w & -> & Hok').
    cbn [mbind outcome_bind]. rewrite (goes_ok [] [] s); [|done|apply (po_inv _ _ Hok')]. eexists. by split.
  - apply Nat.ltb_ge in El. pose proof (inv_exit s i _ Hok Hpc El eq_refl) as Hok'.
    unfold detach_commands. destruct (ct_init _ _ _ _ (pi_ctl _ _ _ Hi) Hf) as (Hmx & _).
    change (mutex_inited (prc (set_table (wld s) empty_table))) with (mutex_inited (prc (wld s))).
    rewrite Hmx. cbn [negb].
    assert (cmds (prc (wld s)) = []) as Hq.
    { pose proof (ct_stop _ _ _ _ (pi_ctl _ _ _ Hi)) as Hst. rewrite Hpc in Hst. cbn in Hst.
      destruct (shutdown_queued _); [done|by destruct Hst]. }
    change (cmds (prc (set_table (wld s) empty_table))) with (cmds (prc (wld s))). rewrite Hq.
    cbn [free_command_list mbind outcome_bind].
    rewrite (goes_ok [] [] s); [|done|apply (po_inv _ _ Hok')]. eexists. by split.
Qed.
End Steps.
