(* ===== verification/ProcCalls.v ===== *)
(** The program's side of the scheduler of [ProcObj]: objects made, taken and given
    back, and the methods up to where they wait and after it. Each call can be
    made and keeps the invariant of [ProcInv]. *)
From stdpp Require Import prelude list gmap.
From Stdlib Require Import ZArith Lia.
From S2P Require Import Prelude Py RcHeap RcGraph Synth Sync Sched Proc ProcObj ProcInv ProcSteps.
Local Open Scope Z_scope.

Section Calls.
Context `{Rt : !Retired} (self : Z).
Abbreviation psys_inv := (psys_inv self).
Abbreviation psys_ok := (psys_ok self).
Abbreviation proc_steps := (proc_steps self).
Abbreviation roots := (roots self).

(** ** References of the program *)

Definition away (s : psys) : list Z :=
  let p := prc (wld s) in
  pend_refs self s ++ join_refs self s ++ queue_refs (queue p (pc s)) ++
  table_refs (tab p) ++ exc_ref (close_exc p).

Lemma roots_away s : roots s = held s ++ away s.
Proof. done. Qed.

Lemma roots_held s w hl : prc w = prc (wld s) → roots (put_held s w hl) = hl ++ away s.
Proof. intros E. unfold ProcInv.roots, away. cbn [held put_held wld pc]. by rewrite E. Qed.

(** What the program holds, and values of objects, may change; the rest does not. *)
Lemma inv_objects x x' s h hl :
  psys_inv x s →
  mem_ok self (set_ob (wld s) h) (x' ++ roots (put_held s (wld s) hl)) →
  (∀ a, a = self ∨ (∃ ch, channel_at (wld s) a ch) → ∀ o, py_read (ob (wld s)) a = Done o →
     ∃ o', py_read h a = Done o' ∧
       match o with
       | OChannel ch => ∃ ch', o' = OChannel ch' ∧ pch_id ch' = pch_id ch ∧
           ((∃ ow c, pend s = Some (ow, c) ∧ call_chan c = a) → pch_proc_obj ch' = pch_proc_obj ch)
       | _ => o' = o
       end) →
  (ob (wld s) !! self = None → h !! self = None) →
  (∀ a ch, py_read h a = Done (OChannel ch) → pch_id ch < next_channel_id (prc (wld s))) →
  psys_inv x' (put_held s (set_ob (wld s) h) hl).
Proof.
  intros [Hm Hs Hc Ht Hn Hb Hw Hcn Hcl] Hm' Hobj Hnone Hchan.
  constructor; cbn [wld put_held pc joining freed pend prc set_ob]; try done.
  - change (serving (put_held _ _ _)) with (serving s). destruct (serving s); [|by apply Hnone].
    destruct (Hobj self (or_introl eq_refl) _ Hs) as (o' & Hr & ->). done.
  - destruct (pend s) as [[ow c]|] eqn:Ep; [|done]. destruct Hw as (ch & Hch & Hpo & Hw).
    destruct (Hobj (call_chan c)) with (o := OChannel ch) as (o' & Hr & ch' & -> & Hid & Hpo');
      [right; by exists ch|done|].
    exists ch'. split; [done|]. split; [rewrite Hpo' by (by exists ow, c); done|].
    change (waited (put_held _ _ _)) with (waited s). rewrite Hw. destruct c; cbn; by rewrite Hid.
  - intros ow a ch' Hp Ha Hd. rewrite Hp in Hw. destruct Hw as (ch & Hch & _). cbn [call_chan] in Hch.
    destruct (Hobj a) with (o := OChannel ch) as (o' & Hr & ch2 & -> & Hid & _); [right; by exists ch|done|].
    unfold channel_at in Ha. cbn [ob set_ob] in Ha. rewrite Hr in Ha. injection Ha as <-. rewrite Hid.
    by apply (Hcl ow a).
Qed.

Lemma same_objects s h :
  (∀ b v, py_read (ob (wld s)) b = Done v → py_read h b = Done v) →
  ∀ a, a = self ∨ (∃ ch, channel_at (wld s) a ch) → ∀ o, py_read (ob (wld s)) a = Done o →
     ∃ o', py_read h a = Done o' ∧
       match o with
       | OChannel ch => ∃ ch', o' = OChannel ch' ∧ pch_id ch' = pch_id ch ∧
           ((∃ ow c, pend s = Some (ow, c) ∧ call_chan c = a) → pch_proc_obj ch' = pch_proc_obj ch)
       | _ => o' = o
       end.
Proof. intros Hr a _ o Ho. exists o. split; [by apply Hr|]. destruct o; try done. by eexists. Qed.

Lemma ok_of s s' :
  psys_inv [] s' → pc s' = pc s → tab (prc (wld s')) = tab (prc (wld s)) →
  pc_ok (tab (prc (wld s))) (pc s) → psys_ok s'.
Proof. intros Hi Hp Ht Hpok. split; [done|]. by rewrite Hp, Ht. Qed.

Lemma inv_incref x s a :
  psys_inv x s → is_Some (ob (wld s) !! a) →
  ∃ h, py_incref (ob (wld s)) a = Done h ∧ psys_inv (a :: x) (put_held s (set_ob (wld s) h) (held s)) ∧
    ∀ b, py_read h b = py_read (ob (wld s)) b.
Proof.
  intros Hi [c Hc]. destruct (mem_incref self (wld s) _ a (pi_mem _ _ _ Hi)) as (h & E & Hm & Hr); [by exists c|].
  exists h. split; [done|]. split; [|done]. apply (inv_objects x); [done|done| | |].
  - apply same_objects. intros b v. by rewrite Hr.
  - intros Hn. specialize (Hr self). unfold py_read in Hr. rewrite Hn in Hr. by destruct (h !! self).
  - intros b ch. rewrite Hr. apply (pi_ids _ _ _ Hi).
Qed.

Lemma inv_make x s a o :
  psys_inv (fields self o ++ x) s → ob (wld s) !! a = None → a ≠ self →
  (∀ ch, o = OChannel ch → pch_id ch < next_channel_id (prc (wld s))) →
  psys_inv (a :: x) (put_held s (set_ob (wld s) (<[a := {| rc := 1; val := o |}]> (ob (wld s)))) (held s)).
Proof.
  intros Hi Ha Hne Ho. pose proof (pi_mem _ _ _ Hi) as Hm. rewrite <- app_assoc in Hm.
  destruct (mem_make self (wld s) _ a o Hm Ha) as [Hm' Hr].
  apply (inv_objects _ _ _ _ _ Hi); [done|by apply same_objects| |].
  - intros Hn. by rewrite lookup_insert_ne.
  - intros b ch. unfold py_read. destruct (decide (b = a)) as [->|Hb].
    + rewrite lookup_insert_eq. intros [= Hch]. by apply Ho.
    + rewrite lookup_insert_ne by done. apply (pi_ids _ _ _ Hi).
Qed.

(** A function gives what it has in hand to the program. *)
Lemma inv_give x l s : psys_inv (l ++ x) s → psys_inv x (put_held s (wld s) (l ++ held s)).
Proof.
  intros [H1 H2 H3 H4 H5 H6 H7 H8' H9']. constructor; try done. eapply mem_ok_perm; [|exact H1].
  rewrite roots_held by done. rewrite roots_away. cbn [wld put_held].
  generalize (held s), (away s). intros a b. perm_count.
Qed.

Lemma pstep_new s a o : psys_ok s → proc_enabled self (LNew a o) s → proc_steps (LNew a o) s.
Proof.
  intros [Hi Hpok] (Hns & Ha & Htk & Ho). unfold ProcSteps.proc_steps, proc_exec. cbn [by_worker program_exec].
  eexists. split; [done|]. apply (ok_of s); try done.
  pose proof (inv_hand self [] _ _ Hi Htk) as Hi1. 
  apply (inv_make []) with (a := a), (inv_give [] [a]) in Hi1; try done. by intros ch ->.
Qed.

Lemma pstep_take s a : psys_ok s → proc_enabled self (LTake a) s → proc_steps (LTake a) s.
Proof.
  intros [Hi Hpok] Hc. unfold ProcSteps.proc_steps, proc_exec. cbn [by_worker program_exec].
  destruct (inv_incref [] s a Hi Hc) as (h & -> & Hi1 & _).
  cbn [mbind outcome_bind]. eexists. split; [done|]. apply (ok_of s); try done.
  by apply (inv_give [] [a]) in Hi1.
Qed.

(** A callable gets one more thing it refers to. *)
Lemma acyclic_capture h f a c l :
  acyclic (fields self) h → h !! f = Some c → val c = OCallable l →
  (py_read h self = Done OProc ∨ h !! self = None) →
  (a = self ∨ ∃ ch, py_read h a = Done (OChannel ch)) → a ≠ f →
  acyclic (fields self) (<[f := {| rc := rc c; val := OCallable (a :: l) |}]> h).
Proof.
  intros (rank & H) Hf Hv Hs Ha Hne.
  set (low x := if decide (x = self) then Some 0%nat
                else match py_read h x with Done (OChannel _) => Some 1%nat | _ => None end).
  exists (λ x, match low x with Some n => n | None => (rank x + 2)%nat end).
  assert (low self = Some 0%nat) as Hls by (unfold low; by rewrite decide_True).
  assert (∀ b, (match low b with Some n => n | None => rank b + 2 end ≤ rank b + 2)%nat) as Hle.
  { intros b. unfold low. case_decide; [lia|]. destruct (py_read h b) as [[]| | |]; lia. }
  assert (∀ x o, py_read h x = Done o → (match o with OChannel _ | OProc => False | _ => True end) → low x = None) as Hhigh.
  { intros x o Hx Ho. unfold low. case_decide as E; [subst x|rewrite Hx; by destruct o].
    destruct Hs as [Hs|Hs]; [rewrite Hx in Hs; injection Hs as ->; done|]. unfold py_read in Hx. by rewrite Hs in Hx. }
  assert (∃ n, low a = Some n ∧ (n ≤ 1)%nat) as (n & Hla & Hn).
  { destruct Ha as [->|[ch Hch]]; [exists 0%nat; split; [done|lia]|]. unfold low.
    case_decide; [exists 0%nat|rewrite Hch; exists 1%nat]; (split; [done|lia]). }
  intros x d b. destruct (decide (x = f)) as [->|Hx].
  - rewrite lookup_insert_eq. intros [= <-]. cbn [val fields].
    rewrite (Hhigh f (OCallable l)) by (done || (unfold py_read; by rewrite Hf, Hv)).
    intros [->|Hb]%elem_of_cons; [rewrite Hla; lia|].
    specialize (Hle b). enough (rank b < rank f)%nat by lia. apply (H f c b Hf). by rewrite Hv.
  - rewrite lookup_insert_ne by done. intros Hd Hb.
    pose proof (py_read_some _ _ _ Hd) as Hr. destruct (val d) as [|ch|l'|e] eqn:Ed; cbn [fields] in Hb.
    + by apply elem_of_nil in Hb.
    + destruct (pch_proc_obj ch); [|by apply elem_of_nil in Hb]. apply list_elem_of_singleton in Hb as ->.
      rewrite Hls. unfold low. case_decide as E; [|rewrite Hr; lia]. subst x.
      destruct Hs as [Hs|Hs]; congruence.
    + rewrite (Hhigh x _ Hr) by done. specialize (Hle b). enough (rank b < rank x)%nat by lia.
      apply (H x d b Hd). by rewrite Ed.
    + rewrite (Hhigh x _ Hr) by done. specialize (Hle b). enough (rank b < rank x)%nat by lia.
      apply (H x d b Hd). by rewrite Ed.
Qed.

Lemma self_kind x s : psys_inv x s → py_read (ob (wld s)) self = Done OProc ∨ ob (wld s) !! self = None.
Proof. intros Hi. pose proof (pi_self _ _ _ Hi) as H. destruct (serving s); auto. Qed.

Lemma pstep_capture s f a : psys_ok s → proc_enabled self (LCapture f a) s → proc_steps (LCapture f a) s.
Proof.
  intros [Hi Hpok] (Ha & [l Hf] & Hkind). unfold ProcSteps.proc_steps, proc_exec. cbn [by_worker program_exec].
  pose proof Hf as Hf'. unfold py_read in Hf. destruct (ob (wld s) !! f) as [c|] eqn:Ec; [|done]. injection Hf as Hv.
  rewrite Hv. eexists. split; [done|]. apply (ok_of s); try done.
  pose proof (self_kind _ _ Hi) as Hsk.
  assert (a ≠ f) as Hne.
  { intros ->. destruct Hkind as [->|[ch Hch]]; [|unfold channel_at in Hch; congruence].
    destruct Hsk as [Hs|Hs]; [congruence|]. by rewrite Ec in Hs. }
  apply (inv_objects []); [done| | | |].
  - pose proof (pi_mem _ _ _ Hi) as [Hg Hac]. split; cbn [ob set_ob].
    + rewrite roots_held by done. cbn [app] in *. rewrite roots_away in Hg.
      apply (graph_set (fields self) _ (a :: remove_one a (held s) ++ away s) _ f c); [|done|].
      * rewrite (remove_one_perm a (held s) Ha) in Hg. exact Hg.
      * rewrite Hv. cbn [ProcObj.fields]. symmetry. apply Permutation_middle.
    + by apply (acyclic_capture _ f a c l).
  - intros b Hb o Ho. exists o. split; [|destruct o; try done; by eexists].
    unfold py_read. rewrite lookup_insert_ne; [done|]. intros <-. destruct Hb as [->|[ch Hch]].
    + destruct Hsk as [Hs|Hs]; [congruence|]. by rewrite Ec in Hs.
    + unfold channel_at in Hch. congruence.
  - intros Hn. rewrite lookup_insert_ne; [done|]. intros ->. congruence.
  - intros b ch. unfold py_read. destruct (decide (b = f)) as [->|Hb]; [by rewrite lookup_insert_eq|].
    rewrite lookup_insert_ne by done. apply (pi_ids _ _ _ Hi).
Qed.

(** ** Life of the worker and of the scheduler *)

(** The worker's life changes, and at most the command that stops it is queued. *)
Record life_step (p p' : PyRtpProc) : Prop := {
  ls_cmds : cmds p' = cmds p ∨ cmds p' = cmds p ++ [CMD_SHUTDOWN];
  ls_same : tab p' = tab p ∧ close_exc p' = close_exc p ∧ cmd_waiter p' = cmd_waiter p ∧
    cmd_waiter_busy p' = cmd_waiter_busy p ∧ next_channel_id p' = next_channel_id p;
}.

Lemma life_queue p p' c :
  life_step p p' → queue p' c = queue p c ∨ queue p' c = queue p c ++ [CMD_SHUTDOWN].
Proof. intros [[E|E] _]; unfold queue; rewrite E; [by left|right; apply app_assoc]. Qed.

Lemma life_plain p p' c :
  life_step p p' → add_ids (queue p' c) = add_ids (queue p c) ∧
    queue_refs (queue p' c) = queue_refs (queue p c) ∧
    waiting_cmds (in_hand c ++ queue p' c) = waiting_cmds (in_hand c ++ queue p c).
Proof.
  intros H. destruct (life_queue _ _ c H) as [-> | ->]; [done|].
  rewrite add_ids_app, queue_refs_app, app_assoc, (waiting_app _ [_]). cbn. by rewrite !app_nil_r.
Qed.

Lemma inv_life x x' s w p j hl fr (s' := put_join s (set_prc w p) j hl fr) :
  psys_inv x s → drops (wld s) w → life_step (prc w) p →
  mem_ok self w (x' ++ roots (put_join s w j hl fr)) → ctl_ok p (pc s) j fr →
  (if serving s' then py_read (ob w) self = Done OProc else ob w !! self = None) →
  psys_inv x' s'.
Proof.
  intros [Hm Hs Hc Ht Hn Hb Hw Hcn Hcl] Hd Hl Hm' Hctl Hself. pose proof Hd as [_ Hp].
  destruct (pushes_same _ _ Hp) as (E1 & E2 & E3 & E4 & E5 & _).
  destruct (ls_same _ _ Hl) as (F1 & F2 & F3 & F4 & F5).
  destruct (life_plain _ _ (pc s) Hl) as (Ea & Er & Ew). pose proof (pushes_refs _ _ (pc s) Hp) as [_ Ew'].
  subst s'. constructor; cbn [wld put_join pc joining freed pend prc set_prc ob].
  - apply (mem_ok_prc self w). unfold ProcInv.roots in *. cbn [wld put_join pc held prc set_prc] in *.
    by rewrite Er, F1, F2.
  - done.
  - done.
  - by rewrite F1, E1.
  - apply (numbers_pushes _ _ _ Hp) in Hn as [H1 H2 H3 H4 H5 H6]. constructor; rewrite ?Ea, ?F1, ?F5; try done.
    destruct (life_queue _ _ (pc s) Hl) as [-> | ->]; [done|]. apply Forall_app. split; [done|by constructor].
  - by rewrite F4, E4.
  - unfold waited in *. cbn [wld put_join pc prc set_prc]. rewrite Ew, Ew', F3, E3.
    destruct (pend s) as [[b c]|] eqn:Ep; [|done].
    destruct Hw as (ch & Hch & Hpo & Hw). exists ch. split; [|done].
    unfold channel_at in *. cbn [ob set_prc]. rewrite <- Hch. apply (drops_read self _ w _ _ Hd Hm').
    apply elem_of_app. right. unfold ProcInv.roots, pend_refs. cbn [pend put_join]. rewrite Ep.
    apply elem_of_app. right. apply elem_of_app. left. destruct c; cbn [call_refs call_chan];
    rewrite ?elem_of_cons; auto.
  - intros a ch Ha. rewrite F5, E5. apply (Hcn a). by apply (dr_keeps _ _ Hd).
  - intros ow a ch Hpe Ha. rewrite F1, E1, F3, E3. apply (Hcl ow a); [done|]. by apply (dr_keeps _ _ Hd).
Qed.

(** What [rtp_proc_shutdown_internal] does up to the join. *)
Lemma shutdown_begin_ok p c j cmd_mem :
  ctl_ok p c j false →
  ∃ r p', rtp_proc_shutdown_begin p cmd_mem = (r, p') ∧ life_step p p' ∧
    match r with
    | Waiting => ∀ j', ctl_ok p' c (Some j') false
    | Ended _ => p' = p ∧ (cmd_mem = true → c = PExit)
    end.
Proof.
  intros [H1 H2 H3 H4 H5 H6]. unfold rtp_proc_shutdown_begin.
  destruct (worker_running p) eqn:Er; cbn [negb].
  2:{ exists (Ended (Ret ())), p. split; [done|]. split; [by split; [left|]|]. auto. }
  destruct (shutdown_queued p) eqn:Eq; cbn [negb].
  - exists Waiting, p. split; [done|]. split; [by split; [left|]|]. intros j'.
    constructor; rewrite ?Eq, ?Er; try done; by auto.
  - destruct cmd_mem; cbn [negb]; [|by exists (Ended (Raise MemoryError)), p; split; [|split; [split; [left|]|]]].
    eexists Waiting, _. split; [done|]. split; [by split; [right|]|]. intros j'. destruct H3 as [H3 H3'].
    constructor; cbn [mutex_inited cond_inited cmd_waiter_inited accepting_commands shutdown_queued
      worker_running set_life set_cmd]; try done; auto; [|by rewrite Er; auto..].
    rewrite H3. exists (queue p c). split; [|done]. unfold queue. cbn. by rewrite app_assoc.
Qed.

(** The rest of a deallocation finds no command and no channel. *)
Lemma exit_empty s : psys_ok s → pc s = PExit → cmds (prc (wld s)) = [] ∧ tab (prc (wld s)) = empty_table.
Proof.
  intros [Hi Hpok] Hpc. rewrite Hpc in Hpok. split; [|done].
  pose proof (ct_stop _ _ _ _ (pi_ctl _ _ _ Hi)) as H. rewrite Hpc in H. cbn in H.
  destruct (shutdown_queued _); [done|]. by destruct H.
Qed.

Lemma proc_dealloc_end_ok mem s :
  psys_ok s → freed s = true →
  ∃ w, PyRtpProc_dealloc_end self mem (wld s) = Done w ∧ psys_ok (put_join s w None (held s) true).
Proof.
  intros Hok Hf. pose proof Hok as [Hi _].
  destruct (ct_freed _ _ _ _ (pi_ctl _ _ _ Hi) Hf) as [Hpc Hj].
  destruct (exit_empty s Hok Hpc) as [Hq Ht]. unfold PyRtpProc_dealloc_end.
  assert (detach_commands (prc (wld s)) = ([], prc (wld s))) as ->.
  { unfold detach_commands. destruct (mutex_inited _); [|done]. cbn [negb]. rewrite Hq. f_equal.
    destruct (prc (wld s)); cbn in *. by subst. }
  assert (∀ w, set_prc w (prc w) = w) as Hw by by intros [].
  rewrite Hw. cbn [free_command_list mbind outcome_bind]. unfold clear_all.
  rewrite Ht. cbn [length t_chans empty_table seq release_slots mbind outcome_bind].
  assert (set_table (wld s) empty_table = wld s) as ->.
  { unfold set_table. rewrite <- Ht. unfold set_tab, set_prc. destruct (wld s) as [p h]. by destruct p. }
  assert (owned self s) as Ho by (left; unfold serving; by rewrite Hf).
  destruct (inv_tab_drop self mem [] (exc_ref (close_exc (prc (wld s)))) s None (tab (prc (wld s))))
    as (w & E & Hi1 & _ & Et & _); [done..|apply (pi_table _ _ _ Hi)| |done|].
  { cbn [app]. rewrite Permutation_app_comm. cbn. by rewrite app_nil_r. }
  rewrite <- (steal_eq self mem (wld s) None : _ = decref_all self mem (set_prc _ _) _) in E.
  unfold proc_set_close_exception_steal in E.
  destruct (py_exc_info_clear self mem (wld s) _) as [w1| | |]; try done. cbn [mbind outcome_bind] in *.
  injection E as E. change (set_prc w1) with (set_prc (set_close w1 None)). rewrite E. eexists. split; [done|].
  split; [|by cbn [pc wld put_join prc set_prc tab set_inited]; rewrite Et, Ht, Hpc].
  change (put_join s ?w' None ?hl true) with (put_join (put s w (pc s)) w' None hl true).
  apply (inv_life [] []); [done|done|by split; [left|]| | |].
  - pose proof (pi_mem _ _ _ Hi1) as Hm. unfold ProcInv.roots, join_refs in *.
    cbn [joining put put_join held wld pc] in *. by rewrite Hj in Hm.
  - cbn [pc put]. destruct (pi_ctl _ _ _ Hi1) as [H1 H2 H3 H4 H5 H6]. constructor; try done.
  - pose proof (pi_self _ _ _ Hi1) as Hs. unfold serving in Hs. cbn [freed put] in Hs. by rewrite Hf in Hs.
Qed.

Lemma alive_held x s a : psys_inv x s → a ∈ held s → ∃ o, py_read (ob (wld s)) a = Done o.
Proof.
  intros Hi Ha. apply (mem_alive self _ _ a (pi_mem _ _ _ Hi)). apply elem_of_app. right.
  apply elem_of_app. by left.
Qed.

Lemma self_serving x s : psys_inv x s → is_Some (ob (wld s) !! self) → serving s = true.
Proof.
  intros Hi [c Hc]. pose proof (pi_self _ _ _ Hi) as Hs. destruct (serving s); [done|]. by rewrite Hc in Hs.
Qed.

Lemma held_serving x s : psys_inv x s → self ∈ held s → serving s = true.
Proof.
  intros Hi Hh. destruct (alive_held _ _ _ Hi Hh) as [o Ho]. apply (self_serving _ _ Hi).
  unfold py_read in Ho. by destruct (ob (wld s) !! self).
Qed.

Lemma serving_freed s : serving s = true → freed s = false.
Proof. unfold serving. by destruct (freed s). Qed.

(** Somebody waits for the end of the worker. *)
Lemma inv_join x x' s w p j hl :
  psys_inv x s → drops (wld s) w → life_step (prc w) p → serving s = true → joining s = None →
  mem_ok self w (x' ++ roots (put_join s w (Some j) hl false)) → ctl_ok p (pc s) (Some j) false →
  (match j with JShutdown => is_Some (ob w !! self) | JDealloc => ob w !! self = None end) →
  psys_inv x' (put_join s (set_prc w p) (Some j) hl false).
Proof.
  intros Hi Hd Hl Hs Hj Hm Hc Hself. apply (inv_life x); [done..|].
  unfold serving. cbn [freed joining put_join negb andb]. destruct j; [|done].
  destruct Hself as [c Hc']. pose proof (pi_self _ _ _ Hi) as H. rewrite Hs in H.
  pose proof (py_read_some _ _ _ Hc') as Hr. rewrite Hr. apply (dr_keeps _ _ Hd) in Hr. by rewrite H in Hr.
Qed.

Lemma pstep_shutdown s ow cmd_mem :
  psys_ok s → proc_enabled self (LShutdown ow cmd_mem) s → proc_steps (LShutdown ow cmd_mem) s.
Proof.
  intros [Hi Hpok] (Hself & -> & Hj). unfold ProcSteps.proc_steps, proc_exec. cbn [by_worker program_exec].
  pose proof (held_serving _ _ Hi Hself) as Hs. pose proof (serving_freed _ Hs) as Hf.
  unfold shutdown_step. pose proof (pi_ctl _ _ _ Hi) as Hc. rewrite Hf in Hc.
  destruct (shutdown_begin_ok _ _ _ cmd_mem Hc) as (r & p & -> & Hl & Hr). destruct r as [r|].
  - destruct Hr as (-> & _). eexists. split; [done|].
    by assert (put_held s (set_prc (wld s) (prc (wld s))) (held s) = s) as -> by by destruct s as [[]].
  - rewrite Hj. eexists. split; [done|].
    split; [|cbn [wld put_join prc set_prc pc]; by destruct (ls_same _ _ Hl) as (-> & _)].
    apply (inv_join [] []); [done..| |done|].
    + eapply mem_ok_perm; [|apply (pi_mem _ _ _ Hi)]. unfold ProcInv.roots, join_refs.
      cbn [joining put_join held wld pc app]. rewrite Hj.
      change (pend_refs self (put_join _ _ _ _ _)) with (pend_refs self s).
      pose proof (remove_one_perm self (held s) Hself) as Hr'. revert Hr'.
      generalize (remove_one self (held s)), (held s), (pend_refs self s). intros a b d Hr'. perm_count.
    + destruct (alive_held _ _ _ Hi Hself) as [o Ho]. unfold py_read in Ho. by destruct (ob (wld s) !! self).
Qed.

Lemma pstep_join s mem : psys_ok s → proc_enabled self (LJoin mem) s → proc_steps (LJoin mem) s.
Proof.
  intros [Hi Hpok] [Hj Hpc]. unfold ProcSteps.proc_steps, proc_exec. cbn [by_worker program_exec].
  unfold join_step. pose proof (pi_ctl _ _ _ Hi) as Hc. destruct (ct_join _ _ _ _ Hc Hj) as [Hq Hrun].
  assert (life_step (prc (wld s)) (rtp_proc_shutdown_end (prc (wld s)))) as Hl by (by split; [left|]).
  assert (freed s = false) as Hf.
  { destruct (freed s) eqn:E; [|done]. by destruct (ct_freed _ _ _ _ Hc eq_refl). }
  assert (∀ fr, ctl_ok (rtp_proc_shutdown_end (prc (wld s))) (pc s) None fr) as Hc'.
  { intros fr. destruct Hc as [H1 H2 H3 H4 H5 H6]. constructor; try done. by auto. }
  pose proof (pi_self _ _ _ Hi) as Hself. unfold serving in Hself. rewrite Hf in Hself.
  destruct (joining s) as [[|]|] eqn:Ej; [| |done].
  - eexists. split; [done|]. split; [|done]. apply (inv_life [] []); [done..| |done|].
    + eapply mem_ok_perm; [|apply (pi_mem _ _ _ Hi)]. unfold ProcInv.roots, join_refs.
      cbn [joining put_join held wld pc app]. rewrite Ej.
      change (pend_refs self (put_join _ _ _ _ _)) with (pend_refs self s).
      generalize (held s), (pend_refs self s). intros a b. perm_count.
    + done.
  - set (s1 := put_join s (set_prc (wld s) (rtp_proc_shutdown_end (prc (wld s)))) None (held s) true).
    destruct (proc_dealloc_end_ok mem s1) as (w & E & Hok); [|done|].
    + split; [|done]. apply (inv_life [] []); [done..| |done|done].
      eapply mem_ok_perm; [|apply (pi_mem _ _ _ Hi)]. unfold ProcInv.roots, join_refs.
      cbn [joining put_join held wld pc app]. by rewrite Ej.
    + change (wld s1) with (set_prc (wld s) (rtp_proc_shutdown_end (prc (wld s)))) in E. rewrite E.
      by eexists.
Qed.

(** The last reference to the scheduler was dropped. *)
Lemma proc_dealloc_ok x s w mem hl :
  psys_inv x s → pc_ok (tab (prc (wld s))) (pc s) → drops (wld s) w → serving s = true →
  joining s = None → mem_ok self w (roots (put_held s w hl)) → ob w !! self = None →
  ∃ s', dealloc_step self (put_held s w hl) mem true = Done s' ∧ psys_ok s'.
Proof.
  intros Hi Hpok Hd Hs Hj Hm Hself. unfold dealloc_step. cbn [wld put_held].
  pose proof (serving_freed _ Hs) as Hf. pose proof Hd as [_ Hp].
  pose proof (ctl_pushes _ _ _ _ _ Hp (pi_ctl _ _ _ Hi)) as Hc. rewrite Hf in Hc.
  destruct (pushes_same _ _ Hp) as (Et & _).
  destruct (shutdown_begin_ok _ _ _ true Hc) as (r & p & -> & Hl & Hr).
  destruct (ls_same _ _ Hl) as (Et' & _). destruct r as [r|].
  - destruct Hr as (-> & Hx). specialize (Hx eq_refl).
    set (s1 := put_join s (set_prc w (prc w)) None hl true).
    destruct (proc_dealloc_end_ok mem s1) as (w' & E & Hok); [|done|].
    + split; [|cbn [wld s1 put_join prc set_prc pc]; by rewrite Et].
      apply (inv_life x []); [done|done|done| | |done].
      * unfold ProcInv.roots, join_refs in Hm |- *. cbn [joining put_join put_held held wld pc app] in *.
        by rewrite Hj in Hm.
      * destruct Hc as [H1 H2 H3 H4 H5 H6]. by constructor.
    + change (wld s1) with (set_prc w (prc w)) in E. rewrite E. by eexists.
  - eexists. split; [done|]. split.
    + change (put_join (put_held s w hl) ?w' ?j ?l ?fr) with (put_join s w' j l fr).
      apply (inv_join x []); [done..| |done|done].
      unfold ProcInv.roots, join_refs in Hm |- *. cbn [joining put_join put_held held wld pc app] in *.
      by rewrite Hj in Hm.
    + cbn [wld put_join prc set_prc pc put_held]. by rewrite Et', Et.
Qed.

Lemma pstep_drop s a mem cmd_mem :
  psys_ok s → proc_enabled self (LDrop a mem cmd_mem) s → proc_steps (LDrop a mem cmd_mem) s.
Proof.
  intros [Hi Hpok] [Ha ->]. unfold ProcSteps.proc_steps, proc_exec. cbn [by_worker program_exec].
  set (s1 := put_held s (wld s) (remove_one a (held s))).
  assert (psys_inv ([a] ++ []) s1) as Hi1.
  { apply (inv_hand self [] [a] s Hi). cbn. rewrite bool_decide_eq_true_2 by done. by eexists. }
  destruct (decrefs_ok self mem (wld s) [a] (roots s1)) as (w & E & Hm & Hd).
  { pose proof (pi_mem _ _ _ Hi1) as Hm. by rewrite app_nil_r in Hm. }
  rewrite E. cbn [mbind outcome_bind].
  assert (put_held s w (remove_one a (held s)) = put s1 w (pc s1)) as Es by done.
  assert (tab (prc w) = tab (prc (wld s))) as Et by by destruct (pushes_same _ _ (dr_pushes _ _ Hd)).
  assert ((if serving s then is_Some (ob w !! self) else True) →
    proc_enabled self (LTake a) s → psys_ok (put_held s w (remove_one a (held s)))) as Hgo.
  { intros Hal _. rewrite Es. split; [|cbn [wld put prc pc s1]; by rewrite Et].
    apply (inv_drops self ([a] ++ [])); [done..|]. change (serving s1) with (serving s).
    destruct (serving s); [|done]. destruct Hal as [c Hc]. by exists c. }
  assert (proc_enabled self (LTake a) s) as Hen.
  { destruct (alive_held _ _ _ Hi Ha) as [o Ho]. cbn. unfold py_read in Ho. by destruct (ob (wld s) !! a). }
  destruct (ob w !! self) as [c|] eqn:Eself.
  { cbn [has orb]. eexists. split; [done|]. apply Hgo; [|done]. by destruct (serving s). }
  cbn [has orb]. destruct (serving s) eqn:Eserv.
  - pose proof (serving_freed _ Eserv) as ->. assert (joining s = None) as Hj.
    { destruct (joining s) as [[|]|] eqn:Ej; [|by unfold serving in Eserv; rewrite Ej, andb_false_r in Eserv|done].
      destruct (mem_alive self w _ self Hm) as [o Ho].
      - unfold ProcInv.roots, join_refs. change (joining s1) with (joining s). rewrite Ej, !elem_of_app.
        right. right. left. by left.
      - unfold py_read in Ho. by rewrite Eself in Ho. }
    rewrite Hj. cbn [has orb].
    destruct (proc_dealloc_ok [] s w mem (remove_one a (held s))) as (s' & -> & Hok); try done; [|by eexists].
    eapply mem_ok_perm; [|exact Hm]. rewrite Es. by rewrite (drops_roots self s1 w Hd).
  - assert (freed s || has (joining s) = true) as ->.
    { unfold serving in Eserv. destruct (freed s); [done|]. by destruct (joining s) as [[|]|]. }
    eexists. split; [done|]. by apply Hgo.
Qed.
End Calls.
