(* ===== verification/ProcMethods.v ===== *)
(** The methods of the scheduler of [ProcObj] that talk to its worker:
    [create_channel] and [close], up to where they wait and after it, keep the
    invariant of [ProcInv] on every path. *)
From stdpp Require Import prelude list gmap.
From Stdlib Require Import ZArith Lia.
From S2P Require Import Prelude Py RcHeap RcGraph Synth Sync Sched Proc ProcObj ProcInv ProcSteps ProcCalls.
Local Open Scope Z_scope.

Section Methods.
Context `{Rt : !Retired} (self : Z).
Abbreviation psys_inv := (psys_inv self).
Abbreviation psys_ok := (psys_ok self).
Abbreviation proc_steps := (proc_steps self).
Abbreviation roots := (roots self).

(** ** A channel object that never got its channel *)

(** An object refers to less than before. *)
Lemma acyclic_fewer h a c v :
  acyclic (fields self) h → h !! a = Some c →
  (∀ b, b ∈ fields self v → b ∈ fields self (val c)) →
  acyclic (fields self) (<[a := {| rc := rc c; val := v |}]> h).
Proof.
  intros (rank & H) Ha Hsub. exists rank. intros x d b. destruct (decide (x = a)) as [->|Hne].
  - rewrite lookup_insert_eq. intros [= <-] Hb. apply (H a c b Ha). by apply Hsub.
  - rewrite lookup_insert_ne by done. apply H.
Qed.

(** The value of a channel changes; its references go to the hand. *)
Lemma inv_set_channel x x' s a ch ch' :
  psys_inv x s → channel_at (wld s) a ch → pch_id ch' = pch_id ch →
  (pch_proc_obj ch' = true → pch_proc_obj ch = true) →
  ((∃ ow c, pend s = Some (ow, c) ∧ call_chan c = a) → pch_proc_obj ch' = pch_proc_obj ch) →
  fields self (OChannel ch) ++ x ≡ₚ fields self (OChannel ch') ++ x' →
  ∃ c, ob (wld s) !! a = Some c ∧ val c = OChannel ch ∧
    psys_inv x' (put_held s (set_ob (wld s) (<[a := {| rc := rc c; val := OChannel ch' |}]> (ob (wld s)))) (held s)).
Proof.
  intros Hi Ha Hid Hpo Hpend Hx. unfold channel_at, py_read in Ha.
  destruct (ob (wld s) !! a) as [c|] eqn:Ec; [|done]. injection Ha as Hv.
  exists c. split; [done|]. split; [done|]. pose proof (self_kind _ _ _ Hi) as Hsk.
  assert (a ≠ self) as Hne.
  { intros ->. destruct Hsk as [Hs|Hs]; [|congruence]. unfold py_read in Hs. rewrite Ec in Hs. congruence. }
  apply (inv_objects self x); [done| | | |].
  - pose proof (pi_mem _ _ _ Hi) as [Hg Hac]. rewrite roots_held by done. split; cbn [ob set_ob].
    + apply (graph_set (fields self) _ (x ++ roots s) _ a c); [done..|]. rewrite roots_away, Hv.
      rewrite !app_assoc. do 2 f_equiv. exact Hx.
    + apply acyclic_fewer; [done..|]. rewrite Hv. cbn [fields]. intros b Hb.
      destruct (pch_proc_obj ch'); [by rewrite Hpo|by apply elem_of_nil in Hb].
  - intros b _ o Ho. unfold py_read in *. destruct (decide (b = a)) as [->|Hb].
    + rewrite Ec in Ho. injection Ho as <-. rewrite lookup_insert_eq, Hv. eexists. split; [done|].
      by exists ch'.
    + rewrite lookup_insert_ne by done. exists o. split; [done|]. destruct o; try done. by eexists.
  - intros Hn. by rewrite lookup_insert_ne.
  - intros b d. unfold py_read. destruct (decide (b = a)) as [->|Hb].
    + rewrite lookup_insert_eq. intros [= <-]. rewrite Hid. apply (pi_ids _ _ _ Hi a).
      unfold channel_at, py_read. by rewrite Ec, Hv.
    + rewrite lookup_insert_ne by done. apply (pi_ids _ _ _ Hi).
Qed.

Lemma create_undo_ok mem x s a ch :
  psys_inv (a :: x) s → channel_at (wld s) a ch → pch_proc_obj ch = true → self ∈ held s →
  (∀ ow c, pend s = Some (ow, c) → call_chan c ≠ a) →
  ∃ w, create_fail self mem (wld s) a = Done w ∧ psys_inv x (put s w (pc s)) ∧
    tab (prc w) = tab (prc (wld s)).
Proof.
  intros Hi Ha Hpo Hself Hpend. unfold create_fail.
  set (ch' := {| pch_id := pch_id ch; pch_proc_obj := false; pch_closed := true |}).
  destruct (inv_set_channel (a :: x) (self :: a :: x) s a ch ch' Hi Ha) as (c & Hc & Hv & Hi1);
    [done..| |by cbn [fields pch_proc_obj ch']; rewrite Hpo|].
  { intros (ow & cl & Hp & Hcl). by destruct (Hpend _ _ Hp). }
  rewrite Hc, Hv. cbn [fields]. rewrite Hpo. set (s1 := put_held _ _ _) in *. change (set_ob (wld s) _) with (wld s1).
  destruct (inv_decref self mem [self] (a :: x) s1) as (w1 & E1 & Hi2 & Ho2 & [_ Hp1]); [done|by right; exists self; split; [apply elem_of_app; left|left]|].
  rewrite E1. cbn [mbind outcome_bind].
  destruct (inv_decref self mem [a] x (put s1 w1 (pc s1))) as (w2 & E2 & Hi3 & _ & [_ Hp2]); [done|apply Ho2|].
  cbn [wld put] in E2. rewrite E2. exists w2. split; [done|]. split; [done|].
  destruct (pushes_same _ _ Hp2) as (-> & _). cbn [wld put]. by destruct (pushes_same _ _ Hp1) as (-> & _).
Qed.

(** ** The waiter *)

Definition set_wait (p : PyRtpProc) (b : bool) (wt : rtp_sync_waiter) : PyRtpProc := set_cmd p b wt (cmds p).

(** Deallocations do not see who waits. *)
Lemma decref_all_wait mem w l b wt :
  decref_all self mem (set_prc w (set_wait (prc w) b wt)) l =
  (w' ← decref_all self mem w l; Done (set_prc w' (set_wait (prc w') b wt))).
Proof.
  unfold decref_all, py_drop. cbn [ob prc set_prc]. rewrite (drop_refs_map _ _ (λ p, set_wait p b wt)).
  - by destruct (drop_refs _ _ _ _ _) as [[h p]| | |].
  - intros a [|ch| |] p; cbn [finalize]; [done| |done..]. unfold rtp_proc_channel_close_begin.
    destruct (pch_closed ch); [done|]. destruct (pch_proc_obj ch); [|done]. destruct (mem a); [|done].
    cbn [negb]. unfold enqueue_command. cbn [mutex_inited cond_inited accepting_commands set_wait set_cmd].
    by destruct (_ || _), (accepting_commands p).
Qed.

(** While nobody waits, what the waiter says does not matter. *)
Lemma inv_wait x s wt : psys_inv x s → pend s = None → psys_inv x (put s (set_prc (wld s) (set_wait (prc (wld s)) false wt)) (pc s)).
Proof.
  intros [Hm Hs Hc Ht Hn Hb Hw Hcn Hcl] Hp. constructor; cbn [wld put pc joining freed pend prc set_prc]; try done.
  - by apply (mem_ok_prc self (wld s)).
  - destruct Hc as [H1 H2 H3 H4 H5 H6]. by constructor.
  - destruct Hn as [H1 H2 H3 H4 H5 H6]. by constructor.
  - by rewrite Hp.
  - by rewrite Hp in Hw |- *.
  - intros ow a ch Hpe. congruence.
Qed.

(** A command of a call is queued, and the call waits. *)
Lemma inv_call x x' s ow c ch hl wt :
  psys_inv x s → pend s = None → accepting_commands (prc (wld s)) = true → wt_done wt = false →
  channel_at (wld s) (call_chan c) ch → pch_proc_obj ch = true →
  (∀ id, id ∈ add_ids [cmd_of c ch] → (id ∉ add_ids (queue (prc (wld s)) (pc s))) ∧
     view (tab (prc (wld s))) id = None ∧ id < next_channel_id (prc (wld s)) ∧ ¬ retired id) →
  x ++ held s ≡ₚ x' ++ cmd_refs (cmd_of c ch) ++ call_refs self c ++ hl →
  psys_inv x' (put_pend s (set_prc (wld s) (set_cmd (prc (wld s)) true wt (cmds (prc (wld s)) ++ [cmd_of c ch])))
                 (Some (ow, c)) hl).
Proof.
  intros [Hm Hs Hc Ht Hn Hb Hw Hcn Hcl] Hp Hacc Hwt Hch Hpo Hid Hx. set (p := prc (wld s)) in *.
  set (p' := set_cmd p true wt (cmds p ++ [cmd_of c ch])).
  assert (queue p' (pc s) = queue p (pc s) ++ [cmd_of c ch]) as Hq by (unfold queue; cbn; by rewrite app_assoc).
  constructor; cbn [wld put_pend pc joining freed pend prc set_prc]; try done; try fold p'.
  - apply (mem_ok_prc self (wld s)). eapply mem_ok_perm; [|exact Hm]. unfold ProcInv.roots.
    cbn [wld put_pend pc prc set_prc held]. fold p p'. rewrite Hq, queue_refs_app. unfold pend_refs.
    cbn [pend put_pend]. rewrite Hp. change (join_refs self (put_pend _ _ _ _)) with (join_refs self s).
    change (queue_refs [?cmd]) with (cmd_refs cmd ++ []). rewrite app_nil_r. revert Hx.
    change (tab p') with (tab p). change (close_exc p') with (close_exc p). cbn [app].
    generalize (call_refs self c), (cmd_refs (cmd_of c ch)), (held s), (join_refs self s),
      (queue_refs (queue p (pc s))), (table_refs (tab p)), (exc_ref (close_exc p)).
    intros a b d e f g h Hx. perm_count.
  - destruct Hc as [H1 H2 H3 H4 H5 H6]. constructor; try done. rewrite Hq.
    change (shutdown_queued p') with (shutdown_queued p). rewrite H2 in Hacc.
    destruct (shutdown_queued p); [done|]. destruct H3 as [H3 H3']. split; [done|].
    rewrite not_elem_of_app. split; [done|]. destruct c; apply not_elem_of_cons; (split; [done|apply not_elem_of_nil]).
  - destruct Hn as [H1 H2 H3 H4 H5 H6]. constructor; rewrite ?Hq, ?add_ids_app; try done.
    + apply NoDup_app. split; [done|]. split; [|destruct c; cbn; [apply NoDup_singleton|apply NoDup_nil_2]].
      intros id H Hin. by destruct (Hid id Hin) as [? _].
    + intros id [H|H]%elem_of_app; [by apply H2|by apply Hid].
    + intros id [[H|H]%elem_of_app|H]; [apply H3; by left|by apply Hid|apply H3; by right].
    + intros id H. destruct (H5 id H) as (? & ? & ?). split; [done|]. split; [|done]. rewrite not_elem_of_app.
      split; [done|]. intros Hin. by destruct (Hid id Hin) as (_ & _ & _ & ?).
    + apply Forall_app. split; [done|]. by destruct c; constructor.
  - exists ch. split; [done|]. split; [done|]. unfold waited in *. cbn [wld put_pend pc prc set_prc]. fold p p' in Hw |- *.
    rewrite Hq, app_assoc, waiting_app. rewrite Hp in Hw. rewrite Hw. change (cmd_waiter p') with wt. rewrite Hwt.
    by destruct c.
  - intros ow' a d _ _ Hd. change (cmd_waiter p') with wt in Hd. congruence.
Qed.

(** ** [create_channel] *)

Definition new_number (p : PyRtpProc) : PyRtpProc :=
  set_life p (worker_running p) (shutdown_queued p) (accepting_commands p) (u64 (next_channel_id p + 1)).

Lemma inv_number x s :
  psys_inv x s → next_channel_id (prc (wld s)) < ID_BUDGET →
  psys_inv x (put_held s (set_prc (wld s) (new_number (prc (wld s)))) (held s)) ∧
  next_channel_id (new_number (prc (wld s))) = next_channel_id (prc (wld s)) + 1.
Proof.
  intros [Hm Hs Hc Ht Hn Hb Hw Hcn Hcl] Hlt. set (p := prc (wld s)) in *.
  assert (u64 (next_channel_id p + 1) = next_channel_id p + 1) as E.
  { pose proof (no_next _ _ Hn). unfold ID_BUDGET, U64_MAX in *. apply Z.mod_small. lia. }
  split; [|done]. constructor; cbn [wld put_held pc joining freed pend prc set_prc]; try done.
  - by apply (mem_ok_prc self (wld s)).
  - destruct Hc as [H1 H2 H3 H4 H5 H6]. by constructor.
  - destruct Hn as [H1 H2 H3 H4 H5 H6]. constructor; try done; cbn [next_channel_id new_number set_life]; rewrite E.
    + intros id Hid. specialize (H3 id Hid). lia.
    + unfold ID_BUDGET in *. lia.
    + intros id Hid. destruct (H5 id Hid) as (? & ? & ?). split_and!; [lia|done..].
  - intros a ch Ha. cbn [next_channel_id new_number set_life]. rewrite E. specialize (Hcn a ch Ha). lia.
Qed.

(** The channel object, which holds the scheduler. *)
Definition new_channel (p : PyRtpProc) : PyRtpProcChannel :=
  {| pch_id := next_channel_id p; pch_proc_obj := true; pch_closed := false |}.
Definition with_channel (p : PyRtpProc) (h : gmap Z (cell pobj)) (a : Z) : pworld :=
  {| prc := new_number p; ob := <[a := {| rc := 1; val := OChannel (new_channel p) |}]> h |}.

Lemma create_object s a :
  psys_inv [] s → self ∈ held s → ob (wld s) !! a = None → next_channel_id (prc (wld s)) < ID_BUDGET →
  ∃ h, py_incref (ob (wld s)) self = Done h ∧
    psys_inv [a] (put_held s (with_channel (prc (wld s)) h a) (held s)) ∧
    ∀ b, py_read (ob (wld s)) b ≠ Undefined →
      py_read (ob (with_channel (prc (wld s)) h a)) b = py_read (ob (wld s)) b.
Proof.
  intros Hi Hself Ha Hlt. destruct (alive_held _ _ _ _ Hi Hself) as [o Ho].
  assert (is_Some (ob (wld s) !! self)) as Hal by (unfold py_read in Ho; by destruct (ob (wld s) !! self)).
  destruct (inv_incref self [] s self Hi Hal) as (h & E & Hi1 & Hr). exists h. split; [done|].
  assert (h !! a = None) as Hn.
  { specialize (Hr a). unfold py_read in Hr. rewrite Ha in Hr. by destruct (h !! a). }
  assert (a ≠ self) as Hne by (intros ->; rewrite Ha in Hal; by destruct Hal).
  destruct (inv_number _ _ Hi1) as [Hi2 E2]; [done|]. split.
  - apply (inv_make self []) with (a := a) (o := OChannel (new_channel (prc (wld s)))) in Hi2; try done.
    intros ch [= <-]. cbn [pch_id new_channel wld put_held prc set_prc]. cbn [wld put_held prc set_ob] in E2 |- *. rewrite E2. lia.
  - intros b Hb. rewrite <- Hr. unfold py_read, with_channel. cbn [ob].
    destruct (decide (b = a)) as [->|Hd]; [|by rewrite lookup_insert_ne].
    destruct Hb. unfold py_read. by rewrite Ha.
Qed.

(** The command and the channel of a call that is refused. *)
Lemma create_refused mem s id cb waits a ch :
  psys_inv [cb; a] s → channel_at (wld s) a ch → pch_proc_obj ch = true → self ∈ held s →
  (∀ ow c, pend s = Some (ow, c) → call_chan c ≠ a) →
  ∃ w, (w ← free_command self mem (wld s) (CMD_ADD_CHANNEL id cb waits); create_fail self mem w a) = Done w ∧
    psys_inv [] (put s w (pc s)) ∧ tab (prc w) = tab (prc (wld s)).
Proof.
  intros Hi Ha Hpo Hself Hpend. unfold free_command, py_xdecref_on_worker. cbn [opt_list].
  destruct (inv_decref self mem [cb] [a] s Hi) as (w1 & -> & Hi1 & _ & Hd).
  { by right; exists self; split; [apply elem_of_app; left|left]. }
  cbn [mbind outcome_bind].
  destruct (create_undo_ok mem [] (put s w1 (pc s)) a ch) as (w2 & E & Hi2 & Et); [done| |done..|].
  - unfold channel_at in *. cbn [wld put]. rewrite <- Ha. apply (drops_read self _ _ _ _ Hd (pi_mem _ _ _ Hi1)). by left.
  - cbn [wld put] in E, Et. exists w2. split; [done|]. split; [done|]. rewrite Et.
    by destruct (pushes_same _ _ (dr_pushes _ _ Hd)) as (-> & _).
Qed.

Lemma release_acquired p wt :
  mutex_inited p = true → proc_waiter_release (set_wait p true wt) = set_wait p false wt.
Proof. intros H. unfold proc_waiter_release. cbn [mutex_inited set_wait set_cmd]. by rewrite H. Qed.

Lemma create_rejected mem s id cb a ch wt :
  psys_inv [cb; a] s → channel_at (wld s) a ch → pch_proc_obj ch = true → self ∈ held s → pend s = None →
  mutex_inited (prc (wld s)) = true →
  ∃ w, (w ← free_command self mem (set_prc (wld s) (set_wait (prc (wld s)) true wt)) (CMD_ADD_CHANNEL id cb true);
        create_fail self mem (set_prc w (proc_waiter_release (prc w))) a) = Done w ∧
    psys_inv [] (put s w (pc s)) ∧ tab (prc w) = tab (prc (wld s)).
Proof.
  intros Hi Ha Hpo Hself Hp Hmx. pose proof (inv_wait _ _ wt Hi Hp) as Hi'.
  destruct (create_refused mem (put s (set_prc (wld s) (set_wait (prc (wld s)) false wt)) (pc s)) id cb true a ch)
    as (w & E & Hiw & Et); try done.
  { intros ow c H. cbn [pend put] in H. congruence. }
  exists w. split; [|by split]. rewrite <- E. unfold free_command, py_xdecref_on_worker. cbn [wld put].
  rewrite !decref_all_wait. destruct (decref_all self mem (wld s) _) as [w'| | |] eqn:Ed; try done.
  cbn [mbind outcome_bind prc set_prc]. apply decref_all_pushes in Ed.
  rewrite release_acquired; [done|]. by destruct (pushes_same _ _ Ed) as (_ & _ & _ & _ & _ & -> & _).
Qed.

(** The channel's number is new. *)
Lemma number_new x s hl w h :
  psys_inv x s → next_channel_id (prc (wld s)) < ID_BUDGET →
  prc w = new_number (prc (wld s)) →
  let id := next_channel_id (prc (wld s)) in
  let s' := put_held s (set_ob w h) hl in
  (id ∉ add_ids (queue (prc (wld s')) (pc s'))) ∧ view (tab (prc (wld s'))) id = None ∧
  id < next_channel_id (prc (wld s')) ∧ ¬ retired id.
Proof.
  intros Hi Hlt Ew. destruct (inv_number _ _ Hi Hlt) as [_ E]. pose proof (no_bound _ _ (pi_numbers _ _ _ Hi)) as Hb.
  cbn [wld put_held prc set_ob pc]. rewrite Ew.
  change (queue (new_number ?p)) with (queue p). change (tab (new_number ?p)) with (tab p). split_and!.
  - intros Hin. specialize (Hb _ (or_introl Hin)). lia.
  - apply dec_stable. intros Hin. specialize (Hb _ (or_intror Hin)). lia.
  - rewrite E. lia.
  - intros Hr. destruct (no_retired _ _ (pi_numbers _ _ _ Hi) _ Hr). lia.
Qed.

(** The command is made, refused or queued. *)
Lemma create_queue mem s s0 ow cb a hl :
  psys_inv [] s0 → next_channel_id (prc (wld s0)) < ID_BUDGET →
  (∃ w h, prc w = new_number (prc (wld s0)) ∧ s = put_held s0 (set_ob w h) (held s0)) →
  psys_inv [cb; a] s → channel_at (wld s) a (new_channel (prc (wld s0))) → self ∈ held s →
  pc_ok (tab (prc (wld s))) (pc s) → (∀ ow c, pend s = Some (ow, c) → call_chan c ≠ a) →
  held s ≡ₚ self :: cb :: hl →
  let id := next_channel_id (prc (wld s0)) in
  ∃ r w,
    (let '(got, p) := proc_waiter_acquire (prc (wld s)) in
     match got with
     | Raise e =>
         w ← free_command self mem (wld s) (CMD_ADD_CHANNEL id cb false);
         w ← create_fail self mem w a;
         Done (Ended (Raise e), w)
     | Ret _ =>
         let '(err, p) := enqueue_command p (CMD_ADD_CHANNEL id cb true) in
         match err with
         | Some e =>
             w ← free_command self mem (set_prc (wld s) p) (CMD_ADD_CHANNEL id cb true);
             w ← create_fail self mem (set_prc w (proc_waiter_release (prc w))) a;
             Done (Ended (Raise e), w)
         | None => Done (Waiting, set_prc (wld s) p)
         end
     end) = Done (r, w) ∧
    match r : begun (pyres Z) with
    | Ended _ => psys_ok (put_held s w (held s))
    | Waiting => psys_ok (put_pend s w (Some (ow, CallCreate a cb)) hl)
    end.
Proof.
  intros Hi0 Hlt (w0 & h0 & Ew & Es) Hi Ha Hself Hpok Hpend Hh id. unfold proc_waiter_acquire.
  assert (∀ w, psys_inv [] (put s w (pc s)) → tab (prc w) = tab (prc (wld s)) → psys_ok (put_held s w (held s))) as Hend.
  { intros w Hw Et. change (put_held s w (held s)) with (put s w (pc s)). split; [done|]. cbn [wld put pc]. by rewrite Et. }
  pose proof (held_serving _ _ _ Hi Hself) as Hs. pose proof (serving_freed _ Hs) as Hf.
  destruct (ct_init _ _ _ _ (pi_ctl _ _ _ Hi) Hf) as (Hmx & Hcv & Hwi).
  rewrite Hwi. cbn [negb].
  destruct (cmd_waiter_busy (prc (wld s))) eqn:Eb.
  { destruct (create_refused mem s id cb false a _ Hi Ha) as (w & E & Hiw & Et); [done..|].
    rewrite bind_done in E. destruct E as (w1 & -> & E2). cbn [mbind outcome_bind].
    rewrite E2. eexists _, _. split; [done|]. by apply Hend. }
  assert (pend s = None) as Hp by (pose proof (pi_busy _ _ _ Hi) as H; rewrite Eb in H; by destruct (pend s)).
  unfold enqueue_command. cbn [mutex_inited cond_inited set_cmd accepting_commands]. rewrite Hmx, Hcv. cbn [negb orb].
  destruct (accepting_commands (prc (wld s))) eqn:Eacc; cbn [negb].
  - eexists _, _. split; [done|]. cbn match. split; [|done].
    apply (inv_call [cb; a] [] s ow (CallCreate a cb) (new_channel (prc (wld s0)))); try done.
    + intros i. cbn. intros ->%list_elem_of_singleton. subst s. by apply (number_new [] s0).
    + cbn. rewrite Hh. generalize hl. intros l. perm_count.
  - destruct (create_rejected mem s id cb a _ {| wt_done := false; wt_status := 0 |} Hi Ha) as (w & E & Hiw & Et); [done..|].
    change (set_cmd (prc (wld s)) true ?wt (cmds (prc (wld s)))) with (set_wait (prc (wld s)) true wt).
    rewrite bind_done in E. destruct E as (w1 & -> & E2). cbn [mbind outcome_bind].
    rewrite E2. eexists _, _. split; [done|]. by apply Hend.
Qed.

Lemma pend_alive x s ow c a :
  psys_inv x s → pend s = Some (ow, c) → ob (wld s) !! a = None → call_chan c ≠ a.
Proof.
  intros Hi Hp Ha <-. pose proof (pi_waits _ _ _ Hi) as Hw. rewrite Hp in Hw.
  destruct Hw as (ch & Hch & _). unfold channel_at, py_read in Hch. by rewrite Ha in Hch.
Qed.

Lemma pstep_create s ow cb env mem :
  psys_ok s → proc_enabled self (LCreate ow cb env mem) s → proc_steps (LCreate ow cb env mem) s.
Proof.
  intros [Hi Hpok] (Hself & Hcb & Hnew & Hlt & _). unfold ProcSteps.proc_steps, proc_exec.
  cbn [by_worker program_exec]. unfold PyRtpProc_create_channel_begin.
  assert (psys_ok (put_held s (wld s) (held s))) as Hsame by by destruct s.
  destruct (ce_callable env); cbn [negb]; [|by eexists]. destruct (ce_channel env) as [a|]; [|by eexists].
  specialize (Hnew a eq_refl). destruct (create_object s a Hi Hself Hnew Hlt) as (h & -> & Hi1 & Hr).
  cbn [mbind outcome_bind]. change {| prc := set_life _ _ _ _ _; ob := _ |} with (with_channel (prc (wld s)) h a).
  set (s1 := put_held s (with_channel _ _ _) (held s)) in *. destruct (ce_cmd env); cbn [negb].
  2:{ destruct (inv_decref self mem [a] [] s1 Hi1) as (w & E & Hi2 & _ & Hd).
      { by right; exists self; split; [apply elem_of_app; left|left]. }
      change (wld s1) with (with_channel (prc (wld s)) h a) in E. rewrite E. eexists. split; [done|].
      split; [done|]. cbn [wld put_held pc]. by destruct (pushes_same _ _ (dr_pushes _ _ Hd)) as (-> & _). }
  assert (channel_at (wld s1) a (new_channel (prc (wld s)))) as Hch
    by (unfold channel_at, py_read; cbn [wld s1 put_held ob with_channel]; by rewrite lookup_insert_eq).
  assert (cb ∈ held s1) as Hcb1.
  { change (held s1) with (held s). rewrite (remove_one_perm self (held s) Hself). by right. }
  destruct (alive_held _ _ _ _ Hi1 Hcb1) as [o Ho].
  destruct (inv_incref self [a] s1 cb Hi1) as (h' & E & Hi2 & Hr2).
  { unfold py_read in Ho. by destruct (ob (wld s1) !! cb). }
  change (wld s1) with (with_channel (prc (wld s)) h a) in E. rewrite E. cbn [mbind outcome_bind].
  set (s2 := put_held s1 _ _) in *.
  destruct (create_queue mem s2 s ow cb a (remove_one cb (remove_one self (held s)))) as (r & w & E2 & Hend); try done.
  - by exists (with_channel (prc (wld s)) h a), h'.
  - unfold channel_at in *. cbn [wld s2 put_held ob set_ob]. by rewrite Hr2.
  - intros ow' c Hp. by apply (pend_alive [] s ow').
  - change (held s2) with (held s). by rewrite <- (remove_one_perm cb), <- (remove_one_perm self).
  - change (wld s2) with (set_ob (with_channel (prc (wld s)) h a) h') in E2. cbn zeta in E2. rewrite E2. cbn [mbind outcome_bind].
    eexists. split; [done|]. by destruct r.
Qed.

(** ** [close] *)

Lemma inv_same x s p : psys_inv x s → p = prc (wld s) → psys_inv x (put s (set_prc (wld s) p) (pc s)).
Proof. intros Hi ->. by assert (put s (set_prc (wld s) (prc (wld s))) (pc s) = s) as -> by by destruct s as [[]]. Qed.

Local Ltac ended :=
  eexists (Ended _), _, _; split; [reflexivity|]; split; [done|]; split; [by auto|]; by apply inv_same.

Lemma close_command s a ch cmd_mem :
  psys_inv [] s → a ∈ held s → channel_at (wld s) a ch →
  (negb (pch_closed ch) && pch_proc_obj ch && cmd_mem = true → close_exc (prc (wld s)) = None) →
  ∃ r p ch', rtp_proc_channel_close_begin (prc (wld s)) ch true cmd_mem = (r, p, ch') ∧
    tab p = tab (prc (wld s)) ∧ (ch' = ch ∨ ch' = set_closed ch) ∧
    match r with
    | Ended _ => psys_inv [] (put s (set_prc (wld s) p) (pc s))
    | Waiting => pend s = None ∧ accepting_commands (prc (wld s)) = true ∧ ch' = ch ∧ pch_proc_obj ch = true ∧
        ∃ wt, wt_done wt = false ∧
          p = set_cmd (prc (wld s)) true wt (cmds (prc (wld s)) ++ [CMD_REMOVE_CHANNEL (pch_id ch) true])
    end.
Proof.
  intros Hi Hah Ha Hce. unfold rtp_proc_channel_close_begin. set (p := prc (wld s)) in *.
  destruct (pch_closed ch); [ended|].
  destruct (pch_proc_obj ch) eqn:Epo; cbn [negb];
    [|ended].
  destruct cmd_mem; cbn [negb]; [|ended].
  specialize (Hce eq_refl). assert (set_tab p None (tab p) = p) as Ep by (destruct p; cbn in *; by subst).
  destruct (channel_keeps_self self (wld s) _ a ch (pi_mem _ _ _ Hi)) as [c Hc]; [done..|].
  pose proof (self_serving _ _ _ Hi (mk_is_Some _ _ Hc)) as Hs. pose proof (serving_freed _ Hs) as Hf.
  destruct (ct_init _ _ _ _ (pi_ctl _ _ _ Hi) Hf) as (Hmx & Hcv & Hwi). fold p in Hmx, Hcv, Hwi.
  rewrite Ep. unfold proc_waiter_acquire. rewrite Hwi. cbn [negb].
  destruct (cmd_waiter_busy p) eqn:Eb; [ended|].
  assert (pend s = None) as Hp by (pose proof (pi_busy _ _ _ Hi) as H; fold p in H; rewrite Eb in H; by destruct (pend s)).
  unfold enqueue_command. cbn [mutex_inited cond_inited set_cmd accepting_commands]. rewrite Hmx, Hcv. cbn [negb orb].
  destruct (accepting_commands p) eqn:Eacc; cbn [negb].
  - eexists Waiting, _, ch. split; [done|]. split; [done|]. split; [by left|]. do 4 (split; [done|]).
    by exists {| wt_done := false; wt_status := 0 |}.
  - unfold proc_waiter_release. cbn [mutex_inited set_cmd]. rewrite Hmx. cbn [negb]. unfold close_finish, proc_pop_close_exception.
    cbn [close_exc set_cmd]. rewrite Hce. eexists (Ended Closed), _, _. split; [done|]. split; [done|]. split; [by right|].
    replace (set_tab _ None _) with (set_wait p false {| wt_done := false; wt_status := 0 |}).
    + exact (inv_wait [] s _ Hi Hp).
    + unfold set_wait, set_tab, set_cmd. cbn. by rewrite Hce.
Qed.

Lemma set_channel_here s w a ch ch' :
  psys_inv [] (put s w (pc s)) → channel_at w a ch → ch' = ch ∨ ch' = set_closed ch →
  ∃ c, ob w !! a = Some c ∧
    psys_inv [] (put s {| prc := prc w; ob := <[a := {| rc := rc c; val := OChannel ch' |}]> (ob w) |} (pc s)).
Proof.
  intros Hi Ha Hch.
  assert (pch_id ch' = pch_id ch ∧ pch_proc_obj ch' = pch_proc_obj ch) as [Eid Epo] by by destruct Hch as [->| ->].
  destruct (inv_set_channel [] [] (put s w (pc s)) a ch ch' Hi Ha) as (c & Hc & Hv & Hi'); [done|congruence|done| |].
  - cbn [fields]. by rewrite Epo.
  - exists c. by split.
Qed.

Lemma pstep_close s ow a cmd_mem mem :
  psys_ok s → proc_enabled self (LClose ow a cmd_mem mem) s → proc_steps (LClose ow a cmd_mem mem) s.
Proof.
  intros [Hi Hpok] (Hah & [ch Ha] & _). unfold ProcSteps.proc_steps, proc_exec. cbn [by_worker program_exec].
  unfold channel_close_begin. rewrite Ha. cbn [mbind outcome_bind].
  set (guard := negb (pch_closed ch) && pch_proc_obj ch && cmd_mem).
  assert (∃ w1, (if guard then w ← py_exc_info_clear self mem (wld s) (close_exc (prc (wld s))); Done (set_close w None)
                 else Done (wld s)) = Done w1 ∧ psys_inv [] (put s w1 (pc s)) ∧ channel_at w1 a ch ∧
               tab (prc w1) = tab (prc (wld s)) ∧ (guard = true → close_exc (prc w1) = None)) as (w1 & -> & Hi1 & Ha1 & Et & Hce).
  { destruct guard eqn:Eg; [|by exists (wld s); rewrite put_id].
    pose proof (steal_eq self mem (wld s) None) as E. unfold proc_set_close_exception_steal, set_close at 2 in E. rewrite E.
    assert (owned self s) as Ho.
    { right. exists a. split; [apply elem_of_app; by left|]. right. exists ch. split; [done|].
      unfold guard in Eg. by destruct (pch_proc_obj ch), (pch_closed ch). }
    destruct (inv_tab_drop self mem [] (exc_ref (close_exc (prc (wld s)))) s None (tab (prc (wld s))) Hi Ho)
      as (w & E' & Hi' & _ & Et & Ece & Hk); [apply (pi_table _ _ _ Hi)| |done|].
    { cbn [app]. rewrite Permutation_app_comm. cbn. by rewrite app_nil_r. }
    unfold set_close. rewrite E'. exists w. split_and!; try done. unfold channel_at in *.
    destruct (alive_held _ _ _ a Hi' Hah) as [o Ho']. pose proof (Hk _ _ Ho') as Ho''. cbn [wld put] in *. congruence. }
  cbn [mbind outcome_bind].
  destruct (close_command (put s w1 (pc s)) a ch cmd_mem Hi1 Hah Ha1 Hce) as (r & p & ch' & E & Etp & Hch & Hr).
  cbn [wld put] in E, Etp, Hr. rewrite E. cbn [mbind outcome_bind]. destruct r as [r|].
  - destruct (set_channel_here s (set_prc w1 p) a ch ch' Hr Ha1 Hch) as (c & Hc & Hi2).
    cbn [ob set_prc prc] in Hc, Hi2. rewrite Hc. cbn [mbind outcome_bind]. eexists. split; [done|]. split; [done|].
    cbn [wld put_held prc pc]. by rewrite Etp, Et.
  - destruct Hr as (Hp & Hacc & -> & Hpo & wt & Hwt & ->).
    destruct (set_channel_here s w1 a ch ch Hi1 Ha1 (or_introl eq_refl)) as (c & Hc & Hi2).
    rewrite Hc. cbn [mbind outcome_bind]. eexists. split; [done|]. split; [|cbn [wld put_pend prc pc]; by rewrite Etp, Et].
    apply (inv_call [] [] _ ow (CallClose a) ch (remove_one a (held s)) wt Hi2); try done.
    + unfold channel_at, py_read. cbn [wld put ob call_chan]. by rewrite lookup_insert_eq.
    + cbn. intros id Hid. by apply elem_of_nil in Hid.
    + cbn. by apply remove_one_perm.
Qed.

(** ** The end of a call *)

Lemma pend_serving x s ow c : psys_inv x s → pend s = Some (ow, c) → serving s = true.
Proof.
  intros Hi Hp. pose proof (pi_waits _ _ _ Hi) as Hw. rewrite Hp in Hw. destruct Hw as (ch & Hch & Hpo & _).
  destruct (channel_keeps_self self (wld s) _ _ ch (pi_mem _ _ _ Hi) Hch Hpo) as [d Hd].
  apply (self_serving _ _ _ Hi). by exists d.
Qed.

Lemma inv_answered x' s ow c hl :
  psys_inv [] s → pend s = Some (ow, c) → wt_done (cmd_waiter (prc (wld s))) = true →
  call_refs self c ++ held s ≡ₚ x' ++ hl →
  psys_inv x' (put_pend s (set_prc (wld s) (proc_waiter_release (prc (wld s)))) None hl).
Proof.
  intros Hi Hp Hd Hx. pose proof (serving_freed _ (pend_serving _ _ _ _ Hi Hp)) as Hf.
  destruct Hi as [Hm Hs Hc Ht Hn Hb Hw Hcn Hcl].
  destruct (ct_init _ _ _ _ Hc Hf) as (Hmx & _). unfold proc_waiter_release. rewrite Hmx. cbn [negb].
  constructor; cbn [wld put_pend pc joining freed pend prc set_prc]; try done.
  - apply (mem_ok_prc self (wld s)). eapply mem_ok_perm; [|exact Hm]. unfold ProcInv.roots, pend_refs.
    cbn [wld put_pend pc prc set_prc held pend app]. rewrite Hp.
    change (join_refs self (put_pend _ _ _ _)) with (join_refs self s).
    set (rest := join_refs self s ++ _). change (_ ++ table_refs _ ++ exc_ref _) with
      (queue_refs (queue (prc (wld s)) (pc s)) ++ table_refs (tab (prc (wld s))) ++ exc_ref (close_exc (prc (wld s)))).
    change (join_refs self s ++ _) with rest. clearbody rest. revert Hx.
    generalize (call_refs self c), (held s). intros a b Hx. perm_count.
  - destruct Hc as [H1 H2 H3 H4 H5 H6]. by constructor.
  - destruct Hn as [H1 H2 H3 H4 H5 H6]. by constructor.
  - rewrite Hp in Hw. destruct Hw as (ch & _ & _ & Hw). rewrite Hd in Hw. exact Hw.
Qed.

Lemma pstep_end_create s ow a cb mem :
  psys_ok s → pend s = Some (ow, CallCreate a cb) → wt_done (cmd_waiter (prc (wld s))) = true →
  ∃ s', call_end self s (CallCreate a cb) None mem = Done s' ∧ psys_ok s'.
Proof.
  intros [Hi Hpok] Hp Hd. unfold call_end, PyRtpProc_create_channel_end.
  set (w1 := set_prc (wld s) _).
  assert (tab (prc w1) = tab (prc (wld s))) as Et
    by (cbn [w1 prc set_prc]; unfold proc_waiter_release; by destruct (negb _)).
  destruct (_ =? 0).
  - cbn [mbind outcome_bind]. eexists. split; [done|]. split; [|cbn [wld put_pend pc]; by rewrite Et].
    by apply (inv_answered [] s ow (CallCreate a cb)).
  - pose proof (pi_waits _ _ _ Hi) as Hw. rewrite Hp in Hw. destruct Hw as (ch & Hch & Hpo & _).
    assert (psys_inv [a] (put_pend s w1 None (self :: cb :: held s))) as Hi1.
    { apply (inv_answered _ _ _ _ _ Hi Hp Hd). cbn [call_refs app]. generalize (held s). intros l. perm_count. }
    destruct (create_undo_ok mem [] _ a ch Hi1 Hch Hpo) as (w2 & E & Hi2 & Et2); [by left|done|].
    change (wld (put_pend s w1 None _)) with w1 in E. rewrite E. cbn [mbind outcome_bind].
    eexists. split; [done|]. split; [done|]. cbn [wld put_pend pc] in Et2 |- *. by rewrite Et2, Et.
Qed.

Lemma raise_ok mem s e err :
  psys_inv (exc_ref (Some e)) s → owned self s → (∀ b, err = Some b → ob (wld s) !! b = None) →
  is_Some (ob (wld s) !! self) →
  ∃ l w, raise_channel_proc_error_from self mem (wld s) e err = Done (l, w) ∧
    psys_inv [] (put_held s w (l ++ held s)) ∧ tab (prc w) = tab (prc (wld s)).
Proof.
  intros Hi Ho Hn Hself. unfold raise_channel_proc_error_from, py_exc_info_clear. destruct err as [b|].
  - specialize (Hn b eq_refl). eexists [b], _. split; [done|]. split; [|done].
    apply (inv_make self []) with (a := b) (o := OExc (Some (exc_value e))) in Hi; [|done| |done].
    + by apply (inv_give self [] [b]) in Hi.
    + intros ->. rewrite Hn in Hself. by destruct Hself.
  - destruct (inv_decref self mem (exc_ref (Some e)) [] s Hi Ho) as (w & -> & Hi' & _ & [_ Hp]).
    cbn [mbind outcome_bind]. exists [], w. split; [done|]. split; [done|]. by destruct (pushes_same _ _ Hp) as (-> & _).
Qed.

(** The channel is closed, and what its callback raised is in hand. *)
Lemma close_answered s a ch :
  psys_inv [] s → a ∈ held s → channel_at (wld s) a ch → pch_proc_obj ch = true → mutex_inited (prc (wld s)) = true →
  cmd_waiter_busy (prc (wld s)) = false →
  ∃ r p ch', rtp_proc_channel_close_end (prc (wld s)) ch = (r, p, ch') ∧ tab p = tab (prc (wld s)) ∧
    (ch' = ch ∨ ch' = set_closed ch) ∧
    psys_inv (match r with ChannelProcFailed e => exc_ref (Some e) | _ => [] end) (put s (set_prc (wld s) p) (pc s)).
Proof.
  intros Hi Ha Hch Hpo Hmx Hb. unfold rtp_proc_channel_close_end.
  assert (proc_waiter_release (prc (wld s)) = prc (wld s)) as ->.
  { unfold proc_waiter_release. rewrite Hmx. cbn [negb]. destruct (prc (wld s)); cbn in *. by subst. }
  destruct (negb _); [by eexists _, _, _; split; [|split; [|split; [left|apply inv_same]]]|].
  unfold close_finish, proc_pop_close_exception.
  assert (psys_inv (exc_ref (close_exc (prc (wld s)))) (put s (set_prc (wld s) (set_tab (prc (wld s)) None (tab (prc (wld s))))) (pc s))) as Hi'.
  { apply (inv_tab self []); try done; [apply (pi_table _ _ _ Hi)|]. cbn [app]. rewrite Permutation_app_comm. cbn. by rewrite app_nil_r. }
  destruct (close_exc _) as [e|]; (eexists _, _, _; split; [reflexivity|]; split; [done|]; split; [by right|done]).
Qed.

Lemma pstep_end_close s ow a err mem :
  psys_ok s → pend s = Some (ow, CallClose a) → wt_done (cmd_waiter (prc (wld s))) = true →
  (∀ b, err = Some b → ob (wld s) !! b = None) →
  ∃ s', call_end self s (CallClose a) err mem = Done s' ∧ psys_ok s'.
Proof.
  intros [Hi Hpok] Hp Hd Herr. pose proof (serving_freed _ (pend_serving _ _ _ _ Hi Hp)) as Hf.
  destruct (ct_init _ _ _ _ (pi_ctl _ _ _ Hi) Hf) as (Hmx & _).
  pose proof (pi_waits _ _ _ Hi) as Hw. rewrite Hp in Hw. destruct Hw as (ch & Hch & Hpo & _).
  destruct (channel_keeps_self self (wld s) _ _ ch (pi_mem _ _ _ Hi) Hch Hpo) as [d Hds].
  pose proof (inv_answered [] s ow _ (a :: held s) Hi Hp Hd) as Hi1. specialize (Hi1 (reflexivity _)).
  set (s1 := put_pend s _ None _) in *. unfold call_end, channel_close_end.
  assert (∀ ch, rtp_proc_channel_close_end (prc (wld s1)) ch = rtp_proc_channel_close_end (prc (wld s)) ch) as Erel.
  { intros c. unfold rtp_proc_channel_close_end. cbn [wld s1 put_pend prc set_prc]. unfold proc_waiter_release.
    rewrite Hmx. cbn [negb mutex_inited cmd_waiter set_cmd]. by rewrite Hmx. }
  destruct (close_answered s1 a ch Hi1) as (r & p & ch' & E & Et & Hch' & Hi2); [by left|done|done| | |].
  { cbn [wld s1 put_pend prc set_prc]. unfold proc_waiter_release. by rewrite Hmx. }
  { cbn [wld s1 put_pend prc set_prc]. unfold proc_waiter_release. by rewrite Hmx. }
  set (x := match r with ChannelProcFailed e => exc_ref (Some e) | _ => [] end) in *.
  assert (pch_id ch' = pch_id ch ∧ pch_proc_obj ch' = pch_proc_obj ch) as [Eid Epo] by by destruct Hch' as [->| ->].
  destruct (inv_set_channel x x _ a ch ch' Hi2 Hch Eid) as (c & Hc & Hv & Hi3); [congruence|done|by cbn [fields]; rewrite Epo|].
  change (ob (wld (put s1 _ _))) with (ob (wld s)) in Hc, Hi3. rewrite Hc, Hv, <- Erel, E.
  set (s2 := put_held _ _ _) in Hi3. change {| prc := p; ob := _ |} with (wld s2).
  assert (tab p = tab (prc (wld s))) as Etp.
  { rewrite Et. cbn [wld s1 put_pend prc set_prc]. unfold proc_waiter_release. by rewrite Hmx. }
  assert (∀ l w, psys_inv [] (put_held s2 w (l ++ held s2)) → tab (prc w) = tab p →
    psys_ok (put_pend s w None (a :: l ++ held s))) as Hgo.
  { intros l w Hiw Etw. split; [|cbn [wld put_pend pc]; by rewrite Etw, Etp].
    destruct Hiw as [H1 H2 H3 H4 H5 H6 H7 H8' H9']. constructor; try done. eapply mem_ok_perm; [|exact H1].
    change (held s2) with (a :: held s). unfold ProcInv.roots. cbn [held put_pend put_held wld pc].
    change (pend_refs self (put_held _ _ _)) with (@nil Z). change (pend_refs self (put_pend _ _ _ _)) with (@nil Z).
    change (join_refs self (put_held _ _ _)) with (join_refs self s). change (join_refs self (put_pend _ _ _ _)) with (join_refs self s).
    change (pc s2) with (pc s). cbn [app]. rewrite <- Permutation_middle. done. }
  assert (owned self s2) as Ho.
  { right. exists a. split; [by left|]. right. exists ch'. split; [|by rewrite Epo].
    unfold channel_at, py_read. cbn [ob s2 wld put_held set_ob]. by rewrite lookup_insert_eq. }
  assert (psys_inv [] s2 → ∃ s', Done (put_pend s (wld s2) None (a :: [] ++ held s)) = Done s' ∧ psys_ok s') as Hplain.
  { intros Hin. eexists. split; [done|]. by apply Hgo. }
  destruct r as [|e|e]; [by apply Hplain..|].
  destruct (raise_ok mem s2 e err Hi3 Ho) as (l & w & Er & Hi4 & Ew).
  - intros b Hb. specialize (Herr b Hb). cbn [ob s2 wld put_held set_ob]. rewrite lookup_insert_ne; [done|].
    intros ->. unfold channel_at, py_read in Hch. cbn [call_chan] in Hch. by rewrite Herr in Hch.
  - cbn [ob s2 wld put_held set_ob]. destruct (decide (a = self)) as [->|Hne]; [by rewrite lookup_insert_eq|].
    rewrite lookup_insert_ne by done. by exists d.
  - rewrite Er. cbn [mbind outcome_bind]. eexists. split; [done|]. apply Hgo; [done|]. by rewrite Ew.
Qed.

Lemma pstep_end s err mem : psys_ok s → proc_enabled self (LEnd err mem) s → proc_steps (LEnd err mem) s.
Proof.
  intros Hok (Hp & Hd & Herr). unfold ProcSteps.proc_steps, proc_exec. cbn [by_worker program_exec].
  destruct (pend s) as [[ow [a cb|a]]|] eqn:Ep; [|by eapply pstep_end_close|done].
  by eapply pstep_end_create.
Qed.
End Methods.
