(* ===== verification/ProcRun.v ===== *)
(** Every run of the scheduler of [ProcObj] keeps the invariant of [ProcInv]; how
    runs are computed, and how far the worker has to go to answer. *)
From stdpp Require Import prelude list gmap.
From Stdlib Require Import ZArith Lia.
From S2P Require Import Prelude Py RcHeap RcGraph Synth Sync Sched Proc ProcObj ProcInv ProcSteps ProcCalls ProcMethods.
Local Open Scope Z_scope.

Section Run.
Context `{Rt : !Retired} (self : Z).

Lemma pstep_any s l : psys_ok self s → proc_enabled self l s → proc_steps self l s.
Proof.
  destruct l; [apply pstep_detach|apply pstep_cmd|apply pstep_return|apply pstep_clock|apply pstep_pop
    |apply pstep_sleep|apply pstep_wake|apply pstep_clear|apply pstep_new|apply pstep_take|apply pstep_drop
    |apply pstep_capture|apply pstep_create|apply pstep_close|apply pstep_end|apply pstep_shutdown|apply pstep_join].
Qed.

(** Numbers given up in a state stay so, see [pstep_any]. *)
Lemma psys_retire s (R : Retired) :
  @psys_ok Rt self s →
  (∀ id, @retired R id → id < next_channel_id (prc (wld s)) ∧
     (id ∉ add_ids (queue (prc (wld s)) (pc s))) ∧ view (tab (prc (wld s))) id = None) →
  @psys_ok R self s.
Proof.
  intros [[Hm Hs Hc Ht [H1 H2 H3 H4 H5 H6] Hb Hw Hcn Hcl] Hpok] Hr. split; [|done]. by constructor.
Qed.
End Run.

(** No number is given up. *)
Definition nobody : Retired := λ _, False.

Section Reach.
Context (self : Z).
#[local] Existing Instance nobody.

(** A scheduler just made. *)
Lemma fresh_ok clk p : PyRtpProc_init (PyRtpProc_new None) 0 (0, clk) 0 0 = (Ret (), p) → psys_ok self (fresh_psys self p).
Proof.
  intros [= <-]. split; [|done]. constructor; cbn; try done.
  - split; cbn.
    + apply (graph_make (fields self) ∅ [] self OProc); [apply graph_ok_empty|done].
    + apply (acyclic_make (fields self) ∅ []); [apply graph_ok_empty| |done|apply not_elem_of_nil].
      by exists (λ _, 0%nat).
  - unfold py_read. by rewrite lookup_singleton_eq.
  - constructor; try done. split; [done|]. apply not_elem_of_nil.
  - exists []. apply empty_ok.
  - constructor; cbn; try done; [apply NoDup_nil_2|].
    intros id [H|H]; [by apply elem_of_nil in H|done].
  - intros a ch Ha. unfold channel_at, py_read in Ha. cbn in Ha. destruct (decide (a = self)) as [->|Hne].
    + by rewrite lookup_singleton_eq in Ha.
    + by rewrite lookup_singleton_ne in Ha.
Qed.

Lemma reach_ok s : preach self s → psys_ok self s.
Proof.
  induction 1 as [clk p Hp|l s s' _ IH Hen Hs]; [by apply (fresh_ok clk)|].
  destruct (pstep_any self s l IH Hen) as (s1 & E & Hok). congruence.
Qed.
End Reach.
