(* ===== verification/ProcLive.v ===== *)
(** What the threads of the program can do to a call that waits, how many steps of
    the worker an answer takes, and what numbers callbacks are called with. *)
From stdpp Require Import prelude list gmap.
From Stdlib Require Import ZArith Lia.
From S2P Require Import Prelude Py RcHeap RcGraph Synth Sync Sched Proc ProcObj ProcInv ProcSteps ProcCalls ProcMethods ProcRun.
Local Open Scope Z_scope.

(** * Runs *)

Section Live.
Context (self : Z).

(** ** The program while a call waits *)

(** Commands may be queued behind those there are; the waiter is left alone. *)
Record grows (p p' : PyRtpProc) : Prop := {
  gr_cmds : ∃ l, cmds p' = cmds p ++ l;
  gr_waiter : cmd_waiter p' = cmd_waiter p;
  gr_busy : cmd_waiter_busy p' = cmd_waiter_busy p;
}.

#[export] Instance grows_preorder : PreOrder grows.
Proof.
  split; [intros p; split; [exists []; by rewrite app_nil_r|done..]|].
  intros p1 p2 p3 [[l1 E1] ? ?] [[l2 E2] ? ?]. split; [|congruence..].
  exists (l1 ++ l2). by rewrite E2, E1, app_assoc.
Qed.

Lemma grows_same p p' :
  cmds p' = cmds p → cmd_waiter p' = cmd_waiter p → cmd_waiter_busy p' = cmd_waiter_busy p → grows p p'.
Proof. intros E ? ?. split; [|done..]. exists []. by rewrite E, app_nil_r. Qed.

Lemma pushes_grows p p' : pushes p p' → grows p p'.
Proof. intros (ids & -> & _). by split; [eexists|..]. Qed.

Lemma decref_grows mem w l w' : decref_all self mem w l = Done w' → grows (prc w) (prc w').
Proof. intros E. eapply pushes_grows, decref_all_pushes, E. Qed.

Lemma create_fail_grows mem w a w' : create_fail self mem w a = Done w' → grows (prc w) (prc w').
Proof.
  unfold create_fail. destruct (ob w !! a) as [c|]; [|done]. destruct (val c); try done.
  rewrite bind_done. intros (w1 & E1%decref_grows & E2%decref_grows). by etrans.
Qed.

Lemma create_busy mem w cb env r w' :
  cmd_waiter_busy (prc w) = true → PyRtpProc_create_channel_begin self mem w cb env = Done (r, w') →
  r ≠ Waiting ∧ grows (prc w) (prc w').
Proof.
  intros Hb. unfold PyRtpProc_create_channel_begin. destruct (ce_callable env); cbn [negb]; [|by intros [= <- <-]].
  destruct (ce_channel env) as [a|]; [|by intros [= <- <-]]. rewrite bind_done. intros (h & _ & E). revert E.
  set (w1 := {| prc := _; ob := _ |}). assert (grows (prc w) (prc w1)) as Hg by by apply grows_same.
  destruct (ce_cmd env); cbn [negb].
  - rewrite bind_done. intros (h' & _ & E). revert E. unfold proc_waiter_acquire.
    change (cmd_waiter_busy (prc (set_ob w1 h'))) with (cmd_waiter_busy (prc w)). rewrite Hb.
    destruct (negb _); rewrite bind_done; intros (w2 & E1%decref_grows & E2); revert E2;
      rewrite bind_done; intros (w3 & E3%create_fail_grows & [= <- <-]); (split; [done|]);
      do 2 (etrans; [|done]); done.
  - rewrite bind_done. intros (w2 & E1%decref_grows & [= <- <-]). split; [done|]. by etrans.
Qed.

Lemma close_busy mem w a cmd_mem r w' :
  cmd_waiter_busy (prc w) = true → channel_close_begin self mem w a cmd_mem = Done (r, w') →
  r ≠ Waiting ∧ grows (prc w) (prc w').
Proof.
  intros Hb. unfold channel_close_begin. rewrite bind_done. intros (o & _ & E). destruct o as [|ch| |]; try done.
  rewrite bind_done in E. destruct E as (w1 & E1 & E2).
  assert (grows (prc w) (prc w1)) as Hg.
  { destruct (_ && cmd_mem); [|by injection E1 as ->]. rewrite bind_done in E1.
    destruct E1 as (w2 & E1%decref_grows & [= <-]). etrans; [done|]. by apply grows_same. }
  destruct (rtp_proc_channel_close_begin (prc w1) ch true cmd_mem) as [[r' p] ch'] eqn:Er.
  destruct (ob w1 !! a) as [c|]; [|done]. injection E2 as -> <-. cbn [prc].
  assert (r ≠ Waiting ∧ grows (prc w1) p) as [? ?]; [|split; [done|by etrans]].
  pose proof (gr_busy _ _ Hg) as Hb1. rewrite Hb in Hb1. revert Er. unfold rtp_proc_channel_close_begin.
  destruct (pch_closed ch); [by inversion 1; subst|]. destruct (negb (pch_proc_obj ch)); [by inversion 1; subst|].
  destruct (negb cmd_mem); [by inversion 1; subst|]. unfold proc_waiter_acquire. cbn [cmd_waiter_inited cmd_waiter_busy set_tab].
  rewrite Hb1. destruct (negb (cmd_waiter_inited _)); inversion 1; subst; (split; [done|by apply grows_same]).
Qed.

(** A step of the program, not the end of the call, leaves the waiting to it. *)
Record calm (s s' : psys) : Prop := {
  cm_pc : pc s' = pc s;
  cm_pend : pend s' = pend s;
  cm_grows : grows (prc (wld s)) (prc (wld s'));
}.

Context `{Rt : !Retired}.

Lemma pend_busy x s : psys_inv self x s → pend s ≠ None → cmd_waiter_busy (prc (wld s)) = true.
Proof. intros Hi Hp. rewrite (pi_busy _ _ _ Hi). by destruct (pend s). Qed.

(** A waiting call keeps the scheduler. *)
Lemma drop_calm s a mem cmd_mem s' :
  psys_ok self s → pend s ≠ None → a ∈ held s → program_exec self (LDrop a mem cmd_mem) s = Done s' → calm s s'.
Proof.
  intros [Hi _] Hp Ha. cbn [program_exec]. rewrite bind_done. intros (w & E & E2).
  set (s1 := put_held s (wld s) (remove_one a (held s))).
  destruct (inv_hand self [] [a] s Hi) as [Hm _ _ _ _ _ Hw _ _].
  { cbn. rewrite bool_decide_eq_true_2 by done. by eexists. }
  rewrite app_nil_r in Hm.
  destruct (decrefs_ok self mem (wld s) [a] (roots self s1) Hm) as (w' & E' & Hm' & Hd).
  assert (w' = w) as -> by congruence.
  destruct (pend s) as [[ow c]|] eqn:Ep; [|done].
  pose proof (pi_waits _ _ _ Hi) as Hw'. rewrite Ep in Hw'. destruct Hw' as (ch & Hch & Hpo & _).
  destruct (channel_keeps_self self w (roots self s1) (call_chan c) ch) as [d Hd']; [done| |done|].
  { unfold channel_at in *. rewrite <- Hch. apply (drops_read self _ w _ _ Hd Hm').
    unfold roots, pend_refs. change (pend s1) with (pend s). rewrite Ep. apply elem_of_app. right.
    apply elem_of_app. left. destruct c; cbn [call_refs call_chan]; rewrite ?elem_of_cons; auto. }
  rewrite Hd' in E2. cbn [has orb] in E2. injection E2 as <-. split; try done. by eapply decref_grows.
Qed.

Lemma program_calm s l s' :
  psys_ok self s → pend s ≠ None → proc_enabled self l s → by_worker l = false →
  (∀ err mem, l ≠ LEnd err mem) → proc_exec self l s = Done s' → calm s s'.
Proof.
  intros Hok Hp Hen Hw He. pose proof (po_inv _ _ Hok) as Hi. pose proof (pend_busy _ _ Hi Hp) as Hb.
  unfold proc_exec. rewrite Hw. destruct l as [| | | | | | | |a o|a|a mem cm|f a|ow cb env mem|ow a cm mem|err mem|ow cm|mem];
    try done; cbn [program_exec].
  - by intros [= <-].
  - rewrite bind_done. by intros (h & _ & [= <-]).
  - destruct Hen as [Ha _]. by apply drop_calm.
  - destruct (ob (wld s) !! f) as [c|]; [|done]. destruct (val c); try done. by intros [= <-].
  - rewrite bind_done. intros ([r w] & E & [= <-]). apply create_busy in E as [Hr Hg]; [|done].
    by destruct r; [|done].
  - rewrite bind_done. intros ([r w] & E & [= <-]). apply close_busy in E as [Hr Hg]; [|done].
    by destruct r; [|done].
  - by destruct (He err mem).
  - unfold shutdown_step. destruct Hen as (_ & -> & ->). destruct (rtp_proc_shutdown_begin _ _) as [r p] eqn:Er.
    assert (grows (prc (wld s)) p) as Hg.
    { revert Er. unfold rtp_proc_shutdown_begin. destruct (negb (worker_running _)); [by intros [= _ <-]|].
      destruct (shutdown_queued _); [by intros [= _ <-]|]. destruct (negb cm); [by intros [= _ <-]|].
      intros [= _ <-]. split; [by eexists|done..]. }
    by destruct r; intros [= <-].
  - unfold join_step. destruct (joining s) as [[|]|] eqn:Ej; [|exfalso|by intros [= <-]].
    + intros [= <-]. split; try done. by apply grows_same.
    + destruct (pend s) as [[ow c]|] eqn:Ep; [|done]. pose proof (pend_serving _ _ _ _ _ Hi Ep) as Hs.
      unfold serving in Hs. rewrite Ej in Hs. by destruct (freed s).
Qed.

(** ** The way to the answer *)

(** Steps from a list of commands to the one somebody waits for, and through it. *)
Fixpoint until_waited (l : list ProcCmd) : option nat :=
  match l with
  | [] => None
  | cmd :: l => if cmd_waits cmd then Some 2%nat else (λ n, (2 + n)%nat) <$> until_waited l
  end.

(** [None]: the loop over what is due comes first, and may keep the worker as long
    as callbacks ask to be called at once. *)
Definition answer_steps (s : psys) : option nat :=
  match pc s with
  | PTop => S <$> until_waited (cmds (prc (wld s)))
  | PWait _ => (λ n, (2 + n)%nat) <$> until_waited (cmds (prc (wld s)))
  | PCmds cmd rest _ => until_waited (cmd :: rest)
  | PCall _ (FirstCall _ cmd rest _) => if cmd_waits cmd then Some 1%nat else S <$> until_waited rest
  | _ => None
  end.

Definition answered (s : psys) : bool := wt_done (cmd_waiter (prc (wld s))).

Lemma until_app l l' n : until_waited l = Some n → until_waited (l ++ l') = Some n.
Proof.
  revert n. induction l as [|cmd l IH]; intros n; [done|]. cbn. destruct (cmd_waits cmd); [done|].
  destruct (until_waited l) as [m|]; [|done]. by rewrite (IH m).
Qed.

Lemma calm_steps s s' n : calm s s' → answer_steps s = Some n → answer_steps s' = Some n.
Proof.
  intros [Ep _ [[l E] _ _]]. unfold answer_steps. rewrite Ep. destruct (pc s); try done; rewrite E;
    (destruct (until_waited (cmds (prc (wld s)))) as [m|] eqn:Eu; [|done]);
    by rewrite (until_app _ l m Eu).
Qed.

Lemma next_steps rest b s n :
  pc s = next_cmd rest b → until_waited rest = Some n → answer_steps s = Some n.
Proof. intros E Hu. unfold answer_steps. rewrite E. by destruct rest, b. Qed.

(** A worker's step on a command. *)
Definition closer (s s' : psys) : Prop :=
  answered s' = true ∨ ∃ n m, answer_steps s = Some n ∧ answer_steps s' = Some m ∧ (m < n)%nat.

Lemma goes_put s w c s' : worker_goes self s w c = Done s' → s' = put s w c.
Proof. unfold worker_goes. destruct (_ && _); [done|]. by intros [= <-]. Qed.

Lemma complete_answered w st : wt_done (cmd_waiter (prc (complete w true st))) = true.
Proof. done. Qed.

(** Without a waiter a command is done with, or [k] steps away. *)
Lemma closer_next s s' cmd rest b w k :
  pc s' = next_cmd rest b → wld s' = w →
  answer_steps s = (if cmd_waits cmd then Some (S k) else (λ n, (S k + n)%nat) <$> until_waited rest) →
  answer_steps s ≠ None → (cmd_waits cmd = true → wt_done (cmd_waiter (prc w)) = true) → closer s s'.
Proof.
  intros Hpc <- Ha Hn Hw. rewrite Ha in Hn. destruct (cmd_waits cmd); [left; by apply Hw|right].
  destruct (until_waited rest) as [n|] eqn:Eu; [|done]. exists (S k + n)%nat, n. split; [done|].
  split; [by apply (next_steps rest b)|]. lia.
Qed.

Lemma command_closer s realloc now mem cmd rest seen s' :
  pc s = PCmds cmd rest seen → answer_steps s ≠ None →
  command_step self s realloc now mem cmd rest seen = Done s' → closer s s'.
Proof.
  intros Hpc Hn E. assert (answer_steps s = if cmd_waits cmd then Some 2%nat else (λ n, (2 + n)%nat) <$> until_waited rest) as Ha
    by (unfold answer_steps; by rewrite Hpc).
  assert (∀ w s', worker_goes self s w (next_cmd rest seen) = Done s' →
    (cmd_waits cmd = true → wt_done (cmd_waiter (prc w)) = true) → closer s s') as Hgo.
  { intros w s1 ->%goes_put Hw. by apply (closer_next s _ cmd rest seen w 1). }
  destruct cmd as [id cb waits|id waits|]; cbn [command_step] in E.
  - rewrite bind_done in E. destruct E as ([slot t] & _ & E). destruct slot as [ch|].
    + injection E as <-. right. rewrite Ha in Hn |- *. cbn [cmd_waits] in *. unfold answer_steps. cbn [pc enter cmd_waits].
      destruct waits; [by exists 2%nat, 1%nat; split_and!; [..|lia]|].
      destruct (until_waited rest) as [n|]; [|done]. by exists (2 + n)%nat, (S n); split_and!; [..|lia].
    + rewrite bind_done in E. destruct E as (w & Ew%decref_grows & E). apply (Hgo w); [done|].
      cbn [cmd_waits]. intros ->. by rewrite (gr_waiter _ _ Ew).
  - rewrite bind_done in E. destruct E as (w & _ & E). apply (Hgo _ _ E). cbn [cmd_waits]. by intros ->.
  - injection E as <-. by apply (closer_next s _ CMD_SHUTDOWN rest true (wld s) 1).
Qed.

Lemma return_closer s o now mem ch start cmd rest seen s' :
  pc s = PCall ch (FirstCall start cmd rest seen) → answer_steps s ≠ None →
  return_step self s o now mem ch (FirstCall start cmd rest seen) = Done s' → closer s s'.
Proof.
  intros Hpc Hn. unfold return_step. rewrite bind_done. intros (w & _ & ->%goes_put).
  apply (closer_next s _ cmd rest seen (complete w (cmd_waits cmd) 0) 0); try done.
  - unfold answer_steps. rewrite Hpc. by destruct (until_waited rest).
  - by intros ->.
Qed.

(** Whatever the worker does brings the answer closer. *)
Lemma worker_closer s l s' :
  psys_ok self s → answer_steps s ≠ None → proc_enabled self l s → by_worker l = true →
  proc_exec self l s = Done s' → closer s s'.
Proof.
  intros [Hi _] Hn Hen Hl. unfold proc_exec. rewrite Hl. unfold proc_worker_exec.
  destruct (freed s) eqn:Ef; [done|].
  destruct (ct_init _ _ _ _ (pi_ctl _ _ _ Hi) Ef) as (Hmx & _). unfold closer. 
  destruct l as [|realloc now mem|o now mem|now| |now cn| |mem| | | | | | | | |]; try done; cbn in Hen.
  - unfold detach_commands. rewrite Hmx. unfold answer_steps in *. rewrite Hen in *. cbn [negb]. intros [= <-]. right.
    destruct (until_waited (cmds (prc (wld s)))) as [n|] eqn:Eu; [|done]. exists (S n), n. split; [done|].
    split; [|lia]. by apply (next_steps (cmds (prc (wld s))) false).
  - destruct Hen as ((cmd & rest & seen & Hpc) & _). rewrite Hpc. by apply command_closer.
  - destruct Hen as ((ch & [start cmd rest seen|] & Hpc) & _); rewrite Hpc; [by apply return_closer|].
    by destruct Hn; unfold answer_steps; rewrite Hpc.
  - by destruct Hn; unfold answer_steps; rewrite Hen.
  - destruct Hen as [now Hpc]. by destruct Hn; unfold answer_steps; rewrite Hpc.
  - destruct Hen as [Hpc _]. by destruct Hn; unfold answer_steps; rewrite Hpc.
  - destruct Hen as (u & Hpc & _). unfold answer_steps in *. rewrite Hpc in *. intros [= <-]. right.
    cbn [pc put wld]. destruct (until_waited _) as [n|]; [|done]. exists (2 + n)%nat, (S n). split_and!; [done..|lia].
  - destruct Hen as ([i Hpc] & _). by destruct Hn; unfold answer_steps; rewrite Hpc.
Qed.

(** The worker is about to call a callback: for a command, or for what is due. *)
Definition sets_out (s : psys) (id : Z) : Prop :=
  (∃ cb waits rest seen, pc s = PCmds (CMD_ADD_CHANNEL id cb waits) rest seen) ∨
  (∃ now t ch d, pc s = PDue now ∧ pop_due_channel (tab (prc (wld s))) now = Done (Some ch, t) ∧
     rd_chan t ch = Done d ∧ ch_active d = true ∧ ch_id d = id).

(** The worker leaves the waiting to the program, and the log of calls grows by one
    at most. *)
Lemma worker_frame s l s' :
  by_worker l = true → proc_exec self l s = Done s' →
  pend s' = pend s ∧ freed s' = freed s ∧ joining s' = joining s ∧
  (asked s' = asked s ∨ ∃ id call, asked s' = (id, call) :: asked s ∧ sets_out s id).
Proof.
  intros Hl. unfold proc_exec. rewrite Hl. unfold proc_worker_exec. destruct (freed s) eqn:Ef; [done|].
  assert (∀ w c s', worker_goes self s w c = Done s' → pend s' = pend s ∧ freed s' = false ∧
    joining s' = joining s ∧ asked s' = asked s) as Hgo by by intros w c s1 ->%goes_put.
  assert (pend s' = pend s ∧ freed s' = false ∧ joining s' = joining s ∧ asked s' = asked s →
    pend s' = pend s ∧ freed s' = false ∧ joining s' = joining s ∧ (asked s' = asked s ∨
    ∃ id call, asked s' = (id, call) :: asked s ∧ sets_out s id)) as Hsame by (intros (?&?&?&?); auto).
  destruct l as [|realloc now mem|o now mem|now| |now cn| |mem| | | | | | | | |]; try done;
    destruct (pc s) as [|cmd rest seen|ch site| |now'| |u|i|] eqn:Hpc;
    try (intros [= <-]; by apply Hsame).
  - destruct (detach_commands _) as [cs p]. intros [= <-]. by apply Hsame.
  - destruct cmd as [id cb w|id w|]; cbn [command_step]; [| |intros [= <-]; by apply Hsame].
    + rewrite bind_done. intros ([[ch|] t] & _ & E).
      * injection E as <-. do 3 (split; [done|]). right. do 2 eexists. split; [done|]. left. rewrite Hpc. by do 4 eexists.
      * rewrite bind_done in E. destruct E as (w1 & _ & E). by eapply Hsame, Hgo.
    + rewrite bind_done. intros (w1 & _ & E). by eapply Hsame, Hgo.
  - unfold return_step.
    by destruct site; rewrite bind_done; intros (w1 & _ & ->%goes_put); apply Hsame.
  - unfold pop_step. rewrite bind_done. intros ([[ch|] t] & Ep & E); [|injection E as <-; by apply Hsame].
    rewrite bind_done in E. destruct E as (c & Ec & E).
    destruct (ch_active c) eqn:Ha; [destruct (ch_proc_in_cb c)|]; injection E as <-; try by apply Hsame.
    do 3 (split; [done|]). right. do 2 eexists. split; [done|]. right. by exists now', t, ch, c.
  - unfold sleep_step. destruct (t_head _) as [ch|]; [|intros [= <-]; by apply Hsame]. rewrite bind_done. intros (c & _ & E).
    destruct (_ <=? _); [injection E as <-; by apply Hsame|]. rewrite bind_done in E. destruct E as (u & _ & [= <-]).
    by apply Hsame.
  - unfold clear_step. destruct (_ <? _)%nat.
    + rewrite bind_done. intros (w1 & _ & E). by eapply Hsame, Hgo.
    + destruct (detach_commands _) as [cs p]. rewrite bind_done. intros (w1 & _ & E). by eapply Hsame, Hgo.
Qed.

(** What the worker can do on its way. *)
Lemma worker_may s c :
  psys_ok self s → pend s = Some (false, c) → answer_steps s ≠ None →
  zlen (t_chans (tab (prc (wld s)))) < CHANNEL_BUDGET →
  ∃ l, by_worker l = true ∧ proc_enabled self l s.
Proof.
  intros [Hi _] Hp Hn Hlen. pose proof (pi_waits _ _ _ Hi) as Hw. rewrite Hp in Hw.
  destruct Hw as (ch & Hch & Hpo & _).
  assert (owned self s) as Ho.
  { right. exists (call_chan c). split; [|right; by exists ch]. unfold pend_refs. rewrite Hp, !elem_of_app.
    right. left. destruct c; cbn [call_refs call_chan]; rewrite ?elem_of_cons; auto. }
  unfold answer_steps in Hn. destruct (pc s) as [|cmd rest seen|ch' [start cmd rest seen|]| |now'| |u|i|] eqn:Hpc; try done.
  - by exists LDetach.
  - exists (LCmd (λ _ n, Some n) 0 (λ _, true)). split; [done|]. cbn. rewrite Hpc. split; [by do 3 eexists|done].
  - exists (LReturn {| co_args := true; co_result := Ret PyNone; co_exc := 0 |} 0 (λ _, true)).
    split; [done|]. cbn. split; [by do 2 eexists|]. split; [intros p ?; congruence|]. split; [done|]. done.
  - exists LWake. split; [done|]. exists u. split; [done|]. intros _ E. by rewrite E in Hn.
Qed.

(** ** Runs *)

Inductive pruns : psys → list plabel → psys → Prop :=
| pruns_nil s : pruns s [] s
| pruns_cons s l s1 ls s2 :
    proc_enabled self l s → proc_exec self l s = Done s1 → pruns s1 ls s2 → pruns s (l :: ls) s2.

Definition worker_steps (ls : list plabel) : nat := length (filter (λ l, by_worker l = true) ls).

Lemma answer_pos s n : answer_steps s = Some n → (1 ≤ n)%nat.
Proof.
  assert (∀ l m, until_waited l = Some m → (1 ≤ m)%nat) as Hu.
  { intros [|cmd l] m; [done|]. cbn. destruct (cmd_waits cmd); [by intros [= <-]; lia|].
    destruct (until_waited l); [|done]. intros [= <-]. lia. }
  unfold answer_steps. destruct (pc s) as [|cmd rest seen|ch [start cmd rest seen|]| | | |u|i|]; try done; [|apply Hu| |].
  - destruct (until_waited _); [|done]. intros [= <-]. lia.
  - destruct (cmd_waits cmd); [by intros [= <-]|]. destruct (until_waited _); [|done]. intros [= <-]. lia.
  - destruct (until_waited _); [|done]. intros [= <-]. lia.
Qed.

Lemma pruns_answers s ls s' n :
  psys_ok self s → pend s ≠ None → answer_steps s = Some n → pruns s ls s' → (n ≤ worker_steps ls)%nat →
  ∃ ls1 ls2 s1, ls = ls1 ++ ls2 ∧ pruns s ls1 s1 ∧ answered s1 = true ∧ pend s1 = pend s.
Proof.
  intros Hok Hp Hn Hrun. revert n Hok Hp Hn.
  induction Hrun as [s|s l s1 ls s2 Hen Hs Hrun IH]; intros n Hok Hp Hn Hle.
  { apply answer_pos in Hn. cbn in Hle. lia. }
  destruct (answered s) eqn:Ea; [by exists [], (l :: ls), s; split; [|split; [constructor|]]|].
  assert (psys_ok self s1) as Hok1.
  { destruct (pstep_any self s l Hok Hen) as (s1' & E & H). congruence. }
  assert (∀ m, pend s1 = pend s → answer_steps s1 = Some m → (m ≤ worker_steps ls)%nat →
    ∃ ls1 ls2 s1', l :: ls = ls1 ++ ls2 ∧ pruns s ls1 s1' ∧ answered s1' = true ∧ pend s1' = pend s) as Hgo.
  { intros m Hp1 Hm Hlm. destruct (IH m Hok1) as (ls1 & ls2 & s3 & -> & Hr & Ha & Hp3); [congruence|done..|].
    exists (l :: ls1), ls2, s3. split; [done|]. split; [by eapply pruns_cons|]. split; [done|]. congruence. }
  unfold worker_steps in Hle. rewrite filter_cons in Hle. destruct (by_worker l) eqn:El.
  - rewrite decide_True in Hle by done. destruct (worker_frame s l s1 El Hs) as [Hp1 _].
    assert (closer s s1) as Hc by (apply (worker_closer s l); [done|congruence|done..]).
    destruct Hc as [Ha|(n' & m & Hn' & Hm & Hlt)].
    + exists [l], ls, s1. split; [done|]. split; [by eapply pruns_cons; [..|constructor]|]. by split.
    + apply (Hgo m); [done..|]. cbn [length] in Hle. unfold worker_steps. assert (n' = n) as -> by congruence. lia.
  - rewrite decide_False in Hle by congruence.
    assert (calm s s1) as Hc.
    { apply (program_calm s l); try done. intros err mem ->. destruct Hen as (_ & Hd & _).
      unfold answered in Ea. congruence. }
    apply (Hgo n); [by apply (cm_pend _ _ Hc)|by apply (calm_steps s)|done].
Qed.

(** ** The numbers of the calls *)

Lemma program_asked s l s' : by_worker l = false → proc_exec self l s = Done s' → asked s' = asked s.
Proof.
  intros Hl. unfold proc_exec. rewrite Hl.
  destruct l as [| | | | | | | |a o|a|a mem cm|f a|ow cb env mem|ow a cm mem|err mem|ow cm|mem];
    try done; cbn [program_exec].
  - by intros [= <-].
  - rewrite bind_done. by intros (h & _ & [= <-]).
  - rewrite bind_done. intros (w & _ & E). destruct (_ || has (joining s)); [by injection E as <-|].
    unfold dealloc_step in E. destruct (rtp_proc_shutdown_begin _ _) as [[r|] p]; [|by injection E as <-].
    rewrite bind_done in E. by destruct E as (w1 & _ & [= <-]).
  - destruct (ob (wld s) !! f) as [c|]; [|done]. destruct (val c); try done. by intros [= <-].
  - rewrite bind_done. intros ([r w] & _ & [= <-]). by destruct r, (ce_channel env).
  - rewrite bind_done. intros ([r w] & _ & [= <-]). by destruct r.
  - destruct (pend s) as [[ow [a cb|a]]|]; [| |by intros [= <-]]; cbn [call_end]; rewrite bind_done.
    + by intros ([r w] & _ & [= <-]).
    + by intros ([[r l] w] & _ & [= <-]).
  - unfold shutdown_step. destruct (rtp_proc_shutdown_begin _ _) as [[r|] p]; [by intros [= <-]|].
    destruct ow; [by intros [= <-]|]. by destruct (joining s); intros [= <-].
  - unfold join_step. destruct (joining s) as [[|]|]; [by intros [= <-]| |by intros [= <-]].
    rewrite bind_done. by intros (w & _ & [= <-]).
Qed.

(** A channel in use is in view. *)
Lemma active_view t i c : t_chans t !! i = Some c → ch_active c = true → view t (ch_id c) ≠ None.
Proof.
  intros Hc Ha. rewrite view_erase, view_list_none. intros Hn. specialize (Hn i _ (erase_lookup _ _ _ Hc)).
  change (has_id (ch_id c) (set_next None c)) with (has_id (ch_id c) c) in Hn.
  assert (has_id (ch_id c) c = true) by by apply has_id_true. congruence.
Qed.

Lemma sets_out_view s id :
  psys_inv self [] s → sets_out s id →
  id ∈ add_ids (queue (prc (wld s)) (pc s)) ∨ view (tab (prc (wld s))) id ≠ None.
Proof.
  intros Hi [(cb & waits & rest & seen & ->)|(now & t & ch & d & Hpc & Hp & Hd & Ha & <-)]; [left; by left|right].
  destruct (pi_table _ _ _ Hi) as [ag Ht].
  destruct (match ag with [] => false | x :: _ => x.1 <=? now end) eqn:Hdue.
  - destruct ag as [|[ns i] ag]; [done|]. cbn in Hdue. zbool.
    destruct (pop_table_ok _ ns i ag now Ht Hdue)
      as (t' & c & cb & Hp' & _ & Hc & _ & Hac & _ & _ & _ & _ & e & He & Her).
    rewrite Hp in Hp'. injection Hp' as -> ->. rewrite (rd_chan_at _ _ _ Hc) in Hd. injection Hd as <-.
    intros Hv. apply (active_view _ _ _ Hc Ha). by apply (replaced_view _ _ _ _ _ _ He Her).
  - assert (pop_due ag now = (None, ag)) as Hn by (destruct ag as [|x ag]; [done|]; cbn in *; zbool; by zdec).
    by rewrite (pop_due_none _ _ _ (to_sched _ _ Ht) Hn) in Hp.
Qed.

(** Numbers given up are not called. *)
Lemma asked_step s l s' :
  psys_ok self s → proc_exec self l s = Done s' →
  asked s' = asked s ∨ ∃ id call, asked s' = (id, call) :: asked s ∧ ¬ retired id.
Proof.
  intros [Hi _] E. destruct (by_worker l) eqn:El; [|left; by apply (program_asked s l)].
  destruct (worker_frame s l s' El E) as (_ & _ & _ & [H|(id & call & H & Hs)]); [by left|right].
  exists id, call. split; [done|]. intros Hr. destruct (no_retired _ _ (pi_numbers _ _ _ Hi) id Hr) as (_ & Hn & Hv).
  by destruct (sets_out_view s id Hi Hs).
Qed.

Lemma asked_retired s ls s' id :
  psys_ok self s → retired id → pruns s ls s' →
  filter (λ x, x.1 = id) (asked s') = filter (λ x, x.1 = id) (asked s).
Proof.
  intros Hok Hr Hrun. induction Hrun as [s|s l s1 ls s2 Hen Hs _ IH]; [done|].
  destruct (pstep_any self s l Hok Hen) as (s1' & E & Hok1). assert (s1' = s1) as -> by congruence.
  rewrite (IH Hok1). destruct (asked_step s l s1 Hok Hs) as [->|(id' & call & -> & Hn)]; [done|].
  rewrite filter_cons, decide_False; [done|]. cbn. by intros ->.
Qed.

(** ** After the deallocation *)

Lemma dealloc_close mem w w' : PyRtpProc_dealloc_end self mem w = Done w' → close_exc (prc w') = None.
Proof.
  unfold PyRtpProc_dealloc_end. destruct (detach_commands _) as [l p].
  rewrite bind_done. intros (w1 & _ & E). rewrite bind_done in E. destruct E as (w2 & _ & E).
  rewrite bind_done in E. by destruct E as (w3 & _ & [= <-]).
Qed.

Lemma freed_serving s : freed s = true → serving s = false.
Proof. unfold serving. by intros ->. Qed.

(** A freed scheduler keeps no exception. *)
Lemma freed_step s l s' :
  psys_ok self s → proc_enabled self l s → proc_exec self l s = Done s' →
  (freed s = true → close_exc (prc (wld s)) = None) → freed s' = true → close_exc (prc (wld s')) = None.
Proof.
  intros [Hi _] Hen E IH Hf. destruct (by_worker l) eqn:El.
  { destruct (worker_frame s l s' El E) as (_ & Hfs & _). rewrite Hf in Hfs.
    unfold proc_exec in E. rewrite El in E. unfold proc_worker_exec in E. by rewrite <- Hfs in E. }
  revert E Hf. unfold proc_exec. rewrite El.
  assert (self ∈ held s → freed s = true → False) as Hself.
  { intros Hh Hf. pose proof (held_serving _ _ _ Hi Hh) as H. by rewrite freed_serving in H. }
  destruct l as [| | | | | | | |a o|a|a mem cm|f a|ow cb env mem|ow a cm mem|err mem|ow cm|mem];
    try done; cbn [program_exec].
  - by intros [= <-].
  - rewrite bind_done. by intros (h & _ & [= <-]).
  - rewrite bind_done. intros (w & Ew & E).
    assert (close_exc (prc w) = close_exc (prc (wld s))) as Ec
      by (apply decref_all_pushes in Ew; by destruct (pushes_same _ _ Ew) as (_ & -> & _)).
    destruct (_ || has (joining s)); [injection E as <-; intros Hf; cbn [wld put_held]; rewrite Ec; by apply IH|].
    unfold dealloc_step in E. destruct (rtp_proc_shutdown_begin _ _) as [[r|] p]; [|by injection E as <-].
    rewrite bind_done in E. destruct E as (w1 & E1 & [= <-]). intros _. by apply dealloc_close in E1.
  - destruct (ob (wld s) !! f) as [c|]; [|done]. destruct (val c); try done. by intros [= <-].
  - destruct Hen as [Hh _]. rewrite bind_done. intros ([r w] & _ & [= <-]) Hf. destruct (Hself Hh).
    by destruct r, (ce_channel env).
  - destruct Hen as (Hah & [ch Ha] & _). rewrite bind_done. intros ([r w] & E & [= <-]) Hf.
    assert (freed s = true) as Hfs by by destruct r. unfold channel_close_begin in E. rewrite Ha in E.
    cbn [mbind outcome_bind] in E. assert (pch_proc_obj ch = false) as Epo.
    { apply not_true_is_false. intros Hpo.
      destruct (channel_keeps_self self (wld s) _ a ch (pi_mem _ _ _ Hi) Ha Hpo) as [d Hd].
      pose proof (self_serving _ _ _ Hi (mk_is_Some _ _ Hd)) as H. by rewrite freed_serving in H. }
    rewrite Epo, andb_false_r in E. cbn [andb mbind outcome_bind] in E. unfold rtp_proc_channel_close_begin in E.
    rewrite Epo in E. cbn [negb] in E. destruct (ob (wld s) !! a); [|by destruct (pch_closed ch)].
    assert (close_exc (prc w) = close_exc (prc (wld s))) as Ec by (destruct (pch_closed ch); cbn in E; by inversion E).
    destruct r; cbn [wld put_held put_pend]; rewrite Ec; by apply IH.
  - destruct (pend s) as [[ow c]|] eqn:Ep; [|by destruct Hen]. pose proof (pend_serving _ _ _ _ _ Hi Ep) as Hs.
    pose proof (serving_freed _ Hs) as Hfs. destruct c; cbn [call_end]; rewrite bind_done.
    + intros ([r w] & _ & [= <-]) Hf. cbn [freed put_pend] in Hf. congruence.
    + intros ([[r l] w] & _ & [= <-]) Hf. cbn [freed put_pend] in Hf. congruence.
  - destruct Hen as [Hh _]. unfold shutdown_step. destruct (rtp_proc_shutdown_begin _ _) as [[r|] p].
    + intros [= <-] Hf. by destruct (Hself Hh).
    + destruct ow; [intros [= <-] Hf; by destruct (Hself Hh)|]. by destruct (joining s); intros [= <-].
  - unfold join_step. destruct (joining s) as [[|]|] eqn:Ej; [by intros [= <-]| |by destruct Hen].
    rewrite bind_done. intros (w & E1 & [= <-]) _. by apply dealloc_close in E1.
Qed.
End Live.

Lemma freed_close self s : preach self s → freed s = true → close_exc (prc (wld s)) = None.
Proof.
  induction 1 as [clk p Hp|l s s' Hs IH Hen E]; [done|].
  by apply (freed_step self s l s' (reach_ok self s Hs) Hen E).
Qed.
