(* ===== verification/ProcSpec.v ===== *)
(** What the scheduler of [ProcObj] guarantees in every run of its worker and the
    threads of the program, the steps left out because they break it, and runs to
    evaluate. *)
From stdpp Require Import prelude list gmap.
From Stdlib Require Import ZArith Lia.
From S2P Require Import Prelude Py RcHeap RcGraph Synth Sync Sched Proc ProcObj ProcInv ProcSteps ProcCalls.
From S2P Require Import ProcMethods ProcRun ProcLive.
Local Open Scope Z_scope.

(** * Runs to evaluate *)

Section Runs.
Context (self : Z).

Definition keeps_self (s : psys) (a : Z) : bool :=
  (a =? self) || match ob (wld s) !! a with
                 | Some c => match val c with OChannel ch => pch_proc_obj ch | _ => false end
                 | None => false
                 end.
Definition ownedb (s : psys) : bool :=
  negb (serving s) || existsb (keeps_self s) (held s ++ pend_refs self s ++ join_refs self s).

Definition at_callback (p : proc_pc) : bool := match p with PCall _ _ => true | _ => false end.
Definition is_free (s : psys) (a : option Z) : bool :=
  match a with Some a => negb (has (ob (wld s) !! a)) | None => true end.
Definition is_object (s : psys) (f : pobj → bool) (a : Z) : bool :=
  match ob (wld s) !! a with Some c => f (val c) | None => false end.
Definition is_channel (o : pobj) : bool := match o with OChannel _ => true | _ => false end.
Definition is_callable (o : pobj) : bool := match o with OCallable _ => true | _ => false end.
Definition is_exc (o : pobj) : bool := match o with OExc _ => true | _ => false end.

(** [proc_enabled], as a test. *)
Definition proc_enabledb (l : plabel) (s : psys) : bool :=
  let w := wld s in
  match l with
  | LDetach => match pc s with PTop => true | _ => false end
  | LCmd _ _ _ =>
      match pc s with PCmds _ _ _ => true | _ => false end &&
      (zlen (t_chans (tab (prc w))) <? CHANNEL_BUDGET) && ownedb s
  | LReturn o _ _ =>
      at_callback (pc s) && match pend s with Some (true, _) => false | _ => true end && ownedb s &&
      match call_result o with
      | Failed (Some e) => bool_decide (exc_value e ∈ held s) && is_object s is_exc (exc_value e)
      | _ => true
      end
  | LClock _ => match pc s with PStart => true | _ => false end
  | LPop => match pc s with PDue _ => true | _ => false end
  | LSleep _ cmd_now => match pc s with PSleep => has cmd_now | _ => false end
  | LWake => match pc s with PWait until => has until || negb (bool_decide (cmds (prc w) = [])) | _ => false end
  | LClear _ => match pc s with PClear _ => ownedb s | _ => false end
  | LNew a o =>
      negb (a =? self) && is_free s (Some a) && has (take_all (fields self o) (held s)) &&
      (is_callable o || is_exc o)
  | LTake a => has (ob w !! a)
  | LDrop a _ cmd_mem => bool_decide (a ∈ held s) && cmd_mem
  | LCapture f a =>
      bool_decide (a ∈ held s) && is_object s is_callable f && ((a =? self) || is_object s is_channel a)
  | LCreate on_worker cb env _ =>
      bool_decide (self ∈ held s) && bool_decide (cb ∈ remove_one self (held s)) && is_free s (ce_channel env) &&
      (next_channel_id (prc w) <? ID_BUDGET) && (negb on_worker || at_callback (pc s))
  | LClose on_worker a _ _ =>
      bool_decide (a ∈ held s) && is_object s is_channel a && (negb on_worker || at_callback (pc s))
  | LEnd err _ => has (pend s) && wt_done (cmd_waiter (prc w)) && is_free s err
  | LShutdown on_worker _ => bool_decide (self ∈ held s) && negb on_worker && negb (has (joining s))
  | LJoin _ => has (joining s) && match pc s with PExit => true | _ => false end
  end.

Lemma has_true {A} (o : option A) : has o = true ↔ is_Some o.
Proof. destruct o; cbn; split; [by eexists|done|done|by intros []]. Qed.
Lemma has_neq {A} (o : option A) : has o = true → o ≠ None.
Proof. by destruct o. Qed.

Lemma is_object_true s f a : is_object s f a = true → ∃ o, py_read (ob (wld s)) a = Done o ∧ f o = true.
Proof. unfold is_object, py_read. destruct (ob (wld s) !! a) as [c|]; [|done]. by eexists. Qed.
Lemma is_channel_true s a : is_object s is_channel a = true → ∃ ch, channel_at (wld s) a ch.
Proof. intros (o & Ho & Hf)%is_object_true. destruct o; try done. by eexists. Qed.
Lemma is_free_true s a : is_free s a = true → ∀ b, a = Some b → ob (wld s) !! b = None.
Proof. intros H b ->. cbn in H. by destruct (ob (wld s) !! b). Qed.

Lemma ownedb_ok s : ownedb s = true → owned self s.
Proof.
  unfold ownedb. intros [Hs|Hs]%orb_true_iff; [left; by destruct (serving s)|right].
  apply existsb_exists in Hs as (a & Ha%list_elem_of_In & Hk). exists a. split; [done|].
  unfold keeps_self in Hk. apply orb_true_iff in Hk as [Hk|Hk]; [left; by apply Z.eqb_eq|right].
  destruct (ob (wld s) !! a) as [c|] eqn:E; [|done]. destruct (val c) as [|ch| |] eqn:Ev; try done.
  exists ch. split; [|done]. unfold channel_at, py_read. by rewrite E, Ev.
Qed.

Lemma at_callback_true s : at_callback (pc s) = true → in_callback s.
Proof. unfold in_callback. destruct (pc s); try done. by do 2 eexists. Qed.

Lemma proc_enabledb_ok l s : proc_enabledb l s = true → proc_enabled self l s.
Proof.
  destruct l as [|realloc now mem|o now mem|now| |now cn| |mem|a o|a|a mem cm|f a|ow cb env mem|ow a cm mem|err mem|ow cm|mem];
    cbn [proc_enabledb proc_enabled]; rewrite ?andb_true_iff, ?bool_decide_eq_true, ?negb_true_iff.
  - by destruct (pc s).
  - intros [[H1 H2] H3]. zbool. split; [|split; [done|by apply ownedb_ok]]. destruct (pc s); try done. by do 3 eexists.
  - intros [[[H1 H2] H3] H4]. split; [by apply at_callback_true|]. split; [by intros p E; rewrite E in H2|].
    split; [by apply ownedb_ok|]. intros e He. rewrite He in H4. apply andb_true_iff in H4 as [H4 H5].
    split; [by apply bool_decide_eq_true in H4|]. apply is_object_true in H5 as (ob & Ho & Hf).
    destruct ob; try done. by eexists.
  - by destruct (pc s).
  - destruct (pc s); try done. by eexists.
  - destruct (pc s); try done. intros H. split; [done|]. by apply has_neq.
  - destruct (pc s) as [| | | | | |until| |]; try done. intros H. exists until. split; [done|]. intros ->.
    cbn in H. by apply negb_true_iff, bool_decide_eq_false in H.
  - destruct (pc s); try done. intros H. split; [by eexists|by apply ownedb_ok].
  - intros [[[H1 H2] H3] H4]. split; [by apply Z.eqb_neq|]. split; [by apply (is_free_true s (Some a))|].
    split; [by apply has_true|]. by destruct o.
  - apply has_true.
  - done.
  - intros [[H1 H2] H3]. split; [done|]. apply is_object_true in H2 as (ob & Ho & Hf). split; [destruct ob; try done; by eexists|].
    apply orb_true_iff in H3 as [H3|H3]; [left; by apply Z.eqb_eq|right; by apply is_channel_true].
  - intros [[[[H1 H2] H3] H4] H5]. zbool. split; [done|]. split; [done|]. split; [by apply is_free_true|]. split; [done|].
    intros ->. by apply at_callback_true.
  - intros [[H1 H2] H3]. split; [done|]. split; [by apply is_channel_true|]. intros ->. by apply at_callback_true.
  - intros [[H1 H2] H3]. split; [by apply has_neq|]. split; [done|]. by apply is_free_true.
  - intros [[H1 H2] H3]. split; [done|]. split; [done|]. by destruct (joining s).
  - intros [H1 H2]. split; [by apply has_neq|]. by destruct (pc s).
Qed.

Fixpoint prun (ls : list plabel) (s : psys) : option psys :=
  match ls with
  | [] => Some s
  | l :: ls =>
      if proc_enabledb l s then match proc_exec self l s with Done s' => prun ls s' | _ => None end else None
  end.

Lemma prun_ok ls s s' : prun ls s = Some s' → pruns self s ls s'.
Proof.
  revert s. induction ls as [|l ls IH]; intros s; cbn [prun]; [by intros [= <-]; constructor|].
  destruct (proc_enabledb l s) eqn:E; [|done]. destruct (proc_exec self l s) as [s1| | |] eqn:E1; try done.
  intros H. eapply pruns_cons; [by apply proc_enabledb_ok|done|by apply IH].
Qed.

Lemma pruns_reach s ls s' : preach self s → pruns self s ls s' → preach self s'.
Proof. intros Hs Hr. induction Hr as [s|s l s1 ls s2 He E _ IH]; [done|]. apply IH. by eapply preach_step. Qed.
End Runs.

(** * Guarantees *)

Section Guarantees.
Context (self : Z).
#[local] Existing Instance nobody.


(** C15: In every run each object's count is the number of references to it: those
    of the program and of calls that wait, those of commands, table and kept
    exception, and those other objects hold. A scheduler that was deallocated has
    given all of its own back: once the program holds nothing there is no object. *)
Theorem proc_counts (s : psys) (Hs : preach self s) :
  (∀ a c, ob (wld s) !! a = Some c →
     rc c = refs_to a (roots self s ++ inner (fields self) (ob (wld s))) ∧ 0 < rc c)
  ∧ (∀ a, a ∈ roots self s ++ inner (fields self) (ob (wld s)) → is_Some (ob (wld s) !! a))
  ∧ (freed s = true → roots self s = held s)
  ∧ (freed s = true → held s = [] → ob (wld s) = ∅).
Proof.
  pose proof (reach_ok self s Hs) as Hok. pose proof (po_inv _ _ Hok) as Hi. destruct (pi_mem _ _ _ Hi) as [Hg Hac].
  cbn [app] in Hg.
  assert (freed s = true → roots self s = held s) as Hr.
  { intros Hf. destruct (ct_freed _ _ _ _ (pi_ctl _ _ _ Hi) Hf) as [Hpc Hj]. destruct (exit_empty self s Hok Hpc) as [Hq Ht].
    unfold roots, join_refs, pend_refs. rewrite Hj, Hpc, (freed_close self s Hs Hf). unfold queue. rewrite Hq, Ht.
    destruct (pend s) as [[ow c]|] eqn:Ep; [|cbn; by rewrite !app_nil_r].
    pose proof (pend_serving _ _ _ _ _ Hi Ep) as Hsv. by rewrite freed_serving in Hsv. }
  split; [intros a c Hc; pose proof (Hg a) as Ha; by rewrite Hc in Ha|].
  split; [intros a; apply (heap_ok_elem _ _ a Hg)|]. split; [done|].
  intros Hf Hh. rewrite (Hr Hf), Hh in Hg. by apply (acyclic_empty (fields self)).
Qed.

(** C16: A call of [create_channel] or [close] by a thread of the program that the
    worker gets to before its loop over due channels: until the call is answered
    the worker has a step to take, if callbacks return, and whatever the other
    threads do meanwhile, the answer is there after [n] steps of the worker. *)
Theorem proc_answers (s : psys) (c : pcall) (n : nat) (Hs : preach self s)
    (Hp : pend s = Some (false, c)) (Hn : answer_steps s = Some n)
    (Ht : zlen (t_chans (tab (prc (wld s)))) < CHANNEL_BUDGET) :
  (∃ l, by_worker l = true ∧ proc_enabled self l s) ∧
  ∀ ls s', pruns self s ls s' → (n ≤ worker_steps ls)%nat →
    ∃ ls1 ls2 s1, ls = ls1 ++ ls2 ∧ pruns self s ls1 s1 ∧ answered s1 = true ∧ pend s1 = Some (false, c).
Proof.
  pose proof (reach_ok self s Hs) as Hok. split; [apply (worker_may self s c Hok Hp); [congruence|done]|].
  intros ls s' Hr Hle. rewrite <- Hp. apply (pruns_answers self s ls s' n); [done|congruence|done..].
Qed.

(** The channel of a call of [close] that was answered is given up. *)
Lemma closed_retired s ow a ch :
  psys_ok self s → pend s = Some (ow, CallClose a) → channel_at (wld s) a ch → answered s = true →
  pch_id ch < next_channel_id (prc (wld s)) ∧ (pch_id ch ∉ add_ids (queue (prc (wld s)) (pc s))) ∧
  view (tab (prc (wld s))) (pch_id ch) = None.
Proof.
  intros [Hi _] Hp Ha Hd. split; [by apply (pi_ids _ _ _ Hi a)|]. split; [|by apply (pi_gone _ _ _ Hi ow a)].
  intros Hin. pose proof (pi_waits _ _ _ Hi) as Hw. rewrite Hp in Hw. destruct Hw as (d & _ & _ & Hw).
  unfold answered in Hd. rewrite Hd in Hw. unfold waited, waiting_cmds in Hw. rewrite filter_app in Hw.
  apply app_nil in Hw as [_ Hw]. unfold add_ids in Hin. apply list_elem_of_omap in Hin as (cmd & Hc & Hid).
  pose proof (no_waits _ _ (pi_numbers _ _ _ Hi)) as Hall. rewrite Forall_forall in Hall. specialize (Hall cmd Hc).
  assert (cmd ∈ filter (λ c, cmd_waits c = true) (queue (prc (wld s)) (pc s))) as Hf.
  { apply list_elem_of_filter. split; [|done]. by destruct cmd. }
  rewrite Hw in Hf. by apply elem_of_nil in Hf.
Qed.

(** C17: After a [close] that was answered the worker never calls the channel's
    callback again, whatever happens. *)
Theorem closed_never_called (s s' : psys) (ow : bool) (a : Z) (ch : PyRtpProcChannel) (ls : list plabel)
    (Hs : preach self s) (Hp : pend s = Some (ow, CallClose a)) (Ha : channel_at (wld s) a ch)
    (Hd : answered s = true) (Hr : pruns self s ls s') :
  filter (λ x, x.1 = pch_id ch) (asked s') = filter (λ x, x.1 = pch_id ch) (asked s).
Proof.
  pose proof (reach_ok self s Hs) as Hok.
  set (R := (λ id, id = pch_id ch) : Retired).
  apply (@asked_retired self R s ls); [|done|done]. apply (@psys_retire nobody self s R Hok). intros id ->.
  by apply (closed_retired s ow a).
Qed.

(** C39: When the worker has come to its end, after a shutdown, no command is left
    in the queue, no caller waits unanswered, no channel is in the table, and no
    further command is accepted. *)
Theorem proc_exit_clean (s : psys) (Hs : preach self s) (Hx : pc s = PExit) :
  cmds (prc (wld s)) = [] ∧ tab (prc (wld s)) = empty_table ∧ (pend s ≠ None → answered s = true) ∧
  accepting_commands (prc (wld s)) = false.
Proof.
  pose proof (reach_ok self s Hs) as Hok. pose proof (po_inv _ _ Hok) as Hi.
  destruct (exit_empty self s Hok Hx) as [Hq Ht]. split; [done|]. split; [done|]. split.
  - intros Hp. pose proof (pi_waits _ _ _ Hi) as Hw. destruct (pend s) as [[ow c]|]; [|done].
    destruct Hw as (ch & _ & _ & Hw). unfold answered. destruct (wt_done _); [done|].
    unfold waited, queue in Hw. by rewrite Hx, Hq in Hw.
  - pose proof (ct_stop _ _ _ _ (pi_ctl _ _ _ Hi)) as Hst. rewrite (ct_acc _ _ _ _ (pi_ctl _ _ _ Hi)).
    rewrite Hx in Hst. destruct (shutdown_queued _); [done|]. by destruct Hst.
Qed.

(** [create_channel] or [close] called by a callback waits for the worker on
    the worker: the call is never answered, and the callback never returns. *)
Theorem callback_waits_forever (s s' : psys) (c : pcall) (ls : list plabel) (Hs : preach self s)
    (Hp : pend s = Some (true, c)) (Hd : answered s = false) (Hc : in_callback s) (Hr : pruns self s ls s') :
  pend s' = Some (true, c) ∧ answered s' = false ∧ pc s' = pc s.
Proof.
  pose proof (reach_ok self s Hs) as Hok. clear Hs.
  induction Hr as [s|s l s1 ls s2 Hen Hs _ IH]; [done|].
  assert (by_worker l = false) as El.
  { destruct Hc as (ch & site & Hpc). destruct l; try done; cbn in Hen; try congruence.
    - destruct Hen as ((? & ? & ? & ?) & _). congruence.
    - destruct Hen as (_ & Hno & _). by destruct (Hno c).
    - destruct Hen as [? ?]. congruence.
    - destruct Hen as [? _]. congruence.
    - destruct Hen as (? & ? & _). congruence.
    - destruct Hen as [[? ?] _]. congruence. }
  destruct (program_calm self s l s1 Hok) as [Ep Epd Hg]; try done; [congruence| |].
  { intros err mem ->. destruct Hen as (_ & Hd' & _). unfold answered in Hd. congruence. }
  destruct (pstep_any self s l Hok Hen) as (s1' & E & Hok1). assert (s1' = s1) as -> by congruence.
  rewrite <- Ep. apply IH; [congruence| |by unfold in_callback; rewrite Ep|done].
  unfold answered in *. by rewrite (gr_waiter _ _ Hg).
Qed.
End Guarantees.

(** * Evaluated runs *)

Definition demo_mem (_ : Z) : bool := true.
Definition demo_realloc (old _ : Z) : option Z := Some (old + 4096).
(** The scheduler, at address 1. *)
Definition demo_proc : PyRtpProc := (PyRtpProc_init (PyRtpProc_new None) 0 (0, CLOCK_MONOTONIC) 0 0).2.
Definition demo_fresh : psys := fresh_psys 1 demo_proc.
Definition demo_psys (ls : list plabel) : psys := default demo_fresh (prun 1 ls demo_fresh).

Lemma demo_preach ls : preach 1 (demo_psys ls).
Proof.
  assert (preach 1 demo_fresh) as Hs by by apply (preach_start 1 CLOCK_MONOTONIC).
  unfold demo_psys. destruct (prun 1 ls demo_fresh) as [s|] eqn:E; [|done].
  by apply (pruns_reach 1 demo_fresh ls), prun_ok.
Qed.

Definition demo_cmd (now : Z) : plabel := LCmd demo_realloc now demo_mem.
Definition demo_wants (at_ns now : Z) : plabel :=
  LReturn {| co_args := true; co_result := Ret (PyInt at_ns); co_exc := 0 |} now demo_mem.
Definition demo_raises (exc now : Z) : plabel :=
  LReturn {| co_args := true; co_result := Raise ValueError; co_exc := exc |} now demo_mem.
Definition demo_channel (a : Z) : create_env := {| ce_callable := true; ce_channel := Some a; ce_cmd := true |}.

(** A channel at 20 with the callable 10 is made; its callback asks for time 200. *)
Definition demo_asked : list plabel := [LTake 1; LNew 10 (OCallable []); LCreate false 10 (demo_channel 20) demo_mem].
Definition demo_made : list plabel :=
  demo_asked ++ [LDetach; demo_cmd 100; demo_wants 200 120; LEnd None demo_mem].
(** It is called again, and raises the exception at 30. *)
Definition demo_due : list plabel := demo_made ++ [LClock 300; LPop].
Definition demo_raised : list plabel :=
  demo_due ++ [LNew 30 (OExc None); demo_raises 30 310; LPop; LSleep 320 (Some 0)].
(** The channel is closed, which raises an error chained from 30. *)
Definition demo_closing : list plabel := demo_raised ++ [LClose false 20 true demo_mem; LWake; LDetach].
Definition demo_closed : list plabel := demo_closing ++ [demo_cmd 330].
Definition demo_end : list plabel := demo_closed ++ [LEnd (Some 40) demo_mem].
(** Another channel. *)
Definition demo_again : list plabel :=
  [LEnd (Some 40) demo_mem; LTake 10; LCreate false 10 (demo_channel 21) demo_mem; LClock 400; LPop;
   LSleep 410 (Some 0); LWake; LDetach; demo_cmd 420].
(** The program gives everything back, the last reference to the scheduler too. *)
Definition demo_exit : list plabel :=
  demo_end ++ [LDrop 40 demo_mem true; LDrop 20 demo_mem true; LDrop 10 demo_mem true; LDrop 1 demo_mem true;
    LDrop 1 demo_mem true; LClock 400; LPop; LSleep 410 (Some 0); LWake; LDetach; demo_cmd 420] ++
  replicate 5 (LClear demo_mem).
Definition demo_gone : list plabel := demo_exit ++ [LJoin demo_mem].


Lemma proc_counts_witness :
  freed (demo_psys demo_gone) = true ∧ held (demo_psys demo_gone) = [] ∧
  length (map_to_list (ob (wld (demo_psys demo_end)))) = 5%nat ∧ ob (wld (demo_psys demo_gone)) = ∅.
Proof.
  split; [vm_compute; reflexivity|]. split; [vm_compute; reflexivity|]. split; [vm_compute; reflexivity|].
  apply (proc_counts 1 _ (demo_preach demo_gone)); vm_compute; reflexivity.
Defined.

Lemma proc_answers_witness :
  answer_steps (demo_psys demo_closing) = Some 2%nat ∧
  ∃ ls1 s1, pruns 1 (demo_psys demo_closing) ls1 s1 ∧ answered s1 = true ∧ pend s1 = Some (false, CallClose 20).
Proof.
  split; [vm_compute; reflexivity|].
  destruct (proc_answers 1 (demo_psys demo_closing) (CallClose 20) 2 (demo_preach _)) as [_ H];
    [vm_compute; reflexivity..|].
  destruct (H [demo_cmd 330; LClock 340] (demo_psys (demo_closing ++ [demo_cmd 330; LClock 340])))
    as (ls1 & ls2 & s1 & _ & Hr & Ha & Hp).
  - apply prun_ok. vm_compute. reflexivity.
  - vm_compute. lia.
  - exists ls1, s1. split; [exact Hr|]. split; [exact Ha|exact Hp].
Defined.

Lemma closed_never_called_witness :
  (asked (demo_psys (demo_closed ++ demo_again))).*1 = [2; 1; 1] ∧
  filter (λ x, x.1 = 1) (asked (demo_psys (demo_closed ++ demo_again))) =
  filter (λ x, x.1 = 1) (asked (demo_psys demo_closed)).
Proof.
  split; [vm_compute; reflexivity|].
  apply (closed_never_called 1 (demo_psys demo_closed) (demo_psys (demo_closed ++ demo_again)) false 20
    {| pch_id := 1; pch_proc_obj := true; pch_closed := false |} demo_again (demo_preach _)).
  - vm_compute. reflexivity.
  - vm_compute. reflexivity.
  - vm_compute. reflexivity.
  - apply prun_ok. vm_compute. reflexivity.
Defined.

Lemma proc_exit_clean_witness :
  joining (demo_psys demo_exit) = Some JDealloc ∧ cmds (prc (wld (demo_psys demo_exit))) = [].
Proof.
  split; [vm_compute; reflexivity|]. apply (proc_exit_clean 1 _ (demo_preach demo_exit)). vm_compute. reflexivity.
Defined.

(** The callback makes another channel. *)
Definition demo_inside : list plabel := demo_due ++ [LCreate true 10 (demo_channel 21) demo_mem].

Lemma callback_waits_forever_witness :
  answered (demo_psys (demo_inside ++ [LTake 1; LDrop 1 demo_mem true])) = false.
Proof.
  apply (callback_waits_forever 1 (demo_psys demo_inside) (demo_psys (demo_inside ++ [LTake 1; LDrop 1 demo_mem true]))
    (CallCreate 21 10) [LTake 1; LDrop 1 demo_mem true] (demo_preach _)).
  - vm_compute. reflexivity.
  - vm_compute. reflexivity.
  - apply at_callback_true. vm_compute. reflexivity.
  - apply prun_ok. vm_compute. reflexivity.
Defined.

(** * What breaks it *)

(** Steps one after the other, allowed or not. *)
Fixpoint proc_execs (ls : list plabel) (s : psys) : outcome psys :=
  match ls with
  | [] => Done s
  | l :: ls => s ← proc_exec 1 l s; proc_execs ls s
  end.

Definition freed_then (ls : list plabel) (s : psys) : bool :=
  match proc_execs ls s with Done s => freed s && match pc s with PExit => false | _ => true end | _ => false end.

(** [shutdown] called by a callback: [pthread_join] fails at once, and the scheduler
    counts as stopped. Its deallocation then frees it under the running worker. *)
Lemma callback_shutdown_frees :
  let go := [LShutdown true true; LDrop 20 demo_mem true; LDrop 10 demo_mem true; LDrop 1 demo_mem true; LDrop 1 demo_mem true] in
  freed_then go (demo_psys demo_due) = true ∧
  proc_execs (go ++ [demo_wants 400 320]) (demo_psys demo_due) = Undefined.
Proof. by vm_compute. Qed.

(** The deallocation without memory for the command that stops the worker. *)
Lemma dealloc_without_memory_frees :
  let go := [LDrop 1 demo_mem true; LDrop 20 demo_mem true; LDrop 10 demo_mem true; LDrop 1 demo_mem false] in
  freed_then go (demo_psys demo_raised) = true ∧
  proc_execs (go ++ [LWake]) (demo_psys demo_raised) = Undefined.
Proof. by vm_compute. Qed.

(** Two threads in [shutdown] at a time join the same thread. *)
Lemma shutdown_joins_twice :
  proc_execs [LShutdown false true; LShutdown false true] (demo_psys demo_raised) = Undefined.
Proof. by vm_compute. Qed.

(** The callable of a channel given up holds the last channel: the worker drops the
    last reference to the scheduler it runs on. *)
Lemma worker_drops_itself :
  let ls := demo_made ++ [LClock 150; LPop; LSleep 160 (Some 0); LNew 11 (OCallable []);
    LCreate false 11 (demo_channel 21) demo_mem; LWake; LDetach; demo_cmd 170; demo_wants 500 175; LEnd None demo_mem;
    LCapture 10 21; LDrop 11 demo_mem true; LDrop 10 demo_mem true; LDrop 1 demo_mem true; LDrop 1 demo_mem true;
    LDrop 20 demo_mem true; LClock 180; LPop; LSleep 185 (Some 0); LWake; LDetach] in
  held (demo_psys ls) = [] ∧ has (ob (wld (demo_psys ls)) !! 1) = true ∧
  proc_execs [demo_cmd 190] (demo_psys ls) = Undefined.
Proof. by vm_compute. Qed.

(** A [close] after another thread's [shutdown]: the queue refuses its command, the
    call returns as if the channel was closed, and its callback is called again. *)
Lemma close_while_stopping :
  let go := [LShutdown false true; LClose false 20 true demo_mem; demo_wants 305 310] in
  (match proc_execs go (demo_psys demo_due) with
   | Done s => py_read (ob (wld s)) 20 = Done (OChannel {| pch_id := 1; pch_proc_obj := true; pch_closed := true |}) ∧
       (asked s).*1 = [1; 1]
   | _ => False
   end) ∧
  match proc_execs (go ++ [LPop]) (demo_psys demo_due) with
  | Done s => (asked s).*1 = [1; 1; 1]
  | _ => False
  end.
Proof. by vm_compute. Qed.

(** A second [close] while the first one waits is refused, and takes the exception
    away that the first one was to raise: no error object is made at 40. *)
Lemma second_close_takes_error :
  let ls := demo_closed ++ [LTake 20; LClose false 20 true demo_mem; LEnd (Some 40) demo_mem] in
  has (close_exc (prc (wld (demo_psys demo_closed)))) = true ∧ pend (demo_psys ls) = None ∧
  has (ob (wld (demo_psys ls)) !! 40) = false ∧ has (ob (wld (demo_psys demo_end)) !! 40) = true.
Proof. by vm_compute. Qed.

(** Without memory for the arguments of a call the channel is not called again, and
    its [close] reports nothing. *)
Lemma failed_arguments_stop_channel :
  let o := {| co_args := false; co_result := Ret PyNone; co_exc := 0 |} in
  let ls := demo_due ++ [LReturn o 310 demo_mem; LPop; LSleep 320 (Some 0)] in
  pc (demo_psys ls) = PWait None ∧
  (match t_chans (tab (prc (wld (demo_psys ls)))) with
   | c :: _ => ch_active c = true ∧ ch_cb_exc c = None
   | [] => False
   end).
Proof. by vm_compute. Qed.
