(* ===== verification/ServerArgs.v ===== *)
(** The parts of src/python/RtpServer_mod.c that need no server: the arguments
    that name addresses, and the times of the worker's ticks. *)
From stdpp Require Import prelude list strings pretty.
From Stdlib Require Import ZArith Lia.
From S2P Require Import Prelude Py.
Local Open Scope Z_scope.

Definition AF_UNSPEC : Z := 0.
Definition AF_INET : Z := 2.
Definition AF_INET6 : Z := 10.

(** * Address families *)

(** [FamStr None]: a string that is not valid UTF-8. *)
Inductive family_arg : Set :=
| FamNone
| FamInt (z : Z)
| FamStr (name : option string)
| FamOther.

(** What C sees of a string: it ends at the first NUL character. *)
Fixpoint c_string (s : string) : string :=
  match s with
  | String c s => if Ascii.eqb c Ascii.zero then EmptyString else String c (c_string s)
  | EmptyString => EmptyString
  end.

Definition str_in (name : string) (l : list string) : bool := existsb (String.eqb name) l.

(** [strcmp] chains, in the order of the code; [long] has 64 bits. *)
Definition parse_bind_family (o : family_arg) : pyres Z :=
  match o with
  | FamNone => Ret AF_UNSPEC
  | FamInt z =>
      value ← PyLong_AsLongLong z;
      if (value =? 0) || (value =? AF_UNSPEC) then Ret AF_UNSPEC
      else if (value =? 4) || (value =? AF_INET) then Ret AF_INET
      else if (value =? 6) || (value =? AF_INET6) then Ret AF_INET6
      else Raise ValueError
  | FamStr None => Raise ValueError
  | FamStr (Some name) =>
      let name := c_string name in
      if str_in name ["auto"; "unspec"; "any"] then Ret AF_UNSPEC
      else if str_in name ["ipv4"; "inet"; "af_inet"] then Ret AF_INET
      else if str_in name ["ipv6"; "inet6"; "af_inet6"] then Ret AF_INET6
      else Raise ValueError
  | FamOther => Raise TypeError
  end.

(** * Socket addresses *)

(** What the module looks at of a [struct sockaddr]; [sa_len] goes with it. *)
Record sockaddr : Set := { sa_family : Z; sa_addr : list Z; sa_port : Z; sa_len : Z }.

Definition SIZEOF_SOCKADDR_STORAGE : Z := 128.

(** [inet_ntop] on a family and an address; [None]: [NULL]. *)
Definition sockaddr_to_tuple (inet_ntop : Z → list Z → option string) (sa : sockaddr)
    : option (string * Z) :=
  if (sa_family sa =? AF_INET) || (sa_family sa =? AF_INET6) then
    host ← inet_ntop (sa_family sa) (sa_addr sa); Some (host, sa_port sa)
  else Some (""%string, 0).

Record addrinfo : Set := { ai_family : Z; ai_addr : sockaddr }.

(** The request to [getaddrinfo]. *)
Record gai_request : Set := {
  gai_node : option string; gai_service : string; gai_family : Z; gai_passive : bool
}.

(** The first usable answer. *)
Fixpoint pick_addr (l : list addrinfo) : option (sockaddr * Z) :=
  match l with
  | [] => None
  | ai :: l =>
      if negb (ai_family ai =? AF_INET) && negb (ai_family ai =? AF_INET6) then pick_addr l
      else if SIZEOF_SOCKADDR_STORAGE <? sa_len (ai_addr ai) then pick_addr l
      else Some (ai_addr ai, ai_family ai)
  end.

(** [getaddrinfo] gives [None] for an error; its answers are otherwise a list. *)
Definition resolve_udp_addr (getaddrinfo : gai_request → option (list addrinfo))
    (host : option string) (port : Z) (passive : bool) (family_hint : Z) : pyres (sockaddr * Z) :=
  if (port <? 0) || (65535 <? port) then Raise ValueError
  else
    match getaddrinfo
      {| gai_node := match host with Some ""%string | None => None | Some h => Some h end;
         gai_service := pretty port;
         gai_family := if (family_hint =? AF_INET) || (family_hint =? AF_INET6) then family_hint
                       else AF_UNSPEC;
         gai_passive := passive |} with
    | None | Some [] => Raise OSError
    | Some l => match pick_addr l with Some r => Ret r | None => Raise OSError end
    end.

(** [bind_host] of [create_channel]. *)
Definition effective_bind_host (bind_host : option string) (family_hint : Z) : string :=
  match bind_host with
  | Some h => h
  | None => if family_hint =? AF_INET6 then "::" else "0.0.0.0"
  end.

(** [build_udp_socket]: the results of [socket], [set_nonblocking], [bind] and
    [getsockname]; the descriptors closed again on the way out. *)
Definition build_udp_socket (socket : Z) (nonblock bind_rc : Z) (getsockname : option sockaddr)
    : option (Z * sockaddr) * list Z :=
  if socket <? 0 then (None, [])
  else if negb (nonblock =? 0) then (None, [socket])
  else if negb (bind_rc =? 0) then (None, [socket])
  else match getsockname with None => (None, [socket]) | Some sa => (Some (socket, sa), []) end.

(** * Ticks *)

(** In [PyRtpServer_init]. *)
Definition tick_of_hz (tick_hz : Z) : Z :=
  let t := 1000000000 / tick_hz in if t =? 0 then 1 else t.

(** The inner loop at the end of the worker's loop. *)
Fixpoint tick_catch_up (fuel : nat) (next_tick_ns now_ns tick_ns : Z) : outcome Z :=
  if next_tick_ns <=? now_ns then
    if U64_MAX - next_tick_ns <? tick_ns then Done now_ns
    else
      match fuel with
      | O => OutOfFuel
      | S fuel => tick_catch_up fuel (u64 (next_tick_ns + tick_ns)) now_ns tick_ns
      end
  else Done next_tick_ns.

Definition tick_advance (fuel : nat) (next_tick_ns now_ns tick_ns : Z) : outcome Z :=
  if U64_MAX - next_tick_ns <? tick_ns then Done now_ns
  else tick_catch_up fuel (u64 (next_tick_ns + tick_ns)) now_ns tick_ns.

(** The catch-up loop ends, at the first tick after [now_ns] in the grid of
    [next_tick_ns]. *)
Lemma tick_catch_up_ok fuel next now tick :
  0 < tick → 0 ≤ next ≤ now + tick → now + tick ≤ U64_MAX → (now - next) / tick < Z.of_nat fuel →
  ∃ k, 0 ≤ k ∧ tick_catch_up fuel next now tick = Done (next + k * tick) ∧
    now < next + k * tick ≤ now + tick.
Proof.
  revert next. induction fuel as [|fuel IH]; intros next Ht Hn Hu Hf; cbn [tick_catch_up];
    destruct (next <=? now) eqn:E; zbool; try (exists 0; split; [lia|]; split; [by rewrite Z.add_0_r|lia]).
  - pose proof (Z.div_pos (now - next) tick). lia.
  - rewrite (proj2 (Z.ltb_ge _ _)) by lia. unfold U64_MAX in *. rewrite u64_small by lia.
    destruct (IH (next + tick)) as (k & Hk & -> & H); [done|lia|lia| |].
    + replace (now - (next + tick)) with (now - next + (-1) * tick) by lia.
      rewrite Z.div_add by lia. lia.
    + exists (k + 1). split; [lia|]. split; [f_equal; lia|lia].
Qed.

Lemma tick_advance_ok fuel next now tick :
  0 < tick → 0 ≤ next ≤ now → now + tick ≤ U64_MAX → (now - next) / tick < Z.of_nat fuel →
  ∃ k, 1 ≤ k ∧ tick_advance fuel next now tick = Done (next + k * tick) ∧
    now < next + k * tick ≤ now + tick.
Proof.
  intros Ht Hn Hu Hf. unfold tick_advance. rewrite (proj2 (Z.ltb_ge _ _)) by lia.
  unfold U64_MAX in *. rewrite u64_small by lia.
  destruct (tick_catch_up_ok fuel (next + tick) now tick) as (k & Hk & -> & H); [done|lia|done| |].
  - replace (now - (next + tick)) with (now - next + (-1) * tick) by lia.
    rewrite Z.div_add by lia. lia.
  - exists (k + 1). split; [lia|]. split; [f_equal; lia|lia].
Qed.

Lemma tick_of_hz_range hz : 0 < hz < 4294967296 → 1 ≤ tick_of_hz hz ≤ 1000000000.
Proof.
  intros H. unfold tick_of_hz. pose proof (Z.div_pos 1000000000 hz).
  assert (1000000000 / hz ≤ 1000000000) by (apply Z.div_le_upper_bound; nia).
  destruct (1000000000 / hz =? 0) eqn:E; zbool; lia.
Qed.
