(* ===== verification/Server.v ===== *)
(** The RTP server: src/python/RtpServer_mod.c. The channels with their reference
    counts, the commands, the worker thread cut into its atomic steps, and the
    methods of [RtpServer] and [RtpChannel], each cut where it gives the
    interpreter lock away to wait for the worker. Sockets, memory and the clock
    are arguments. *)
From stdpp Require Import prelude list gmap strings.
From Stdlib Require Import ZArith Lia.
From S2P Require Import Prelude Py RcHeap Sync SendQueue ServerArgs.
Local Open Scope Z_scope.

Definition ENOENT : Z := 2.
Definition ENOMEM : Z := 12.
Definition DEFAULT_TICK_HZ : Z := 200.
Definition PTRDIFF_MAX : Z := 9223372036854775807.

(** * Data *)

(** The bytes of the object [data_ref], of which the item has [size]. *)
Record RtpSendItem : Set := { data_ref : Z; item_size : Z }.

Record RtpChannelState (Q : Type) : Type := {
  fd : Z;
  st_has_target : bool;
  target_addr : sockaddr;
  pkt_in_cb : Z;
  out_q : Q;
}.
Arguments fd {Q} _. Arguments st_has_target {Q} _. Arguments target_addr {Q} _.
Arguments pkt_in_cb {Q} _. Arguments out_q {Q} _.

Record PyRtpChannel (Q : Type) : Type := {
  closed : bool;
  has_target : bool;
  state : RtpChannelState Q;
  local_addr : sockaddr;
}.
Arguments closed {Q} _. Arguments has_target {Q} _. Arguments state {Q} _.
Arguments local_addr {Q} _.

(** A pointer to a channel's state stands for the channel ([rtp_channel_state_owner]);
    an added channel's pointer is [None] once the table has it. *)
Inductive RtpCommand : Set :=
| CMD_ADD_CHANNEL (channel : option Z)
| CMD_REMOVE_CHANNEL (channel : Z)
| CMD_SET_TARGET (channel : Z) (addr : sockaddr)
| CMD_DROP_CHANNELS
| CMD_STOP_WORKER.

(** [cmd_waits]: the command carries the server's waiter. *)
Record RtpServerCmd : Set := { cmd_type : RtpCommand; cmd_waits : bool }.

(** [cmds]: the list that starts at [cmd_head] (the queue of [Sync.cmdq_fifo]).
    [pollfds]: the descriptors of the first [pollfds_len] entries, and
    [pollfds_index] their channels. *)
Record PyRtpServer : Set := {
  worker_running : bool;
  server_inited : bool;
  cmd_waiter_busy : bool;
  shutdown_queued : bool;
  accepting_commands : bool;
  tick_ns : Z;
  cmd_cv_clock : clockid_t;
  cmd_waiter : rtp_sync_waiter;
  cmds : list RtpServerCmd;
  channels : list (option Z);
  channels_active : Z;
  pollfds : list Z;
  pollfds_index : list Z;
  pollfds_cap : Z;
  pollfds_dirty : bool;
}.

(** The command side. *)
Definition set_cmd (s : PyRtpServer) (busy accepting : bool) (w : rtp_sync_waiter)
    (l : list RtpServerCmd) : PyRtpServer :=
  {| worker_running := worker_running s; server_inited := server_inited s; cmd_waiter_busy := busy;
     shutdown_queued := shutdown_queued s; accepting_commands := accepting; tick_ns := tick_ns s;
     cmd_cv_clock := cmd_cv_clock s; cmd_waiter := w; cmds := l; channels := channels s;
     channels_active := channels_active s; pollfds := pollfds s; pollfds_index := pollfds_index s;
     pollfds_cap := pollfds_cap s; pollfds_dirty := pollfds_dirty s |}.
(** The table of channels. *)
Definition set_table (s : PyRtpServer) (l : list (option Z)) (active : Z) (dirty : bool) : PyRtpServer :=
  {| worker_running := worker_running s; server_inited := server_inited s;
     cmd_waiter_busy := cmd_waiter_busy s; shutdown_queued := shutdown_queued s;
     accepting_commands := accepting_commands s; tick_ns := tick_ns s;
     cmd_cv_clock := cmd_cv_clock s; cmd_waiter := cmd_waiter s; cmds := cmds s; channels := l;
     channels_active := active; pollfds := pollfds s; pollfds_index := pollfds_index s;
     pollfds_cap := pollfds_cap s; pollfds_dirty := dirty |}.
(** The poll cache, which is then up to date. *)
Definition set_poll (s : PyRtpServer) (fds index : list Z) (cap : Z) : PyRtpServer :=
  {| worker_running := worker_running s; server_inited := server_inited s;
     cmd_waiter_busy := cmd_waiter_busy s; shutdown_queued := shutdown_queued s;
     accepting_commands := accepting_commands s; tick_ns := tick_ns s;
     cmd_cv_clock := cmd_cv_clock s; cmd_waiter := cmd_waiter s; cmds := cmds s;
     channels := channels s; channels_active := channels_active s; pollfds := fds;
     pollfds_index := index; pollfds_cap := cap; pollfds_dirty := false |}.
(** The life of the worker. *)
Definition set_life (s : PyRtpServer) (running inited queued accepting : bool) (tick : Z)
    (clk : clockid_t) : PyRtpServer :=
  {| worker_running := running; server_inited := inited; cmd_waiter_busy := cmd_waiter_busy s;
     shutdown_queued := queued; accepting_commands := accepting; tick_ns := tick;
     cmd_cv_clock := clk; cmd_waiter := cmd_waiter s; cmds := cmds s; channels := channels s;
     channels_active := channels_active s; pollfds := pollfds s; pollfds_index := pollfds_index s;
     pollfds_cap := pollfds_cap s; pollfds_dirty := pollfds_dirty s |}.

(** What the server does to the world outside. *)
Inductive event : Set :=
| SendTo (fd : Z) (data : list Z) (addr : sockaddr)
| PacketIn (cb : Z) (data : list Z) (addr : sockaddr) (rtime : Z)
| CloseFd (fd : Z).

(** The server, and the memory it shares with the program: channel objects, send
    items, [bytes] objects. *)
Record world (Q : Type) : Type := {
  srv : PyRtpServer;
  chans : gmap Z (cell (PyRtpChannel Q));
  items : gmap Z RtpSendItem;
  objs : gmap Z (cell (list Z));
  w_log : list event;
}.
Arguments srv {Q} _. Arguments chans {Q} _. Arguments items {Q} _. Arguments objs {Q} _.
Arguments w_log {Q} _.

(** * The server object *)

Definition PyRtpServer_new : PyRtpServer :=
  {| worker_running := false; server_inited := false; cmd_waiter_busy := false;
     shutdown_queued := false; accepting_commands := true;
     tick_ns := 1000000000 / DEFAULT_TICK_HZ; cmd_cv_clock := CLOCK_REALTIME;
     cmd_waiter := {| wt_done := false; wt_status := 0 |}; cmds := []; channels := [];
     channels_active := 0; pollfds := []; pollfds_index := []; pollfds_cap := 0;
     pollfds_dirty := true |}.

(** [tick_hz] as the ["I"] unit gives it; the results of [pthread_mutex_init], of
    [rtp_sync_cond_init_monotonic] (with the clock it chose), of
    [rtp_sync_waiter_init] and of [pthread_create]. *)
Definition PyRtpServer_init (s : PyRtpServer) (tick_hz : Z) (mutex_rc : Z) (cond : Z * clockid_t)
    (waiter_rc create_rc : Z) : outcome (pyres unit * PyRtpServer) :=
  _ ← d_assert (negb (worker_running s));
  _ ← d_assert (negb (server_inited s));
  if tick_hz =? 0 then Done (Raise ValueError, s)
  else
    let s := set_life s false false (shutdown_queued s) (accepting_commands s)
               (tick_of_hz tick_hz) (cmd_cv_clock s) in
    if negb (mutex_rc =? 0) then Done (Raise RuntimeError, s)
    else
      let '(cond_rc, clk) := cond in
      let s := set_life s false false (shutdown_queued s) (accepting_commands s) (tick_ns s) clk in
      if negb (cond_rc =? 0) then Done (Raise RuntimeError, s)
      else if negb (waiter_rc =? 0) then Done (Raise RuntimeError, s)
      else
        let s := set_cmd s false (accepting_commands s) {| wt_done := false; wt_status := 0 |} (cmds s) in
        if negb (create_rc =? 0) then Done (Raise RuntimeError, s)
        else Done (Ret (), set_life s true true false true (tick_ns s) (cmd_cv_clock s)).

(** * The command queue and its waiter *)

Definition server_waiter_release (s : PyRtpServer) : outcome PyRtpServer :=
  _ ← d_assert (server_inited s);
  Done (set_cmd s false (accepting_commands s) (cmd_waiter s) (cmds s)).

(** [rtp_sync_waiter_reset] clears the result of the last command. *)
Definition server_waiter_acquire (s : PyRtpServer) : pyres unit * PyRtpServer :=
  if negb (server_inited s) then (Raise RuntimeError, s)
  else if cmd_waiter_busy s then (Raise RuntimeError, s)
  else (Ret (), set_cmd s true (accepting_commands s) {| wt_done := false; wt_status := 0 |} (cmds s)).

(** [None]: queued; otherwise the error, which is set where the caller asks. *)
Definition enqueue_command (s : PyRtpServer) (cmd : RtpServerCmd) : option exn * PyRtpServer :=
  if negb (server_inited s) then (Some RuntimeError, s)
  else if negb (accepting_commands s) then (Some RuntimeError, s)
  else (None, set_cmd s (cmd_waiter_busy s) (accepting_commands s) (cmd_waiter s) (cmds s ++ [cmd])).

Definition detach_commands (s : PyRtpServer) : list RtpServerCmd * PyRtpServer :=
  (cmds s, set_cmd s (cmd_waiter_busy s) (accepting_commands s) (cmd_waiter s) []).

Definition rtp_sync_waiter_complete (s : PyRtpServer) (status : Z) : PyRtpServer :=
  set_cmd s (cmd_waiter_busy s) (accepting_commands s) {| wt_done := true; wt_status := status |} (cmds s).

(** * The table of channels *)

(** The growth loop of [ensure_channel_capacity]; [None]: it would overflow. *)
Fixpoint grow_cap (fuel : nat) (new_cap need : Z) : outcome (option Z) :=
  if new_cap <? need then
    if U64_MAX / 2 <? new_cap then Done None
    else match fuel with O => OutOfFuel | S fuel => grow_cap fuel (u64 (new_cap * 2)) need end
  else Done (Some new_cap).

(** [mem]: memory is there; no block is larger than [PTRDIFF_MAX]. The [memset]
    behind the old entries must stay inside the block. *)
Definition ensure_channel_capacity (mem : bool) (s : PyRtpServer) (need : Z)
    : outcome (bool * PyRtpServer) :=
  let old_cap := zlen (channels s) in
  if need <=? old_cap then Done (true, s)
  else
    new_cap ← grow_cap 64 (if old_cap =? 0 then 4 else old_cap) need;
    match new_cap with
    | None => Done (false, s)
    | Some new_cap =>
        let bytes := u64 (new_cap * 8) in
        if negb (mem && (bytes <=? PTRDIFF_MAX)) then Done (false, s)
        else
          _ ← ub_unless (new_cap * 8 <=? bytes);
          Done (true, set_table s (channels s ++ replicate (Z.to_nat (new_cap - old_cap)) None)
                        (channels_active s) true)
    end.

Fixpoint first_free (l : list (option Z)) : option nat :=
  match l with
  | [] => None
  | None :: _ => Some O
  | Some _ :: l => S <$> first_free l
  end.

Definition alloc_channel_slot (mem : bool) (s : PyRtpServer) : outcome (option nat * PyRtpServer) :=
  match first_free (channels s) with
  | Some i => Done (Some i, s)
  | None =>
      let old_cap := zlen (channels s) in
      if U64_MAX / 2 <? old_cap then Done (None, s)
      else
        '(grown, s) ← ensure_channel_capacity mem s (if old_cap =? 0 then 4 else u64 (old_cap * 2));
        Done (if grown : bool then Some (Z.to_nat old_cap) else None, s)
  end.

Fixpoint find_channel_index (l : list (option Z)) (channel : Z) : option nat :=
  match l with
  | [] => None
  | Some a :: l => if a =? channel then Some O else S <$> find_channel_index l channel
  | None :: l => S <$> find_channel_index l channel
  end.

Definition find_channel (s : PyRtpServer) (channel : Z) : option Z :=
  i ← find_channel_index (channels s) channel; mjoin (channels s !! i).

Definition remove_channel (s : PyRtpServer) (channel : Z) : option Z * PyRtpServer :=
  match find_channel_index (channels s) channel with
  | None => (None, s)
  | Some i =>
      (mjoin (channels s !! i),
       set_table s (<[i := None]> (channels s))
         (if 0 <? channels_active s then channels_active s - 1 else channels_active s)
         (pollfds_dirty s))
  end.

Definition clear_poll_cache (s : PyRtpServer) : PyRtpServer := set_poll s [] [] 0.

(** * Channels, items and their memory *)

Section Server.
Context {Q : Type} `{SendQueue Q}.
Abbreviation world := (world Q).

Definition set_srv (w : world) (s : PyRtpServer) : world :=
  {| srv := s; chans := chans w; items := items w; objs := objs w; w_log := w_log w |}.
Definition set_chans (w : world) (h : gmap Z (cell (PyRtpChannel Q))) : world :=
  {| srv := srv w; chans := h; items := items w; objs := objs w; w_log := w_log w |}.
Definition set_items (w : world) (m : gmap Z RtpSendItem) : world :=
  {| srv := srv w; chans := chans w; items := m; objs := objs w; w_log := w_log w |}.
Definition set_objs (w : world) (h : gmap Z (cell (list Z))) : world :=
  {| srv := srv w; chans := chans w; items := items w; objs := h; w_log := w_log w |}.
Definition log (w : world) (e : event) : world :=
  {| srv := srv w; chans := chans w; items := items w; objs := objs w; w_log := w_log w ++ [e] |}.

(** A store into the channel [a] points to. *)
Definition upd_chan (w : world) (a : Z) (f : PyRtpChannel Q → PyRtpChannel Q) : outcome world :=
  match chans w !! a with
  | Some c => Done (set_chans w (<[a := {| rc := rc c; val := f (val c) |}]> (chans w)))
  | None => Undefined
  end.

Definition set_closed (c : PyRtpChannel Q) : PyRtpChannel Q :=
  {| closed := true; has_target := has_target c; state := state c; local_addr := local_addr c |}.
Definition set_has_target (c : PyRtpChannel Q) : PyRtpChannel Q :=
  {| closed := closed c; has_target := true; state := state c; local_addr := local_addr c |}.
Definition set_state (st : RtpChannelState Q) (c : PyRtpChannel Q) : PyRtpChannel Q :=
  {| closed := closed c; has_target := has_target c; state := st; local_addr := local_addr c |}.
Definition set_out_q (q : Q) (st : RtpChannelState Q) : RtpChannelState Q :=
  {| fd := fd st; st_has_target := st_has_target st; target_addr := target_addr st;
     pkt_in_cb := pkt_in_cb st; out_q := q |}.
Definition set_target_addr (addr : sockaddr) (st : RtpChannelState Q) : RtpChannelState Q :=
  {| fd := fd st; st_has_target := true; target_addr := addr;
     pkt_in_cb := pkt_in_cb st; out_q := out_q st |}.

(** [rtp_channel_state_init]; the target of a fresh state is all zeros. *)
Definition no_addr : sockaddr := {| sa_family := 0; sa_addr := []; sa_port := 0; sa_len := 0 |}.
Definition rtp_channel_state_init (fd pkt_in_cb : Z) (out_q : Q) : RtpChannelState Q :=
  {| fd := fd; st_has_target := false; target_addr := no_addr; pkt_in_cb := pkt_in_cb;
     out_q := out_q |}.

Definition free_send_item (w : world) (p : Z) : outcome world :=
  match items w !! p with
  | None => Undefined
  | Some item =>
      h ← py_decref (objs w) (data_ref item);
      Done (set_items (set_objs w h) (delete p (items w)))
  end.

(** [free_send_queue], on the queue of a channel about to go. *)
Fixpoint free_send_queue (fuel : nat) (w : world) (q : Q) : outcome world :=
  '(o, q) ← sq_pop q;
  match o with
  | None => Done w
  | Some p =>
      match fuel with
      | O => OutOfFuel
      | S fuel => w ← free_send_item w p; free_send_queue fuel w q
      end
  end.

(** There are no more queued items than items. *)
Definition destroy_send_queue (w : world) (q : Q) : outcome world := free_send_queue (size (items w)) w q.

(** The reference to the callback is not counted. *)
Definition rtp_channel_cleanup (w : world) (c : PyRtpChannel Q) : outcome world :=
  _ ← d_assert (0 <=? fd (state c));
  destroy_send_queue (log w (CloseFd (fd (state c)))) (out_q (state c)).

(** A method up to where it waits for the worker without the interpreter lock,
    or to its end. *)
Inductive begun (A : Type) : Type :=
| Ended (r : A)
| Waiting.
#[global] Arguments Ended {A} _.
#[global] Arguments Waiting {A}.

(** [rtp_channel_close_internal] up to the wait. [on_worker]: the caller is a
    packet callback; [alloc]: the command can be allocated. *)
Definition rtp_channel_close_begin (on_worker with_error alloc : bool) (w : world) (a : Z)
    : outcome (begun (pyres unit) * world) :=
  c ← py_read (chans w) a;
  if closed c then Done (Ended (if with_error then Raise RuntimeError else Ret ()), w)
  else
    _ ← d_assert (worker_running (srv w));
    if negb (accepting_commands (srv w)) then
      w ← upd_chan w a set_closed;
      Done (Ended (if with_error then Raise RuntimeError else Ret ()), w)
    else if negb alloc then Done (Ended (if with_error then Raise MemoryError else Ret ()), w)
    else
      let '(got, s) := if on_worker then (Ret (), srv w) else server_waiter_acquire (srv w) in
      match got with
      | Raise e => if with_error then Done (Ended (Raise e), set_srv w s)
          else
            (* no waiter, no wait *)
            match enqueue_command s {| cmd_type := CMD_REMOVE_CHANNEL a; cmd_waits := false |} with
            | (_, s) => w ← upd_chan (set_srv w s) a set_closed; Done (Ended (Ret ()), w)
            end
      | Ret _ =>
          match enqueue_command s {| cmd_type := CMD_REMOVE_CHANNEL a; cmd_waits := negb on_worker |} with
          | (Some e, s) =>
              s ← (if on_worker then Done s else server_waiter_release s);
              if with_error && negb (bool_decide (e = RuntimeError)) then
                Done (Ended (Raise e), set_srv w s)
              else w ← upd_chan (set_srv w s) a set_closed; Done (Ended (Ret ()), w)
          | (None, s) =>
              if on_worker then
                w ← upd_chan (set_srv w s) a set_closed; Done (Ended (Ret ()), w)
              else Done (Waiting, set_srv w s)
          end
      end.

(** [PyRtpChannel_dealloc], for an object whose count has reached zero. A wait
    for the worker would end with a [Py_DECREF] of the object: undefined. (Memory
    for the command is taken to be had; no run comes here with an open channel
    of a server that takes commands.) *)
Definition PyRtpChannel_dealloc (on_worker : bool) (w : world) (a : Z) : outcome world :=
  c ← py_read (chans w) a;
  w ← (if closed c then Done w
       else
         '(r, w) ← rtp_channel_close_begin on_worker false true w a;
         match r with Ended _ => Done w | Waiting => Undefined end);
  c ← py_read (chans w) a;
  w ← rtp_channel_cleanup w c;
  Done (set_chans w (delete a (chans w))).

(** [Py_DECREF] of a channel. *)
Definition chan_decref (on_worker : bool) (w : world) (a : Z) : outcome world :=
  match chans w !! a with
  | None => Undefined
  | Some c =>
      if rc c =? 1 then PyRtpChannel_dealloc on_worker w a
      else Done (set_chans w (<[a := {| rc := rc c - 1; val := val c |}]> (chans w)))
  end.

Definition rtp_channel_state_unref (w : world) (a : Z) : outcome world := chan_decref true w a.

Fixpoint unref_all (w : world) (l : list (option Z)) : outcome world :=
  match l with
  | [] => Done w
  | None :: l => unref_all w l
  | Some a :: l => w ← rtp_channel_state_unref w a; unref_all w l
  end.

Definition clear_channels (w : world) : outcome world :=
  w ← unref_all w (channels (srv w));
  Done (set_srv w (set_table (srv w) [] 0 (pollfds_dirty (srv w)))).

Definition free_command (on_worker : bool) (w : world) (cmd : RtpCommand) : outcome world :=
  match cmd with
  | CMD_ADD_CHANNEL (Some a) => chan_decref on_worker w a
  | _ => Done w
  end.

Fixpoint free_command_list (on_worker : bool) (w : world) (l : list RtpServerCmd) : outcome world :=
  match l with
  | [] => Done w
  | cmd :: l => w ← free_command on_worker w (cmd_type cmd); free_command_list on_worker w l
  end.

(** * The worker *)

(** One turn of the loop of [process_commands]; [true]: a stop was seen. *)
Definition process_command (mem : bool) (w : world) (cmd : RtpServerCmd) : outcome (bool * world) :=
  '(seen, cmd_status, type, w) ←
    match cmd_type cmd with
    | CMD_ADD_CHANNEL channel =>
        '(slot, s) ← alloc_channel_slot mem (srv w);
        match slot with
        | Some i =>
            match channel with
            | None => Aborted
            | Some a =>
                match channels s !! i with
                | None => Undefined
                | Some (Some _) => Aborted
                | Some None =>
                    let s := set_table s (<[i := Some a]> (channels s)) (u64 (channels_active s + 1)) true in
                    Done (false, 0, CMD_ADD_CHANNEL None, set_srv w s)
                end
            end
        | None => Done (false, ENOMEM, CMD_ADD_CHANNEL channel, set_srv w s)
        end
    | CMD_REMOVE_CHANNEL channel =>
        let '(removed, s) := remove_channel (srv w) channel in
        let s := match removed with
                 | Some _ => set_table s (channels s) (channels_active s) true
                 | None => s
                 end in
        Done (false, 0, cmd_type cmd, set_srv w s)
    | CMD_SET_TARGET channel addr =>
        match find_channel (srv w) channel with
        | Some ch =>
            w ← upd_chan w ch (λ c, set_state (set_target_addr addr (state c)) c);
            Done (false, 0, cmd_type cmd, w)
        | None => Done (false, ENOENT, cmd_type cmd, w)
        end
    | CMD_DROP_CHANNELS =>
        w ← clear_channels w;
        Done (false, 0, cmd_type cmd, set_srv w (clear_poll_cache (srv w)))
    | CMD_STOP_WORKER =>
        w ← clear_channels w;
        Done (true, 0, cmd_type cmd, set_srv w (clear_poll_cache (srv w)))
    end;
  let w := if cmd_waits cmd then set_srv w (rtp_sync_waiter_complete (srv w) cmd_status) else w in
  w ← free_command true w type;
  Done (seen, w).

(** The loop of [refresh_poll_cache] that fills the arrays, which have room for
    [room] entries: the descriptors and the channels. *)
Fixpoint fill_poll (h : gmap Z (cell (PyRtpChannel Q))) (room : Z) (l : list (option Z))
    : outcome (list Z * list Z) :=
  match l with
  | [] => Done ([], [])
  | None :: l => fill_poll h room l
  | Some a :: l =>
      c ← py_read h a;
      _ ← ub_unless (0 <? room);
      '(fds, index) ← fill_poll h (room - 1) l;
      Done (fd (state c) :: fds, a :: index)
  end.

(** [mem_fds], [mem_index]: whether the two arrays can grow. *)
Definition refresh_poll_cache (mem_fds mem_index : bool) (w : world) : outcome (bool * world) :=
  let s := srv w in
  if negb (pollfds_dirty s) then Done (true, w)
  else
    let need := channels_active s in
    if need =? 0 then Done (true, set_srv w (set_poll s [] [] (pollfds_cap s)))
    else if (pollfds_cap s <? need) && negb (mem_fds && mem_index) then Done (false, w)
    else
      let cap := if pollfds_cap s <? need then need else pollfds_cap s in
      '(fds, index) ← fill_poll (chans w) cap (channels s);
      Done (true, set_srv w (set_poll s fds index cap)).

(** [poll_inputs]: the channels whose entry [poll] marked. *)
Definition poll_ready (s : PyRtpServer) (revents : list bool) : list Z :=
  omap (λ x : Z * bool, if x.2 then Some x.1 else None) (zip (pollfds_index s) revents).

(** One turn of [receive_for_channel]: [recvfrom] gave a datagram, which the
    callback is told (if there is memory for its arguments), or an error. *)
Definition receive_one (w : world) (a : Z) (recv : option (list Z * sockaddr)) (mem : bool) (rtime : Z)
    : outcome (bool * world) :=
  c ← py_read (chans w) a;
  _ ← d_assert (0 <=? fd (state c));
  Done (match recv with
        | None => (false, w)
        | Some (data, addr) =>
            (true, if mem then log w (PacketIn (pkt_in_cb (state c)) data addr rtime) else w)
        end).

(** One turn of the inner loop of [drain_outputs]; [false]: the queue is empty. *)
Definition drain_one (w : world) (a : Z) (has_target : bool) : outcome (bool * world) :=
  c ← py_read (chans w) a;
  '(o, q) ← sq_pop (out_q (state c));
  w ← upd_chan w a (λ c, set_state (set_out_q q (state c)) c);
  match o with
  | None => Done (false, w)
  | Some p =>
      match items w !! p with
      | None => Undefined
      | Some item =>
          w ← (if has_target then
                 bytes ← py_read (objs w) (data_ref item);
                 data ← mem_read bytes 0 (item_size item);
                 Done (log w (SendTo (fd (state c)) data (target_addr (state c))))
               else Done w);
          w ← free_send_item w p;
          Done (true, w)
      end
  end.

Fixpoint drain_channel (fuel : nat) (w : world) (a : Z) (has_target : bool) : outcome world :=
  '(more, w) ← drain_one w a has_target;
  if more : bool then
    match fuel with O => OutOfFuel | S fuel => drain_channel fuel w a has_target end
  else Done w.

(** [drain_outputs], with nobody in between; there are no more queued items than
    items. *)
Fixpoint drain_list (w : world) (l : list (option Z)) : outcome world :=
  match l with
  | [] => Done w
  | None :: l => drain_list w l
  | Some a :: l =>
      c ← py_read (chans w) a;
      w ← drain_channel (size (items w)) w a (st_has_target (state c));
      drain_list w l
  end.
Definition drain_outputs (w : world) : outcome world := drain_list w (channels (srv w)).
End Server.

(** * Methods *)

Section Methods.
Context {Q : Type} `{SendQueue Q}.
Abbreviation world := (world Q).

(** The arguments of [create_channel]; ["K"] takes the queue size modulo 2^64. *)
Record create_args : Set := {
  ca_callable : bool;
  ca_pkt_in : Z;
  ca_host : option string;
  ca_port : Z;
  ca_queue_size : Z;
  ca_family : family_arg;
}.

(** What the system gives: name resolution, the socket, the memory of the channel
    object and of the command. *)
Record create_env : Set := {
  ce_getaddrinfo : gai_request → option (list addrinfo);
  ce_socket : Z;
  ce_nonblock : Z;
  ce_bind : Z;
  ce_sockname : option sockaddr;
  ce_object : option Z;
  ce_cmd : bool;
}.

(** [fail_channel_cmd]. *)
Definition create_fail (w : world) (a : Z) : outcome world :=
  w ← upd_chan w a set_closed; chan_decref false w a.

(** [create_channel] from the allocation of the channel object on. *)
Definition create_channel_object (w : world) (a fd cb : Z) (local : sockaddr) (q : Q) (cmd_mem : bool)
    : outcome (begun (pyres Z) * world) :=
  let ch := {| closed := false; has_target := false;
               state := rtp_channel_state_init fd cb q; local_addr := local |} in
  let w := set_chans w (<[a := {| rc := 1; val := ch |}]> (chans w)) in
  if negb cmd_mem then w ← create_fail w a; Done (Ended (Raise MemoryError), w)
  else
    h ← py_incref (chans w) a;
    let w := set_chans w h in
    let cmd := {| cmd_type := CMD_ADD_CHANNEL (Some a); cmd_waits := true |} in
    match server_waiter_acquire (srv w) with
    | (Raise e, s) =>
        w ← free_command false (set_srv w s) (cmd_type cmd);
        w ← create_fail w a;
        Done (Ended (Raise e), w)
    | (Ret _, s) =>
        match enqueue_command s cmd with
        | (Some e, s) =>
            s ← server_waiter_release s;
            w ← free_command false (set_srv w s) (cmd_type cmd);
            w ← create_fail w a;
            Done (Ended (Raise e), w)
        | (None, s) => Done (Waiting, set_srv w s)
        end
    end.

Definition PyRtpServer_create_channel_begin (w : world) (args : create_args) (env : create_env)
    : outcome (begun (pyres Z) * world) :=
  let size := ca_queue_size args in
  if negb (ca_callable args) then Done (Ended (Raise TypeError), w)
  else if size =? 0 then Done (Ended (Raise ValueError), w)
  else if negb (Z.land size (u64 (size - 1)) =? 0) then Done (Ended (Raise ValueError), w)
  else if U64_MAX <? size then Done (Ended (Raise OverflowError), w)
  else
    match parse_bind_family (ca_family args) with
    | Raise e => Done (Ended (Raise e), w)
    | Ret family_hint =>
        match resolve_udp_addr (ce_getaddrinfo env)
                (Some (effective_bind_host (ca_host args) family_hint)) (ca_port args) true family_hint with
        | Raise e => Done (Ended (Raise e), w)
        | Ret _ =>
            let '(sock, shut) := build_udp_socket (ce_socket env) (ce_nonblock env) (ce_bind env)
                                   (ce_sockname env) in
            let w := foldl log w (CloseFd <$> shut) in
            match sock with
            | None => Done (Ended (Raise OSError), w)
            | Some (fd, local) =>
                match sq_create size with
                | None => Done (Ended (Raise MemoryError), log w (CloseFd fd))
                | Some q =>
                    match ce_object env with
                    | None => (* out_q is not destroyed *)
                        Done (Ended (Raise MemoryError), log w (CloseFd fd))
                    | Some a => create_channel_object w a fd (ca_pkt_in args) local q (ce_cmd env)
                    end
                end
            end
        end
    end.

(** After the wait, on the channel made. *)
Definition PyRtpServer_create_channel_end (w : world) (a : Z) : outcome (pyres Z * world) :=
  let cmd_status := wt_status (cmd_waiter (srv w)) in
  s ← server_waiter_release (srv w);
  let w := set_srv w s in
  if negb (cmd_status =? 0) then
    w ← create_fail w a;
    Done (Raise (if cmd_status =? ENOMEM then MemoryError else RuntimeError), w)
  else Done (Ret a, w).

Definition rtp_channel_close_end (w : world) (a : Z) : outcome (pyres unit * world) :=
  let cmd_status := wt_status (cmd_waiter (srv w)) in
  s ← server_waiter_release (srv w);
  let w := set_srv w s in
  if negb (cmd_status =? 0) then Done (Raise RuntimeError, w)
  else
    w ← chan_decref false w a;
    w ← upd_chan w a set_closed;
    Done (Ret (), w).

Definition PyRtpChannel_set_target_begin (w : world) (a : Z)
    (getaddrinfo : gai_request → option (list addrinfo)) (host : string) (port : Z) (cmd_mem : bool)
    : outcome (begun (pyres unit) * world) :=
  c ← py_read (chans w) a;
  if closed c then Done (Ended (Raise RuntimeError), w)
  else if negb (accepting_commands (srv w)) then Done (Ended (Raise RuntimeError), w)
  else
    let family_hint := if 0 <? sa_len (local_addr c) then sa_family (local_addr c) else AF_UNSPEC in
    match resolve_udp_addr getaddrinfo (Some host) port false family_hint with
    | Raise e => Done (Ended (Raise e), w)
    | Ret (target, _) =>
        if negb cmd_mem then Done (Ended (Raise MemoryError), w)
        else
          match server_waiter_acquire (srv w) with
          | (Raise e, s) => Done (Ended (Raise e), set_srv w s)
          | (Ret _, s) =>
              match enqueue_command s {| cmd_type := CMD_SET_TARGET a target; cmd_waits := true |} with
              | (Some e, s) => s ← server_waiter_release s; Done (Ended (Raise e), set_srv w s)
              | (None, s) => Done (Waiting, set_srv w s)
              end
          end
    end.

Definition PyRtpChannel_set_target_end (w : world) (a : Z) : outcome (pyres unit * world) :=
  let cmd_status := wt_status (cmd_waiter (srv w)) in
  s ← server_waiter_release (srv w);
  let w := set_srv w s in
  if negb (cmd_status =? 0) then Done (Raise RuntimeError, w)
  else w ← upd_chan w a set_has_target; Done (Ret (), w).

Definition bytes_from_obj (h : gmap Z (cell (list Z))) (arg : bytes_arg)
    : outcome (pyres Z * gmap Z (cell (list Z))) :=
  match arg with
  | ArgBytes p => h ← py_incref h p; Done (Ret p, h)
  | ArgObject (Some (p, bytes)) => Done (Ret p, <[p := {| rc := 1; val := bytes |}]> h)
  | ArgObject None => Done (Raise TypeError, h)
  end.

(** [item]: the address [calloc] gives. *)
Definition PyRtpChannel_send_pkt (w : world) (a : Z) (arg : bytes_arg) (item : option Z)
    : outcome (pyres unit * world) :=
  c ← py_read (chans w) a;
  if closed c then Done (Raise RuntimeError, w)
  else if negb (has_target c) then Done (Raise RuntimeError, w)
  else
    '(owner, h) ← bytes_from_obj (objs w) arg;
    let w := set_objs w h in
    match owner with
    | Raise e => Done (Raise e, w)
    | Ret p =>
        bytes ← py_read (objs w) p;
        match item with
        | None => h ← py_decref (objs w) p; Done (Raise MemoryError, set_objs w h)
        | Some i =>
            let w := set_items w (<[i := {| data_ref := p; item_size := zlen bytes |}]> (items w)) in
            _ ← d_assert (worker_running (srv w));
            if negb (accepting_commands (srv w)) then
              w ← free_send_item w i; Done (Raise RuntimeError, w)
            else
              '(queued, q) ← sq_push (out_q (state c)) i;
              w ← upd_chan w a (λ c, set_state (set_out_q q (state c)) c);
              if queued : bool then Done (Ret (), w)
              else w ← free_send_item w i; Done (Raise RtpQueueFullError, w)
        end
    end.

(** [rtp_server_drop_channels_internal], which is all [shutdown] does. *)
Definition PyRtpServer_shutdown_begin (w : world) (cmd_mem : bool) : outcome (begun (pyres unit) * world) :=
  _ ← d_assert (worker_running (srv w));
  _ ← d_assert (accepting_commands (srv w));
  if negb cmd_mem then Done (Ended (Raise MemoryError), w)
  else
    match server_waiter_acquire (srv w) with
    | (Raise e, s) => Done (Ended (Raise e), set_srv w s)
    | (Ret _, s) =>
        Done (Waiting, set_srv w (set_cmd s (cmd_waiter_busy s) false (cmd_waiter s)
                (cmds s ++ [{| cmd_type := CMD_DROP_CHANNELS; cmd_waits := true |}])))
    end.

Definition PyRtpServer_shutdown_end (w : world) : outcome (pyres unit * world) :=
  let cmd_status := wt_status (cmd_waiter (srv w)) in
  s ← server_waiter_release (srv w);
  Done (if negb (cmd_status =? 0) then Raise RuntimeError else Ret (), set_srv w s).

(** [rtp_server_stop_worker_internal] up to [pthread_join], and after it. *)
Definition rtp_server_stop_worker_begin (w : world) (cmd_mem : bool) : outcome (bool * world) :=
  _ ← d_assert (worker_running (srv w));
  if negb cmd_mem then Done (false, w)
  else
    let s := srv w in
    let s := set_life s (worker_running s) (server_inited s) true false (tick_ns s) (cmd_cv_clock s) in
    Done (true, set_srv w (set_cmd s (cmd_waiter_busy s) false (cmd_waiter s)
            (cmds s ++ [{| cmd_type := CMD_STOP_WORKER; cmd_waits := false |}]))).

Definition rtp_server_stop_worker_end (w : world) : outcome world :=
  let s := srv w in
  let s := set_life s false (server_inited s) (shutdown_queued s) false (tick_ns s) (cmd_cv_clock s) in
  let '(l, s) := detach_commands s in
  free_command_list false (set_srv w s) l.

(** [PyRtpServer_dealloc] after the join. *)
Definition PyRtpServer_dealloc_end (w : world) : outcome world :=
  w ← rtp_server_stop_worker_end w;
  let '(l, s) := detach_commands (srv w) in
  w ← free_command_list false (set_srv w s) l;
  Done (set_srv w (clear_poll_cache (srv w))).

Definition PyRtpChannel_get_local_addr (inet_ntop : Z → list Z → option string) (c : PyRtpChannel Q)
    : pyres (option (string * Z)) :=
  if sa_len (local_addr c) =? 0 then Ret None
  else
    match sockaddr_to_tuple inet_ntop (local_addr c) with
    | Some t => Ret (Some t)
    | None => Raise OSError
    end.
End Methods.

(** * The server at work *)

(** Where the worker is in [rtp_server_worker]. Between two of these points the
    worker does one step that no Python thread sees the middle of; the locals
    [next_tick_ns] and [now_ns] go along. *)
Inductive srv_pc : Set :=
| WTop (next_tick_ns : Z)
| WCmds (cmd : RtpServerCmd) (rest : list RtpServerCmd) (shutdown_seen : bool) (next_tick_ns : Z)
| WRefresh (next_tick_ns : Z)
| WTick (next_tick_ns : Z)
| WPoll (channel : Z) (rest : list Z) (rtime next_tick_ns now_ns : Z)
| WDrain (i : nat) (next_tick_ns now_ns : Z)
| WDrainCh (i : nat) (channel : Z) (has_target : bool) (next_tick_ns now_ns : Z)
| WWait (until : option Z) (next_tick_ns : Z)
| WExit.

Definition after_cmds (rest : list RtpServerCmd) (shutdown_seen : bool) (next_tick_ns : Z) : srv_pc :=
  match rest with
  | cmd :: rest => WCmds cmd rest shutdown_seen next_tick_ns
  | [] => if shutdown_seen then WExit else WRefresh next_tick_ns
  end.
Definition after_poll (rest : list Z) (rtime next_tick_ns now_ns : Z) : srv_pc :=
  match rest with
  | a :: rest => WPoll a rest rtime next_tick_ns now_ns
  | [] => WDrain 0 next_tick_ns now_ns
  end.

(** The Python thread that waits for the worker; one at most, because of
    [cmd_waiter_busy]. It holds a reference to the channel. *)
Inductive pend_call : Set :=
| PCreate (a : Z)
| PClose (a : Z)
| PSetTarget (a : Z) (addr : sockaddr)
| PShutdown.

#[export] Instance sockaddr_eq_dec : EqDecision sockaddr.
Proof. solve_decision. Defined.
#[export] Instance pend_call_eq_dec : EqDecision pend_call.
Proof. solve_decision. Defined.

(** [held], [heldb]: the references the program holds to channels and to [bytes]
    objects; [leaked]: references to channels nobody will ever give back. *)
Record sys (Q : Type) : Type := {
  wld : world Q;
  pc : srv_pc;
  pend : option pend_call;
  held : list Z;
  heldb : list Z;
  leaked : list Z;
}.
Arguments wld {Q} _. Arguments pc {Q} _. Arguments pend {Q} _.
Arguments held {Q} _. Arguments heldb {Q} _. Arguments leaked {Q} _.

Inductive label : Type :=
(* the worker *)
| LDetach
| LCmd (mem : bool)
| LRefresh (mem_fds mem_index : bool)
| LClock (now_ns : Z) (poll : option (Z * list bool))
| LRecv (recv : option (list Z * sockaddr)) (mem : bool)
| LDrain
| LWake
(* Python threads *)
| LCreate (args : create_args) (env : create_env)
| LClose (on_worker : bool) (a : Z) (cmd_mem : bool)
| LSetTarget (a : Z) (getaddrinfo : gai_request → option (list addrinfo)) (host : string) (port : Z)
    (cmd_mem : bool)
| LSend (a : Z) (arg : bytes_arg) (item : option Z)
| LShutdown (cmd_mem : bool)
| LEnd
| LTake (a : Z)
| LDrop (a : Z)
| LNewObj (p : Z) (bytes : list Z)
| LTakeObj (p : Z)
| LDropObj (p : Z).

Section System.
Context {Q : Type} `{SendQueue Q}.
Abbreviation sys := (sys Q).

Definition with_pc (s : sys) (w : world Q) (p : srv_pc) : sys :=
  {| wld := w; pc := p; pend := pend s; held := held s; heldb := heldb s; leaked := leaked s |}.
Definition with_world (s : sys) (w : world Q) : sys := with_pc s w (pc s).
Definition with_pend (s : sys) (w : world Q) (p : option pend_call) (hl : list Z) : sys :=
  {| wld := w; pc := pc s; pend := p; held := hl; heldb := heldb s; leaked := leaked s |}.
Definition with_heldb (s : sys) (w : world Q) (hb : list Z) : sys :=
  {| wld := w; pc := pc s; pend := pend s; held := held s; heldb := hb; leaked := leaked s |}.
Definition with_leaked (s : sys) (lk : list Z) : sys :=
  {| wld := wld s; pc := pc s; pend := pend s; held := held s; heldb := heldb s; leaked := lk |}.

(** A removal nobody waits for takes the channel out of the table and keeps the
    table's reference to it. *)
Definition lost_by (s : PyRtpServer) (cmd : RtpServerCmd) : list Z :=
  match cmd_type cmd, cmd_waits cmd with
  | CMD_REMOVE_CHANNEL a, false => match find_channel s a with Some _ => [a] | None => [] end
  | _, _ => []
  end.

(** [rtp_server_worker], step by step. *)
Definition worker_exec (l : label) (s : sys) : outcome sys :=
  let w := wld s in
  match l, pc s with
  | LDetach, WTop next =>
      let '(cs, sv) := detach_commands (srv w) in
      Done (with_pc s (set_srv w sv) (after_cmds cs false next))
  | LCmd mem, WCmds cmd rest seen next =>
      let lost := lost_by (srv w) cmd in
      '(stop, w) ← process_command mem w cmd;
      Done (with_leaked (with_pc s w (after_cmds rest (seen || stop) next)) (lost ++ leaked s))
  | LRefresh mem_fds mem_index, WRefresh next =>
      '(ok, w) ← refresh_poll_cache mem_fds mem_index w;
      Done (with_pc s w
        (if zlen (pollfds (srv w)) =? 0 then WWait None 0 else if ok : bool then WTick next else WTop next))
  | LClock now poll, WTick next =>
      let next := if next =? 0 then now else next in
      Done (with_pc s w
        (if now <? next then WWait (Some next) next
         else
           match poll with
           | Some (rtime, revents) => after_poll (poll_ready (srv w) revents) rtime next now
           | None => WDrain 0 next now
           end))
  | LRecv recv mem, WPoll a rest rtime next now =>
      '(more, w) ← receive_one w a recv mem rtime;
      Done (with_pc s w (if more : bool then pc s else after_poll rest rtime next now))
  | LDrain, WDrain i next now =>
      match channels (srv w) !! i with
      | Some (Some a) =>
          c ← py_read (chans w) a;
          Done (with_pc s w (WDrainCh i a (st_has_target (state c)) next now))
      | Some None => Done (with_pc s w (WDrain (S i) next now))
      | None =>
          let tick := tick_ns (srv w) in
          next ← tick_advance (S (Z.to_nat ((now - next) / tick))) next now tick;
          Done (with_pc s w (WTop next))
      end
  | LDrain, WDrainCh i a ht next now =>
      '(more, w) ← drain_one w a ht;
      Done (with_pc s w (if more : bool then pc s else WDrain (S i) next now))
  | LWake, WWait _ next => Done (with_pc s w (WTop next))
  | _, _ => Done s
  end.

(** The end of a call that waited; what its frame held is the program's again. *)
Definition call_end (s : sys) (p : pend_call) : outcome sys :=
  match p with
  | PCreate a =>
      '(r, w) ← PyRtpServer_create_channel_end (wld s) a;
      Done (with_pend s w None (match r with Ret a => a :: held s | Raise _ => held s end))
  | PClose a =>
      '(_, w) ← rtp_channel_close_end (wld s) a; Done (with_pend s w None (a :: held s))
  | PSetTarget a _ =>
      '(_, w) ← PyRtpChannel_set_target_end (wld s) a; Done (with_pend s w None (a :: held s))
  | PShutdown => '(_, w) ← PyRtpServer_shutdown_end (wld s); Done (with_pend s w None (held s))
  end.

(** The target [set_target] puts into its command. *)
Definition target_of (cmds : list RtpServerCmd) : sockaddr :=
  match last cmds with
  | Some {| cmd_type := CMD_SET_TARGET _ addr |} => addr
  | _ => no_addr
  end.

Definition python_exec (l : label) (s : sys) : outcome sys :=
  let w := wld s in
  match l with
  | LCreate args env =>
      '(r, w) ← PyRtpServer_create_channel_begin w args env;
      Done (match r with
            | Waiting => with_pend s w (PCreate <$> ce_object env) (held s)
            | Ended _ => with_world s w
            end)
  | LClose on_worker a cmd_mem =>
      '(r, w) ← rtp_channel_close_begin on_worker true cmd_mem w a;
      Done (match r with
            | Waiting => with_pend s w (Some (PClose a)) (remove_one a (held s))
            | Ended _ => with_world s w
            end)
  | LSetTarget a getaddrinfo host port cmd_mem =>
      '(r, w) ← PyRtpChannel_set_target_begin w a getaddrinfo host port cmd_mem;
      Done (match r with
            | Waiting => with_pend s w (Some (PSetTarget a (target_of (cmds (srv w))))) (remove_one a (held s))
            | Ended _ => with_world s w
            end)
  | LSend a arg item => '(_, w) ← PyRtpChannel_send_pkt w a arg item; Done (with_world s w)
  | LShutdown cmd_mem =>
      '(r, w) ← PyRtpServer_shutdown_begin w cmd_mem;
      Done (match r with
            | Waiting => with_pend s w (Some PShutdown) (held s)
            | Ended _ => with_world s w
            end)
  | LEnd => match pend s with Some p => call_end s p | None => Done s end
  | LTake a => h ← py_incref (chans w) a; Done (with_pend s (set_chans w h) (pend s) (a :: held s))
  | LDrop a => w ← chan_decref false w a; Done (with_pend s w (pend s) (remove_one a (held s)))
  | LNewObj p bytes => Done (with_heldb s (set_objs w (<[p := {| rc := 1; val := bytes |}]> (objs w))) (p :: heldb s))
  | LTakeObj p => h ← py_incref (objs w) p; Done (with_heldb s (set_objs w h) (p :: heldb s))
  | LDropObj p => h ← py_decref (objs w) p; Done (with_heldb s (set_objs w h) (remove_one p (heldb s)))
  | _ => Done s
  end.

Definition exec (l : label) (s : sys) : outcome sys :=
  match l with
  | LDetach | LCmd _ | LRefresh _ _ | LClock _ _ | LRecv _ _ | LDrain | LWake => worker_exec l s
  | _ => python_exec l s
  end.

(** Readings of the clock; and the interpreter's own rules: a method is called on
    an object one holds, new memory is not in use. A second [shutdown], which fails
    its assertion, is left out. *)
Definition CLOCK_MAX : Z := 9223372036854775808.
Definition enabled (l : label) (s : sys) : Prop :=
  let w := wld s in
  match l with
  | LDetach => ∃ next, pc s = WTop next
  | LCmd _ => ∃ cmd rest seen next, pc s = WCmds cmd rest seen next
  | LRefresh _ _ => ∃ next, pc s = WRefresh next
  | LClock now _ => 0 < now < CLOCK_MAX ∧ ∃ next, pc s = WTick next
  | LRecv _ _ => ∃ a rest rtime next now, pc s = WPoll a rest rtime next now
  | LDrain => (∃ i next now, pc s = WDrain i next now) ∨ ∃ i a ht next now, pc s = WDrainCh i a ht next now
  | LWake => ∃ until next, pc s = WWait until next ∧ (until = None → cmds (srv w) ≠ [])
  | LCreate args env =>
      0 ≤ ca_queue_size args ≤ U64_MAX ∧ ∀ a, ce_object env = Some a → chans w !! a = None
  | LClose on_worker a _ =>
      a ∈ held s ∧ if on_worker then ∃ a rest rtime next now, pc s = WPoll a rest rtime next now else True
  | LSetTarget a _ _ _ _ => a ∈ held s
  | LSend a arg item =>
      a ∈ held s ∧ (∀ i, item = Some i → items w !! i = None) ∧
      (match arg with
       | ArgBytes p => p ∈ heldb s
       | ArgObject (Some (p, _)) => objs w !! p = None
       | ArgObject None => True
       end) ∧
      ∀ c, chans w !! a = Some c → sq_pushes (out_q (state (val c))) + 1 < SEND_BUDGET
  | LShutdown _ => accepting_commands (srv w) = true
  | LEnd => pend s ≠ None ∧ wt_done (cmd_waiter (srv w)) = true
  | LTake a | LDrop a => a ∈ held s
  | LNewObj p _ => objs w !! p = None
  | LTakeObj p | LDropObj p => p ∈ heldb s
  end.

Definition fresh_sys (s : PyRtpServer) : sys :=
  {| wld := {| srv := s; chans := ∅; items := ∅; objs := ∅; w_log := [] |};
     pc := WTop 0; pend := None; held := []; heldb := []; leaked := [] |}.

(** The runs of a server from its initialisation on. *)
Inductive sreach : sys → Prop :=
| sreach_start tick_hz clk s :
    0 < tick_hz < 4294967296 →
    PyRtpServer_init PyRtpServer_new tick_hz 0 (0, clk) 0 0 = Done (Ret (), s) →
    sreach (fresh_sys s)
| sreach_step l s s' : sreach s → enabled l s → exec l s = Done s' → sreach s'.
End System.
