(* ===== verification/ServerMem.v ===== *)
(** The memory of the RTP server of [Server]: reference counts of the channels
    and of the [bytes] objects, send items and the queues they wait in, and that
    the operations on single channels - sending, taking and giving back
    references, deallocation - keep the books. *)
From stdpp Require Import prelude list gmap strings.
From Stdlib Require Import ZArith Lia.
From S2P Require Import Prelude Py RcHeap Sync SendQueue ServerArgs Server.
Local Open Scope Z_scope.

(** * Lists and maps *)

Definition live (s : PyRtpServer) : list Z := omap id (channels s).

Lemma live_set (l : list (option Z)) i o o' :
  l !! i = Some o → omap id (<[i := o']> l) ++ opt_list o ≡ₚ opt_list o' ++ omap id l.
Proof.
  revert i. induction l as [|x l IH]; intros [|i] Hi; try done; cbn in Hi |- *.
  - injection Hi as ->. destruct o as [a|], o' as [b|]; cbn; rewrite ?app_nil_r; try done.
    + by rewrite <- Permutation_cons_append, perm_swap.
    + by rewrite <- Permutation_cons_append.
  - specialize (IH i Hi). destruct x as [y|]; cbn; [|done].
    rewrite IH. by rewrite Permutation_middle.
Qed.

Lemma first_free_some l i : first_free l = Some i → l !! i = Some None.
Proof.
  revert i. induction l as [|[a|] l IH]; intros i; cbn; [done| |by intros [= <-]].
  destruct (first_free l) as [j|]; [|done]. intros [= <-]. by apply IH.
Qed.

Lemma find_index_some l a i : find_channel_index l a = Some i → l !! i = Some (Some a).
Proof.
  revert i. induction l as [|[b|] l IH]; intros i; cbn; [done| |].
  - destruct (b =? a) eqn:E; zbool; [intros [= <-]; by subst|].
    destruct (find_channel_index l a) as [j|]; [|done]. intros [= <-]. by apply IH.
  - destruct (find_channel_index l a) as [j|]; [|done]. intros [= <-]. by apply IH.
Qed.

Lemma find_index_none l a : find_channel_index l a = None ↔ a ∉ omap id l.
Proof.
  induction l as [|[b|] l IH]; cbn.
  - split; [|done]. intros _. apply not_elem_of_nil.
  - destruct (b =? a) eqn:E; zbool; [subst; split; [done|]; intros H; by destruct H; left|].
    rewrite fmap_None, IH, not_elem_of_cons. naive_solver.
  - by rewrite fmap_None, IH.
Qed.

Lemma find_channel_spec s a : find_channel s a = if decide (a ∈ live s) then Some a else None.
Proof.
  unfold find_channel, live. destruct (find_channel_index (channels s) a) as [i|] eqn:E; cbn.
  - pose proof (find_index_some _ _ _ E) as Hi. rewrite Hi. cbn. rewrite decide_True; [done|].
    apply list_elem_of_omap. exists (Some a). split; [|done]. by eapply list_elem_of_lookup_2.
  - apply find_index_none in E. by rewrite decide_False.
Qed.

Section Maps.
Context {A : Type} (f : Z → A → list Z).

(** All the numbers the entries of a map name. *)
Definition named (m : gmap Z A) : list Z := map_to_list m ≫= λ x, f x.1 x.2.

Lemma named_insert m a v : m !! a = None → named (<[a := v]> m) ≡ₚ f a v ++ named m.
Proof. intros Ha. unfold named. by rewrite map_to_list_insert. Qed.

Lemma named_delete m a v : m !! a = Some v → named m ≡ₚ f a v ++ named (delete a m).
Proof.
  intros Ha. rewrite <- (named_insert (delete a m) a v) by by rewrite lookup_delete_eq.
  by rewrite insert_delete_id.
Qed.

Lemma named_update m a v v' : m !! a = Some v → named (<[a := v']> m) ++ f a v ≡ₚ f a v' ++ named m.
Proof.
  intros Ha. rewrite (named_delete m a v Ha), <- insert_delete_eq, named_insert
    by by rewrite lookup_delete_eq.
  by rewrite <- app_assoc, (Permutation_app_comm (named _)).
Qed.

Lemma named_keep m a v v' : m !! a = Some v → f a v' = f a v → named (<[a := v']> m) ≡ₚ named m.
Proof.
  intros Ha E. pose proof (named_update m a v v' Ha) as Hp. rewrite E, Permutation_app_comm in Hp.
  by apply Permutation_app_inv_l in Hp.
Qed.

Lemma elem_of_named m x : x ∈ named m ↔ ∃ a v, m !! a = Some v ∧ x ∈ f a v.
Proof.
  unfold named. rewrite list_elem_of_bind. split.
  - intros ([a v] & Hx & Hin%elem_of_map_to_list). by exists a, v.
  - intros (a & v & Hm & Hx). exists (a, v). split; [done|]. by apply elem_of_map_to_list.
Qed.
End Maps.

(** * The memory *)

Section Memory.
Context {Q : Type} `{SendQueueLaws Q}.
Abbreviation world := (world Q).

Definition waiting (c : cell (PyRtpChannel Q)) : list Z := sq_list (out_q (state (val c))).
(** The items in the queues, the items there are, the objects they hold. *)
Definition queued (w : world) : list Z := named (λ _, waiting) (chans w).
Definition allocated (w : world) : list Z := named (λ p _, [p]) (items w).
Definition item_refs (w : world) : list Z := named (λ _ it, [data_ref it]) (items w).

(** [brefs]: the references to [bytes] objects outside of the items; [qs]: the
    items, wherever they are. *)
Record items_ok (w : world) (brefs qs : list Z) : Prop := {
  io_objs : heap_ok (objs w) (brefs ++ item_refs w);
  io_items : allocated w ≡ₚ qs;
  io_size : map_Forall (λ _ it, ∃ bytes, py_read (objs w) (data_ref it) = Done bytes ∧
                          item_size it = zlen bytes) (items w);
}.

(** [refs]: the references to channels; [loose]: the items in nobody's queue. *)
Record mem_ok (w : world) (refs brefs loose : list Z) : Prop := {
  mo_chans : heap_ok (chans w) refs;
  mo_each : map_Forall (λ _ c, sq_ok (out_q (state (val c))) ∧ 0 ≤ fd (state (val c))) (chans w);
  mo_items : items_ok w brefs (loose ++ queued w);
}.

#[export] Instance items_ok_perm w : Proper (Permutation ==> Permutation ==> iff) (items_ok w).
Proof.
  assert (∀ b b' l l', b ≡ₚ b' → l ≡ₚ l' → items_ok w b l → items_ok w b' l') as Hp.
  { intros b b' l l' Hb Hl []. constructor; [by rewrite <- Hb|by rewrite <- Hl|done]. }
  intros b b' Hb l l' Hl. split; by apply Hp.
Qed.

#[export] Instance mem_ok_perm w :
  Proper (Permutation ==> Permutation ==> Permutation ==> iff) (mem_ok w).
Proof.
  assert (∀ r r' b b' l l', r ≡ₚ r' → b ≡ₚ b' → l ≡ₚ l' → mem_ok w r b l → mem_ok w r' b' l') as Hp.
  { intros r r' b b' l l' Hr Hb Hl []. constructor; [by rewrite <- Hr|done|by rewrite <- Hb, <- Hl]. }
  intros r r' Hr b b' Hb l l' Hl. split; by apply Hp.
Qed.

(** Channels may go, be closed, be given targets and lose or get items. *)
Definition evolves (h h' : gmap Z (cell (PyRtpChannel Q))) : Prop :=
  ∀ a c', h' !! a = Some c' → ∃ c, h !! a = Some c ∧ fd (state (val c')) = fd (state (val c)) ∧
    (closed (val c') = false → closed (val c) = false).

#[export] Instance evolves_preorder : PreOrder evolves.
Proof.
  split; [by intros h a c'; exists c'|].
  intros h1 h2 h3 H1 H2 a c3 Ha. destruct (H2 a c3 Ha) as (c2 & H2a & E2 & C2).
  destruct (H1 a c2 H2a) as (c1 & H1a & E1 & C1). exists c1.
  split; [done|]. split; [congruence|auto].
Qed.

Lemma evolves_upd h a c v r :
  h !! a = Some c → fd (state v) = fd (state (val c)) → (closed v = false → closed (val c) = false) →
  evolves h (<[a := {| rc := r; val := v |}]> h).
Proof.
  intros Ha Hf Hc b c'. destruct (decide (b = a)) as [->|Hne].
  - rewrite lookup_insert_eq. intros [= <-]. by exists c.
  - rewrite lookup_insert_ne by done. intros Hb. by exists c'.
Qed.

Lemma evolves_delete h a : evolves h (delete a h).
Proof. intros b c' [_ Hb]%lookup_delete_Some. by exists c'. Qed.

(** A store into a channel that keeps its queue. *)
Lemma upd_chan_ok w a c f refs brefs loose :
  mem_ok w refs brefs loose → chans w !! a = Some c →
  out_q (state (f (val c))) = out_q (state (val c)) → fd (state (f (val c))) = fd (state (val c)) →
  (closed (f (val c)) = false → closed (val c) = false) →
  ∃ w', upd_chan w a f = Done w' ∧ mem_ok w' refs brefs loose ∧ evolves (chans w) (chans w') ∧
    w' = set_chans w (<[a := {| rc := rc c; val := f (val c) |}]> (chans w)).
Proof.
  intros [Hh He Hi] Ha Hq Hf Hc. unfold upd_chan. rewrite Ha. eexists. split; [done|].
  set (v := {| rc := rc c; val := f (val c) |}).
  split; [|split; [by apply (evolves_upd _ _ c)|done]]. constructor.
  - by apply set_val_ok.
  - apply map_Forall_insert_2; [|done]. cbn. rewrite Hq, Hf. by apply (He a c).
  - assert (queued (set_chans w (<[a := v]> (chans w))) ≡ₚ queued w) as Hp.
    { apply (named_keep _ _ _ c); [done|]. unfold waiting. cbn. by rewrite Hq. }
    rewrite Hp. by destruct Hi.
Qed.

(** A channel gets another queue. *)
Lemma set_queue_ok w a c q refs brefs loose loose' :
  mem_ok w refs brefs loose → chans w !! a = Some c → sq_ok q →
  loose' ++ sq_list q ≡ₚ loose ++ sq_list (out_q (state (val c))) →
  ∃ w', upd_chan w a (λ c, set_state (set_out_q q (state c)) c) = Done w' ∧
    mem_ok w' refs brefs loose' ∧ evolves (chans w) (chans w') ∧
    w' = set_chans w (<[a := {| rc := rc c;
           val := set_state (set_out_q q (state (val c))) (val c) |}]> (chans w)).
Proof.
  intros [Hh He Hi] Ha Hq Hl. unfold upd_chan. rewrite Ha. eexists. split; [done|].
  set (v := {| rc := rc c; val := _ |}).
  split; [|split; [by apply (evolves_upd _ _ c)|done]]. constructor.
  - by apply set_val_ok.
  - apply map_Forall_insert_2; [|done]. split; [done|]. by apply (He a c).
  - assert (loose' ++ queued (set_chans w (<[a := v]> (chans w))) ≡ₚ loose ++ queued w) as Hp.
    { apply (Permutation_app_inv_r (waiting c)).
      unfold queued. cbn [chans set_chans].
      rewrite <- !app_assoc, (named_update (λ _, waiting) _ a c v Ha).
      rewrite (Permutation_app_comm (named _ _) (waiting c)), !app_assoc. f_equiv.
      unfold waiting, v. cbn. by rewrite Hl. }
    rewrite Hp. by destruct Hi.
Qed.

(** An item is let go. *)
Lemma free_send_item_ok w p brefs qs :
  items_ok w brefs (p :: qs) →
  ∃ w', free_send_item w p = Done w' ∧ items_ok w' brefs qs ∧
    srv w' = srv w ∧ chans w' = chans w ∧ w_log w' = w_log w ∧ items w' = delete p (items w).
Proof.
  intros [Hh Hi Hs]. assert (p ∈ allocated w) as (q & it & Hit & ->%list_elem_of_singleton)%elem_of_named
    by (rewrite Hi; by left).
  unfold free_send_item. rewrite Hit.
  pose proof (named_delete (λ _ it, [data_ref it]) _ _ _ Hit) as Hrefs. cbn [app] in Hrefs.
  unfold item_refs in Hh. rewrite Hrefs, <- Permutation_middle in Hh.
  destruct (decref_ok _ _ _ Hh) as (h & -> & Hh' & Hk). cbn [mbind outcome_bind].
  eexists. split; [done|]. split; [|done]. constructor; cbn; try done.
  - apply (Permutation_cons_inv (a := q)). rewrite <- Hi.
    symmetry. apply (named_delete (λ p _, [p]) _ _ _ Hit).
  - intros p it' [Hne Hp]%lookup_delete_Some. destruct (Hs p it' Hp) as (b & Hb & Hl).
    exists b. split; [|done]. rewrite <- Hb. eapply keeps_read; [exact Hk|exact Hh'|].
    apply elem_of_app. right. apply elem_of_named. exists p, it'.
    split; [by rewrite lookup_delete_ne|by left].
Qed.

Lemma free_send_queue_ok fuel w q brefs qs :
  items_ok w brefs (sq_list q ++ qs) → sq_ok q → (length (sq_list q) ≤ fuel)%nat →
  ∃ w', free_send_queue fuel w q = Done w' ∧ items_ok w' brefs qs ∧
    srv w' = srv w ∧ chans w' = chans w ∧ w_log w' = w_log w.
Proof.
  revert w q. induction fuel as [|fuel IH]; intros w q Hm Hq Hl; cbn [free_send_queue];
    destruct (sq_pop_spec q Hq) as (o & q' & -> & Hq' & _ & _ & Ho); cbn [mbind outcome_bind];
    destruct o as [p|].
  - rewrite Ho in Hl. cbn in Hl. lia.
  - destruct Ho as [Ho _]. rewrite Ho in Hm. by exists w.
  - rewrite Ho in Hm, Hl. cbn in Hm, Hl.
    destruct (free_send_item_ok _ _ _ _ Hm) as (w1 & -> & Hm1 & Hs1 & Hc1 & Hl1 & _).
    cbn [mbind outcome_bind]. destruct (IH w1 q' Hm1 Hq' ltac:(lia)) as (w' & -> & Hm' & Hs' & Hc' & Hl').
    exists w'. split; [done|]. split; [done|]. split_and!; congruence.
  - destruct Ho as [Ho _]. rewrite Ho in Hm. by exists w.
Qed.

Lemma allocated_size w : length (allocated w) = size (items w).
Proof.
  unfold allocated, named. rewrite <- length_map_to_list.
  induction (map_to_list (items w)) as [|x l IH]; [done|]. cbn in *. by rewrite IH.
Qed.

Lemma allocated_nodup w : NoDup (allocated w).
Proof.
  unfold allocated, named. pose proof (NoDup_fst_map_to_list (items w)) as H'.
  replace (map_to_list (items w) ≫= λ x, [x.1]) with ((map_to_list (items w)).*1); [done|].
  clear H'. induction (map_to_list (items w)) as [|x l IH]; [done|]. cbn in *. by rewrite IH.
Qed.

(** A channel without references goes, with what it still had to send. *)
Lemma cleanup_ok w a c refs brefs loose refs' :
  mem_ok w refs brefs loose → chans w !! a = Some c → heap_ok (delete a (chans w)) refs' →
  ∃ w', rtp_channel_cleanup w (val c) = Done w' ∧ srv w' = srv w ∧ chans w' = chans w ∧
    mem_ok (set_chans w' (delete a (chans w))) refs' brefs loose.
Proof.
  intros [Hh He Hi] Ha Hh'. destruct (He a c Ha) as [Hq Hf].
  unfold rtp_channel_cleanup, destroy_send_queue. rewrite bind_assert_true by (apply Z.leb_le; lia).
  pose proof (named_delete (λ _, waiting) _ _ _ Ha) as Hd. fold (queued w) in Hd.
  set (qs := named (λ _, waiting) (delete a (chans w))) in *.
  assert (items_ok (log w (CloseFd (fd (state (val c))))) brefs
            (sq_list (out_q (state (val c))) ++ (loose ++ qs))) as Hi'.
  { rewrite Hd in Hi. fold (waiting c). rewrite app_assoc, (Permutation_app_comm (waiting c)), <- app_assoc.
    by destruct Hi. }
  assert (length (sq_list (out_q (state (val c)))) ≤ size (items w))%nat as Hlen.
  { rewrite <- allocated_size, (io_items _ _ _ Hi), Hd, !length_app. unfold waiting. lia. }
  destruct (free_send_queue_ok (size (items (log w (CloseFd (fd (state (val c))))))) _ _ _ _ Hi' Hq Hlen) as (w' & -> & Hi2 & Hs & Hc & _).
  exists w'. split; [done|]. split; [done|]. split; [done|]. constructor; [done| |].
  - by apply map_Forall_delete.
  - by destruct Hi2.
Qed.

(** A reference is given back. The last one may only go from a channel that is
    closed, or of a server that takes no more commands. *)
Lemma chan_decref_ok ow w a refs brefs loose :
  mem_ok w (a :: refs) brefs loose → worker_running (srv w) = true →
  (∀ c, chans w !! a = Some c → closed (val c) = false → accepting_commands (srv w) = true → a ∈ refs) →
  ∃ w', chan_decref ow w a = Done w' ∧ mem_ok w' refs brefs loose ∧ srv w' = srv w ∧
    evolves (chans w) (chans w').
Proof.
  intros Hm Hrun Hlast. pose proof Hm as [Hh He Hi].
  pose proof (Hh a) as Ha. destruct (decref_ok _ _ _ Hh) as (h & Hdec & Hh' & Hk).
  unfold chan_decref, py_decref in *. destruct (chans w !! a) as [c|] eqn:Hc; [|done].
  rewrite refs_to_cons, decide_True in Ha by done. injection Hdec as <-.
  destruct (rc c =? 1) eqn:E; zbool.
  - unfold PyRtpChannel_dealloc. rewrite (py_read_some _ _ _ Hc). cbn [mbind outcome_bind].
    destruct (closed (val c)) eqn:Ecl; cbn [mbind outcome_bind].
    + rewrite (py_read_some _ _ _ Hc). cbn [mbind outcome_bind].
      destruct (cleanup_ok w a c _ _ _ refs Hm Hc Hh') as (w' & -> & Hs & Hch & Hm').
      cbn [mbind outcome_bind]. rewrite Hch. eexists. split; [done|]. split; [done|]. split; [done|].
      apply evolves_delete.
    + unfold rtp_channel_close_begin. rewrite (py_read_some _ _ _ Hc). cbn [mbind outcome_bind]. rewrite Ecl.
      rewrite bind_assert_true by done.
      destruct (accepting_commands (srv w)) eqn:Eacc.
      { exfalso. specialize (Hlast c eq_refl Ecl eq_refl). apply refs_to_pos in Hlast. lia. }
      cbn [negb].
      destruct (upd_chan_ok w a c set_closed _ _ _ Hm Hc) as (w1 & -> & Hm1 & He1 & ->); [done..|].
      cbn [mbind outcome_bind]. set (c1 := {| rc := rc c; val := set_closed (val c) |}) in *.
      assert (chans (set_chans w (<[a:=c1]> (chans w))) !! a = Some c1) as Hc1
        by apply lookup_insert_eq.
      rewrite (py_read_some _ _ _ Hc1). cbn [mbind outcome_bind].
      assert (delete a (<[a:=c1]> (chans w)) = delete a (chans w)) as Hdel by apply delete_insert_eq.
      destruct (cleanup_ok _ a c1 _ _ _ refs Hm1 Hc1) as (w' & -> & Hs & Hch & Hm').
      { cbn. by rewrite Hdel. }
      cbn [mbind outcome_bind]. eexists. split; [done|]. cbn in Hch, Hm'. rewrite Hch, Hdel.
      rewrite Hdel in Hm'. split; [done|]. split; [done|].
      apply evolves_delete.
  - eexists. split; [done|]. split; [|split; [done|by apply (evolves_upd _ _ c)]].
    constructor; [done| |].
    + apply map_Forall_insert_2; [by apply (He a c)|done].
    + assert (queued (set_chans w (<[a:={| rc := rc c - 1; val := val c |}]> (chans w))) ≡ₚ queued w) as ->
        by by apply (named_keep _ _ _ c).
      by destruct Hi.
Qed.

(** A reference is taken. *)
Lemma chan_incref_ok w a refs brefs loose :
  mem_ok w refs brefs loose → a ∈ refs →
  ∃ h, py_incref (chans w) a = Done h ∧ mem_ok (set_chans w h) (a :: refs) brefs loose ∧
    evolves (chans w) h.
Proof.
  intros [Hh He Hi] Ha. destruct (incref_ok _ _ _ Hh Ha) as (h & E & Hh' & _).
  unfold py_incref in *. destruct (chans w !! a) as [c|] eqn:Hc; [|done]. injection E as <-.
  eexists. split; [done|]. split; [|by apply (evolves_upd _ _ c)]. constructor; [done| |].
  - apply map_Forall_insert_2; [by apply (He a c)|done].
  - assert (queued (set_chans w (<[a:={| rc := rc c + 1; val := val c |}]> (chans w))) ≡ₚ queued w) as ->
      by by apply (named_keep _ _ _ c).
    by destruct Hi.
Qed.

(** A new channel. *)
Lemma new_chan_ok w a ch refs brefs loose :
  mem_ok w refs brefs loose → chans w !! a = None → sq_ok (out_q (state ch)) →
  sq_list (out_q (state ch)) = [] → 0 ≤ fd (state ch) →
  mem_ok (set_chans w (<[a := {| rc := 1; val := ch |}]> (chans w))) (a :: refs) brefs loose.
Proof.
  intros [Hh He Hi] Ha Hq Hl Hf. constructor.
  - by apply make_ok.
  - by apply map_Forall_insert_2.
  - assert (queued (set_chans w (<[a:={| rc := 1; val := ch |}]> (chans w))) ≡ₚ queued w) as ->.
    { unfold queued. cbn. rewrite named_insert by done. unfold waiting at 1. cbn. by rewrite Hl. }
    by destruct Hi.
Qed.

(** The worker lets go of every channel of its table. *)
Lemma unref_all_ok l w refs brefs loose :
  mem_ok w (omap id l ++ refs) brefs loose → worker_running (srv w) = true →
  accepting_commands (srv w) = false →
  ∃ w', unref_all w l = Done w' ∧ mem_ok w' refs brefs loose ∧ srv w' = srv w ∧
    evolves (chans w) (chans w').
Proof.
  revert w. induction l as [|[a|] l IH]; intros w Hm Hr Ha; cbn [unref_all].
  - by exists w.
  - destruct (chan_decref_ok true w a _ _ _ Hm Hr) as (w1 & E & Hm1 & Hs1 & He1).
    { intros c _ _. by rewrite Ha. }
    unfold rtp_channel_state_unref. rewrite E. cbn [mbind outcome_bind].
    destruct (IH w1 Hm1) as (w' & -> & Hm' & Hs' & He'); [by rewrite Hs1..|].
    exists w'. split; [done|]. split; [done|]. split; [congruence|by etrans].
  - by apply IH.
Qed.

(** ** Sending *)

(** What the item [p] would send. *)
Definition item_data (w : world) (p : Z) (d : list Z) : Prop :=
  ∃ it, items w !! p = Some it ∧ py_read (objs w) (data_ref it) = Done d ∧ item_size it = zlen d.

Lemma item_data_some w brefs qs p : items_ok w brefs qs → p ∈ qs → ∃ d, item_data w p d.
Proof.
  intros [_ Hi Hs] Hp. rewrite <- Hi in Hp.
  apply elem_of_named in Hp as (q & it & Hit & ->%list_elem_of_singleton).
  destruct (Hs q it Hit) as (d & Hd & Hl). by exists d, it.
Qed.

(** What is left of a world when an item is gone. *)
Lemma free_send_item_keeps w p brefs qs w' :
  items_ok w brefs (p :: qs) → free_send_item w p = Done w' →
  keeps (objs w) (objs w') ∧ items_ok w' brefs qs.
Proof.
  intros Hi E. destruct (free_send_item_ok _ _ _ _ Hi) as (w1 & E1 & Hi1 & _). rewrite E in E1.
  injection E1 as <-. split; [|done]. unfold free_send_item in E.
  destruct (items w !! p) as [it|] eqn:Hit; [|done]. rewrite bind_done in E. destruct E as (h & E & [= <-]).
  cbn. destruct Hi as [Hh _ _]. pose proof (named_delete (λ _ it, [data_ref it]) _ _ _ Hit) as Hrefs.
  unfold item_refs in Hh. rewrite Hrefs in Hh. cbn [app] in Hh. rewrite <- Permutation_middle in Hh.
  destruct (decref_ok _ _ _ Hh) as (h' & E' & _ & Hk). rewrite E in E'. by injection E' as <-.
Qed.

Lemma drain_one_ok w a c ht refs brefs :
  mem_ok w refs brefs [] → chans w !! a = Some c →
  ∃ more w' c', drain_one w a ht = Done (more, w') ∧ mem_ok w' refs brefs [] ∧ srv w' = srv w ∧
    evolves (chans w) (chans w') ∧ chans w' !! a = Some c' ∧
    fd (state (val c')) = fd (state (val c)) ∧ target_addr (state (val c')) = target_addr (state (val c)) ∧
    (∀ b, b ≠ a → chans w' !! b = chans w !! b) ∧
    match waiting c with
    | [] => more = false ∧ waiting c' = [] ∧ w_log w' = w_log w ∧ objs w' = objs w ∧ items w' = items w
    | p :: ps => more = true ∧ waiting c' = ps ∧ ∃ d, item_data w p d ∧
        w_log w' = w_log w ++ (if ht then [SendTo (fd (state (val c))) d (target_addr (state (val c)))] else []) ∧
        (∀ q dq, q ∈ queued w' → item_data w q dq → item_data w' q dq)
    end.
Proof.
  intros Hm Ha. pose proof Hm as [Hh He Hi]. destruct (He a c Ha) as [Hq Hf].
  unfold drain_one. rewrite (py_read_some _ _ _ Ha). cbn [mbind outcome_bind].
  destruct (sq_pop_spec _ Hq) as (o & q' & -> & Hq' & _ & _ & Ho). cbn [mbind outcome_bind].
  destruct (set_queue_ok w a c q' refs brefs [] (opt_list o) Hm Ha Hq') as (w1 & -> & Hm1 & He1 & ->).
  { destruct o as [p|]; cbn; [by rewrite Ho|]. destruct Ho as [E1 E2]. by rewrite E1, E2. }
  cbn [mbind outcome_bind]. set (c' := {| rc := rc c; val := _ |}) in *.
  assert (chans (set_chans w (<[a:=c']> (chans w))) !! a = Some c') as Hc' by apply lookup_insert_eq.
  unfold waiting at 1. destruct o as [p|].
  - rewrite Ho. cbn [opt_list] in Hm1. pose proof (mo_items _ _ _ _ Hm1) as Hi1.
    assert (p :: sq_list q' ++ [] ⊆ p :: queued (set_chans w (<[a:=c']> (chans w)))) as Hsub.
    { rewrite app_nil_r. intros x. rewrite !elem_of_cons. intros [->|Hx]; [by left|right].
      apply elem_of_named. by exists a, c'. }
    destruct (item_data_some _ _ _ p Hi1) as (d & it & Hit & Hd & Hsz); [by left|].
    rewrite Hit. cbn [items set_chans objs] in Hit, Hd |- *.
    set (w2 := if ht then log (set_chans w (<[a:=c']> (chans w)))
                 (SendTo (fd (state (val c))) d (target_addr (state (val c))))
               else set_chans w (<[a:=c']> (chans w))).
    assert ((if ht then bytes ← py_read (objs w) (data_ref it); data ← mem_read bytes 0 (item_size it);
        Done (log (set_chans w (<[a:=c']> (chans w))) (SendTo (fd (state (val c))) data (target_addr (state (val c)))))
       else Done (set_chans w (<[a:=c']> (chans w)))) = Done w2) as ->.
    { unfold w2. destruct ht; [|done]. rewrite Hd. cbn [mbind outcome_bind]. unfold mem_read. rewrite Hsz.
      pose proof (zlen_nonneg d). zdec. cbn [mbind outcome_bind]. unfold zlen. rewrite Nat2Z.id. cbn.
      by rewrite take_ge by done. }
    cbn [mbind outcome_bind].
    assert (items_ok w2 brefs (p :: queued (set_chans w (<[a:=c']> (chans w))))) as Hi2
      by (unfold w2; destruct ht, Hi1; done).
    destruct (free_send_item_ok _ _ _ _ Hi2) as (w' & E & Hi' & Hs' & Hch' & Hl' & Hit').
    destruct (free_send_item_keeps _ _ _ _ _ Hi2 E) as [Hk _]. rewrite E. cbn [mbind outcome_bind].
    assert (chans w2 = <[a:=c']> (chans w) ∧ srv w2 = srv w ∧ objs w2 = objs w ∧ items w2 = items w)
      as (Ew1 & Ew2 & Ew3 & Ew4) by (unfold w2; by destruct ht).
    exists true, w', c'. split; [done|]. split.
    { constructor; [rewrite Hch', Ew1; apply Hm1|rewrite Hch', Ew1; apply Hm1|].
      unfold queued. rewrite Hch', Ew1. cbn [app]. exact Hi'. }
    split; [by rewrite Hs'|]. rewrite Hch', Ew1. split; [done|]. split; [apply lookup_insert_eq|].
    split; [done|]. split; [done|]. split; [intros b Hb; by rewrite lookup_insert_ne|].
    split; [done|]. split; [done|]. exists d. split; [by exists it|]. split.
    { rewrite Hl'. unfold w2. destruct ht; cbn; [done|by rewrite app_nil_r]. }
    intros q dq Hq0 (itq & Hitq & Hdq & Hsq). exists itq.
    pose proof (allocated_nodup w2) as Hnd. rewrite (io_items _ _ _ Hi2) in Hnd.
    apply NoDup_cons in Hnd as [Hnd _].
    assert (q ≠ p) as Hne.
    { intros ->. apply Hnd. unfold queued in *. by rewrite <- Ew1, <- Hch'. }
    assert (items w' !! q = Some itq) as Hitq'
      by (rewrite Hit', Ew4, lookup_delete_ne by done; exact Hitq).
    split; [done|]. split; [|done]. rewrite <- Hdq, <- Ew3.
    eapply keeps_read; [exact Hk|apply Hi'|]. apply elem_of_app. right. apply elem_of_named.
    exists q, itq. split; [done|by left].
  - destruct Ho as [E1 E2]. rewrite E1. exists false. eexists _, c'.
    split; [done|]. split; [exact Hm1|]. split; [done|]. split; [done|]. split; [done|].
    split; [done|]. split; [done|]. split; [intros b Hb; by apply lookup_insert_ne|]. done.
Qed.

(** ** Submitting *)

(** The bytes a method is given. *)
Definition arg_bytes (h : gmap Z (cell (list Z))) (arg : bytes_arg) (d : list Z) : Prop :=
  match arg with
  | ArgBytes p => py_read h p = Done d
  | ArgObject (Some (_, b)) => b = d
  | ArgObject None => False
  end.

(** The object is one the program holds, or a new one. *)
Definition arg_ok (w : world) (brefs : list Z) (arg : bytes_arg) : Prop :=
  match arg with
  | ArgBytes p => p ∈ brefs
  | ArgObject (Some (p, _)) => objs w !! p = None
  | ArgObject None => True
  end.

Lemma bytes_from_obj_ok w brefs qs arg :
  items_ok w brefs qs → arg_ok w brefs arg →
  ∃ r h, bytes_from_obj (objs w) arg = Done (r, h) ∧
    match r with
    | Ret p => ∃ d, arg_bytes (objs w) arg d ∧ py_read h p = Done d ∧
        items_ok (set_objs w h) (p :: brefs) qs
    | Raise e => h = objs w ∧ e = TypeError ∧ arg = ArgObject None
    end.
Proof.
  intros [Hh Hi Hs] Ha. destruct arg as [p|[[p d]|]]; cbn [bytes_from_obj arg_ok arg_bytes] in *.
  - destruct (incref_ok _ _ p Hh) as (h & -> & Hh' & Hr); [apply elem_of_app; by left|].
    exists (Ret p), h. split; [done|].
    destruct (heap_ok_alive _ _ p Hh) as [d Hd]; [apply elem_of_app; by left|].
    exists d. split; [done|]. split; [by rewrite Hr|]. constructor; [done|done|].
    intros q it Hq. destruct (Hs q it Hq) as (b & Hb & Hl). exists b. split; [cbn; by rewrite Hr|done].
  - exists (Ret p). eexists. split; [done|]. exists d. split; [done|].
    split; [by unfold py_read; rewrite lookup_insert_eq|]. constructor; [by apply make_ok|done|].
    intros q it Hq. destruct (Hs q it Hq) as (b & Hb & Hl). exists b. split; [|done].
    unfold py_read in *. cbn. rewrite lookup_insert_ne; [done|]. intros ->. by rewrite Ha in Hb.
  - by exists (Raise TypeError), (objs w).
Qed.

Lemma new_item_ok w p d i brefs qs :
  items_ok w (p :: brefs) qs → py_read (objs w) p = Done d → items w !! i = None →
  let w' := set_items w (<[i := {| data_ref := p; item_size := zlen d |}]> (items w)) in
  items_ok w' brefs (i :: qs) ∧ item_data w' i d.
Proof.
  intros [Hh Hi Hs] Hd Hn w'. split.
  - constructor.
    + unfold item_refs, w'. cbn. rewrite named_insert by done. cbn. by rewrite <- Permutation_middle.
    + unfold allocated, w'. cbn. rewrite named_insert by done. cbn. by rewrite <- Hi.
    + apply map_Forall_insert_2; [by exists d|done].
  - eexists. split; [apply lookup_insert_eq|done].
Qed.

(** A reference to an object is given back. *)
Lemma obj_decref_ok w p brefs qs :
  items_ok w (p :: brefs) qs →
  ∃ h, py_decref (objs w) p = Done h ∧ items_ok (set_objs w h) brefs qs.
Proof.
  intros [Hh Hi Hs]. destruct (decref_ok _ _ _ Hh) as (h & -> & Hh' & Hk).
  exists h. split; [done|]. constructor; [done|done|].
  intros q it Hq. destruct (Hs q it Hq) as (b & Hb & Hl). exists b. split; [|done].
  rewrite <- Hb. eapply keeps_read; [exact Hk|exact Hh'|]. apply elem_of_app. right.
  apply elem_of_named. exists q, it. split; [done|by left].
Qed.

(** The item is pushed, or let go. *)
Lemma push_item_ok w a c i d refs brefs :
  mem_ok w refs brefs [i] → chans w !! a = Some c → item_data w i d →
  sq_pushes (out_q (state (val c))) + 1 < SEND_BUDGET →
  ∃ r w' c', (if negb (accepting_commands (srv w)) then
                w ← free_send_item w i; Done (@Raise () RuntimeError, w)
              else
                '(queued, q) ← sq_push (out_q (state (val c))) i;
                w ← upd_chan w a (λ c, set_state (set_out_q q (state c)) c);
                if queued : bool then Done (Ret (), w)
                else w ← free_send_item w i; Done (Raise RtpQueueFullError, w)) = Done (r, w') ∧
    mem_ok w' refs brefs [] ∧ srv w' = srv w ∧ evolves (chans w) (chans w') ∧
    chans w' !! a = Some c' ∧
    match r with
    | Ret _ => accepting_commands (srv w) = true ∧ item_data w' i d ∧ waiting c' = waiting c ++ [i]
    | Raise e => waiting c' = waiting c ∧
        (e = RuntimeError ∧ accepting_commands (srv w) = false ∨
         e = RtpQueueFullError ∧ zlen (waiting c) = sq_cap (out_q (state (val c))))
    end.
Proof.
  intros Hm Hc Hd Hb. destruct (accepting_commands (srv w)) eqn:Eacc; cbn [negb].
  - destruct (mo_each _ _ _ _ Hm a c Hc) as [Hq _].
    destruct (sq_push_spec _ i Hq Hb) as (b & q' & -> & Hq' & _ & Hl). cbn [mbind outcome_bind].
    destruct (set_queue_ok w a c q' refs brefs [i] (if b then [] else [i]) Hm Hc Hq')
      as (w1 & -> & Hm1 & He1 & ->).
    { destruct b; destruct Hl as (_ & -> & _); [symmetry; apply Permutation_cons_append|done]. }
    cbn [mbind outcome_bind]. set (c' := {| rc := rc c; val := _ |}) in *.
    assert (waiting c' = sq_list q') as Hw by done. destruct b; destruct Hl as (H1 & H2 & _).
    + exists (Ret ()). eexists _, c'. split; [done|]. split; [done|]. split; [done|]. split; [done|].
      split; [apply lookup_insert_eq|]. split; [done|]. split; [done|]. by rewrite Hw, H2.
    + destruct (free_send_item_ok _ _ _ _ (mo_items _ _ _ _ Hm1)) as (w' & -> & Hi' & Hs' & Hch' & _).
      cbn [mbind outcome_bind]. exists (Raise RtpQueueFullError), w', c'. split; [done|]. split.
      { constructor; [rewrite Hch'; apply Hm1|rewrite Hch'; apply Hm1|]. unfold queued. by rewrite Hch'. }
      rewrite Hs', Hch'. split; [done|]. split; [done|]. split; [apply lookup_insert_eq|].
      split; [by rewrite Hw, H2|]. by right.
  - destruct (free_send_item_ok _ _ _ _ (mo_items _ _ _ _ Hm)) as (w' & -> & Hi' & Hs' & Hch' & _).
    cbn [mbind outcome_bind]. exists (Raise RuntimeError), w', c. split; [done|]. split.
    { constructor; [rewrite Hch'; apply Hm|rewrite Hch'; apply Hm|]. unfold queued. by rewrite Hch'. }
    rewrite Hs', Hch'. split; [done|]. split; [done|]. split; [done|]. split; [done|]. by left.
Qed.

Lemma send_pkt_ok w a arg item refs brefs :
  mem_ok w refs brefs [] → a ∈ refs → worker_running (srv w) = true → arg_ok w brefs arg →
  (∀ i, item = Some i → items w !! i = None) →
  (∀ c, chans w !! a = Some c → sq_pushes (out_q (state (val c))) + 1 < SEND_BUDGET) →
  ∃ r w' c c', PyRtpChannel_send_pkt w a arg item = Done (r, w') ∧ mem_ok w' refs brefs [] ∧
    srv w' = srv w ∧ evolves (chans w) (chans w') ∧ chans w !! a = Some c ∧ chans w' !! a = Some c' ∧
    match r with
    | Ret _ => ∃ i d, item = Some i ∧
        closed (val c) = false ∧ has_target (val c) = true ∧ accepting_commands (srv w) = true ∧
        arg_bytes (objs w) arg d ∧ item_data w' i d ∧ waiting c' = waiting c ++ [i]
    | Raise e => waiting c' = waiting c ∧
        (e = RuntimeError ∧ (closed (val c) = true ∨ has_target (val c) = false ∨
           accepting_commands (srv w) = false) ∨
         e = RtpQueueFullError ∧ zlen (waiting c) = sq_cap (out_q (state (val c))) ∨
         e = MemoryError ∧ item = None ∨
         e = TypeError ∧ arg = ArgObject None)
    end.
Proof.
  intros Hm Ha Hrun Harg Hitem Hbud. pose proof Hm as [Hh He Hi].
  apply (heap_ok_elem _ _ _ Hh) in Ha as [c Hc]. specialize (Hbud c Hc).
  unfold PyRtpChannel_send_pkt. rewrite (py_read_some _ _ _ Hc). cbn [mbind outcome_bind].
  destruct (closed (val c)) eqn:Ecl.
  { exists (Raise RuntimeError), w, c, c. do 6 (split; [done|]). split; [done|]. left. by auto. }
  destruct (has_target (val c)) eqn:Eht; cbn [negb].
  2: { exists (Raise RuntimeError), w, c, c. do 6 (split; [done|]). split; [done|]. left. by auto. }
  destruct (bytes_from_obj_ok w brefs _ arg Hi Harg) as (r & h & -> & Hr). cbn [mbind outcome_bind].
  destruct r as [p|e].
  - destruct Hr as (d & Hd & Hpd & Hi1). cbn [objs set_objs]. rewrite Hpd. cbn [mbind outcome_bind].
    destruct item as [i|].
    + specialize (Hitem i eq_refl).
      destruct (new_item_ok (set_objs w h) p d i brefs _ Hi1 Hpd Hitem) as [Hi2 Hdata].
      cbn [items set_objs srv set_items] in Hi2, Hdata |- *. rewrite bind_assert_true by done.
      set (w2 := set_items _ _) in *.
      assert (mem_ok w2 refs brefs [i]) as Hm2 by by constructor.
      destruct (push_item_ok w2 a c i d refs brefs Hm2 Hc Hdata Hbud)
        as (r & w' & c' & E & Hm' & Hs' & He' & Hc' & Hres).
      exists r, w', c, c'. split; [exact E|]. do 5 (split; [done|]). destruct r as [[]|e].
      * destruct Hres as (? & ? & ?). by exists i, d.
      * destruct Hres as (? & [(-> & ?)|(-> & ?)]); (split; [done|]); [left|right; left]; by auto.
    + destruct (obj_decref_ok _ p _ _ Hi1) as (h' & E & Hi2). cbn in E. rewrite E.
      cbn [mbind outcome_bind]. exists (Raise MemoryError). eexists _, c, c. split; [done|].
      split; [by constructor|]. do 4 (split; [done|]). split; [done|]. right. right. by left.
  - destruct Hr as (-> & -> & ->). exists (Raise TypeError). eexists _, c, c. split; [done|].
    split; [by constructor; destruct Hi|]. do 4 (split; [done|]). split; [done|]. by repeat right.
Qed.
End Memory.
