(* ===== verification/ServerInv.v ===== *)
(** The invariant of the running RTP server of [Server]: the table of channels,
    the poll cache, the commands on their way, and what the waiting call may
    rely on; every step of the worker and of the program keeps it. *)
From stdpp Require Import prelude list gmap strings.
From Stdlib Require Import ZArith Lia.
From S2P Require Import Prelude Py RcHeap Sync SendQueue ServerArgs Server ServerMem.
Local Open Scope Z_scope.

(** * The table of channels *)

Record table_ok (s : PyRtpServer) : Prop := {
  to_nodup : NoDup (live s);
  to_active : channels_active s = zlen (live s);
  to_size : zlen (channels s) * 8 ≤ PTRDIFF_MAX;
}.

Lemma live_length s : zlen (live s) ≤ zlen (channels s).
Proof.
  unfold live, zlen. induction (channels s) as [|[a|] l IH]; cbn in *; lia.
Qed.

Lemma first_free_none (l : list (option Z)) : first_free l = None → zlen (omap id l) = zlen l.
Proof.
  induction l as [|[a|] l IH]; cbn; [done| |done].
  destruct (first_free l); [done|]. intros _. specialize (IH eq_refl).
  change (omap id (Some a :: l)) with (a :: omap id l). rewrite !zlen_cons. by rewrite IH.
Qed.

Lemma omap_replicate_none n : omap id (replicate n (@None Z)) = [].
Proof. by induction n. Qed.

Lemma set_table_id s : s = set_table s (channels s) (channels_active s) (pollfds_dirty s).
Proof. by destruct s. Qed.

Lemma ensure_capacity_ok mem s (n := zlen (channels s)) :
  n * 8 ≤ PTRDIFF_MAX →
  ensure_channel_capacity mem s (if n =? 0 then 4 else u64 (n * 2)) =
    let m := if n =? 0 then 4 else n in
    Done (if mem && ((n + m) * 8 <=? PTRDIFF_MAX)
          then (true, set_table s (channels s ++ replicate (Z.to_nat m) None) (channels_active s) true)
          else (false, s)).
Proof.
  intros Hs. pose proof (zlen_nonneg (channels s)). fold n in H.
  unfold ensure_channel_capacity, PTRDIFF_MAX in *. fold n. destruct (n =? 0) eqn:E; zbool.
  - rewrite E. change (4 <=? 0) with false. change (grow_cap 64 4 4) with (Done (Some 4)).
    cbn [mbind outcome_bind]. change (u64 (4 * 8)) with 32. by destruct mem.
  - rewrite !u64_small by lia. rewrite (proj2 (Z.leb_gt _ _)) by lia.
    assert (grow_cap 64 n (n * 2) = Done (Some (n * 2))) as ->.
    { cbn [grow_cap]. rewrite (proj2 (Z.ltb_lt _ _)) by lia.
      rewrite (proj2 (Z.ltb_ge _ _)) by (unfold U64_MAX; zlia).
      rewrite u64_small by lia. by rewrite Z.ltb_irrefl. }
    cbn [mbind outcome_bind]. rewrite !u64_small by lia.
    replace (n + n) with (n * 2) by lia.
    destruct (mem && (n * 2 * 8 <=? 9223372036854775807)); cbn [negb]; [|done].
    rewrite Z.leb_refl. cbn. do 4 f_equal. f_equal. lia.
Qed.

Lemma alloc_slot_ok mem s :
  table_ok s →
  ∃ o l dirty, alloc_channel_slot mem s = Done (o, set_table s l (channels_active s) dirty) ∧
    omap id l = live s ∧ zlen l * 8 ≤ PTRDIFF_MAX ∧
    match o with
    | Some i => l !! i = Some None
    | None => l = channels s ∧ dirty = pollfds_dirty s ∧ zlen (live s) = zlen (channels s) ∧
        (mem = false ∨ PTRDIFF_MAX < zlen (channels s) * 16)
    end.
Proof.
  intros [_ _ Hs]. unfold alloc_channel_slot. destruct (first_free (channels s)) as [i|] eqn:E.
  - exists (Some i), (channels s), (pollfds_dirty s). rewrite <- set_table_id.
    split; [done|]. split; [done|]. split; [done|]. by apply first_free_some.
  - apply first_free_none in E. pose proof (zlen_nonneg (channels s)).
    rewrite (proj2 (Z.ltb_ge _ _)) by (unfold U64_MAX, PTRDIFF_MAX in *; zlia).
    rewrite ensure_capacity_ok by done. cbn zeta. set (n := zlen (channels s)) in *.
    set (m := if n =? 0 then 4 else n).
    destruct (mem && _) eqn:Em; cbn [mbind outcome_bind].
    + apply andb_true_iff in Em as [_ Em]. zbool. eexists (Some _), _, true. split; [done|].
      assert (0 < m) by (unfold m; destruct (n =? 0) eqn:?; zbool; lia). split; [|split].
      * unfold live. by rewrite omap_app, omap_replicate_none, app_nil_r.
      * rewrite zlen_app. fold n. unfold zlen. rewrite length_replicate. lia.
      * unfold n, zlen. rewrite Nat2Z.id, lookup_app_r, Nat.sub_diag by done.
        apply lookup_replicate_2. lia.
    + exists None, (channels s), (pollfds_dirty s). rewrite <- set_table_id.
      do 3 (split; [done|]). split; [done|]. split; [done|]. split; [exact E|].
      apply andb_false_iff in Em as [->|Em]; [by left|right]. zbool.
      unfold m in Em. destruct (n =? 0) eqn:?; zbool; unfold PTRDIFF_MAX in *; lia.
Qed.

(** * Commands *)

Section Commands.
Context {Q : Type} `{SendQueueLaws Q}.
Abbreviation world := (world Q).

Lemma mem_ok_srv (w : world) s refs brefs loose :
  mem_ok w refs brefs loose → mem_ok (set_srv w s) refs brefs loose.
Proof. intros [Hh He [Ho Hi Hs]]. by constructor. Qed.

(** The end of a command for the thread that waits. *)
Definition completed (waits : bool) (s : PyRtpServer) (status : Z) : PyRtpServer :=
  if waits then rtp_sync_waiter_complete s status else s.

Lemma cmd_add_ok mem (w : world) a waits refs brefs :
  mem_ok w (a :: refs) brefs [] → table_ok (srv w) → worker_running (srv w) = true →
  a ∉ live (srv w) → a ∈ refs →
  ∃ w' l active dirty status,
    process_command mem w {| cmd_type := CMD_ADD_CHANNEL (Some a); cmd_waits := waits |} = Done (false, w') ∧
    evolves (chans w) (chans w') ∧
    srv w' = completed waits (set_table (srv w) l active dirty) status ∧
    table_ok (set_table (srv w) l active dirty) ∧
    ((status = 0 ∧ dirty = true ∧ omap id l ≡ₚ a :: live (srv w) ∧ mem_ok w' (a :: refs) brefs []) ∨
     (status = ENOMEM ∧ l = channels (srv w) ∧ dirty = pollfds_dirty (srv w) ∧
      zlen (live (srv w)) = zlen (channels (srv w)) ∧
      (mem = false ∨ PTRDIFF_MAX < zlen (channels (srv w)) * 16) ∧ mem_ok w' refs brefs [])).
Proof.
  intros Hm Ht Hrun Hnew Hin. unfold process_command. cbn [cmd_type cmd_waits].
  destruct (alloc_slot_ok mem (srv w) Ht) as (o & l & dirty & -> & Hl & Hsz & Ho).
  pose proof Ht as [Hnd Hact _]. cbn [mbind outcome_bind]. destruct o as [i|].
  - cbn [channels set_table]. rewrite Ho. cbn [mbind outcome_bind free_command].
    assert (omap id (<[i:=Some a]> l) ≡ₚ a :: live (srv w)) as Hp.
    { pose proof (live_set l i None (Some a) Ho) as Hp. rewrite Hl in Hp. cbn in Hp.
      by rewrite app_nil_r in Hp. }
    assert (u64 (channels_active (srv w) + 1) = zlen (live (srv w)) + 1) as Hu.
    { pose proof (live_length (srv w)). pose proof (zlen_nonneg (live (srv w))).
      pose proof (to_size _ Ht). rewrite Hact. unfold PTRDIFF_MAX in *. apply u64_small. lia. }
    exists (set_srv w (completed waits (set_table (srv w) (<[i:=Some a]> l) (zlen (live (srv w)) + 1) true) 0)).
    exists (<[i:=Some a]> l), (zlen (live (srv w)) + 1), true, 0. rewrite <- Hu.
    split; [destruct waits; cbn [channels_active set_table]; done|].
    split; [destruct waits; done|]. split; [destruct waits; done|]. split.
    + constructor; unfold live; cbn [channels channels_active set_table].
      * rewrite Hp. by constructor.
      * rewrite Hu. unfold zlen. rewrite Hp. cbn. lia.
      * unfold zlen in *. by rewrite length_insert.
    + left. do 3 (split; [done|]). by apply mem_ok_srv.
  - destruct Ho as (-> & -> & Hfull & Hwhy). rewrite <- set_table_id. cbn [mbind outcome_bind free_command].
    set (s' := completed waits (srv w) ENOMEM).
    assert ((if waits then set_srv (set_srv w (srv w)) (rtp_sync_waiter_complete (srv (set_srv w (srv w))) ENOMEM)
             else set_srv w (srv w)) = set_srv w s') as -> by (unfold s'; by destruct waits).
    destruct (chan_decref_ok true (set_srv w s') a refs brefs []) as (w' & -> & Hm' & Hs' & He');
      [by apply mem_ok_srv|unfold s'; by destruct waits|done|].
    cbn [mbind outcome_bind]. exists w', (channels (srv w)), (channels_active (srv w)), (pollfds_dirty (srv w)), ENOMEM.
    split; [done|]. split; [done|]. rewrite <- set_table_id. split; [done|]. split; [done|].
    right. done.
Qed.

Lemma cmd_remove_ok mem (w : world) a waits refs brefs :
  mem_ok w refs brefs [] → table_ok (srv w) →
  ∃ w' l active dirty,
    process_command mem w {| cmd_type := CMD_REMOVE_CHANNEL a; cmd_waits := waits |} = Done (false, w') ∧
    chans w' = chans w ∧ srv w' = completed waits (set_table (srv w) l active dirty) 0 ∧
    table_ok (set_table (srv w) l active dirty) ∧ mem_ok w' refs brefs [] ∧
    if decide (a ∈ live (srv w)) then dirty = true ∧ live (srv w) ≡ₚ a :: omap id l
    else l = channels (srv w) ∧ dirty = pollfds_dirty (srv w).
Proof.
  intros Hm Ht. pose proof Ht as [Hnd Hact Hsz]. unfold process_command, remove_channel. cbn [cmd_type cmd_waits].
  destruct (find_channel_index (channels (srv w)) a) as [i|] eqn:E.
  - pose proof (find_index_some _ _ _ E) as Hi. rewrite Hi. cbn [mjoin option_join].
    assert (live (srv w) ≡ₚ a :: omap id (<[i:=None]> (channels (srv w)))) as Hp.
    { pose proof (live_set _ i _ None Hi) as Hp. cbn in Hp. rewrite <- Hp.
      symmetry. apply Permutation_cons_append. }
    assert (a ∈ live (srv w)) as Hin by (rewrite Hp; by left).
    assert (zlen (live (srv w)) = 1 + zlen (omap id (<[i:=None]> (channels (srv w))))) as Hlen.
    { unfold zlen. rewrite Hp. cbn. lia. }
    pose proof (zlen_nonneg (omap id (<[i:=None]> (channels (srv w))))).
    rewrite Hact, (proj2 (Z.ltb_lt _ _)) by lia. cbn [mbind outcome_bind free_command].
    eexists (set_srv w (completed waits _ 0)), (<[i:=None]> (channels (srv w))), _, true.
    split; [destruct waits; reflexivity|]. split; [by destruct waits|]. split; [destruct waits; reflexivity|].
    split; [|split; [by apply mem_ok_srv|by rewrite decide_True]].
    constructor; unfold live; cbn.
    + rewrite Hp in Hnd. by apply NoDup_cons in Hnd as [_ ?].
    + unfold live in Hlen. lia.
    + unfold zlen in *. by rewrite length_insert.
  - apply find_index_none in E. cbn [mbind outcome_bind free_command].
    exists (set_srv w (completed waits (srv w) 0)), (channels (srv w)), (channels_active (srv w)), (pollfds_dirty (srv w)).
    rewrite <- set_table_id. split; [destruct waits; reflexivity|]. split; [by destruct waits|].
    split; [by destruct waits|]. split; [done|]. split; [by apply mem_ok_srv|]. by rewrite decide_False.
Qed.

Lemma cmd_set_target_ok mem (w : world) a addr waits refs brefs :
  mem_ok w refs brefs [] → (∀ b, b ∈ live (srv w) → b ∈ refs) →
  ∃ w' status,
    process_command mem w {| cmd_type := CMD_SET_TARGET a addr; cmd_waits := waits |} = Done (false, w') ∧
    evolves (chans w) (chans w') ∧ srv w' = completed waits (srv w) status ∧ mem_ok w' refs brefs [] ∧
    if decide (a ∈ live (srv w)) then
      status = 0 ∧ ∃ c, chans w !! a = Some c ∧
        chans w' = <[a := {| rc := rc c; val := set_state (set_target_addr addr (state (val c))) (val c) |}]> (chans w)
    else status = ENOENT ∧ chans w' = chans w.
Proof.
  intros Hm Hlive. unfold process_command. cbn [cmd_type cmd_waits]. rewrite find_channel_spec.
  destruct (decide (a ∈ live (srv w))) as [Ha|Ha].
  - apply Hlive in Ha. apply (heap_ok_elem _ _ _ (mo_chans _ _ _ _ Hm)) in Ha as [c Hc].
    destruct (upd_chan_ok w a c (λ c, set_state (set_target_addr addr (state c)) c) _ _ _ Hm Hc)
      as (w1 & -> & Hm1 & He1 & ->); [done..|]. cbn [mbind outcome_bind free_command].
    eexists (set_srv _ (completed waits (srv w) 0)), 0. split; [destruct waits; reflexivity|].
    split; [done|]. split; [by destruct waits|]. split; [by apply mem_ok_srv|].
    split; [done|]. by exists c.
  - cbn [mbind outcome_bind free_command].
    exists (set_srv w (completed waits (srv w) ENOENT)), ENOENT. split; [by destruct waits, w|].
    split; [done|]. split; [by destruct waits|]. split; [by apply mem_ok_srv|]. done.
Qed.

Lemma cmd_drop_ok mem (w : world) waits refs brefs :
  mem_ok w (live (srv w) ++ refs) brefs [] → worker_running (srv w) = true →
  accepting_commands (srv w) = false →
  ∃ w', process_command mem w {| cmd_type := CMD_DROP_CHANNELS; cmd_waits := waits |} = Done (false, w') ∧
    evolves (chans w) (chans w') ∧ mem_ok w' refs brefs [] ∧
    srv w' = completed waits (clear_poll_cache (set_table (srv w) [] 0 (pollfds_dirty (srv w)))) 0.
Proof.
  intros Hm Hr Ha. unfold process_command, clear_channels. cbn [cmd_type cmd_waits].
  destruct (unref_all_ok _ w refs brefs [] Hm Hr Ha) as (w1 & -> & Hm1 & Hs1 & He1).
  cbn [mbind outcome_bind free_command]. rewrite Hs1.
  eexists (set_srv w1 (completed waits _ 0)). split; [destruct waits; reflexivity|].
  split; [done|]. split; [by apply mem_ok_srv|]. destruct waits; reflexivity.
Qed.

(** ** The poll cache *)

(** A cache entry is the descriptor of its channel. *)
Definition polls (h : gmap Z (cell (PyRtpChannel Q))) (f a : Z) : Prop :=
  ∃ c, h !! a = Some c ∧ fd (state (val c)) = f.

Lemma fill_poll_ok (h : gmap Z (cell (PyRtpChannel Q))) l room :
  (∀ a, a ∈ omap id l → is_Some (h !! a)) → zlen (omap id l) ≤ room →
  ∃ fds, fill_poll h room l = Done (fds, omap id l) ∧ Forall2 (polls h) fds (omap id l).
Proof.
  revert room. induction l as [|[a|] l IH]; intros room Hl Hr; cbn [fill_poll].
  - by exists [].
  - change (omap id (Some a :: l)) with (a :: omap id l) in *. rewrite zlen_cons in Hr.
    pose proof (zlen_nonneg (omap id l)).
    destruct (Hl a ltac:(by left)) as [c Hc]. rewrite (py_read_some _ _ _ Hc). cbn [mbind outcome_bind].
    rewrite bind_unless_true by (apply Z.ltb_lt; lia).
    destruct (IH (room - 1)) as (fds & -> & Hf); [intros b Hb; apply Hl; by right|lia|].
    cbn [mbind outcome_bind]. eexists. split; [done|]. constructor; [by exists c|done].
  - by apply IH.
Qed.

(** The cache is brought up to date, or it could not grow. *)
Lemma refresh_cache_ok mem_fds mem_index (w : world) refs brefs :
  mem_ok w refs brefs [] → table_ok (srv w) → (∀ a, a ∈ live (srv w) → a ∈ refs) →
  ∃ ok w', refresh_poll_cache mem_fds mem_index w = Done (ok, w') ∧
    if ok : bool then
      (pollfds_dirty (srv w) = false ∧ w' = w ∨
       ∃ fds cap, w' = set_srv w (set_poll (srv w) fds (live (srv w)) cap) ∧
         Forall2 (polls (chans w)) fds (live (srv w)))
    else w' = w ∧ mem_fds && mem_index = false.
Proof.
  intros Hm [_ Hact _] Hlive. unfold refresh_poll_cache.
  destruct (pollfds_dirty (srv w)) eqn:Ed; cbn [negb].
  2: { exists true, w. split; [done|]. by left. }
  rewrite Hact. destruct (zlen (live (srv w)) =? 0) eqn:E0; zbool.
  - assert (live (srv w) = []) as Hnil by (destruct (live (srv w)); [done|rewrite zlen_cons in E0; pose proof (zlen_nonneg l); lia]).
    eexists true, _. split; [done|]. right. rewrite Hnil. exists [], (pollfds_cap (srv w)). by split.
  - destruct ((pollfds_cap (srv w) <? zlen (live (srv w))) && negb (mem_fds && mem_index)) eqn:E.
    + exists false, w. split; [done|]. split; [done|]. apply andb_true_iff in E as [_ E].
      by apply negb_true_iff in E.
    + destruct (fill_poll_ok (chans w) (channels (srv w))
        (if pollfds_cap (srv w) <? zlen (live (srv w)) then zlen (live (srv w)) else pollfds_cap (srv w)))
        as (fds & -> & Hf).
      { intros a Ha. apply (heap_ok_elem _ _ _ (mo_chans _ _ _ _ Hm)). by apply Hlive. }
      { fold (live (srv w)). destruct (_ <? _) eqn:?; zbool; lia. }
      cbn [mbind outcome_bind]. eexists true, _. split; [done|]. right. by eexists _, _.
Qed.

(** ** The table as a set *)

(** What a command does to the set of channels, and its status. [full]: the table
    had no free entry and could not grow. *)
Definition table_step (cmd : RtpCommand) (full : bool) (t : gset Z) : gset Z * Z :=
  match cmd with
  | CMD_ADD_CHANNEL (Some a) => if full then (t, ENOMEM) else ({[a]} ∪ t, 0)
  | CMD_ADD_CHANNEL None => (t, 0)
  | CMD_REMOVE_CHANNEL a => (t ∖ {[a]}, 0)
  | CMD_SET_TARGET a _ => (t, if bool_decide (a ∈ t) then 0 else ENOENT)
  | CMD_DROP_CHANNELS | CMD_STOP_WORKER => (∅, 0)
  end.

Definition table (s : PyRtpServer) : gset Z := list_to_set (live s).

Lemma elem_of_table s a : a ∈ table s ↔ a ∈ live s.
Proof. apply elem_of_list_to_set. Qed.

Definition table_full (mem : bool) (s : PyRtpServer) : Prop :=
  zlen (live s) = zlen (channels s) ∧ (mem = false ∨ PTRDIFF_MAX < zlen (channels s) * 16).

(** ** The invariant *)

Definition pc_cmds (p : srv_pc) : list RtpServerCmd :=
  match p with WCmds cmd rest _ _ => cmd :: rest | _ => [] end.

(** Every command the worker has not yet dealt with, oldest first. *)
Definition under_way (s : sys Q) : list RtpServerCmd := pc_cmds (pc s) ++ cmds (srv (wld s)).

(** References the commands hold, the frame of the waiting call, and the one a
    removed channel's table entry had, until the closing call gives it back. *)
Definition adds (l : list RtpServerCmd) : list Z :=
  omap (λ c, match cmd_type c with CMD_ADD_CHANNEL a => a | _ => None end) l.
Definition frame_refs (p : option pend_call) : list Z :=
  match p with Some (PCreate a | PClose a | PSetTarget a _) => [a] | _ => [] end.
Definition floating (p : option pend_call) (sv : PyRtpServer) : list Z :=
  match p with
  | Some (PClose a) => if wt_done (cmd_waiter sv) then [a] else []
  | _ => []
  end.
Definition all_refs (s : sys Q) : list Z :=
  let sv := srv (wld s) in
  held s ++ frame_refs (pend s) ++ live sv ++ adds (under_way s) ++ floating (pend s) sv ++ leaked s.

Definition cmd_of (p : pend_call) : RtpServerCmd :=
  {| cmd_type := match p with
                 | PCreate a => CMD_ADD_CHANNEL (Some a)
                 | PClose a => CMD_REMOVE_CHANNEL a
                 | PSetTarget a addr => CMD_SET_TARGET a addr
                 | PShutdown => CMD_DROP_CHANNELS
                 end;
     cmd_waits := true |}.

(** The commands somebody waits for. *)
Definition waited (l : list RtpServerCmd) : list RtpServerCmd := filter (λ c, cmd_waits c = true) l.
Definition awaited (p : option pend_call) (sv : PyRtpServer) : list RtpServerCmd :=
  match p with
  | Some p => if wt_done (cmd_waiter sv) then [] else [cmd_of p]
  | None => []
  end.

Definition removes (a : Z) (c : RtpServerCmd) : Prop := cmd_type c = CMD_REMOVE_CHANNEL a.
Definition drops (c : RtpServerCmd) : Prop := cmd_type c = CMD_DROP_CHANNELS.

(** The kinds of command there are: nobody waits for a removal a callback asked
    for, and for nothing else. *)
Definition cmd_ok (c : RtpServerCmd) : Prop :=
  cmd_type c ≠ CMD_STOP_WORKER ∧ cmd_type c ≠ CMD_ADD_CHANNEL None ∧
  (cmd_waits c = false → ∃ a, removes a c).

Definition TICK_MAX : Z := CLOCK_MAX + 1000000000.

Definition pc_ok (sv : PyRtpServer) (p : srv_pc) : Prop :=
  match p with
  | WTop next | WRefresh next | WWait _ next => 0 ≤ next < TICK_MAX
  | WCmds _ _ seen next => seen = false ∧ (0 ≤ next < TICK_MAX)
  | WTick next => (0 ≤ next < TICK_MAX) ∧ pollfds_dirty sv = false
  | WPoll a rest _ next now => (a :: rest ⊆ live sv) ∧ (0 ≤ next ≤ now) ∧ now < CLOCK_MAX
  | WDrain _ next now => (0 ≤ next ≤ now) ∧ now < CLOCK_MAX
  | WDrainCh _ a _ next now => a ∈ live sv ∧ (0 ≤ next ≤ now) ∧ now < CLOCK_MAX
  | WExit => False
  end.

(** What the waiting call may rely on. Its command comes after what concerned an
    earlier channel at the same address, and before what may still come. *)
Definition pend_ok (s : sys Q) : Prop :=
  let sv := srv (wld s) in
  let l := under_way s in
  match pend s with
  | Some (PCreate a) =>
      (a ∉ held s) ∧
      (if wt_done (cmd_waiter sv) then
         wt_status (cmd_waiter sv) = 0 → accepting_commands sv = true →
         a ∈ live sv ∧ Forall (λ c, ¬ removes a c) l
       else
         (a ∉ live sv) ∧ (∀ l1 l2, l = l1 ++ cmd_of (PCreate a) :: l2 → Forall (λ c, ¬ removes a c) l2))
  | Some (PClose a) =>
      if wt_done (cmd_waiter sv) then wt_status (cmd_waiter sv) = 0
      else a ∈ live sv ∧
        (∀ l1 l2, l = l1 ++ cmd_of (PClose a) :: l2 → Forall (λ c, ¬ removes a c ∧ ¬ drops c) l1)
  | _ => True
  end.

Record sys_inv (s : sys Q) : Prop := {
  si_mem : mem_ok (wld s) (all_refs s) (heldb s) [];
  si_life : worker_running (srv (wld s)) = true ∧ server_inited (srv (wld s)) = true ∧
    (1 ≤ tick_ns (srv (wld s)) ≤ 1000000000);
  si_table : table_ok (srv (wld s));
  si_poll : pollfds_dirty (srv (wld s)) = false →
    pollfds_index (srv (wld s)) = live (srv (wld s)) ∧
    Forall2 (polls (chans (wld s))) (pollfds (srv (wld s))) (live (srv (wld s)));
  si_pc : pc_ok (srv (wld s)) (pc s);
  si_busy : cmd_waiter_busy (srv (wld s)) = bool_decide (is_Some (pend s));
  si_waits : waited (under_way s) = awaited (pend s) (srv (wld s));
  si_cmds : Forall cmd_ok (under_way s);
  si_drop : accepting_commands (srv (wld s)) = true → Forall (λ c, ¬ drops c) (under_way s);
  si_open : accepting_commands (srv (wld s)) = true → ∀ a c,
    chans (wld s) !! a = Some c → closed (val c) = false →
    pend s ≠ Some (PCreate a) → pend s ≠ Some (PClose a) →
    a ∈ live (srv (wld s)) ∧ Forall (λ c, ¬ removes a c) (under_way s);
  si_pend : pend_ok s;
}.

(** ** What the invariant gives *)

Lemma live_held s a : sys_inv s → a ∈ live (srv (wld s)) → a ∈ all_refs s.
Proof. intros _ Ha. unfold all_refs. rewrite !elem_of_app. auto. Qed.

Lemma live_alive s a : sys_inv s → a ∈ live (srv (wld s)) → ∃ c, chans (wld s) !! a = Some c.
Proof. intros Hi Ha. apply (heap_ok_elem _ _ _ (mo_chans _ _ _ _ (si_mem _ Hi))). by apply live_held. Qed.

Lemma waited_head cmd l s :
  sys_inv s → under_way s = cmd :: l → cmd_waits cmd = true →
  ∃ p, pend s = Some p ∧ wt_done (cmd_waiter (srv (wld s))) = false ∧ cmd = cmd_of p ∧ waited l = [].
Proof.
  intros Hi Hl Hw. pose proof (si_waits _ Hi) as E. rewrite Hl in E. unfold waited in E.
  rewrite filter_cons_True in E by done. unfold awaited in E.
  destruct (pend s) as [q|]; [|done]. destruct (wt_done _); [done|]. injection E as -> E. by exists q.
Qed.

(** Two servers alike but for the queue and the poll cache. *)
Record same_srv (s s' : PyRtpServer) : Prop := {
  ss_channels : channels s' = channels s;
  ss_active : channels_active s' = channels_active s;
  ss_accepting : accepting_commands s' = accepting_commands s;
  ss_busy : cmd_waiter_busy s' = cmd_waiter_busy s;
  ss_waiter : cmd_waiter s' = cmd_waiter s;
  ss_running : worker_running s' = worker_running s;
  ss_inited : server_inited s' = server_inited s;
  ss_tick : tick_ns s' = tick_ns s;
}.

Lemma same_srv_refl s : same_srv s s.
Proof. by constructor. Qed.

Lemma polls_evolves (h h' : gmap Z (cell (PyRtpChannel Q))) fds l :
  Forall2 (polls h) fds l → evolves h h' → (∀ a, a ∈ l → is_Some (h' !! a)) → Forall2 (polls h') fds l.
Proof.
  intros Hf He Hl. induction Hf as [|f a fds l (c & Hc & Hfd) _ IH]; constructor.
  - destruct (Hl a ltac:(by left)) as [c' Hc']. exists c'. split; [done|].
    destruct (He a c' Hc') as (c0 & Hc0 & E & _). congruence.
  - apply IH. intros b Hb. apply Hl. by right.
Qed.

(** A step that leaves the commands, the table and the waiting call alone. *)
Lemma inv_frame s s' :
  sys_inv s → same_srv (srv (wld s)) (srv (wld s')) → under_way s' = under_way s → pend s' = pend s →
  pc_ok (srv (wld s')) (pc s') → evolves (chans (wld s)) (chans (wld s')) →
  mem_ok (wld s') (all_refs s') (heldb s') [] →
  (pollfds_dirty (srv (wld s')) = false →
     pollfds_index (srv (wld s')) = live (srv (wld s')) ∧
     Forall2 (polls (chans (wld s'))) (pollfds (srv (wld s'))) (live (srv (wld s')))) →
  (∀ a, pend s = Some (PCreate a) → a ∉ held s') → sys_inv s'.
Proof.
  intros Hi [Ec Ea Eacc Eb Ew Er Ein Et] Hl Hp Hpc He Hm Hpoll Hheld.
  assert (live (srv (wld s')) = live (srv (wld s))) as El by (unfold live; by rewrite Ec).
  destruct Hi. constructor; try done.
  - by rewrite Er, Ein, Et.
  - destruct si_table0. constructor; [by rewrite El|by rewrite Ea, El|by rewrite Ec].
  - by rewrite Eb, Hp.
  - rewrite Hl, Hp. rewrite si_waits0. unfold awaited. by rewrite Ew.
  - by rewrite Hl.
  - by rewrite Eacc, Hl.
  - rewrite Eacc, Hl, Hp, El. intros Hacc a c' Hc' Hcl Hn1 Hn2.
    destruct (He a c' Hc') as (c & Hc & _ & Hcl'). by apply (si_open0 Hacc a c Hc (Hcl' Hcl)).
  - unfold pend_ok in *. rewrite Hl, Hp, El, Ew, Eacc. destruct (pend s) as [[a| | |]|] eqn:E; try done.
    destruct si_pend0 as [_ H']. split; [by apply Hheld|done].
Qed.

(** The same, with the server untouched. *)
Lemma inv_world s w p hl hb :
  sys_inv s → srv w = srv (wld s) → pc_cmds p = pc_cmds (pc s) → pc_ok (srv (wld s)) p →
  evolves (chans (wld s)) (chans w) →
  mem_ok w (hl ++ frame_refs (pend s) ++ live (srv (wld s)) ++ adds (under_way s) ++
            floating (pend s) (srv (wld s)) ++ leaked s) hb [] →
  (∀ a, pend s = Some (PCreate a) → a ∉ hl) →
  sys_inv {| wld := w; pc := p; pend := pend s; held := hl; heldb := hb; leaked := leaked s |}.
Proof.
  intros Hi Hs Hp Hpc He Hm Hh.
  assert (under_way {| wld := w; pc := p; pend := pend s; held := hl; heldb := hb; leaked := leaked s |} =
          under_way s) as Hl by (unfold under_way; cbn; by rewrite Hs, Hp).
  apply (inv_frame s); try done; cbn [wld pc pend held heldb leaked].
  - rewrite Hs. apply same_srv_refl.
  - by rewrite Hs.
  - unfold all_refs. cbn [wld pc pend held heldb leaked]. rewrite Hl, Hs. exact Hm.
  - rewrite Hs. intros Hd. destruct (si_poll _ Hi Hd) as [H1 H2]. split; [done|].
    eapply polls_evolves; [done|done|]. intros a Ha.
    apply (heap_ok_elem _ _ _ (mo_chans _ _ _ _ Hm)). rewrite !elem_of_app. auto.
Qed.

(** ** The worker's steps *)

Definition steps (l : label) (s : sys Q) : Prop := ∃ s', exec l s = Done s' ∧ sys_inv s'.

(** What the frame lemma wants of the references when nothing moves. *)
Lemma refs_same s : sys_inv s →
  mem_ok (wld s) (held s ++ frame_refs (pend s) ++ live (srv (wld s)) ++ adds (under_way s) ++
            floating (pend s) (srv (wld s)) ++ leaked s) (heldb s) [].
Proof. apply si_mem. Qed.

Lemma create_not_held s a : sys_inv s → pend s = Some (PCreate a) → a ∉ held s.
Proof. intros Hi Hp. pose proof (si_pend _ Hi) as H'. unfold pend_ok in H'. rewrite Hp in H'. by destruct H'. Qed.

(** The worker moves on, and changes no more than the channels' contents. *)
Lemma worker_moves s w p :
  sys_inv s → srv w = srv (wld s) → pc_cmds p = pc_cmds (pc s) → pc_ok (srv (wld s)) p →
  evolves (chans (wld s)) (chans w) → mem_ok w (all_refs s) (heldb s) [] → sys_inv (with_pc s w p).
Proof.
  intros Hi Hs Hp Hpc He Hm. apply (inv_world s w p (held s) (heldb s) Hi Hs Hp Hpc He Hm).
  intros a. by apply (create_not_held s).
Qed.

Lemma step_detach s : sys_inv s → enabled LDetach s → steps LDetach s.
Proof.
  intros Hi [next Hpc]. unfold steps. cbn [exec worker_exec]. rewrite Hpc. cbn [detach_commands].
  eexists. split; [done|]. pose proof (si_pc _ Hi) as Hn. rewrite Hpc in Hn. cbn in Hn.
  assert (under_way (with_pc s (set_srv (wld s) (set_cmd (srv (wld s)) (cmd_waiter_busy (srv (wld s)))
            (accepting_commands (srv (wld s))) (cmd_waiter (srv (wld s))) []))
            (after_cmds (cmds (srv (wld s))) false next)) = under_way s) as Hl.
  { unfold under_way. rewrite Hpc. cbn. destruct (cmds (srv (wld s))) as [|c l]; [done|]. cbn. by rewrite app_nil_r. }
  apply (inv_frame s); try done.
  - cbn. by destruct (cmds (srv (wld s))).
  - unfold all_refs. rewrite Hl. apply mem_ok_srv. exact (si_mem _ Hi).
  - apply (si_poll _ Hi).
  - intros a. by apply (create_not_held s).
Qed.

Lemma step_refresh s m1 m2 : sys_inv s → enabled (LRefresh m1 m2) s → steps (LRefresh m1 m2) s.
Proof.
  intros Hi [next Hpc]. unfold steps. cbn [exec worker_exec]. rewrite Hpc.
  pose proof (si_pc _ Hi) as Hn. rewrite Hpc in Hn. cbn in Hn.
  destruct (refresh_cache_ok m1 m2 (wld s) _ _ (si_mem _ Hi) (si_table _ Hi)) as (ok & w & -> & Hw);
    [intros a; by apply live_held|]. cbn [mbind outcome_bind].
  eexists. split; [done|]. destruct ok.
  - destruct Hw as [[Hd ->]|(fds & cap & -> & Hf)].
    + apply worker_moves; try done; [by rewrite Hpc; case_match| |apply (si_mem _ Hi)].
      destruct (zlen (pollfds (srv (wld s))) =? 0); [by unfold TICK_MAX, CLOCK_MAX|]. done.
    + match goal with |- sys_inv (with_pc _ _ ?q) => set (p := q) end.
      assert (under_way (with_pc s (set_srv (wld s) (set_poll (srv (wld s)) fds (live (srv (wld s))) cap)) p)
              = under_way s) as Hl by (unfold under_way, p; rewrite Hpc; cbn; by case_match).
      apply (inv_frame s); try done.
      * unfold p. cbn. destruct (zlen fds =? 0); [by unfold TICK_MAX, CLOCK_MAX|]. done.
      * unfold all_refs. rewrite Hl. apply mem_ok_srv. exact (si_mem _ Hi).
      * intros a. by apply (create_not_held s).
  - destruct Hw as [-> _].
    apply worker_moves; try done; [by rewrite Hpc; case_match| |apply (si_mem _ Hi)].
    destruct (zlen (pollfds (srv (wld s))) =? 0); [by unfold TICK_MAX, CLOCK_MAX|]. done.
Qed.

Lemma poll_ready_sub s revents : poll_ready s revents ⊆ pollfds_index s.
Proof.
  unfold poll_ready. intros a Ha. apply list_elem_of_omap in Ha as ([b r] & Hin & E).
  destruct r; [|done]. injection E as <-. by eapply elem_of_zip_l.
Qed.

Lemma after_poll_ok sv rest rtime next now :
  rest ⊆ live sv → 0 ≤ next ≤ now → now < CLOCK_MAX → pc_ok sv (after_poll rest rtime next now).
Proof. intros Hr Hn Hc. by destruct rest. Qed.

Lemma step_clock s now poll : sys_inv s → enabled (LClock now poll) s → steps (LClock now poll) s.
Proof.
  intros Hi [Hnow [next Hpc]]. unfold steps. cbn [exec worker_exec]. rewrite Hpc.
  pose proof (si_pc _ Hi) as Hn. rewrite Hpc in Hn. cbn in Hn. destruct Hn as [Hn Hd].
  destruct (si_poll _ Hi Hd) as [Hidx _].
  eexists. split; [done|]. apply worker_moves; try done; [| |apply (si_mem _ Hi)].
  - rewrite Hpc. destruct (now <? _); [done|]. destruct poll as [[rtime rv]|]; [|done].
    by destruct (poll_ready _ _).
  - assert (0 ≤ (if next =? 0 then now else next) < TICK_MAX) as Hn'
      by (unfold TICK_MAX in *; destruct (next =? 0); lia).
    destruct (now <? _) eqn:E; zbool; [done|].
    assert (0 ≤ (if next =? 0 then now else next) ≤ now) by lia.
    destruct poll as [[rtime rv]|]; [|cbn; lia]. apply after_poll_ok; [|done|lia].
    rewrite <- Hidx. apply poll_ready_sub.
Qed.

Lemma step_recv s recv mem : sys_inv s → enabled (LRecv recv mem) s → steps (LRecv recv mem) s.
Proof.
  intros Hi (a & rest & rtime & next & now & Hpc). unfold steps. cbn [exec worker_exec]. rewrite Hpc.
  pose proof (si_pc _ Hi) as Hn. rewrite Hpc in Hn. cbn in Hn. destruct Hn as [Hl [Hn Hc]].
  destruct (live_alive s a Hi) as [c Hch]; [apply Hl; by left|].
  unfold receive_one. rewrite (py_read_some _ _ _ Hch). cbn [mbind outcome_bind].
  destruct (mo_each _ _ _ _ (si_mem _ Hi) a c Hch) as [_ Hfd].
  rewrite bind_assert_true by (apply Z.leb_le; lia).
  assert (∀ w, srv w = srv (wld s) → chans w = chans (wld s) → items w = items (wld s) →
            objs w = objs (wld s) → ∀ p, pc_cmds p = [] → pc_ok (srv (wld s)) p → sys_inv (with_pc s w p)) as Hgo.
  { intros w E1 E2 E3 E4 p Hp Hok. apply worker_moves; try done; [by rewrite Hpc|by rewrite E2|].
    destruct (si_mem _ Hi) as [Hh He [Ho Hit Hs]].
    constructor; [by rewrite E2|by rewrite E2|].
    constructor; [unfold item_refs; by rewrite E4, E3|unfold allocated, queued; by rewrite E3, E2|by rewrite E3, E4]. }
  assert (pc_ok (srv (wld s)) (after_poll rest rtime next now)) as Hrest.
  { apply after_poll_ok; [|done|done]. intros b Hb. apply Hl. by right. }
  destruct recv as [[data addr]|]; cbn [mbind outcome_bind]; eexists; (split; [done|]).
  - apply Hgo; try by destruct mem.
  - apply Hgo; try done. by destruct rest.
Qed.

Lemma step_drain s : sys_inv s → enabled LDrain s → steps LDrain s.
Proof.
  intros Hi [(i & next & now & Hpc)|(i & a & ht & next & now & Hpc)]; unfold steps;
    cbn [exec worker_exec]; rewrite Hpc; pose proof (si_pc _ Hi) as Hn; rewrite Hpc in Hn; cbn in Hn.
  - destruct (channels (srv (wld s)) !! i) as [[a|]|] eqn:E.
    + assert (a ∈ live (srv (wld s))) as Ha.
      { apply list_elem_of_omap. exists (Some a). split; [|done]. by eapply list_elem_of_lookup_2. }
      destruct (live_alive s a Hi Ha) as [c Hc]. rewrite (py_read_some _ _ _ Hc). cbn [mbind outcome_bind].
      eexists. split; [done|]. apply worker_moves; try done; [by rewrite Hpc|apply (si_mem _ Hi)].
    + eexists. split; [done|]. apply worker_moves; try done; [by rewrite Hpc|apply (si_mem _ Hi)].
    + destruct Hn as [Hn Hc]. destruct (si_life _ Hi) as (_ & _ & Ht).
      set (tick := tick_ns (srv (wld s))) in *.
      assert (0 ≤ (now - next) / tick) by (apply Z.div_pos; lia).
      destruct (tick_advance_ok (S (Z.to_nat ((now - next) / tick))) next now tick) as (k & Hk & -> & H');
        [lia|lia|unfold U64_MAX, CLOCK_MAX in *; lia|lia|].
      cbn [mbind outcome_bind]. eexists. split; [done|].
      apply worker_moves; try done; [by rewrite Hpc| |apply (si_mem _ Hi)].
      cbn. unfold TICK_MAX. lia.
  - destruct Hn as [Ha Hn]. destruct (live_alive s a Hi Ha) as [c Hc].
    destruct (drain_one_ok (wld s) a c ht _ _ (si_mem _ Hi) Hc) as (more & w' & c' & -> & Hm & Hs & He & _).
    cbn [mbind outcome_bind]. eexists. split; [done|].
    apply worker_moves; try done; [by rewrite Hpc; destruct more|by destruct more].
Qed.

Lemma step_wake s : sys_inv s → enabled LWake s → steps LWake s.
Proof.
  intros Hi (until & next & Hpc & _). unfold steps. cbn [exec worker_exec]. rewrite Hpc.
  pose proof (si_pc _ Hi) as Hn. rewrite Hpc in Hn.
  eexists. split; [done|]. apply worker_moves; try done; [by rewrite Hpc|apply (si_mem _ Hi)].
Qed.

(** ** Dealing with a command *)

(** The state after the command at the head of the list. *)
Record cmd_done (mem : bool) (s : sys Q) (cmd : RtpServerCmd) (s' : sys Q) : Prop := {
  cd_pend : pend s' = pend s;
  cd_held : held s' = held s;
  cd_way : under_way s = cmd :: under_way s';
  cd_evolves : evolves (chans (wld s)) (chans (wld s'));
  cd_accepting : accepting_commands (srv (wld s')) = accepting_commands (srv (wld s));
  cd_busy : cmd_waiter_busy (srv (wld s')) = cmd_waiter_busy (srv (wld s));
  cd_life : worker_running (srv (wld s')) = worker_running (srv (wld s)) ∧
    server_inited (srv (wld s')) = server_inited (srv (wld s)) ∧
    tick_ns (srv (wld s')) = tick_ns (srv (wld s));
  cd_pc : pc_ok (srv (wld s')) (pc s');
  cd_mem : mem_ok (wld s') (all_refs s') (heldb s') [];
  cd_table : table_ok (srv (wld s'));
  cd_poll : pollfds_dirty (srv (wld s')) = false →
    pollfds_index (srv (wld s')) = live (srv (wld s')) ∧
    Forall2 (polls (chans (wld s'))) (pollfds (srv (wld s'))) (live (srv (wld s')));
  cd_waiter : if cmd_waits cmd then wt_done (cmd_waiter (srv (wld s'))) = true
              else cmd_waiter (srv (wld s')) = cmd_waiter (srv (wld s));
  cd_spec : ∃ full, (full = true → table_full mem (srv (wld s))) ∧
    table (srv (wld s')) = (table_step (cmd_type cmd) full (table (srv (wld s)))).1 ∧
    (cmd_waits cmd = true →
       wt_status (cmd_waiter (srv (wld s'))) = (table_step (cmd_type cmd) full (table (srv (wld s)))).2);
  cd_target : ∀ a addr, cmd_type cmd = CMD_SET_TARGET a addr → a ∈ live (srv (wld s)) →
    ∃ c, chans (wld s') !! a = Some c ∧ st_has_target (state (val c)) = true ∧
      target_addr (state (val c)) = addr;
}.

Section Done.
Context (mem : bool) (s s' : sys Q) (cmd : RtpServerCmd) (Hd : cmd_done mem s cmd s').

Lemma cd_keeps b : b ∈ live (srv (wld s)) → ¬ removes b cmd → ¬ drops cmd → cmd_ok cmd →
  b ∈ live (srv (wld s')).
Proof.
  unfold removes, drops. rewrite <- !elem_of_table. intros Hb Hr Hdr (Hst & _). destruct (cd_spec _ _ _ _ Hd) as (full & _ & -> & _).
  destruct (cmd_type cmd) as [[a|]|a|a addr| |]; cbn; try done; [destruct full; set_solver|].
  apply elem_of_difference. split; [done|]. rewrite elem_of_singleton. congruence.
Qed.

Lemma cd_new b : b ∈ live (srv (wld s')) → b ∈ live (srv (wld s)) ∨ cmd_type cmd = CMD_ADD_CHANNEL (Some b).
Proof.
  rewrite <- !elem_of_table. destruct (cd_spec _ _ _ _ Hd) as (full & _ & -> & _).
  destruct (cmd_type cmd) as [[a|]|a|a addr| |]; cbn; [destruct full|..]; set_solver.
Qed.

Lemma cd_add b : cmd = cmd_of (PCreate b) → wt_status (cmd_waiter (srv (wld s'))) = 0 →
  b ∈ live (srv (wld s')).
Proof.
  rewrite <- elem_of_table. destruct (cd_spec _ _ _ _ Hd) as (full & _ & -> & Hw). intros ->.
  rewrite Hw by done. cbn. destruct full; [done|]. intros _. set_solver.
Qed.

Lemma cd_remove b : cmd = cmd_of (PClose b) → wt_status (cmd_waiter (srv (wld s'))) = 0.
Proof. destruct (cd_spec _ _ _ _ Hd) as (full & _ & _ & Hw). intros ->. by apply Hw. Qed.
End Done.

Lemma waited_elem l c : waited l = [c] → c ∈ l.
Proof. intros E. assert (c ∈ waited l) as Hc by (rewrite E; by left). by apply list_elem_of_filter in Hc as [_ ?]. Qed.

Lemma not_drops cmd : cmd_ok cmd → cmd_waits cmd = false → ¬ drops cmd.
Proof. intros (_ & _ & Hok) Hw Hd. destruct (Hok Hw) as [a Ha]. unfold drops, removes in *. congruence. Qed.

(** The waited-for command is still to come. *)
Lemma awaited_later mem s cmd s' p :
  sys_inv s → cmd_done mem s cmd s' → cmd_waits cmd = false → pend s = Some p →
  wt_done (cmd_waiter (srv (wld s))) = false →
  ∃ l1 l2, under_way s' = l1 ++ cmd_of p :: l2 ∧ under_way s = (cmd :: l1) ++ cmd_of p :: l2.
Proof.
  intros Hi Hd Hw Hp Hnd. pose proof (si_waits _ Hi) as E. rewrite (cd_way _ _ _ _ Hd) in E |- *.
  unfold waited in E. rewrite filter_cons_False in E by congruence.
  unfold awaited in E. rewrite Hp, Hnd in E. fold (waited (under_way s')) in E.
  destruct (list_elem_of_split _ _ (waited_elem _ _ E)) as (l1 & l2 & ->). by exists l1, l2.
Qed.

Lemma pend_after_cmd mem s cmd s' : sys_inv s → cmd_done mem s cmd s' → pend_ok s'.
Proof.
  intros Hi Hd. pose proof (si_pend _ Hi) as Hp. pose proof (cd_way _ _ _ _ Hd) as Hl.
  pose proof (si_cmds _ Hi) as Hcmds. rewrite Hl in Hcmds. apply Forall_cons in Hcmds as [Hok _].
  pose proof (cd_waiter _ _ _ _ Hd) as Hw. unfold pend_ok in *.
  rewrite (cd_pend _ _ _ _ Hd), (cd_held _ _ _ _ Hd), (cd_accepting _ _ _ _ Hd).
  destruct (pend s) as [[a|a| |]|] eqn:Ep; try done.
  - destruct Hp as [Hh Hp]. split; [done|]. destruct (cmd_waits cmd) eqn:Ew.
    + destruct (waited_head cmd _ s Hi Hl Ew) as (p & Hp' & Hnd & Hc & _).
      rewrite Ep in Hp'. injection Hp' as <-. rewrite Hnd in Hp. rewrite Hw. intros Hst _.
      split; [by apply (cd_add _ _ _ _ Hd)|]. apply (proj2 Hp [] (under_way s')). by rewrite Hl, Hc.
    + rewrite Hw. destruct (wt_done (cmd_waiter (srv (wld s)))) eqn:End.
      * intros Hst Hacc. destruct (Hp Hst Hacc) as [Hin Hrm]. rewrite Hl in Hrm.
        apply Forall_cons in Hrm as [Hr Hrm]. split; [|done].
        apply (cd_keeps _ _ _ _ Hd); [done|done|by apply not_drops|done].
      * destruct Hp as [Hin Hrm]. split.
        -- intros Hin'. destruct (cd_new _ _ _ _ Hd a Hin') as [?|Hadd]; [done|].
           destruct Hok as (_ & _ & Hok). destruct (Hok Ew) as [b Hb]. unfold removes in Hb. congruence.
        -- intros l1 l2 E. apply (Hrm (cmd :: l1)). by rewrite Hl, E.
  - destruct (cmd_waits cmd) eqn:Ew.
    + destruct (waited_head cmd _ s Hi Hl Ew) as (p & Hp' & Hnd & Hc & _).
      rewrite Ep in Hp'. injection Hp' as <-. rewrite Hw. by apply (cd_remove _ _ _ _ Hd a).
    + rewrite Hw. destruct (wt_done (cmd_waiter (srv (wld s)))) eqn:End; [done|].
      destruct Hp as [Hin Hpre].
      destruct (awaited_later mem s cmd s' _ Hi Hd Ew Ep End) as (k1 & k2 & _ & E2).
      pose proof (Hpre _ _ E2) as Hf. apply Forall_cons in Hf as [[Hr Hdr] _].
      split; [by apply (cd_keeps _ _ _ _ Hd)|].
      intros l1 l2 E. rewrite Hl, E in Hpre. specialize (Hpre (cmd :: l1) l2 eq_refl).
      by apply Forall_cons in Hpre as [_ ?].
Qed.

Lemma inv_after_cmd mem s cmd s' : sys_inv s → cmd_done mem s cmd s' → sys_inv s'.
Proof.
  intros Hi Hd. pose proof (pend_after_cmd _ _ _ _ Hi Hd) as Hpend. pose proof Hd as [].
  pose proof (si_cmds _ Hi) as Hcmds. rewrite cd_way0 in Hcmds. apply Forall_cons in Hcmds as [Hok Hcmds].
  constructor; try done.
  - destruct cd_life0 as (-> & -> & ->). apply (si_life _ Hi).
  - rewrite cd_busy0, cd_pend0. apply (si_busy _ Hi).
  - rewrite cd_pend0. pose proof (si_waits _ Hi) as E. rewrite cd_way0 in E. unfold waited in E.
    destruct (cmd_waits cmd) eqn:Ew.
    + destruct (waited_head cmd _ s Hi cd_way0 Ew) as (p & Hp & _ & _ & ->).
      unfold awaited. by rewrite Hp, cd_waiter0.
    + rewrite filter_cons_False in E by congruence. unfold waited. rewrite E.
      unfold awaited. by rewrite cd_waiter0.
  - rewrite cd_accepting0. intros Hacc. pose proof (si_drop _ Hi Hacc) as Hdr. rewrite cd_way0 in Hdr.
    by apply Forall_cons in Hdr as [_ ?].
  - rewrite cd_accepting0, cd_pend0. intros Hacc a c' Hc' Hcl Hn1 Hn2.
    destruct (cd_evolves0 a c' Hc') as (c & Hc & _ & Hcl').
    destruct (si_open _ Hi Hacc a c Hc (Hcl' Hcl) Hn1 Hn2) as [Hin Hrm].
    pose proof (si_drop _ Hi Hacc) as Hdr. rewrite cd_way0 in Hrm, Hdr.
    apply Forall_cons in Hrm as [Hr Hrm]. apply Forall_cons in Hdr as [Hdr _].
    split; [by apply (cd_keeps mem s s' cmd)|done].
Qed.

Lemma after_cmds_cmds rest seen next : pc_cmds (after_cmds rest seen next) = rest.
Proof. destruct rest; [by destruct seen|done]. Qed.

Lemma after_cmds_ok sv rest next : 0 ≤ next < TICK_MAX → pc_ok sv (after_cmds rest false next).
Proof. by destruct rest. Qed.

Lemma poll_kept s w :
  sys_inv s → evolves (chans (wld s)) (chans w) → (∀ a, a ∈ live (srv (wld s)) → is_Some (chans w !! a)) →
  pollfds_dirty (srv (wld s)) = false →
  pollfds_index (srv (wld s)) = live (srv (wld s)) ∧
  Forall2 (polls (chans w)) (pollfds (srv (wld s))) (live (srv (wld s))).
Proof. intros Hi He Hl Hd. destruct (si_poll _ Hi Hd) as [H1 H2]. split; [done|]. by eapply polls_evolves. Qed.

Section Command.
Context (s : sys Q) (cmd : RtpServerCmd) (rest : list RtpServerCmd) (next : Z).
Context (Hi : sys_inv s) (Hpc : pc s = WCmds cmd rest false next).

Lemma cmd_way : under_way s = cmd :: rest ++ cmds (srv (wld s)).
Proof. unfold under_way. by rewrite Hpc. Qed.

Lemma cmd_next : 0 ≤ next < TICK_MAX.
Proof. pose proof (si_pc _ Hi) as Hn. rewrite Hpc in Hn. apply Hn. Qed.

(** The state after a turn of [process_commands] that stops nothing. *)
Definition turn (w : world) (lost : list Z) : sys Q :=
  with_leaked (with_pc s w (after_cmds rest false next)) (lost ++ leaked s).

Lemma turn_way w lost : cmds (srv w) = cmds (srv (wld s)) → under_way (turn w lost) = rest ++ cmds (srv (wld s)).
Proof. intros E. unfold under_way, turn. cbn. by rewrite after_cmds_cmds, E. Qed.

Lemma turn_refs w lost : cmds (srv w) = cmds (srv (wld s)) →
  all_refs (turn w lost) = held s ++ frame_refs (pend s) ++ live (srv w) ++
    adds (rest ++ cmds (srv (wld s))) ++ floating (pend s) (srv w) ++ lost ++ leaked s.
Proof. intros E. unfold all_refs. rewrite (turn_way w lost E). done. Qed.

Lemma cmd_refs : all_refs s = held s ++ frame_refs (pend s) ++ live (srv (wld s)) ++
    adds (cmd :: rest ++ cmds (srv (wld s))) ++ floating (pend s) (srv (wld s)) ++ leaked s.
Proof. unfold all_refs. by rewrite cmd_way. Qed.

(** A turn that changes the table and nothing else of the server. *)
Lemma turn_done mem full w lost l active dirty st :
  srv w = completed (cmd_waits cmd) (set_table (srv (wld s)) l active dirty) st →
  evolves (chans (wld s)) (chans w) → table_ok (set_table (srv (wld s)) l active dirty) →
  mem_ok w (all_refs (turn w lost)) (heldb s) [] →
  dirty = true ∨ l = channels (srv (wld s)) ∧ dirty = pollfds_dirty (srv (wld s)) →
  (full = true → table_full mem (srv (wld s))) →
  (list_to_set (omap id l), st) = table_step (cmd_type cmd) full (table (srv (wld s))) →
  (∀ a addr, cmd_type cmd = CMD_SET_TARGET a addr → a ∈ live (srv (wld s)) →
     ∃ c, chans w !! a = Some c ∧ st_has_target (state (val c)) = true ∧ target_addr (state (val c)) = addr) →
  cmd_done mem s cmd (turn w lost).
Proof.
  intros Hs He Ht Hm Hd Hfull Hstep Htarget.
  assert (live (srv w) = omap id l) as El by (rewrite Hs; by destruct (cmd_waits cmd)).
  assert (cmds (srv w) = cmds (srv (wld s))) as Ecm by (rewrite Hs; by destruct (cmd_waits cmd)).
  constructor; cbn [turn with_leaked with_pc wld pc pend held heldb leaked]; rewrite ?El; try done.
  - by rewrite cmd_way, (turn_way w lost Ecm).
  - rewrite Hs. by destruct (cmd_waits cmd).
  - rewrite Hs. by destruct (cmd_waits cmd).
  - rewrite Hs. by destruct (cmd_waits cmd).
  - apply after_cmds_ok, cmd_next.
  - destruct Ht. rewrite Hs. destruct (cmd_waits cmd); by constructor.
  - intros Hdirty. assert (dirty = false) as -> by (rewrite Hs in Hdirty; by destruct (cmd_waits cmd)).
    destruct Hd as [?|[-> Ed]]; [done|]. symmetry in Ed.
    replace (pollfds_index (srv w)) with (pollfds_index (srv (wld s))) by (rewrite Hs; by destruct (cmd_waits cmd)).
    replace (pollfds (srv w)) with (pollfds (srv (wld s))) by (rewrite Hs; by destruct (cmd_waits cmd)).
    apply (poll_kept s w Hi He); [|done]. intros b Hb.
    apply (heap_ok_elem _ _ _ (mo_chans _ _ _ _ Hm)). rewrite (turn_refs w lost Ecm), El, !elem_of_app. auto.
  - rewrite Hs. by destruct (cmd_waits cmd).
  - exists full. rewrite <- Hstep. unfold table. rewrite El. split; [done|]. split; [done|].
    intros Hw. by rewrite Hs, Hw.
Qed.

(** A command with a waiter is the one the waiting call sent. *)
Lemma head_awaited : cmd_waits cmd = true →
  ∃ p, pend s = Some p ∧ wt_done (cmd_waiter (srv (wld s))) = false ∧ cmd = cmd_of p.
Proof.
  intros Hw. destruct (waited_head _ _ _ Hi cmd_way Hw) as (p & Hp & Hnd & Hc & _). by exists p.
Qed.

Lemma head_ok : cmd_ok cmd.
Proof. pose proof (si_cmds _ Hi) as Hok. rewrite cmd_way in Hok. by apply Forall_cons in Hok as [? _]. Qed.

(** So is every command but a removal. *)
Lemma head_waits : (∀ a, ¬ removes a cmd) → cmd_waits cmd = true.
Proof.
  intros Hr. destruct head_ok as (_ & _ & Hok). destruct (cmd_waits cmd); [done|].
  destruct (Hok eq_refl) as [a Ha]. by destruct (Hr a).
Qed.

Lemma turn_add mem a :
  cmd_type cmd = CMD_ADD_CHANNEL (Some a) →
  ∃ w', process_command mem (wld s) cmd = Done (false, w') ∧ cmd_done mem s cmd (turn w' []).
Proof.
  intros Ht. assert (cmd_waits cmd = true) as Hw by (apply head_waits; intros b Hb; unfold removes in Hb; congruence).
  destruct (head_awaited Hw) as (p & Hp & Hnd & Hc).
  assert (p = PCreate a) as -> by (rewrite Hc in Ht; destruct p; cbn in Ht; congruence).
  pose proof (si_pend _ Hi) as Hpend. unfold pend_ok in Hpend. rewrite Hp, Hnd in Hpend.
  destruct Hpend as (Hheld & Hnew & _).
  set (refs := held s ++ [a] ++ live (srv (wld s)) ++ adds (rest ++ cmds (srv (wld s))) ++ leaked s).
  assert (all_refs s ≡ₚ a :: refs) as Hrefs.
  { rewrite cmd_refs, Hp, Hc. unfold refs. cbn [frame_refs floating cmd_of adds].
    change (adds (_ :: ?l)) with (a :: adds l). perm_count. }
  pose proof (si_mem _ Hi) as Hm. rewrite Hrefs in Hm.
  destruct (cmd_add_ok mem (wld s) a true refs (heldb s) Hm (si_table _ Hi)) as
    (w' & l & active & dirty & st & E & He & Hs & Htab & Hcase); [apply (si_life _ Hi)|done|set_solver|].
  exists w'. split; [by rewrite Hc|].
  apply (turn_done mem (negb (st =? 0)) w' [] l active dirty st); try done.
  - by rewrite Hw.
  - rewrite turn_refs, Hp by by rewrite Hs. rewrite Hs. unfold live at 1. cbn [frame_refs floating app channels completed rtp_sync_waiter_complete set_cmd set_table].
    destruct Hcase as [(_ & _ & Hl & Hm')|(_ & -> & _ & _ & _ & Hm')];
      (eapply mem_ok_perm; [|done..|exact Hm']); unfold refs; [rewrite Hl|unfold live]; perm_count.
  - destruct Hcase as [(_ & -> & _)|(_ & -> & -> & _)]; auto.
  - destruct Hcase as [(-> & _)|(-> & _ & _ & Hf & Hwhy & _)]; done.
  - rewrite Ht. destruct Hcase as [(-> & _ & Hl & _)|(-> & -> & _)]; cbn; [|done].
    by rewrite (list_to_set_perm_L _ _ Hl).
  - intros b addr Hb. rewrite Hb in Ht. discriminate.
Qed.

Lemma turn_remove mem a :
  cmd_type cmd = CMD_REMOVE_CHANNEL a →
  ∃ w', process_command mem (wld s) cmd = Done (false, w') ∧
    cmd_done mem s cmd (turn w' (lost_by (srv (wld s)) cmd)).
Proof.
  intros Ht.
  destruct (cmd_remove_ok mem (wld s) a (cmd_waits cmd) _ _ (si_mem _ Hi) (si_table _ Hi))
    as (w' & l & active & dirty & E & Hch & Hs & Htab & Hm' & Hcase).
  exists w'. split; [by destruct cmd; cbn in Ht; subst|].
  assert (cmds (srv w') = cmds (srv (wld s))) as Ecm by (rewrite Hs; by destruct (cmd_waits cmd)).
  assert (live (srv w') = omap id l) as El by (rewrite Hs; by destruct (cmd_waits cmd)).
  apply (turn_done mem false w' _ l active dirty 0); try done.
  - by rewrite Hch.
  - eapply mem_ok_perm; [|done..|exact Hm']. rewrite (turn_refs w' _ Ecm), cmd_refs, El.
    assert (adds (cmd :: rest ++ cmds (srv (wld s))) = adds (rest ++ cmds (srv (wld s)))) as ->
      by (destruct cmd; cbn in Ht; subst; done).
    unfold lost_by. rewrite Ht, find_channel_spec. destruct (cmd_waits cmd) eqn:Ew.
    + destruct (head_awaited Ew) as (p & Hp & Hnd & Hc).
      assert (p = PClose a) as -> by (rewrite Hc in Ht; destruct p; cbn in Ht; congruence).
      pose proof (si_pend _ Hi) as Hpend. unfold pend_ok in Hpend. rewrite Hp, Hnd in Hpend.
      destruct Hpend as [Hin _]. rewrite decide_True in Hcase by done. destruct Hcase as [_ Hl].
      rewrite Hp, Hs. cbn [floating completed rtp_sync_waiter_complete set_cmd cmd_waiter wt_done]. rewrite Hnd.
      perm_count.
    + rewrite Hs. cbn [completed]. change (cmd_waiter (set_table _ _ _ _)) with (cmd_waiter (srv (wld s))).
      assert (floating (pend s) (set_table (srv (wld s)) l active dirty) = floating (pend s) (srv (wld s))) as -> by done.
      destruct (decide (a ∈ live (srv (wld s)))); [destruct Hcase as [_ Hl]; perm_count|].
      destruct Hcase as [-> _]. unfold live. perm_count.
  - destruct (decide _); [left|right]; by destruct Hcase.
  - rewrite Ht. cbn. f_equal. unfold table. pose proof (to_nodup _ (si_table _ Hi)) as Hnd.
    destruct (decide _) as [Hin|Hin]; [destruct Hcase as [_ Hl]|destruct Hcase as [-> _]; set_solver].
    rewrite (list_to_set_perm_L _ _ Hl). rewrite Hl in Hnd. apply NoDup_cons in Hnd as [Hnd _]. set_solver.
  - intros b addr Hb. rewrite Hb in Ht. discriminate.
Qed.

Lemma turn_target mem a addr :
  cmd_type cmd = CMD_SET_TARGET a addr →
  ∃ w', process_command mem (wld s) cmd = Done (false, w') ∧ cmd_done mem s cmd (turn w' []).
Proof.
  intros Ht. assert (cmd_waits cmd = true) as Hw by (apply head_waits; intros b Hb; unfold removes in Hb; congruence).
  destruct (head_awaited Hw) as (p & Hp & Hnd & Hc).
  assert (∃ addr, p = PSetTarget a addr) as [addr' ->]
    by (rewrite Hc in Ht; destruct p; cbn in Ht; try congruence; injection Ht as -> ->; by eexists).
  destruct (cmd_set_target_ok mem (wld s) a addr (cmd_waits cmd) _ _ (si_mem _ Hi)) as (w' & st & E & He & Hs & Hm' & Hcase);
    [intros b; by apply live_held|].
  exists w'. split; [by destruct cmd; cbn in Ht; subst|].
  rewrite (set_table_id (srv (wld s))) in Hs.
  apply (turn_done mem false w' [] _ _ _ st Hs); try done.
  - rewrite <- set_table_id. apply (si_table _ Hi).
  - eapply mem_ok_perm; [|done..|exact Hm']. rewrite turn_refs, cmd_refs, Hp by (rewrite Hs; by destruct (cmd_waits cmd)).
    assert (live (srv w') = live (srv (wld s))) as -> by (rewrite Hs; by destruct (cmd_waits cmd)).
    rewrite Hc. cbn [frame_refs floating]. by change (adds (cmd_of _ :: ?l)) with (adds l).
  - by right.
  - rewrite Ht. cbn. f_equal. destruct (decide _) as [Hin|Hin]; destruct Hcase as [-> _].
    + rewrite bool_decide_eq_true_2; [done|]. by apply elem_of_table.
    + rewrite bool_decide_eq_false_2; [done|]. by rewrite elem_of_table.
  - intros b addr2 Hb Hlb. rewrite Ht in Hb. injection Hb as <- <-. rewrite decide_True in Hcase by done.
    destruct Hcase as (_ & c & Hc' & ->). eexists. by rewrite lookup_insert_eq.
Qed.

Lemma turn_drop mem :
  drops cmd →
  ∃ w', process_command mem (wld s) cmd = Done (false, w') ∧ cmd_done mem s cmd (turn w' []).
Proof.
  intros Ht. assert (cmd_waits cmd = true) as Hw by (apply head_waits; intros b Hb; unfold removes, drops in *; congruence).
  destruct (head_awaited Hw) as (p & Hp & Hnd & Hc). unfold drops in Ht.
  assert (p = PShutdown) as -> by (rewrite Hc in Ht; destruct p; cbn in Ht; congruence).
  assert (accepting_commands (srv (wld s)) = false) as Hacc.
  { destruct (accepting_commands (srv (wld s))) eqn:Ea; [|done]. pose proof (si_drop _ Hi Ea) as Hdr.
    rewrite cmd_way in Hdr. apply Forall_cons in Hdr as [Hdr _]. by destruct Hdr. }
  set (refs := held s ++ adds (rest ++ cmds (srv (wld s))) ++ leaked s).
  assert (all_refs s ≡ₚ live (srv (wld s)) ++ refs) as Hrefs.
  { rewrite cmd_refs, Hp, Hc. unfold refs. cbn [frame_refs floating].
    change (adds (cmd_of PShutdown :: ?l)) with (adds l). perm_count. }
  pose proof (si_mem _ Hi) as Hm. rewrite Hrefs in Hm.
  destruct (cmd_drop_ok mem (wld s) true refs _ Hm) as (w' & E & He & Hm' & Hs); [apply (si_life _ Hi)|done|].
  exists w'. split; [by rewrite Hc|]. assert (cmds (srv w') = cmds (srv (wld s))) as Ecm by by rewrite Hs.
  constructor; cbn [turn with_leaked with_pc wld pc pend held heldb leaked]; try done; try by rewrite Hs.
  - by rewrite cmd_way, (turn_way w' [] Ecm).
  - apply after_cmds_ok, cmd_next.
  - rewrite (turn_refs w' [] Ecm), Hp, Hs. cbn. exact Hm'.
  - rewrite Hs. constructor; [constructor|done|]. unfold zlen, PTRDIFF_MAX. cbn. lia.
  - by rewrite Hw, Hs.
  - exists false. rewrite Hs, Ht. split; [done|]. by split.
  - intros b addr Hb. rewrite Hb in Ht. discriminate.
Qed.

Lemma turn_any mem :
  ∃ w', process_command mem (wld s) cmd = Done (false, w') ∧
    cmd_done mem s cmd (turn w' (lost_by (srv (wld s)) cmd)).
Proof.
  pose proof head_ok as (Hstop & Hadd & _).
  destruct (cmd_type cmd) as [[a|]|a|a addr| |] eqn:Ht; try done.
  - assert (lost_by (srv (wld s)) cmd = []) as -> by (unfold lost_by; by rewrite Ht). by apply (turn_add mem a).
  - by apply (turn_remove mem a).
  - assert (lost_by (srv (wld s)) cmd = []) as -> by (unfold lost_by; by rewrite Ht). by apply (turn_target mem a addr).
  - assert (lost_by (srv (wld s)) cmd = []) as -> by (unfold lost_by; by rewrite Ht). by apply turn_drop.
Qed.
End Command.

Lemma step_cmd s mem : sys_inv s → enabled (LCmd mem) s → steps (LCmd mem) s.
Proof.
  intros Hi (cmd & rest & seen & next & Hpc). unfold steps. cbn [exec worker_exec].
  pose proof (si_pc _ Hi) as Hn. rewrite Hpc in Hn. destruct Hn as [-> _]. rewrite Hpc.
  destruct (turn_any s cmd rest next Hi Hpc mem) as (w' & -> & Hd). cbn [mbind outcome_bind orb].
  eexists. split; [done|]. by apply (inv_after_cmd mem s cmd).
Qed.
End Commands.
