(* ===== verification/ServerCalls.v ===== *)
(** The calls of a program to the RTP server of [Server] that wait for the worker,
    up to the wait: each keeps the invariant of [ServerInv]. *)
From stdpp Require Import prelude list gmap strings.
From Stdlib Require Import ZArith Lia.
From S2P Require Import Prelude Py RcHeap Sync SendQueue ServerArgs Server ServerMem ServerInv.
Local Open Scope Z_scope.

Section Calls.
Context {Q : Type} `{SendQueueLaws Q}.
Abbreviation world := (world Q).

(** * Calls *)

Lemma with_world_id (s : sys Q) : with_world s (wld s) = s.
Proof. by destruct s. Qed.
Lemma set_srv_id (w : world) : set_srv w (srv w) = w.
Proof. by destruct w. Qed.

(** A call that ends at once and changes no more than the channels' contents. *)
Lemma call_returns s w :
  sys_inv s → srv w = srv (wld s) → evolves (chans (wld s)) (chans w) →
  mem_ok w (all_refs s) (heldb s) [] → sys_inv (with_world s w).
Proof. intros Hi Hs He Hm. apply worker_moves; try done; [apply (si_pc _ Hi)]. Qed.

Lemma cmd_not_in_waited l c : waited l = [] → cmd_waits c = true → c ∉ l.
Proof.
  intros E Hw Hc. assert (c ∈ waited l) as Hin by (by apply list_elem_of_filter).
  rewrite E in Hin. by apply elem_of_nil in Hin.
Qed.

(** The place of a command that is in the list only as its last. *)
Lemma snoc_place {A} (l l1 l2 : list A) c : c ∉ l → l ++ [c] = l1 ++ c :: l2 → l1 = l ∧ l2 = [].
Proof.
  intros Hc E. destruct l2 as [|x l2] using rev_ind; [by apply app_inj_tail in E as [-> _]|].
  rewrite app_comm_cons, app_assoc in E. apply app_inj_tail in E as [E _].
  destruct Hc. rewrite E, elem_of_app. right. by left.
Qed.

Lemma Forall2_impl_elem {A B} (P R : A → B → Prop) l k :
  Forall2 P l k → (∀ x y, y ∈ k → P x y → R x y) → Forall2 R l k.
Proof. intros Hf Himp. induction Hf; constructor; [apply Himp; [by left|done]|]. apply IHHf. intros. apply Himp; [by right|done]. Qed.

(** A call sends a command and waits. *)
Lemma call_waits s w p hl acc :
  sys_inv s → pend s = None → accepting_commands (srv (wld s)) = true →
  srv w = set_cmd (srv (wld s)) true acc {| wt_done := false; wt_status := 0 |}
            (cmds (srv (wld s)) ++ [cmd_of p]) →
  (acc = true → ¬ drops (cmd_of p)) →
  mem_ok w (hl ++ frame_refs (Some p) ++ live (srv (wld s)) ++ adds (under_way s ++ [cmd_of p]) ++ leaked s)
    (heldb s) [] →
  (∀ f a, a ∈ live (srv (wld s)) → polls (chans (wld s)) f a → polls (chans w) f a) →
  (∀ a c', chans w !! a = Some c' → closed (val c') = false →
     p = PCreate a ∨ ∃ c, chans (wld s) !! a = Some c ∧ closed (val c) = false) →
  match p with
  | PCreate a => (a ∉ hl) ∧ (a ∉ live (srv (wld s)))
  | PClose a => a ∈ live (srv (wld s)) ∧ Forall (λ c, ¬ removes a c) (under_way s)
  | _ => True
  end →
  sys_inv (with_pend s w (Some p) hl).
Proof.
  intros Hi Hp Hacc Hs Hdr Hm Hpoll Hopen Hspec.
  assert (under_way (with_pend s w (Some p) hl) = under_way s ++ [cmd_of p]) as Hl.
  { unfold under_way. cbn [with_pend wld pc]. rewrite Hs. cbn [cmds set_cmd]. by rewrite app_assoc. }
  assert (live (srv w) = live (srv (wld s))) as El by by rewrite Hs.
  assert (waited (under_way s) = []) as Hw by (rewrite (si_waits _ Hi); by rewrite Hp).
  pose proof (cmd_not_in_waited _ (cmd_of p) Hw eq_refl) as Hnot.
  constructor; cbn [with_pend wld pc pend held heldb leaked]; rewrite ?Hl, ?El.
  - unfold all_refs. rewrite Hl. cbn [with_pend wld pend held leaked]. rewrite El.
    assert (floating (Some p) (srv w) = []) as -> by (rewrite Hs; by destruct p). exact Hm.
  - rewrite Hs. apply (si_life _ Hi).
  - rewrite Hs. destruct (si_table _ Hi). by constructor.
  - rewrite Hs. cbn. intros Hd. destruct (si_poll _ Hi Hd) as [H1 H2]. split; [done|].
    eapply Forall2_impl_elem; [exact H2|]. intros f a Ha Hf. by apply Hpoll.
  - rewrite Hs. pose proof (si_pc _ Hi) as Hpc. by destruct (pc s).
  - by rewrite Hs.
  - unfold waited in *. rewrite filter_app, Hw. unfold awaited. by rewrite Hs.
  - apply Forall_app. split; [apply (si_cmds _ Hi)|]. apply Forall_singleton. by destruct p.
  - rewrite Hs. cbn. intros Ha. apply Forall_app. split; [by apply (si_drop _ Hi)|]. apply Forall_singleton. by apply Hdr.
  - rewrite Hs. cbn [accepting_commands set_cmd]. intros Ha a c' Hc' Hcl Hn1 Hn2.
    destruct (Hopen a c' Hc' Hcl) as [->|(c & Hc & Hcl')]; [done|].
    destruct (si_open _ Hi Hacc a c Hc Hcl') as [Hin Hrm]; [by rewrite Hp..|]. split; [done|].
    apply Forall_app. split; [done|]. apply Forall_singleton. intros Hr. unfold removes in Hr.
    destruct p; cbn in Hr; try done. injection Hr as ->. done.
  - unfold pend_ok. cbn [with_pend wld pend held]. rewrite Hl, El, Hs. cbn [cmd_waiter set_cmd wt_done].
    destruct p as [a|a| |]; try done.
    + destruct Hspec as [H1 H2]. split; [done|]. split; [done|]. intros l1 l2 E.
      apply snoc_place in E as [_ ->]; [constructor|done].
    + destruct Hspec as [H1 H2]. split; [done|]. intros l1 l2 E.
      apply snoc_place in E as [-> _]; [|done]. apply Forall_and. split; [done|by apply (si_drop _ Hi)].
Qed.

Lemma snoc_other {A} (l l1 l2 : list A) c d : c ≠ d → l ++ [d] = l1 ++ c :: l2 →
  ∃ l2', l2 = l2' ++ [d] ∧ l = l1 ++ c :: l2'.
Proof.
  intros Hne E. destruct l2 as [|x l2 _] using rev_ind; [by apply app_inj_tail in E as [_ ?]|].
  rewrite app_comm_cons, app_assoc in E. apply app_inj_tail in E as [E ->]. by exists l2.
Qed.

(** A callback closes a channel: a removal nobody waits for. *)
Lemma callback_closes s w a :
  sys_inv s → a ∈ held s →
  srv w = set_cmd (srv (wld s)) (cmd_waiter_busy (srv (wld s))) (accepting_commands (srv (wld s)))
            (cmd_waiter (srv (wld s)))
            (cmds (srv (wld s)) ++ [{| cmd_type := CMD_REMOVE_CHANNEL a; cmd_waits := false |}]) →
  mem_ok w (all_refs s) (heldb s) [] → evolves (chans (wld s)) (chans w) →
  (∀ c, chans w !! a = Some c → closed (val c) = true) →
  sys_inv (with_world s w).
Proof.
  intros Hi Ha Hs Hm He Hcl. set (cmd := {| cmd_type := _; cmd_waits := false |}) in Hs.
  assert (under_way (with_world s w) = under_way s ++ [cmd]) as Hl.
  { unfold under_way. cbn [with_world with_pc wld pc]. rewrite Hs. cbn [cmds set_cmd]. by rewrite app_assoc. }
  assert (live (srv w) = live (srv (wld s))) as El by by rewrite Hs.
  assert (adds (under_way s ++ [cmd]) = adds (under_way s)) as Ead.
  { unfold adds. rewrite omap_app. cbn. by rewrite app_nil_r. }
  constructor; cbn [with_world with_pc wld pc pend held heldb leaked]; rewrite ?Hl, ?El.
  - unfold all_refs. rewrite Hl. cbn [with_world with_pc wld pend held leaked]. rewrite El, Ead, Hs. exact Hm.
  - rewrite Hs. apply (si_life _ Hi).
  - rewrite Hs. destruct (si_table _ Hi). by constructor.
  - rewrite Hs. cbn. apply (poll_kept s w Hi He). intros b Hb.
    apply (heap_ok_elem _ _ _ (mo_chans _ _ _ _ Hm)). by apply live_held.
  - rewrite Hs. pose proof (si_pc _ Hi) as Hpc. by destruct (pc s).
  - rewrite Hs. apply (si_busy _ Hi).
  - unfold waited. rewrite filter_app. cbn. rewrite app_nil_r. rewrite Hs. apply (si_waits _ Hi).
  - apply Forall_app. split; [apply (si_cmds _ Hi)|]. apply Forall_singleton. split; [done|]. split; [done|].
    intros _. by exists a.
  - rewrite Hs. cbn. intros Hacc. apply Forall_app. split; [by apply (si_drop _ Hi)|]. by apply Forall_singleton.
  - rewrite Hs. cbn [accepting_commands set_cmd]. intros Hacc b c' Hc' Hcb Hn1 Hn2.
    destruct (He b c' Hc') as (c & Hc & _ & Hcb').
    destruct (si_open _ Hi Hacc b c Hc (Hcb' Hcb) Hn1 Hn2) as [Hin Hrm]. split; [done|].
    apply Forall_app. split; [done|]. apply Forall_singleton. intros Hr. unfold removes in Hr. cbn in Hr.
    injection Hr as ->. by rewrite (Hcl c' Hc') in Hcb.
  - pose proof (si_pend _ Hi) as Hp. unfold pend_ok in *. cbn [with_world with_pc wld pend held].
    rewrite Hl, El, Hs. cbn [cmd_waiter set_cmd accepting_commands].
    destruct (pend s) as [[b|b| |]|] eqn:Ep; try done.
    + destruct Hp as [Hh Hp]. split; [done|]. assert (b ≠ a) as Hne by (by intros ->).
      assert (¬ removes b cmd) as Hnr by (intros Hr; unfold removes in Hr; cbn in Hr; congruence).
      destruct (wt_done _).
      * intros Hst Hacc. destruct (Hp Hst Hacc) as [Hin Hrm]. split; [done|].
        apply Forall_app. split; [done|]. by apply Forall_singleton.
      * destruct Hp as [Hin Hrm]. split; [done|]. intros l1 l2 E.
        apply snoc_other in E as (k & -> & E); [|done]. apply Forall_app. split; [by apply (Hrm l1)|].
        by apply Forall_singleton.
    + destruct (wt_done _); [done|]. destruct Hp as [Hin Hpre]. split; [done|]. intros l1 l2 E.
      apply snoc_other in E as (k & -> & E); [|done]. by apply (Hpre l1 k).
Qed.

(** The waiting call comes back. *)
Lemma call_comes_back s w p hl :
  sys_inv s → pend s = Some p → wt_done (cmd_waiter (srv (wld s))) = true →
  srv w = set_cmd (srv (wld s)) false (accepting_commands (srv (wld s))) (cmd_waiter (srv (wld s)))
            (cmds (srv (wld s))) →
  evolves (chans (wld s)) (chans w) →
  mem_ok w (hl ++ live (srv (wld s)) ++ adds (under_way s) ++ leaked s) (heldb s) [] →
  (∀ a, p = PCreate a ∨ p = PClose a → ∀ c, chans w !! a = Some c → closed (val c) = false →
     accepting_commands (srv (wld s)) = true →
     a ∈ live (srv (wld s)) ∧ Forall (λ c, ¬ removes a c) (under_way s)) →
  sys_inv (with_pend s w None hl).
Proof.
  intros Hi Hp Hd Hs He Hm Hopen.
  assert (under_way (with_pend s w None hl) = under_way s) as Hl by (unfold under_way; cbn; by rewrite Hs).
  assert (live (srv w) = live (srv (wld s))) as El by by rewrite Hs.
  constructor; cbn [with_pend wld pc pend held heldb leaked]; rewrite ?Hl, ?El.
  - unfold all_refs. rewrite Hl. cbn [with_pend wld pend held leaked frame_refs floating app]. by rewrite El.
  - rewrite Hs. apply (si_life _ Hi).
  - rewrite Hs. destruct (si_table _ Hi). by constructor.
  - rewrite Hs. cbn. apply (poll_kept s w Hi He). intros b Hb.
    apply (heap_ok_elem _ _ _ (mo_chans _ _ _ _ Hm)). rewrite !elem_of_app. auto.
  - rewrite Hs. pose proof (si_pc _ Hi) as Hpc. by destruct (pc s).
  - by rewrite Hs.
  - rewrite (si_waits _ Hi), Hp. unfold awaited. by rewrite Hd.
  - apply (si_cmds _ Hi).
  - rewrite Hs. apply (si_drop _ Hi).
  - rewrite Hs. cbn [accepting_commands set_cmd]. intros Hacc a c' Hc' Hcl _ _.
    destruct (He a c' Hc') as (c & Hc & _ & Hcl').
    destruct (decide (p = PCreate a ∨ p = PClose a)) as [Hor|Hor]; [by apply (Hopen a Hor c')|].
    apply (si_open _ Hi Hacc a c Hc (Hcl' Hcl)); rewrite Hp; intros [= ->]; apply Hor; auto.
  - done.
Qed.

(** ** Steps of the program *)

Lemma held_ref (s : sys Q) a : a ∈ held s → a ∈ all_refs s.
Proof. intros Ha. unfold all_refs. apply elem_of_app. by left. Qed.

Lemma ref_alive s a : sys_inv s → a ∈ all_refs s → ∃ c, chans (wld s) !! a = Some c.
Proof. intros Hi Ha. by apply (heap_ok_elem _ _ _ (mo_chans _ _ _ _ (si_mem _ Hi))). Qed.

Lemma acquire_free s : sys_inv s → pend s = None →
  server_waiter_acquire (srv (wld s)) =
    (Ret (), set_cmd (srv (wld s)) true (accepting_commands (srv (wld s)))
               {| wt_done := false; wt_status := 0 |} (cmds (srv (wld s)))).
Proof.
  intros Hi Hp. unfold server_waiter_acquire. pose proof (si_busy _ Hi) as Hb. rewrite Hp in Hb.
  destruct (si_life _ Hi) as (_ & -> & _). by rewrite Hb.
Qed.

Lemma acquire_busy s p : sys_inv s → pend s = Some p →
  server_waiter_acquire (srv (wld s)) = (Raise RuntimeError, srv (wld s)).
Proof.
  intros Hi Hp. unfold server_waiter_acquire. pose proof (si_busy _ Hi) as Hb. rewrite Hp in Hb.
  destruct (si_life _ Hi) as (_ & -> & _). by rewrite Hb.
Qed.

Lemma enqueue_accepted (sv : PyRtpServer) cmd : server_inited sv = true → accepting_commands sv = true →
  enqueue_command sv cmd = (None, set_cmd sv (cmd_waiter_busy sv) true (cmd_waiter sv) (cmds sv ++ [cmd])).
Proof. intros Hn Ha. unfold enqueue_command. by rewrite Hn, Ha. Qed.

Lemma polls_evolved (h h' : gmap Z (cell (PyRtpChannel Q))) f a :
  evolves h h' → is_Some (h' !! a) → polls h f a → polls h' f a.
Proof.
  intros He [c' Hc'] (c & Hc & Hf). exists c'. split; [done|].
  destruct (He a c' Hc') as (c0 & Hc0 & E & _). congruence.
Qed.

Lemma remove_refs (s : sys Q) a (l : list Z) : a ∈ held s → held s ++ l ≡ₚ remove_one a (held s) ++ a :: l.
Proof. intros Ha. rewrite (remove_one_perm a (held s)) at 1 by done. perm_count. Qed.

(** The call's command holds no channel reference. *)
Lemma sent_refs (s : sys Q) p : pend s = None → adds [cmd_of p] = [] →
  all_refs s = held s ++ live (srv (wld s)) ++ adds (under_way s ++ [cmd_of p]) ++ leaked s.
Proof.
  intros Hp Ha. unfold all_refs, adds in *. rewrite Hp, omap_app. fold (adds (under_way s)). rewrite Ha.
  cbn [frame_refs floating app]. by rewrite app_nil_r.
Qed.

Lemma step_close s ow a mem : sys_inv s → enabled (LClose ow a mem) s → steps (LClose ow a mem) s.
Proof.
  intros Hi [Ha _]. unfold steps. cbn [exec python_exec].
  destruct (ref_alive s a Hi (held_ref s a Ha)) as [c Hc]. destruct (si_life _ Hi) as (Hrun & Hin & _).
  unfold rtp_channel_close_begin. rewrite (py_read_some _ _ _ Hc). cbn [mbind outcome_bind].
  destruct (closed (val c)) eqn:Ecl; cbn [mbind outcome_bind].
  { eexists. split; [done|]. by rewrite with_world_id. }
  rewrite bind_assert_true by done. destruct (accepting_commands (srv (wld s))) eqn:Eacc; cbn [negb].
  2: { destruct (upd_chan_ok (wld s) a c set_closed _ _ _ (si_mem _ Hi) Hc) as (w1 & -> & Hm1 & He1 & ->); [done..|].
    cbn [mbind outcome_bind]. eexists. split; [done|]. by apply call_returns. }
  destruct mem; cbn [negb mbind outcome_bind]; [|eexists; split; [done|]; by rewrite with_world_id].
  destruct ow; cbn [negb].
  - rewrite enqueue_accepted by done.
    destruct (upd_chan_ok (set_srv (wld s) (set_cmd (srv (wld s)) (cmd_waiter_busy (srv (wld s))) true
      (cmd_waiter (srv (wld s))) (cmds (srv (wld s)) ++ [{| cmd_type := CMD_REMOVE_CHANNEL a; cmd_waits := false |}])))
      a c set_closed _ _ _ (mem_ok_srv _ _ _ _ _ (si_mem _ Hi)) Hc) as (w1 & E & Hm1 & He1 & Hw1); [done..|].
    rewrite E. cbn [mbind outcome_bind]. eexists. split; [done|].
    apply (callback_closes s w1 a); try done.
    + by rewrite Hw1, Eacc.
    + rewrite Hw1. cbn. rewrite lookup_insert_eq. by intros c' [= <-].
  - destruct (pend s) as [p|] eqn:Ep.
    { rewrite (acquire_busy s p) by done. cbn [mbind outcome_bind]. eexists. split; [done|].
      by rewrite set_srv_id, with_world_id. }
    rewrite (acquire_free s) by done. rewrite Eacc, enqueue_accepted by done. cbn [mbind outcome_bind].
    eexists. split; [done|].
    destruct (si_open _ Hi Eacc a c Hc Ecl) as [Hlive Hrm]; [by rewrite Ep..|].
    apply (call_waits s _ (PClose a) _ true); try done.
    + apply mem_ok_srv. eapply mem_ok_perm; [|done..|exact (si_mem _ Hi)].
      rewrite (sent_refs s (PClose a) Ep eq_refl). symmetry. apply (remove_refs s a _ Ha).
    + intros b c' Hc' Hcl. right. by exists c'.
Qed.

Lemma step_set_target s a gai host port mem :
  sys_inv s → enabled (LSetTarget a gai host port mem) s → steps (LSetTarget a gai host port mem) s.
Proof.
  intros Hi Ha. cbn in Ha. unfold steps. cbn [exec python_exec].
  destruct (ref_alive s a Hi (held_ref s a Ha)) as [c Hc]. destruct (si_life _ Hi) as (Hrun & Hin & _).
  unfold PyRtpChannel_set_target_begin. rewrite (py_read_some _ _ _ Hc). cbn [mbind outcome_bind].
  destruct (closed (val c)) eqn:Ecl; cbn [mbind outcome_bind].
  { eexists. split; [done|]. by rewrite with_world_id. }
  destruct (accepting_commands (srv (wld s))) eqn:Eacc; cbn [negb mbind outcome_bind].
  2: { eexists. split; [done|]. by rewrite with_world_id. }
  destruct (resolve_udp_addr _ _ _ _ _) as [[target fam]|e]; cbn [mbind outcome_bind].
  2: { eexists. split; [done|]. by rewrite with_world_id. }
  destruct mem; cbn [negb mbind outcome_bind]; [|eexists; split; [done|]; by rewrite with_world_id].
  destruct (pend s) as [p|] eqn:Ep.
  { rewrite (acquire_busy s p) by done. cbn [mbind outcome_bind]. eexists. split; [done|].
    by rewrite set_srv_id, with_world_id. }
  rewrite (acquire_free s) by done. rewrite Eacc, enqueue_accepted by done. cbn [mbind outcome_bind].
  eexists. split; [done|]. unfold target_of. cbn [srv set_srv cmds set_cmd]. rewrite last_snoc.
  apply (call_waits s _ (PSetTarget a target) _ true); try done.
  - apply mem_ok_srv. eapply mem_ok_perm; [|done..|exact (si_mem _ Hi)].
    rewrite (sent_refs s (PSetTarget a target) Ep eq_refl). symmetry. apply (remove_refs s a _ Ha).
  - intros b c' Hc' Hcl. right. by exists c'.
Qed.

Lemma step_shutdown s mem : sys_inv s → enabled (LShutdown mem) s → steps (LShutdown mem) s.
Proof.
  intros Hi Hacc. cbn in Hacc. unfold steps. cbn [exec python_exec].
  destruct (si_life _ Hi) as (Hrun & _). unfold PyRtpServer_shutdown_begin. rewrite Hrun, Hacc.
  cbn [d_assert mbind outcome_bind].
  destruct mem; cbn [negb mbind outcome_bind]; [|eexists; split; [done|]; by rewrite with_world_id].
  destruct (pend s) as [p|] eqn:Ep.
  { rewrite (acquire_busy s p) by done. cbn [mbind outcome_bind]. eexists. split; [done|].
    by rewrite set_srv_id, with_world_id. }
  rewrite (acquire_free s) by done. cbn [mbind outcome_bind]. eexists. split; [done|].
  apply (call_waits s _ PShutdown _ false); try done.
  - apply mem_ok_srv. eapply mem_ok_perm; [|done..|exact (si_mem _ Hi)].
    by rewrite (sent_refs s PShutdown Ep eq_refl).
  - intros b c' Hc' Hcl. right. by exists c'.
Qed.

End Calls.
