(* ===== verification/ServerCreate.v ===== *)
(** [create_channel] of [Server] up to its wait: a call that fails undoes what it
    did, one that goes on has made a channel and sent the command. *)
From stdpp Require Import prelude list gmap strings.
From Stdlib Require Import ZArith Lia.
From S2P Require Import Prelude Py RcHeap Sync SendQueue ServerArgs Server ServerMem ServerInv ServerCalls.
Local Open Scope Z_scope.

Section Create.
Context {Q : Type} `{SendQueueLaws Q}.
Abbreviation world := (world Q).

Lemma mem_ok_ext (w w' : world) refs brefs loose :
  chans w' = chans w → items w' = items w → objs w' = objs w →
  mem_ok w refs brefs loose → mem_ok w' refs brefs loose.
Proof.
  intros Ec Ei Eo [Hh He [Ho Hi Hs]]. constructor; [by rewrite Ec|by rewrite Ec|].
  constructor; [unfold item_refs; by rewrite Eo, Ei|unfold allocated, queued; by rewrite Ei, Ec|by rewrite Ei, Eo].
Qed.

Lemma create_fail_ok (w : world) a refs brefs loose :
  mem_ok w (a :: refs) brefs loose → worker_running (srv w) = true →
  ∃ w', create_fail w a = Done w' ∧ mem_ok w' refs brefs loose ∧ srv w' = srv w ∧
    evolves (chans w) (chans w') ∧ (∀ c, chans w' !! a = Some c → closed (val c) = true).
Proof.
  intros Hm Hr. assert (is_Some (chans w !! a)) as [c Hc].
  { apply (heap_ok_elem _ _ _ (mo_chans _ _ _ _ Hm)). by left. }
  unfold create_fail. destruct (upd_chan_ok w a c set_closed _ _ _ Hm Hc) as (w1 & -> & Hm1 & He1 & ->); [done..|].
  cbn [mbind outcome_bind]. set (w1 := set_chans w _) in *.
  assert (chans w1 !! a = Some {| rc := rc c; val := set_closed (val c) |}) as Hc1 by apply lookup_insert_eq.
  destruct (chan_decref_ok false w1 a refs brefs loose Hm1 Hr) as (w' & -> & Hm' & Hs' & He').
  { intros c1 E. rewrite Hc1 in E. injection E as <-. done. }
  exists w'. split; [done|]. split; [done|]. split; [done|]. split; [by etrans|].
  intros c' Hc'. destruct (He' a c' Hc') as (c1 & Hc1' & _ & Hcl). rewrite Hc1 in Hc1'. injection Hc1' as <-.
  destruct (closed (val c')); [done|]. by specialize (Hcl eq_refl).
Qed.

Lemma free_send_queue_nil n (w : world) q : sq_ok q → sq_list q = [] → free_send_queue n w q = Done w.
Proof.
  intros Hq Hl. destruct (sq_pop_spec _ Hq) as (o & q' & E & _ & _ & _ & Ho). rewrite Hl in Ho.
  destruct o as [p|]; [done|]. destruct n; cbn [free_send_queue]; by rewrite E.
Qed.

Lemma create_fail_fresh (w : world) a ch :
  chans w !! a = Some {| rc := 1; val := ch |} → sq_ok (out_q (state ch)) →
  sq_list (out_q (state ch)) = [] → 0 ≤ fd (state ch) →
  create_fail w a = Done (set_chans (log w (CloseFd (fd (state ch)))) (delete a (chans w))).
Proof.
  intros Hc Hq Hl Hf. unfold create_fail, upd_chan. rewrite Hc. cbn [mbind outcome_bind].
  unfold chan_decref. cbn [chans set_chans]. rewrite lookup_insert_eq. cbn [rc val Z.eqb Pos.eqb].
  unfold PyRtpChannel_dealloc, py_read. cbn [chans set_chans mbind outcome_bind val closed set_closed].
  rewrite lookup_insert_eq. cbn [mbind outcome_bind val closed set_closed chans set_chans].
  rewrite lookup_insert_eq. cbn [mbind outcome_bind val].
  unfold rtp_channel_cleanup, destroy_send_queue. cbn [state set_closed]. rewrite bind_assert_true by (by apply Z.leb_le).
  rewrite free_send_queue_nil by done. unfold set_chans. cbn. by rewrite delete_insert_eq.
Qed.

(** A world after a call that failed: the log may have grown, and a waiter nobody
    uses may have been reset. *)
Record untouched (w w' : world) : Prop := {
  un_chans : chans w' = chans w;
  un_items : items w' = items w;
  un_objs : objs w' = objs w;
  un_srv : ∃ wt, srv w' = set_cmd (srv w) (cmd_waiter_busy (srv w)) (accepting_commands (srv w)) wt (cmds (srv w)) ∧
    (cmd_waiter_busy (srv w) = true → wt = cmd_waiter (srv w));
}.

Lemma srv_same (sv : PyRtpServer) :
  ∃ wt, sv = set_cmd sv (cmd_waiter_busy sv) (accepting_commands sv) wt (cmds sv) ∧
    (cmd_waiter_busy sv = true → wt = cmd_waiter sv).
Proof. exists (cmd_waiter sv). by destruct sv. Qed.

Lemma untouched_inv s w : sys_inv s → untouched (wld s) w → sys_inv (with_world s w).
Proof.
  intros Hi [Ec Ei Eo (wt & Es & Hwt)].
  pose proof (mem_ok_ext (wld s) w _ _ _ Ec Ei Eo (si_mem _ Hi)) as Hm.
  pose proof (si_busy _ Hi) as Hb. destruct (pend s) as [p|] eqn:Ep; cbn in Hb.
  - rewrite Hwt in Es by done. apply call_returns; [done| |by rewrite Ec|done]. rewrite Es. by destruct (srv (wld s)).
  - rewrite Hb in Es. constructor; cbn [with_world with_pc wld pc]; rewrite ?Es, ?Ec; try apply Hi.
    + unfold all_refs, under_way in *. cbn [with_world with_pc wld pend pc held leaked].
      rewrite Es, Ep in *. exact Hm.
    + destruct (si_table _ Hi). by constructor.
    + cbn [pend with_world with_pc]. by rewrite Ep.
    + pose proof (si_waits _ Hi) as Hw. unfold under_way in *. cbn [with_world with_pc wld pc pend] in *.
      rewrite Es, Ep in *. exact Hw.
    + unfold under_way. cbn [with_world with_pc wld pc]. rewrite Es. apply (si_cmds _ Hi).
    + unfold under_way. cbn [with_world with_pc wld pc]. rewrite Es. apply (si_drop _ Hi).
    + unfold under_way. cbn [with_world with_pc wld pc]. rewrite Es. apply (si_open _ Hi).
    + unfold pend_ok. cbn [pend with_world with_pc]. by rewrite Ep.
Qed.

(** Whether a call gets as far as a socket. *)
Definition socket_opened (args : create_args) (env : create_env) : bool :=
  ca_callable args && negb (ca_queue_size args =? 0) &&
  (Z.land (ca_queue_size args) (u64 (ca_queue_size args - 1)) =? 0) && (ca_queue_size args <=? U64_MAX) &&
  match parse_bind_family (ca_family args) with
  | Raise _ => false
  | Ret hint =>
      match resolve_udp_addr (ce_getaddrinfo env)
              (Some (effective_bind_host (ca_host args) hint)) (ca_port args) true hint with
      | Raise _ => false
      | Ret _ => 0 <=? ce_socket env
      end
  end.

Lemma socket_opened_fd args env : socket_opened args env = true → 0 ≤ ce_socket env.
Proof.
  unfold socket_opened. repeat case_match; rewrite ?andb_false_r; try done.
  rewrite !andb_true_iff. intros [_ E]. by apply Z.leb_le in E.
Qed.

(** ** A call step by step *)

(** What [create_channel] has made when it waits: the channel, which the program
    and the command hold. *)
Definition create_waiting (w : world) (a : Z) (ch : PyRtpChannel Q) : world :=
  set_srv (set_chans w (<[a := {| rc := 2; val := ch |}]> (chans w)))
    (set_cmd (srv w) true true {| wt_done := false; wt_status := 0 |} (cmds (srv w) ++ [cmd_of (PCreate a)])).

Record fresh_channel (fd : Z) (ch : PyRtpChannel Q) : Prop := {
  fc_open : closed ch = false;
  fc_fd : Server.fd (state ch) = fd;
  fc_queue : sq_ok (out_q (state ch)) ∧ sq_list (out_q (state ch)) = [];
}.

(** How a call that ends at once, or goes on, leaves the world. *)
Definition create_clean (w : world) (env : create_env) (opened : bool) (r : begun (pyres Z)) (w' : world) : Prop :=
  match r with
  | Ended (Ret _) => False
  | Ended (Raise _) => untouched w w' ∧
      w_log w' = w_log w ++ (if opened then [CloseFd (ce_socket env)] else [])
  | Waiting => opened = true ∧ cmd_waiter_busy (srv w) = false ∧ accepting_commands (srv w) = true ∧
      ∃ a ch, ce_object env = Some a ∧ fresh_channel (ce_socket env) ch ∧ w' = create_waiting w a ch
  end.

Lemma ended_clean (w : world) env e : ∃ r w', Done (Ended (@Raise Z e), w) = Done (r, w') ∧ create_clean w env false r w'.
Proof.
  eexists _, _. split; [done|]. split; [constructor; try done; apply srv_same|by rewrite app_nil_r].
Qed.

Lemma closed_clean (w : world) env e sv : untouched w (set_srv w sv) →
  ∃ r w', Done (Ended (@Raise Z e), log (set_srv w sv) (CloseFd (ce_socket env))) = Done (r, w') ∧
    create_clean w env true r w'.
Proof. intros []. eexists _, _. split; [done|]. by split. Qed.

Lemma untouched_refl (w : world) : untouched w (set_srv w (srv w)).
Proof. constructor; try done. apply srv_same. Qed.

Lemma closed_at_once (w : world) env e :
  ∃ r w', Done (Ended (@Raise Z e), log w (CloseFd (ce_socket env))) = Done (r, w') ∧ create_clean w env true r w'.
Proof. pose proof (closed_clean w env e (srv w) (untouched_refl w)) as Hc. by rewrite set_srv_id in Hc. Qed.

(** [fail_channel_cmd] and the labels before it, after a channel was made. *)
Lemma create_undone (w : world) a ch n sv :
  chans w !! a = None → 0 ≤ fd (state ch) → fresh_channel (fd (state ch)) ch →
  create_fail (set_srv (set_chans w (<[a := {| rc := 1; val := ch |}]> (chans w))) sv) a =
    Done (log (set_srv w sv) (CloseFd (fd (state ch)))) ∧
  (n = 2 → free_command false (set_srv (set_chans w (<[a := {| rc := n; val := ch |}]> (chans w))) sv)
             (CMD_ADD_CHANNEL (Some a)) =
           Done (set_srv (set_chans w (<[a := {| rc := 1; val := ch |}]> (chans w))) sv)).
Proof.
  intros Ha Hfd [_ _ [Hq Hl]]. split.
  - rewrite (create_fail_fresh _ a ch); [|apply lookup_insert_eq|done..].
    unfold set_chans, log. cbn. by rewrite delete_insert_id.
  - intros ->. cbn [free_command]. unfold chan_decref. cbn [chans set_srv set_chans].
    rewrite lookup_insert_eq. cbn. unfold set_chans. cbn. by rewrite insert_insert_eq.
Qed.

Lemma create_object_ok s a cb local q env :
  sys_inv s → chans (wld s) !! a = None → 0 ≤ ce_socket env → sq_ok q → sq_list q = [] → ce_object env = Some a →
  ∃ r w', create_channel_object (wld s) a (ce_socket env) cb local q (ce_cmd env) = Done (r, w') ∧
    create_clean (wld s) env true r w'.
Proof.
  intros Hi Ha Hfd Hq Hl Eo. destruct (si_life _ Hi) as (Hrun & Hin & _).
  unfold create_channel_object.
  set (ch := {| closed := false; has_target := false; state := _; local_addr := local |}).
  assert (fresh_channel (ce_socket env) ch) as Hch by by constructor.
  pose proof (λ sv, proj1 (create_undone (wld s) a ch 2 sv Ha Hfd Hch)) as Hfail.
  pose proof (λ sv, proj2 (create_undone (wld s) a ch 2 sv Ha Hfd Hch) eq_refl) as Hfree.
  destruct (ce_cmd env); cbn [negb].
  2: { pose proof (Hfail (srv (wld s))) as E. unfold set_srv in E. cbn in E.
       unfold set_chans. cbn. rewrite E. apply closed_clean, untouched_refl. }
  unfold py_incref. cbn [chans set_chans]. rewrite lookup_insert_eq. cbn [mbind outcome_bind rc val].
  rewrite insert_insert_eq. change (1 + 1) with 2.
  change (set_chans (set_chans ?w _) ?h) with (set_chans w h).
  cbn [srv set_chans]. pose proof (si_busy _ Hi) as Hb. destruct (pend s) as [p|] eqn:Ep.
  { rewrite (acquire_busy s p) by done. cbn [cmd_type]. rewrite Hfree. cbn [mbind outcome_bind].
    rewrite Hfail. apply closed_clean, untouched_refl. }
  rewrite (acquire_free s) by done. destruct (accepting_commands (srv (wld s))) eqn:Eacc.
  - rewrite enqueue_accepted by done. exists Waiting. eexists. split; [done|].
    split; [done|]. split; [by rewrite Hb|]. split; [done|]. by exists a, ch.
  - unfold enqueue_command. cbn [server_inited accepting_commands set_cmd]. rewrite Hin. cbn [negb].
    unfold server_waiter_release. cbn [server_inited accepting_commands cmd_waiter cmds set_cmd].
    rewrite Hin. cbn [d_assert mbind outcome_bind cmd_type]. rewrite Hfree. cbn [mbind outcome_bind].
    rewrite Hfail. apply closed_clean. constructor; try done.
    exists {| wt_done := false; wt_status := 0 |}. cbn. by rewrite Eacc, Hb.
Qed.

(** From the socket on. *)
Lemma create_socket_ok s args env :
  sys_inv s → enabled (LCreate args env) s → 0 ≤ ce_socket env →
  ∃ r w',
    (let '(sock, shut) := build_udp_socket (ce_socket env) (ce_nonblock env) (ce_bind env) (ce_sockname env) in
     let w := foldl log (wld s) (CloseFd <$> shut) in
     match sock with
     | None => Done (Ended (Raise OSError), w)
     | Some (fd, local) =>
         match sq_create (ca_queue_size args) with
         | None => Done (Ended (Raise MemoryError), log w (CloseFd fd))
         | Some q =>
             match ce_object env with
             | None => Done (Ended (Raise MemoryError), log w (CloseFd fd))
             | Some a => create_channel_object w a fd (ca_pkt_in args) local q (ce_cmd env)
             end
         end
     end) = Done (r, w') ∧ create_clean (wld s) env true r w'.
Proof.
  intros Hi [Hsz Hnew] Hfd. unfold build_udp_socket. rewrite (proj2 (Z.ltb_ge _ _)) by done.
  destruct (ce_nonblock env =? 0); cbn [negb]; [|by apply closed_at_once].
  destruct (ce_bind env =? 0); cbn [negb]; [|by apply closed_at_once].
  destruct (ce_sockname env) as [local|]; [|by apply closed_at_once]. cbn [fmap list_fmap foldl].
  destruct (sq_create _) as [q|] eqn:Eq; [|by apply closed_at_once].
  destruct (ce_object env) as [a|] eqn:Ea; [|by apply closed_at_once].
  destruct (sq_create_spec (ca_queue_size args) q) as (Hq & _ & Hl & _);
    [unfold SEND_MAX; unfold U64_MAX in *; lia|done|].
  apply create_object_ok; try done. by apply Hnew.
Qed.

Lemma create_begin_clean s args env :
  sys_inv s → enabled (LCreate args env) s →
  ∃ r w', PyRtpServer_create_channel_begin (wld s) args env = Done (r, w') ∧
    create_clean (wld s) env (socket_opened args env) r w'.
Proof.
  intros Hi He. pose proof He as [Hsz _]. unfold PyRtpServer_create_channel_begin, socket_opened.
  rewrite (proj2 (Z.ltb_ge _ _)), (proj2 (Z.leb_le (ca_queue_size args) _)) by lia.
  destruct (ca_callable args); cbn [negb andb]; [|apply ended_clean].
  destruct (ca_queue_size args =? 0); cbn [negb andb]; [apply ended_clean|].
  destruct (Z.land _ _ =? 0); cbn [negb andb]; [|apply ended_clean].
  destruct (parse_bind_family _) as [hint|e]; [|apply ended_clean].
  destruct (resolve_udp_addr _ _ _ _ _) as [r|e]; [|apply ended_clean].
  destruct (0 <=? ce_socket env) eqn:Efd; zbool.
  - by apply create_socket_ok.
  - unfold build_udp_socket. rewrite (proj2 (Z.ltb_lt _ _)) by done. apply ended_clean.
Qed.
(** A call that waits. *)
Lemma create_waits s a ch fd :
  sys_inv s → pend s = None → accepting_commands (srv (wld s)) = true → chans (wld s) !! a = None → 0 ≤ fd →
  fresh_channel fd ch → sys_inv (with_pend s (create_waiting (wld s) a ch) (Some (PCreate a)) (held s)).
Proof.
  intros Hi Ep Eacc Ha Hfd [_ Hf [Hq Hl]].
  assert (a ∉ all_refs s) as Hnew.
  { pose proof (mo_chans _ _ _ _ (si_mem _ Hi) a) as Hn. by rewrite Ha in Hn. }
  pose proof (new_chan_ok (wld s) a ch _ _ _ (si_mem _ Hi) Ha Hq Hl ltac:(lia)) as Hm.
  destruct (chan_incref_ok _ a _ _ _ Hm) as (h & E & Hm2 & _); [by left|].
  unfold py_incref in E. cbn [chans set_chans] in E. rewrite lookup_insert_eq, insert_insert_eq in E.
  injection E as <-.
  assert (∀ b, b ≠ a → chans (create_waiting (wld s) a ch) !! b = chans (wld s) !! b) as Hsame
    by (intros b Hb; by apply lookup_insert_ne).
  apply (call_waits s _ (PCreate a) _ true); try done.
  - apply mem_ok_srv. eapply mem_ok_perm; [|done..|exact Hm2]. unfold all_refs, adds.
    rewrite Ep, omap_app. fold (adds (under_way s)).
    cbn [frame_refs floating cmd_of cmd_type omap list_omap]. perm_count.
  - intros f b Hb (c & Hc & Hcf). exists c. split; [|done]. rewrite Hsame; [done|].
    intros ->. by rewrite Ha in Hc.
  - intros b c' Hc' Hcl. destruct (decide (b = a)) as [->|Hne]; [by left|right].
    rewrite Hsame in Hc' by done. by exists c'.
  - split; intros Hin'; apply Hnew; [by apply held_ref|by apply live_held].
Qed.

Lemma step_create s args env : sys_inv s → enabled (LCreate args env) s → steps (LCreate args env) s.
Proof.
  intros Hi He. unfold steps. cbn [exec python_exec].
  destruct (create_begin_clean s args env Hi He) as (r & w' & -> & Hr). cbn [mbind outcome_bind].
  eexists. split; [done|]. destruct r as [[|e]|]; [done|by apply untouched_inv, Hr|].
  destruct Hr as (Ho & Hb & Hacc & a & ch & Ea & Hch & ->). rewrite Ea. cbn [fmap option_fmap option_map].
  destruct He as [_ Hnew]. pose proof (si_busy _ Hi) as Hp. rewrite Hb in Hp.
  apply (create_waits s a ch (ce_socket env)); [done| |done|by apply Hnew|by apply socket_opened_fd in Ho|done].
  destruct (pend s); [done|]. done.
Qed.
End Create.
