(* ===== verification/ServerRun.v ===== *)
(** Runs of the RTP server of [Server]: every step keeps the invariant of
    [ServerInv], so no run touches freed memory or fails an assertion. *)
From stdpp Require Import prelude list gmap strings.
From Stdlib Require Import ZArith Lia.
From S2P Require Import Prelude Py RcHeap Sync SendQueue ServerArgs Server ServerMem ServerInv.
From S2P Require Import ServerCalls ServerCreate.
Local Open Scope Z_scope.

Section Run.
Context {Q : Type} `{SendQueueLaws Q}.
Abbreviation world := (world Q).

(** ** Sending, and the references of the program *)

Lemma step_send s a arg item : sys_inv s → enabled (LSend a arg item) s → steps (LSend a arg item) s.
Proof.
  intros Hi (Ha & Hitem & Harg & Hbud). unfold steps. cbn [exec python_exec].
  destruct (send_pkt_ok (wld s) a arg item _ _ (si_mem _ Hi)) as (r & w & c & c' & -> & Hm & Hs & He & _);
    [by apply held_ref|apply (si_life _ Hi)|done..|].
  cbn [mbind outcome_bind]. eexists. split; [done|]. by apply call_returns.
Qed.

Lemma step_take s a : sys_inv s → enabled (LTake a) s → steps (LTake a) s.
Proof.
  intros Hi Ha. cbn in Ha. unfold steps. cbn [exec python_exec].
  destruct (chan_incref_ok (wld s) a _ _ _ (si_mem _ Hi) (held_ref s a Ha)) as (h & -> & Hm & He).
  cbn [mbind outcome_bind]. eexists. split; [done|].
  apply (inv_world s (set_chans (wld s) h) (pc s) (a :: held s)); try done; [apply (si_pc _ Hi)|].
  intros b Hp Hb. apply (create_not_held s b Hi Hp).
  apply elem_of_cons in Hb as [->|]; [|done]. done.
Qed.

Lemma step_drop s a : sys_inv s → enabled (LDrop a) s → steps (LDrop a) s.
Proof.
  intros Hi Ha. cbn in Ha. unfold steps. cbn [exec python_exec].
  set (rest := frame_refs (pend s) ++ live (srv (wld s)) ++ adds (under_way s) ++
            floating (pend s) (srv (wld s)) ++ leaked s).
  pose proof (si_mem _ Hi) as Hm. unfold all_refs in Hm. cbn zeta in Hm. fold rest in Hm.
  assert (held s ++ rest ≡ₚ a :: remove_one a (held s) ++ rest) as Hr
    by (rewrite (remove_refs s a rest Ha); symmetry; apply Permutation_middle).
  rewrite Hr in Hm.
  destruct (chan_decref_ok false (wld s) a _ _ _ Hm) as (w & -> & Hm' & Hs & He); [apply (si_life _ Hi)| |].
  { intros c Hc Hcl Hacc. apply elem_of_app. right. unfold rest.
    destruct (decide (pend s = Some (PClose a))) as [->|Hne]; [by left|].
    destruct (si_open _ Hi Hacc a c Hc Hcl) as [Hl _]; [|done|].
    { intros Hp. by apply (create_not_held s a). }
    rewrite !elem_of_app. auto. }
  cbn [mbind outcome_bind]. eexists. split; [done|].
  apply (inv_world s w (pc s) (remove_one a (held s))); try done; [apply (si_pc _ Hi)|].
  intros b Hp Hb. apply (create_not_held s b Hi Hp). rewrite (remove_one_perm a) by done. by right.
Qed.
(** The program's [bytes] objects. *)
Lemma objs_moved s h hb :
  sys_inv s → items_ok (set_objs (wld s) h) hb ([] ++ queued (wld s)) →
  sys_inv (with_heldb s (set_objs (wld s) h) hb).
Proof.
  intros Hi Hit. apply (inv_world s _ (pc s) (held s) hb); try done; [apply (si_pc _ Hi)| |].
  - destruct (si_mem _ Hi) as [Hh He _]. by constructor.
  - intros b. by apply (create_not_held s).
Qed.

Lemma step_arg s arg hb' :
  sys_inv s → arg_ok (wld s) (heldb s) arg →
  ∀ r h, bytes_from_obj (objs (wld s)) arg = Done (Ret r, h) → hb' = r :: heldb s →
  sys_inv (with_heldb s (set_objs (wld s) h) hb').
Proof.
  intros Hi Ha r h E ->. pose proof (mo_items _ _ _ _ (si_mem _ Hi)) as Hit.
  destruct (bytes_from_obj_ok _ _ _ _ Hit Ha) as (r' & h' & E' & Hr).
  rewrite E in E'. injection E' as <- <-. destruct Hr as (d & _ & _ & Hit'). by apply objs_moved.
Qed.

Lemma step_new_obj s p d : sys_inv s → enabled (LNewObj p d) s → steps (LNewObj p d) s.
Proof.
  intros Hi Hp. eexists. split; [done|]. by apply (step_arg s (ArgObject (Some (p, d))) _ Hi Hp p).
Qed.

Lemma step_take_obj s p : sys_inv s → enabled (LTakeObj p) s → steps (LTakeObj p) s.
Proof.
  intros Hi Hp. cbn in Hp. unfold steps. cbn [exec python_exec].
  pose proof (mo_items _ _ _ _ (si_mem _ Hi)) as [Hh _ _].
  destruct (incref_ok _ _ p Hh) as (h & E & _); [apply elem_of_app; by left|]. rewrite E.
  cbn [mbind outcome_bind]. eexists. split; [done|].
  apply (step_arg s (ArgBytes p) _ Hi Hp p); [|done]. cbn. by rewrite E.
Qed.

Lemma step_drop_obj s p : sys_inv s → enabled (LDropObj p) s → steps (LDropObj p) s.
Proof.
  intros Hi Hp. cbn in Hp. unfold steps. cbn [exec python_exec].
  pose proof (mo_items _ _ _ _ (si_mem _ Hi)) as Hit. rewrite (remove_one_perm p (heldb s)) in Hit by done.
  destruct (obj_decref_ok _ _ _ _ Hit) as (h & -> & Hit').
  cbn [mbind outcome_bind]. eexists. split; [done|]. by apply objs_moved.
Qed.

(** ** The end of a call *)

Lemma waiter_release_ok (w : world) : server_inited (srv w) = true →
  server_waiter_release (srv w) =
    Done (set_cmd (srv w) false (accepting_commands (srv w)) (cmd_waiter (srv w)) (cmds (srv w))).
Proof. intros Hin. unfold server_waiter_release. by rewrite Hin. Qed.

Lemma end_create s a : sys_inv s → pend s = Some (PCreate a) → wt_done (cmd_waiter (srv (wld s))) = true →
  ∃ s', call_end s (PCreate a) = Done s' ∧ sys_inv s'.
Proof.
  intros Hi Hp Hd. destruct (si_life _ Hi) as (Hrun & Hin & _).
  pose proof (si_pend _ Hi) as Hpend. unfold pend_ok in Hpend. rewrite Hp, Hd in Hpend.
  destruct Hpend as [Hheld Hpend]. pose proof (si_mem _ Hi) as Hm. unfold all_refs in Hm. rewrite Hp in Hm.
  cbn [frame_refs floating app] in Hm. rewrite <- Permutation_middle in Hm.
  cbn [call_end]. unfold PyRtpServer_create_channel_end. rewrite waiter_release_ok by done. cbn [mbind outcome_bind].
  set (w := set_srv _ _).
  pose proof (mem_ok_srv _ (srv w) _ _ _ Hm) as Hm1. fold w in Hm1.
  destruct (wt_status _ =? 0) eqn:E; zbool; cbn [negb].
  - eexists. split; [done|]. apply (call_comes_back s _ (PCreate a)); try done.
    intros b [[= <-]|[=]] c Hc Hcl Hacc. by apply Hpend.
  - destruct (create_fail_ok w a _ _ _ Hm1 Hrun) as (w' & -> & Hm' & Hs' & He' & Hcl').
    cbn [mbind outcome_bind]. eexists. split; [done|]. apply (call_comes_back s _ (PCreate a)); try done.
    intros b [[= <-]|[=]] c Hc Hcl. by rewrite (Hcl' c Hc) in Hcl.
Qed.

Lemma end_close s a : sys_inv s → pend s = Some (PClose a) → wt_done (cmd_waiter (srv (wld s))) = true →
  ∃ s', call_end s (PClose a) = Done s' ∧ sys_inv s'.
Proof.
  intros Hi Hp Hd. destruct (si_life _ Hi) as (Hrun & Hin & _).
  pose proof (si_pend _ Hi) as Hpend. unfold pend_ok in Hpend. rewrite Hp, Hd in Hpend.
  cbn [call_end]. unfold rtp_channel_close_end. rewrite waiter_release_ok by done. cbn [mbind outcome_bind].
  set (w := set_srv _ _). rewrite Hpend. cbn [negb Z.eqb].
  set (refs := (a :: held s) ++ live (srv (wld s)) ++ adds (under_way s) ++ leaked s).
  assert (all_refs s ≡ₚ a :: refs) as Hrefs.
  { unfold all_refs, refs. rewrite Hp. cbn [frame_refs floating]. rewrite Hd. perm_count. }
  pose proof (mem_ok_srv _ (srv w) _ _ _ (si_mem _ Hi)) as Hm. fold w in Hm. rewrite Hrefs in Hm.
  destruct (chan_decref_ok false w a refs _ _ Hm Hrun) as (w1 & -> & Hm1 & Hs1 & He1); [intros; by left|].
  cbn [mbind outcome_bind].
  assert (∃ c, chans w1 !! a = Some c) as [c Hc] by (apply (heap_ok_elem _ _ _ (mo_chans _ _ _ _ Hm1)); by left).
  destruct (upd_chan_ok w1 a c set_closed _ _ _ Hm1 Hc) as (w2 & -> & Hm2 & He2 & ->); [done..|].
  cbn [mbind outcome_bind]. eexists. split; [done|]. apply (call_comes_back s _ (PClose a)); try done.
  - exact (transitivity He1 He2).
  - intros b [[=]|[= <-]] c' Hc' Hcl. cbn in Hc'. rewrite lookup_insert_eq in Hc'. by injection Hc' as <-.
Qed.

Lemma end_set_target s a addr :
  sys_inv s → pend s = Some (PSetTarget a addr) → wt_done (cmd_waiter (srv (wld s))) = true →
  ∃ s', call_end s (PSetTarget a addr) = Done s' ∧ sys_inv s'.
Proof.
  intros Hi Hp Hd. destruct (si_life _ Hi) as (Hrun & Hin & _).
  cbn [call_end]. unfold PyRtpChannel_set_target_end. rewrite waiter_release_ok by done. cbn [mbind outcome_bind].
  set (w := set_srv _ _).
  pose proof (mem_ok_srv _ (srv w) _ _ _ (si_mem _ Hi)) as Hm. fold w in Hm.
  assert (all_refs s ≡ₚ (a :: held s) ++ live (srv (wld s)) ++ adds (under_way s) ++ leaked s) as Hrefs.
  { unfold all_refs. rewrite Hp. cbn [frame_refs floating]. perm_count. }
  rewrite Hrefs in Hm.
  destruct (wt_status _ =? 0) eqn:E; cbn [negb mbind outcome_bind].
  - assert (∃ c, chans w !! a = Some c) as [c Hc] by (apply (heap_ok_elem _ _ _ (mo_chans _ _ _ _ Hm)); by left).
    destruct (upd_chan_ok w a c set_has_target _ _ _ Hm Hc) as (w2 & -> & Hm2 & He2 & ->); [done..|].
    cbn [mbind outcome_bind]. eexists. split; [done|]. apply (call_comes_back s _ (PSetTarget a addr)); try done.
    by intros b [[=]|[=]].
  - eexists. split; [done|]. apply (call_comes_back s _ (PSetTarget a addr)); try done. by intros b [[=]|[=]].
Qed.

Lemma end_shutdown s : sys_inv s → pend s = Some PShutdown → wt_done (cmd_waiter (srv (wld s))) = true →
  ∃ s', call_end s PShutdown = Done s' ∧ sys_inv s'.
Proof.
  intros Hi Hp Hd. destruct (si_life _ Hi) as (Hrun & Hin & _).
  cbn [call_end]. unfold PyRtpServer_shutdown_end. rewrite waiter_release_ok by done. cbn [mbind outcome_bind].
  eexists. split; [done|]. apply (call_comes_back s _ PShutdown); try done; [|by intros b [[=]|[=]]].
  apply mem_ok_srv. pose proof (si_mem _ Hi) as Hm. unfold all_refs in Hm. by rewrite Hp in Hm.
Qed.

Lemma step_end s : sys_inv s → enabled LEnd s → steps LEnd s.
Proof.
  intros Hi [Hp Hd]. unfold steps. cbn [exec python_exec]. destruct (pend s) as [[a|a|a addr|]|] eqn:E; [..|done].
  - by apply end_create.
  - by apply end_close.
  - by apply end_set_target.
  - by apply end_shutdown.
Qed.

(** * Every run *)

Lemma step_any l s : sys_inv s → enabled l s → steps l s.
Proof.
  destruct l; eauto using step_detach, step_cmd, step_refresh, step_clock, step_recv, step_drain,
    step_wake, step_create, step_close, step_set_target, step_send, step_shutdown, step_end, step_take,
    step_drop, step_new_obj, step_take_obj, step_drop_obj.
Qed.

Lemma init_ok hz clk s :
  0 < hz < 4294967296 → PyRtpServer_init PyRtpServer_new hz 0 (0, clk) 0 0 = Done (Ret (), s) →
  s = set_life PyRtpServer_new true true false true (tick_of_hz hz) clk.
Proof.
  intros Hhz. unfold PyRtpServer_init. cbn [d_assert negb worker_running server_inited PyRtpServer_new mbind outcome_bind].
  rewrite (proj2 (Z.eqb_neq _ _)) by lia. by intros [= <-].
Qed.

Lemma start_inv hz clk s :
  0 < hz < 4294967296 → PyRtpServer_init PyRtpServer_new hz 0 (0, clk) 0 0 = Done (Ret (), s) →
  sys_inv (fresh_sys s).
Proof.
  intros Hhz ->%init_ok; [|done]. pose proof (tick_of_hz_range hz Hhz).
  constructor; try done.
  - constructor; [apply heap_ok_empty|done|]. constructor; [apply heap_ok_empty|done|done].
  - constructor; [constructor|done|]. unfold zlen, PTRDIFF_MAX. cbn. lia.
Qed.

Lemma reach_inv s : sreach s → sys_inv s.
Proof.
  induction 1 as [hz clk s Hhz E|l s s' _ IH He E]; [by eapply start_inv|].
  destruct (step_any l s IH He) as (s1 & E1 & Hi1). rewrite E in E1. by injection E1 as ->.
Qed.
End Run.
