(* ===== verification/ServerLive.v ===== *)
(** The RTP server of [Server] answers its callers: a bound on the steps the
    worker makes before the command of the waiting call is done. *)
From stdpp Require Import prelude list gmap strings.
From Stdlib Require Import ZArith Lia.
From S2P Require Import Prelude Py RcHeap Sync SendQueue ServerArgs Server ServerMem ServerInv.
From S2P Require Import ServerCalls ServerCreate ServerRun.
Local Open Scope nat_scope.

Section Live.
Context {Q : Type} `{SendQueueLaws Q}.
Abbreviation world := (world Q).

(** * The work ahead of the worker *)

Definition qlen (w : world) (a : Z) : nat :=
  match chans w !! a with Some c => length (waiting c) | None => 0 end.

(** To drain the channels of a part of the table. *)
Definition drain_work (w : world) (l : list (option Z)) : nat :=
  sum_list_with (λ o, match o with Some a => 2 + qlen w a | None => 1 end) l.

Lemma drain_work_cons w o l :
  drain_work w (o :: l) = match o with Some a => 2 + qlen w a | None => 1 end + drain_work w l.
Proof. done. Qed.
#[local] Arguments drain_work : simpl never.

Definition in_hand (p : srv_pc) : bool := existsb cmd_waits (pc_cmds p).

(** The steps to the end of the command somebody waits for, datagrams aside. *)
Definition work (s : sys Q) : nat :=
  let w := wld s in
  let queued := length (cmds (srv w)) in
  let round := length (live (srv w)) + drain_work w (channels (srv w)) + queued in
  match pc s with
  | WCmds _ rest _ _ => if in_hand (pc s) then 1 + length rest else 7 + length rest + round
  | WRefresh _ => 6 + round
  | WTick _ => 5 + round
  | WPoll _ rest _ _ _ => 4 + length rest + drain_work w (channels (srv w)) + queued
  | WDrain i _ _ => 3 + drain_work w (drop i (channels (srv w))) + queued
  | WDrainCh i a _ _ _ => 4 + qlen w a + drain_work w (drop (S i) (channels (srv w))) + queued
  | WWait _ _ => 3 + queued
  | WTop _ => 2 + queued
  | WExit => 0
  end.

Definition by_worker (l : label) : bool :=
  match l with
  | LDetach | LCmd _ | LRefresh _ _ | LClock _ _ | LRecv _ _ | LDrain | LWake => true
  | _ => false
  end.
(** A datagram is none of the worker's own steps. *)
Definition own_step (l : label) : bool :=
  match l with LRecv (Some _) _ => false | _ => by_worker l end.

Inductive worker_run : list label → sys Q → sys Q → Prop :=
| worker_run_nil s : worker_run [] s s
| worker_run_cons l ls s s1 s' :
    by_worker l = true → enabled l s → exec l s = Done s1 → worker_run ls s1 s' →
    worker_run (l :: ls) s s'.

(** What a step of the worker does for the caller. *)
Record goes (l : label) (s s' : sys Q) : Prop := {
  go_pend : pend s' = pend s;
  go_done : wt_done (cmd_waiter (srv (wld s))) = true → wt_done (cmd_waiter (srv (wld s'))) = true;
  go_work : pend s ≠ None → wt_done (cmd_waiter (srv (wld s'))) = false →
    (if own_step l then 1 else 0) + work s' ≤ work s;
}.

Lemma drain_work_mono w w' l : (∀ a, qlen w' a ≤ qlen w a) → drain_work w' l ≤ drain_work w l.
Proof.
  intros Hq. induction l as [|o l IH]; [done|]. rewrite !drain_work_cons.
  destruct o as [a|]; [specialize (Hq a)|]; lia.
Qed.

Lemma drain_work_same w w' l : chans w' = chans w → drain_work w' l = drain_work w l.
Proof.
  intros E. induction l as [|o l IH]; [done|]. rewrite !drain_work_cons, IH. unfold qlen. by rewrite E.
Qed.

Lemma drain_work_free w l i : drain_work w (<[i := None]> l) ≤ drain_work w l.
Proof.
  revert i. induction l as [|o l IH]; intros [|i]; [done..| |].
  - change (<[0 := None]> (o :: l)) with (None :: l). rewrite !drain_work_cons. destruct o; lia.
  - change (<[S i := None]> (o :: l)) with (o :: <[i := None]> l). rewrite !drain_work_cons.
    specialize (IH i). lia.
Qed.

Lemma live_free (l : list (option Z)) i : length (omap id (<[i := None]> l)) ≤ length (omap id l).
Proof.
  assert (∀ o (l : list (option Z)), length (omap id (o :: l)) = length (opt_list o) + length (omap id l)) as Hc
    by by intros [a|].
  revert i. induction l as [|o l IH]; intros [|i]; [done..| |].
  - change (<[0 := None]> (o :: l)) with (None :: l). rewrite !Hc. cbn [opt_list length]. lia.
  - change (<[S i := None]> (o :: l)) with (o :: <[i := None]> l). rewrite !Hc. specialize (IH i). lia.
Qed.

Lemma waiting_command s p :
  sys_inv s → pend s = Some p → wt_done (cmd_waiter (srv (wld s))) = false →
  existsb cmd_waits (under_way s) = true.
Proof.
  intros Hi Hp Hd. apply existsb_exists. exists (cmd_of p). split; [|done]. apply list_elem_of_In.
  apply (waited_elem _ _). rewrite (si_waits _ Hi), Hp. unfold awaited. by rewrite Hd.
Qed.

(** The worker moves on without a command. *)
Lemma goes_on l s w p :
  srv w = srv (wld s) → (pend s ≠ None → (if own_step l then 1 else 0) + work (with_pc s w p) ≤ work s) →
  goes l s (with_pc s w p).
Proof. intros Hs Hw. constructor; cbn; [done|by rewrite Hs|intros Hp _; by apply Hw]. Qed.

Lemma goes_detach s s' : sys_inv s → enabled LDetach s → exec LDetach s = Done s' → goes LDetach s s'.
Proof.
  intros Hi [next Hpc]. cbn [exec worker_exec]. rewrite Hpc. cbn [detach_commands]. intros [= <-].
  constructor; [done|done|]. cbn [wld with_pc srv set_srv set_cmd cmd_waiter]. intros Hp Hd.
  destruct (pend s) as [p|] eqn:Ep; [|done]. pose proof (waiting_command s p Hi Ep Hd) as Hw.
  unfold under_way in Hw. rewrite Hpc in Hw. cbn in Hw. unfold work, in_hand. rewrite Hpc. cbn.
  destruct (cmds (srv (wld s))) as [|c l]; [done|]. cbn in *. rewrite Hw. cbn. lia.
Qed.

Lemma goes_refresh s s' m1 m2 :
  sys_inv s → enabled (LRefresh m1 m2) s → exec (LRefresh m1 m2) s = Done s' → goes (LRefresh m1 m2) s s'.
Proof.
  intros Hi [next Hpc]. cbn [exec worker_exec]. rewrite Hpc.
  destruct (refresh_cache_ok m1 m2 (wld s) _ _ (si_mem _ Hi) (si_table _ Hi)) as (ok & w & -> & Hw);
    [intros a; by apply live_held|]. cbn [mbind outcome_bind]. intros [= <-].
  assert (cmd_waiter (srv w) = cmd_waiter (srv (wld s)) ∧ cmds (srv w) = cmds (srv (wld s)) ∧
    channels (srv w) = channels (srv (wld s)) ∧ chans w = chans (wld s)) as (E1 & E2 & E3 & E4).
  { destruct ok; [destruct Hw as [[_ ->]|(fds & cap & -> & _)]|destruct Hw as [-> _]]; done. }
  constructor; cbn [with_pc wld pend]; [done|by rewrite E1|]. intros _ _. unfold work. rewrite Hpc.
  cbn [with_pc wld pc]. unfold live. rewrite E2, E3, (drain_work_same (wld s) w _ E4). cbn.
  destruct (_ =? 0)%Z; [lia|]. destruct ok; lia.
Qed.

Lemma poll_ready_length s revents : length (poll_ready s revents) ≤ length (pollfds_index s).
Proof.
  unfold poll_ready. revert revents. induction (pollfds_index s) as [|a l IH]; intros [|r rv]; cbn; try lia.
  specialize (IH rv). destruct r; cbn; lia.
Qed.

Lemma goes_clock s s' now poll :
  sys_inv s → enabled (LClock now poll) s → exec (LClock now poll) s = Done s' → goes (LClock now poll) s s'.
Proof.
  intros Hi [_ [next Hpc]]. cbn [exec worker_exec]. rewrite Hpc. intros [= <-].
  apply goes_on; [done|]. intros _. pose proof (si_pc _ Hi) as Hn. rewrite Hpc in Hn. destruct Hn as [_ Hd].
  destruct (si_poll _ Hi Hd) as [Hidx _]. unfold work. rewrite Hpc. cbn [with_pc wld pc own_step by_worker].
  destruct (_ <? _)%Z; [lia|]. destruct poll as [[rtime rv]|]; [|rewrite drop_0; lia].
  pose proof (poll_ready_length (srv (wld s)) rv) as Hl. rewrite Hidx in Hl.
  destruct (poll_ready (srv (wld s)) rv) as [|b rest]; cbn [after_poll length] in *; rewrite ?drop_0; lia.
Qed.

Lemma goes_recv s s' recv mem :
  sys_inv s → enabled (LRecv recv mem) s → exec (LRecv recv mem) s = Done s' → goes (LRecv recv mem) s s'.
Proof.
  intros Hi (a & rest & rtime & next & now & Hpc). cbn [exec worker_exec]. rewrite Hpc.
  pose proof (si_pc _ Hi) as Hn. rewrite Hpc in Hn. destruct Hn as [Hl _].
  destruct (live_alive s a Hi) as [c Hch]; [apply Hl; by left|].
  unfold receive_one. rewrite (py_read_some _ _ _ Hch). cbn [mbind outcome_bind].
  destruct (mo_each _ _ _ _ (si_mem _ Hi) a c Hch) as [_ Hfd].
  rewrite bind_assert_true by (by apply Z.leb_le). destruct recv as [[data addr]|]; intros [= <-].
  - apply goes_on; [by destruct mem|]. intros _. unfold work. rewrite Hpc. cbn [with_pc wld pc own_step].
    rewrite (drain_work_same (wld s)) by by destruct mem. destruct mem; cbn; lia.
  - apply goes_on; [done|]. intros _. unfold work. rewrite Hpc. cbn [with_pc wld pc own_step by_worker].
    destruct rest; cbn [after_poll length]; rewrite ?drop_0; lia.
Qed.

Lemma goes_drain s s' : sys_inv s → enabled LDrain s → exec LDrain s = Done s' → goes LDrain s s'.
Proof.
  intros Hi [(i & next & now & Hpc)|(i & a & ht & next & now & Hpc)]; cbn [exec worker_exec]; rewrite Hpc;
    pose proof (si_pc _ Hi) as Hn; rewrite Hpc in Hn; cbn in Hn.
  - destruct (channels (srv (wld s)) !! i) as [[a|]|] eqn:E.
    + unfold py_read. destruct (chans (wld s) !! a) as [c|] eqn:Hc; cbn [mbind outcome_bind]; [|done].
      intros [= <-]. apply goes_on; [done|]. intros _. unfold work. rewrite Hpc. cbn [with_pc wld pc own_step by_worker].
      rewrite (drop_S _ _ _ E), drain_work_cons. lia.
    + intros [= <-]. apply goes_on; [done|]. intros _. unfold work. rewrite Hpc.
      cbn [with_pc wld pc own_step by_worker]. rewrite (drop_S _ _ _ E), drain_work_cons. lia.
    + rewrite bind_done. intros (next' & _ & [= <-]). apply goes_on; [done|]. intros _.
      unfold work. rewrite Hpc. cbn. lia.
  - destruct Hn as [Ha _]. destruct (live_alive s a Hi Ha) as [c Hc].
    destruct (drain_one_ok (wld s) a c ht _ _ (si_mem _ Hi) Hc)
      as (more & w' & c' & -> & _ & Hs & _ & Hc' & _ & _ & Hoth & Hq).
    cbn [mbind outcome_bind]. intros [= <-]. apply goes_on; [done|]. intros _. unfold work. rewrite Hpc.
    cbn [with_pc wld pc own_step by_worker]. rewrite Hs.
    assert (∀ b, qlen w' b ≤ qlen (wld s) b) as Hle.
    { intros b. unfold qlen. destruct (decide (b = a)) as [->|Hne]; [|by rewrite Hoth].
      rewrite Hc, Hc'. destruct (waiting c); [destruct Hq as (_ & -> & _)|destruct Hq as (_ & -> & _)]; cbn; lia. }
    pose proof (drain_work_mono _ _ (drop (S i) (channels (srv (wld s)))) Hle) as Hdw.
    assert (qlen (wld s) a = length (waiting c) ∧ qlen w' a = length (waiting c')) as [E1 E2]
      by (unfold qlen; by rewrite Hc, Hc').
    destruct (waiting c) as [|p ps]; destruct Hq as (-> & Hq' & _); cbn [length] in *; [lia|].
    rewrite E1, E2, Hq'. lia.
Qed.

Lemma goes_wake s s' : sys_inv s → enabled LWake s → exec LWake s = Done s' → goes LWake s s'.
Proof.
  intros Hi (until & next & Hpc & _). cbn [exec worker_exec]. rewrite Hpc. intros [= <-].
  apply goes_on; [done|]. intros _. unfold work. rewrite Hpc. cbn. lia.
Qed.

(** A removal nobody waits for. *)
Lemma remove_unwaited mem (w : world) a :
  ∃ sv, process_command mem w {| cmd_type := CMD_REMOVE_CHANNEL a; cmd_waits := false |} =
          Done (false, set_srv w sv) ∧
    cmds sv = cmds (srv w) ∧
    (channels sv = channels (srv w) ∨ ∃ i, channels sv = <[i := None]> (channels (srv w))).
Proof.
  unfold process_command, remove_channel. cbn [cmd_type cmd_waits].
  destruct (find_channel_index (channels (srv w)) a) as [i|];
    [destruct (mjoin _)|]; cbn [mbind outcome_bind free_command]; eexists; (split; [done|]); eauto.
Qed.

Lemma goes_cmd s s' mem : sys_inv s → enabled (LCmd mem) s → exec (LCmd mem) s = Done s' → goes (LCmd mem) s s'.
Proof.
  intros Hi (cmd & rest & seen & next & Hpc). cbn [exec worker_exec].
  pose proof (si_pc _ Hi) as Hn. rewrite Hpc in Hn. destruct Hn as [-> _]. rewrite Hpc.
  destruct (turn_any s cmd rest next Hi Hpc mem) as (w' & E & Hd). rewrite E. cbn [mbind outcome_bind orb].
  fold (turn s rest next w' (lost_by (srv (wld s)) cmd)). intros [= <-]. pose proof (cd_waiter _ _ _ _ Hd) as Hwt.
  constructor; [done| |].
  - intros Hdone. destruct (cmd_waits cmd); [done|congruence].
  - intros Hp Hnd. destruct (cmd_waits cmd) eqn:Ew; [congruence|].
    pose proof (si_cmds _ Hi) as Hok. rewrite (cd_way _ _ _ _ Hd) in Hok. apply Forall_cons in Hok as [(_ & _ & Hok) _].
    destruct (Hok Ew) as [a Ha]. unfold removes in Ha.
    assert (cmd = {| cmd_type := CMD_REMOVE_CHANNEL a; cmd_waits := false |}) as -> by (destruct cmd; cbn in *; congruence).
    destruct (remove_unwaited mem (wld s) a) as (sv & E' & Ecm & Ech). rewrite E in E'. injection E' as ->.
    unfold work, in_hand. rewrite Hpc. cbn [turn with_leaked with_pc wld pc srv set_srv pc_cmds existsb cmd_waits orb own_step by_worker].
    rewrite Ecm.
    assert (length (live sv) ≤ length (live (srv (wld s))) ∧
            drain_work (set_srv (wld s) sv) (channels sv) ≤ drain_work (wld s) (channels (srv (wld s)))) as [H1 H2].
    { rewrite (drain_work_same (wld s)) by done. unfold live.
      destruct Ech as [->|[i ->]]; [done|]. split; [apply live_free|apply drain_work_free]. }
    destruct rest as [|c2 rest]; cbn [after_cmds existsb pc_cmds length] in *; [lia|].
    destruct (_ || _); lia.
Qed.

Lemma worker_goes l s s' :
  sys_inv s → by_worker l = true → enabled l s → exec l s = Done s' → goes l s s'.
Proof.
  destruct l; try done; intros Hi _;
    eauto using goes_detach, goes_cmd, goes_refresh, goes_clock, goes_recv, goes_drain, goes_wake.
Qed.

Lemma run_work ls s s' :
  worker_run ls s s' → sys_inv s → pend s ≠ None →
  (wt_done (cmd_waiter (srv (wld s))) = true → wt_done (cmd_waiter (srv (wld s'))) = true) ∧
  (wt_done (cmd_waiter (srv (wld s'))) = false → length (filter (λ l, own_step l = true) ls) + work s' ≤ work s).
Proof.
  induction 1 as [s|l ls s s1 s' Hb He E _ IH]; intros Hi Hp; [by split|].
  destruct (step_any l s Hi He) as (s2 & E2 & Hi1). rewrite E in E2. injection E2 as <-.
  destruct (worker_goes l s s1 Hi Hb He E) as [Hp1 Hd1 Hw1]. rewrite Hp1 in IH.
  destruct (IH Hi1 Hp) as [IHd IHw]. split; [auto|]. intros Hnd. specialize (IHw Hnd).
  assert (wt_done (cmd_waiter (srv (wld s1))) = false) as Hn1.
  { destruct (wt_done (cmd_waiter (srv (wld s1)))) eqn:E1; [|done]. by rewrite IHd in Hnd. }
  specialize (Hw1 Hp Hn1). rewrite filter_cons. destruct (own_step l); case_decide; try done; cbn [length]; lia.
Qed.

(** While somebody waits, the worker can go on. *)
Lemma worker_can_go s p :
  sys_inv s → pend s = Some p → wt_done (cmd_waiter (srv (wld s))) = false →
  ∃ l, own_step l = true ∧ enabled l s.
Proof.
  intros Hi Hp Hd. pose proof (si_pc _ Hi) as Hpc. pose proof (waiting_command s p Hi Hp Hd) as Hw.
  unfold under_way in Hw. destruct (pc s) eqn:E; cbn in Hpc.
  - exists LDetach. split; [done|]. by eexists.
  - exists (LCmd true). split; [done|]. by do 4 eexists.
  - exists (LRefresh true true). split; [done|]. by eexists.
  - exists (LClock 1 None). split; [done|]. split; [by unfold CLOCK_MAX|]. by eexists.
  - exists (LRecv None true). split; [done|]. by do 5 eexists.
  - exists LDrain. split; [done|]. left. by do 3 eexists.
  - exists LDrain. split; [done|]. right. by do 5 eexists.
  - exists LWake. split; [done|]. do 2 eexists. split; [done|]. intros _ Hnil. by rewrite Hnil in Hw.
  - done.
Qed.
End Live.
