(* ===== verification/ServerDrain.v ===== *)
(** What the RTP server of [Server] sends. *)
From stdpp Require Import prelude list gmap strings.
From Stdlib Require Import ZArith Lia.
From S2P Require Import Prelude Py RcHeap Sync SendQueue ServerArgs Server ServerMem ServerInv.
From S2P Require Import ServerCalls ServerCreate ServerRun.
Local Open Scope Z_scope.

Section Drain.
Context {Q : Type} `{SendQueueLaws Q}.
Abbreviation world := (world Q).

(** * Draining the queues *)

(** The bytes of an item. *)
Definition item_bytes (w : world) (p : Z) : list Z :=
  match items w !! p with
  | Some it => match objs w !! data_ref it with
               | Some c => take (Z.to_nat (item_size it)) (val c)
               | None => []
               end
  | None => []
  end.

(** The datagrams in the queue of a channel with a target. *)
Definition datagrams (w : world) (ht : bool) (c : cell (PyRtpChannel Q)) : list event :=
  if ht then (λ p, SendTo (fd (state (val c))) (item_bytes w p) (target_addr (state (val c)))) <$> waiting c
  else [].

Definition sent_by (w : world) (a : Z) : list event :=
  match chans w !! a with
  | Some c => datagrams w (st_has_target (state (val c))) c
  | None => []
  end.

Lemma item_data_bytes (w : world) p d : item_data w p d → item_bytes w p = d.
Proof.
  intros (it & Hit & Hd & Hs). unfold item_bytes. rewrite Hit. unfold py_read in Hd.
  destruct (objs w !! data_ref it); [|done]. injection Hd as ->. rewrite Hs. unfold zlen.
  rewrite Nat2Z.id. by apply take_ge.
Qed.

Lemma waiting_queued (w : world) a c p : chans w !! a = Some c → p ∈ waiting c → p ∈ queued w.
Proof. intros Hc Hp. apply elem_of_named. by exists a, c. Qed.

(** What is not sent keeps its bytes. *)
Definition rest_kept (w w' : world) : Prop := ∀ q, q ∈ queued w' → item_bytes w' q = item_bytes w q.

Lemma rest_kept_trans w1 w2 w3 : (∀ q, q ∈ queued w3 → q ∈ queued w2) →
  rest_kept w1 w2 → rest_kept w2 w3 → rest_kept w1 w3.
Proof. intros Hs H1 H2 q Hq. by rewrite H2, H1 by auto. Qed.

Lemma datagrams_kept w w' ht a c : rest_kept w w' → chans w' !! a = Some c → datagrams w' ht c = datagrams w ht c.
Proof.
  intros Hk Hc. unfold datagrams. destruct ht; [|done]. apply list_fmap_ext. intros i p Hp.
  rewrite Hk; [done|]. eapply waiting_queued; [done|]. by eapply list_elem_of_lookup_2.
Qed.

(** A channel after its queue was drained. *)
Record drained (w : world) (a : Z) (ht : bool) (c : cell (PyRtpChannel Q)) (w' : world) : Prop := {
  dr_srv : srv w' = srv w;
  dr_chan : ∃ c', chans w' !! a = Some c' ∧ waiting c' = [];
  dr_other : ∀ b, b ≠ a → chans w' !! b = chans w !! b;
  dr_queued : ∀ q, q ∈ queued w' → q ∈ queued w;
  dr_kept : rest_kept w w';
  dr_log : w_log w' = w_log w ++ datagrams w ht c;
}.

Lemma queued_sub (w w' : world) a c c' :
  chans w !! a = Some c → chans w' !! a = Some c' → waiting c' ⊆ waiting c →
  (∀ b, b ≠ a → chans w' !! b = chans w !! b) → ∀ q, q ∈ queued w' → q ∈ queued w.
Proof.
  intros Hc Hc' Hs Ho q (b & cb & Hb & Hq)%elem_of_named. apply elem_of_named.
  destruct (decide (b = a)) as [->|Hne].
  - rewrite Hc' in Hb. injection Hb as <-. exists a, c. split; [done|]. by apply Hs.
  - rewrite Ho in Hb by done. by exists b, cb.
Qed.

Lemma drain_channel_ok fuel w a c ht refs brefs :
  mem_ok w refs brefs [] → chans w !! a = Some c → (length (waiting c) ≤ fuel)%nat →
  ∃ w', drain_channel fuel w a ht = Done w' ∧ mem_ok w' refs brefs [] ∧ drained w a ht c w'.
Proof.
  revert w c. induction fuel as [|fuel IH]; intros w c Hm Hc Hl; cbn [drain_channel];
    destruct (drain_one_ok w a c ht refs brefs Hm Hc)
      as (more & w1 & c1 & -> & Hm1 & Hs1 & He1 & Hc1 & Hf1 & Ht1 & Ho1 & Hq1);
    cbn [mbind outcome_bind]; destruct (waiting c) as [|p ps] eqn:Ew; cbn [length] in Hl; try lia.
  1, 2: destruct Hq1 as (-> & Hw1 & Hlog & Eo & Ei); exists w1; split; [done|]; split; [done|];
    assert (∀ q, q ∈ queued w1 → q ∈ queued w) as Hsub
      by (apply (queued_sub w w1 a c c1); [done|done|rewrite Hw1; apply list_subseteq_nil|done]);
    (constructor; [done|by exists c1|done|done| |]);
    [intros q _; unfold item_bytes; by rewrite Eo, Ei|].
  1, 2: rewrite Hlog; unfold datagrams; rewrite Ew; by destruct ht; rewrite app_nil_r.
  destruct Hq1 as (-> & Hw1 & d & Hd & Hlog & Hkeep).
  destruct (IH w1 c1 Hm1 Hc1) as (w' & -> & Hm' & [Es [c' [Hc' Hw']] Eo Equ Ek El]); [rewrite Hw1; lia|].
  exists w'. split; [done|]. split; [done|].
  assert (rest_kept w w1) as Hk1.
  { intros q Hq. assert (q ∈ queued w) as Hqw.
    { apply (queued_sub w w1 a c c1); [done|done| |done|done]. rewrite Hw1, Ew. set_solver. }
    destruct (item_data_some w brefs _ q (mo_items _ _ _ _ Hm)) as [dq Hdq]; [done|].
    rewrite (item_data_bytes w1 q dq) by by apply Hkeep. by rewrite (item_data_bytes w q dq). }
  constructor; [congruence|by exists c'| | | |].
  - intros b Hb. rewrite Eo by done. by apply Ho1.
  - intros q Hq. apply (queued_sub w w1 a c c1); [done|done| |done|by apply Equ].
    rewrite Hw1, Ew. set_solver.
  - by apply (rest_kept_trans w w1 w').
  - rewrite El, Hlog, (datagrams_kept w w1 ht a c1) by done. unfold datagrams.
    rewrite Ew, Hw1, Hf1, Ht1. destruct ht; [|by rewrite !app_nil_r].
    rewrite <- app_assoc. f_equal. cbn. by rewrite (item_data_bytes w p d).
Qed.

Lemma waiting_size w a c refs brefs :
  mem_ok w refs brefs [] → chans w !! a = Some c → (length (waiting c) ≤ size (items w))%nat.
Proof.
  intros [_ _ Hi] Hc. rewrite <- allocated_size, (io_items _ _ _ Hi).
  unfold queued. rewrite (named_delete (λ _, waiting) _ _ _ Hc), !length_app. cbn. lia.
Qed.

Lemma drain_list_ok l w refs brefs :
  mem_ok w refs brefs [] → NoDup (omap id l) → (∀ a, a ∈ omap id l → is_Some (chans w !! a)) →
  ∃ w', drain_list w l = Done w' ∧ mem_ok w' refs brefs [] ∧ srv w' = srv w ∧
    w_log w' = w_log w ++ (omap id l ≫= sent_by w) ∧
    (∀ a, a ∈ omap id l → ∃ c', chans w' !! a = Some c' ∧ waiting c' = []) ∧
    (∀ a, a ∉ omap id l → chans w' !! a = chans w !! a) ∧
    rest_kept w w'.
Proof.
  revert w. induction l as [|[a|] l IH]; intros w Hm Hnd Hl; cbn [drain_list].
  - exists w. split; [done|]. split; [done|]. split; [done|]. split; [by rewrite app_nil_r|].
    split; [by intros a ?%elem_of_nil|]. by split.
  - change (omap id (Some a :: l)) with (a :: omap id l) in *. apply NoDup_cons in Hnd as [Ha Hnd].
    destruct (Hl a) as [c Hc]; [by left|]. rewrite (py_read_some _ _ _ Hc). cbn [mbind outcome_bind].
    destruct (drain_channel_ok (size (items w)) w a c (st_has_target (state (val c))) _ _ Hm Hc)
      as (w1 & -> & Hm1 & [Es (c1 & Hc1 & Hw1) Eo Equ Ek El]); [by eapply waiting_size|].
    cbn [mbind outcome_bind].
    destruct (IH w1 Hm1 Hnd) as (w' & -> & Hm' & Hs' & Hlog' & Hin' & Hout' & Hk').
    { intros b Hb. rewrite Eo by (by intros ->). apply Hl. by right. }
    exists w'. split; [done|]. split; [done|]. split; [congruence|]. split; [|split; [|split]].
    + rewrite Hlog', El, <- app_assoc. f_equal. rewrite bind_cons.
      f_equal; [unfold sent_by; by rewrite Hc|].
      assert (∀ b, b ∈ omap id l → sent_by w1 b = sent_by w b) as Hsame.
      { intros b Hb. unfold sent_by. rewrite <- (Eo b) by (by intros ->).
        destruct (chans w1 !! b) as [cb|] eqn:Hcb; [|done]. by eapply datagrams_kept. }
      clear -Hsame. induction (omap id l) as [|b k IH]; [done|]. rewrite !bind_cons.
      f_equal; [apply Hsame; by left|]. apply IH. intros x Hx. apply Hsame. by right.
    + intros b [->|Hb]%elem_of_cons; [|by apply Hin']. exists c1. split; [|done]. by rewrite Hout'.
    + intros b Hb. apply not_elem_of_cons in Hb as [Hne Hb]. by rewrite Hout', Eo.
    + apply (rest_kept_trans w w1 w'); [|done|done]. intros q (b & cb & Hb & Hq)%elem_of_named.
      destruct (decide (b ∈ omap id l)) as [Hin|Hn].
      * destruct (Hin' b Hin) as (cb' & Hcb' & Hnil). rewrite Hb in Hcb'. injection Hcb' as <-.
        rewrite Hnil in Hq. by apply elem_of_nil in Hq.
      * rewrite Hout' in Hb by done. by eapply waiting_queued.
  - by apply IH.
Qed.

End Drain.
