(* ===== verification/ServerStop.v ===== *)
(** The end of an RTP server of [Server]: its deallocation, once no channel is
    left and no call under way, stops the worker and gives back what the server
    still has. *)
From stdpp Require Import prelude list gmap strings.
From Stdlib Require Import ZArith Lia.
From S2P Require Import Prelude Py RcHeap Sync SendQueue ServerArgs Server ServerMem ServerInv.
From S2P Require Import ServerCalls ServerCreate ServerRun ServerLive.
Local Open Scope Z_scope.

Section Stop.
Context {Q : Type} `{SendQueueLaws Q}.
Abbreviation world := (world Q).

(** * A server without channels on its way out *)

Definition is_stop (c : RtpServerCmd) : bool :=
  match cmd_type c with CMD_STOP_WORKER => true | _ => false end.

(** Commands with nobody behind them. *)
Definition harmless (c : RtpServerCmd) : Prop :=
  cmd_waits c = false ∧ (is_stop c = true ∨ ∃ a, removes a c).

Definition seen_stop (p : srv_pc) : bool :=
  match p with WCmds _ _ seen _ => seen | WExit => true | _ => false end.

Definition idle_pc (sv : PyRtpServer) (p : srv_pc) : Prop :=
  match p with
  | WPoll _ _ _ _ _ | WDrainCh _ _ _ _ _ => False
  | WDrain _ next now => (0 ≤ next ≤ now) ∧ now < CLOCK_MAX
  | WTick next => 0 ≤ next ∧ pollfds_dirty sv = false
  | WExit | WTop _ | WCmds _ _ _ _ | WRefresh _ | WWait _ _ => True
  end.

Record stopping (s : sys Q) : Prop := {
  sp_chans : chans (wld s) = ∅;
  sp_items : items (wld s) = ∅;
  sp_life : worker_running (srv (wld s)) = true ∧ (1 ≤ tick_ns (srv (wld s)) ≤ 1000000000);
  sp_table : live (srv (wld s)) = [] ∧ channels_active (srv (wld s)) = 0;
  sp_poll : pollfds_dirty (srv (wld s)) = false →
    pollfds (srv (wld s)) = [] ∧ pollfds_index (srv (wld s)) = [];
  sp_cmds : Forall harmless (under_way s);
  sp_coming : seen_stop (pc s) || existsb is_stop (under_way s) = true;
  sp_cleared : seen_stop (pc s) = true → channels (srv (wld s)) = [];
  sp_pc : idle_pc (srv (wld s)) (pc s);
}.
(** Where a worker with a stop in hand is going. *)
Definition stop_work (s : sys Q) : nat :=
  let slots := length (channels (srv (wld s))) in
  let queued := length (cmds (srv (wld s))) in
  match pc s with
  | WExit => 0
  | WCmds cmd rest seen _ =>
      if seen || existsb is_stop (cmd :: rest) then 1 + length rest else 7 + length rest + slots + queued
  | WRefresh _ => 6 + slots + queued
  | WTick _ => 5 + slots + queued
  | WPoll _ _ _ _ _ | WDrainCh _ _ _ _ _ => 0
  | WDrain i _ _ => 4 + (slots - i) + queued
  | WWait _ _ => 3 + queued
  | WTop _ => 2 + queued
  end.

(** A step on the way. *)
Definition closer (s s' : sys Q) : Prop := stopping s' ∧ (stop_work s' < stop_work s)%nat.

(** The worker moves, and nothing else changes. *)
Lemma stopping_moves s p :
  stopping s → pc_cmds p = pc_cmds (pc s) → seen_stop p = seen_stop (pc s) → idle_pc (srv (wld s)) p →
  stopping (with_pc s (wld s) p).
Proof.
  intros [] Hp Hs Hi. assert (under_way (with_pc s (wld s) p) = under_way s) as Hl
    by (unfold under_way; cbn; by rewrite Hp).
  constructor; cbn [with_pc wld pc]; rewrite ?Hl, ?Hs; done.
Qed.

Lemma stop_detach s s' : stopping s → enabled LDetach s → exec LDetach s = Done s' → closer s s'.
Proof.
  intros Hi [next Hpc]. cbn [exec worker_exec]. rewrite Hpc. cbn [detach_commands]. intros [= <-].
  pose proof (sp_coming _ Hi) as Hc. unfold under_way in Hc. rewrite Hpc in Hc. cbn in Hc.
  destruct (cmds (srv (wld s))) as [|c l] eqn:E; [done|]. split.
  - pose proof (sp_cmds _ Hi) as Hh. unfold under_way in Hh. rewrite Hpc, E in Hh. cbn in Hh.
    destruct Hi. constructor; cbn [with_pc wld pc]; try done.
    + unfold under_way. cbn. by rewrite app_nil_r.
    + unfold under_way. cbn. by rewrite app_nil_r.
  - unfold stop_work. rewrite Hpc, E. cbn [with_pc pc after_cmds orb]. rewrite Hc. cbn. lia.
Qed.

Lemma stop_refresh s s' m1 m2 :
  stopping s → enabled (LRefresh m1 m2) s → exec (LRefresh m1 m2) s = Done s' → closer s s'.
Proof.
  intros Hi [next Hpc]. cbn [exec worker_exec]. rewrite Hpc. unfold refresh_poll_cache.
  destruct (sp_table _ Hi) as [_ Ha]. rewrite Ha. cbn [Z.eqb].
  destruct (pollfds_dirty (srv (wld s))) eqn:Ed; cbn [negb mbind outcome_bind].
  - intros [= <-]. split; [|unfold stop_work; rewrite Hpc; cbn; lia].
    destruct Hi. constructor; cbn [with_pc wld pc]; try done; unfold under_way in *; cbn; by rewrite Hpc in *.
  - destruct (sp_poll _ Hi Ed) as [E _]. rewrite E. intros [= <-].
    split; [|unfold stop_work; rewrite Hpc; cbn; lia].
    apply stopping_moves; [done|by rewrite Hpc..|done].
Qed.

Lemma stop_clock s s' now poll :
  stopping s → enabled (LClock now poll) s → exec (LClock now poll) s = Done s' → closer s s'.
Proof.
  intros Hi [Hnow [next Hpc]]. cbn [exec worker_exec]. rewrite Hpc. intros [= <-].
  pose proof (sp_pc _ Hi) as Hn. rewrite Hpc in Hn. destruct Hn as [Hn Hd].
  destruct (sp_poll _ Hi Hd) as [_ E].
  assert (∀ rv, poll_ready (srv (wld s)) rv = []) as Hr by (intros rv; unfold poll_ready; by rewrite E).
  set (next' := if next =? 0 then now else next).
  assert (0 ≤ next') as Hn' by (unfold next'; destruct (next =? 0); lia).
  destruct (now <? next') eqn:El; zbool; [|destruct poll as [[rtime rv]|]; [rewrite Hr|]];
    (split; [apply stopping_moves; [done|by rewrite Hpc..|cbn; try done; lia]|
             unfold stop_work; rewrite Hpc; cbn; lia]).
Qed.

Lemma no_entry s i : stopping s → channels (srv (wld s)) !! i ≠ Some None → channels (srv (wld s)) !! i = None.
Proof.
  intros Hi Hne. destruct (channels (srv (wld s)) !! i) as [[a|]|] eqn:E; [|done|done].
  assert (a ∈ live (srv (wld s))) as Ha.
  { apply list_elem_of_omap. exists (Some a). split; [|done]. by eapply list_elem_of_lookup_2. }
  rewrite (proj1 (sp_table _ Hi)) in Ha. by apply elem_of_nil in Ha.
Qed.

Lemma stop_drain s : stopping s → enabled LDrain s → ∃ s', exec LDrain s = Done s' ∧ closer s s'.
Proof.
  intros Hi [(i & next & now & Hpc)|(i & a & ht & next & now & Hpc)]; cbn [exec worker_exec]; rewrite Hpc;
    pose proof (sp_pc _ Hi) as Hn; rewrite Hpc in Hn; [|done]. destruct Hn as [Hn Hc].
  destruct (decide (channels (srv (wld s)) !! i = Some None)) as [E|E].
  - rewrite E. eexists. split; [done|]. apply lookup_lt_Some in E.
    split; [apply stopping_moves; [done|by rewrite Hpc..|done]|]. unfold stop_work. rewrite Hpc. cbn. lia.
  - rewrite (no_entry s i Hi E). destruct (sp_life _ Hi) as [_ Ht]. set (tick := tick_ns (srv (wld s))) in *.
    assert (0 ≤ (now - next) / tick) by (apply Z.div_pos; lia).
    destruct (tick_advance_ok (S (Z.to_nat ((now - next) / tick))) next now tick) as (k & _ & -> & _);
      [lia|lia|unfold U64_MAX, CLOCK_MAX in *; lia|lia|].
    cbn [mbind outcome_bind]. eexists. split; [done|].
    split; [apply stopping_moves; [done|by rewrite Hpc..|done]|]. unfold stop_work. rewrite Hpc. cbn. lia.
Qed.

Lemma stop_wake s s' : stopping s → enabled LWake s → exec LWake s = Done s' → closer s s'.
Proof.
  intros Hi (until & next & Hpc & _). cbn [exec worker_exec]. rewrite Hpc. intros [= <-].
  split; [apply stopping_moves; [done|by rewrite Hpc..|done]|]. unfold stop_work. rewrite Hpc. cbn. lia.
Qed.

Lemma unref_none (w : world) l : omap id l = [] → unref_all w l = Done w.
Proof. induction l as [|[a|] l IH]; [done|done|]. exact IH. Qed.

(** A harmless command: a stop clears the table, a removal finds nothing. *)
Lemma harmless_done mem s cmd :
  stopping s → harmless cmd →
  ∃ w, process_command mem (wld s) cmd = Done (is_stop cmd, w) ∧ lost_by (srv (wld s)) cmd = [] ∧
    w = (if is_stop cmd
         then set_srv (wld s) (clear_poll_cache (set_table (srv (wld s)) [] 0 (pollfds_dirty (srv (wld s)))))
         else wld s).
Proof.
  intros Hi [Hw Hk]. destruct (sp_table _ Hi) as [Hl _]. unfold process_command, lost_by, is_stop in *.
  destruct Hk as [Hk|[a Ha]].
  - destruct (cmd_type cmd); try done. unfold clear_channels. rewrite unref_none by done.
    rewrite Hw. cbn. by eexists.
  - unfold removes in Ha. rewrite Ha, Hw. unfold remove_channel, find_channel.
    assert (find_channel_index (channels (srv (wld s))) a = None) as ->.
    { apply find_index_none. unfold live in Hl. rewrite Hl. apply not_elem_of_nil. }
    cbn. eexists. split; [done|]. split; [done|]. by destruct (wld s).
Qed.
Lemma stop_cmd s mem : stopping s → enabled (LCmd mem) s → ∃ s', exec (LCmd mem) s = Done s' ∧ closer s s'.
Proof.
  intros Hi (cmd & rest & seen & next & Hpc). cbn [exec worker_exec]. rewrite Hpc.
  assert (under_way s = cmd :: rest ++ cmds (srv (wld s))) as Hl by (unfold under_way; by rewrite Hpc).
  pose proof (sp_cmds _ Hi) as Hh. rewrite Hl in Hh. apply Forall_cons in Hh as [Hc Hh].
  destruct (harmless_done mem s cmd Hi Hc) as (w & -> & -> & Hw). cbn [mbind outcome_bind app].
  eexists. split; [done|].
  assert (chans w = chans (wld s) ∧ items w = items (wld s) ∧ cmds (srv w) = cmds (srv (wld s)) ∧
    worker_running (srv w) = worker_running (srv (wld s)) ∧ tick_ns (srv w) = tick_ns (srv (wld s)) ∧
    live (srv w) = [] ∧ channels_active (srv w) = 0) as (E1 & E2 & E3 & E4 & E5 & E6 & E7).
  { destruct (sp_table _ Hi). rewrite Hw. by destruct (is_stop cmd). }
  pose proof (sp_coming _ Hi) as Hcome. rewrite Hl, Hpc in Hcome. cbn [seen_stop existsb] in Hcome.
  pose proof (sp_cleared _ Hi) as Hclr. rewrite Hpc in Hclr. cbn [seen_stop] in Hclr.
  assert (seen_stop (after_cmds rest (seen || is_stop cmd) next) = seen || is_stop cmd) as Eseen
    by (destruct rest; cbn; [destruct (seen || is_stop cmd)|]; reflexivity).
  split.
  - constructor; unfold under_way; cbn [with_leaked with_pc wld pc];
      rewrite ?after_cmds_cmds, ?Eseen, ?E1, ?E2, ?E3, ?E4, ?E5; try by destruct Hi.
    + intros Hd. rewrite Hw in Hd |- *. destruct (is_stop cmd); [done|]. by apply (sp_poll _ Hi).
    + by rewrite <- orb_assoc.
    + intros Hs. rewrite Hw. destruct (is_stop cmd); [done|]. rewrite orb_false_r in Hs. by apply Hclr.
    + destruct rest; cbn; [destruct (seen || is_stop cmd)|]; exact I.
  - unfold stop_work. rewrite Hpc. cbn [with_leaked with_pc wld pc existsb]. rewrite E3.
    assert (length (channels (srv w)) ≤ length (channels (srv (wld s))))%nat as Hlen
      by (rewrite Hw; destruct (is_stop cmd); [cbn; lia|done]).
    destruct rest as [|c rest]; cbn [after_cmds existsb length] in *.
    + rewrite orb_false_r. destruct (seen || is_stop cmd); lia.
    + rewrite <- !orb_assoc. destruct (seen || (is_stop cmd || (is_stop c || existsb is_stop rest))); lia.
Qed.

Lemma stop_step l s : stopping s → by_worker l = true → enabled l s → ∃ s', exec l s = Done s' ∧ closer s s'.
Proof.
  intros Hi Hb He. destruct l; try done.
  - destruct He as [next Hpc]. eexists. split; [cbn [exec worker_exec]; by rewrite Hpc|].
    apply stop_detach; [done|by exists next|]. cbn [exec worker_exec]. by rewrite Hpc.
  - by apply stop_cmd.
  - destruct (exec (LRefresh mem_fds mem_index) s) as [s'| | |] eqn:E;
      [exists s'; split; [done|by eapply stop_refresh]|exfalso..];
      destruct He as [next Hpc]; cbn [exec worker_exec] in E; rewrite Hpc in E;
      unfold refresh_poll_cache in E; rewrite (proj2 (sp_table _ Hi)) in E; by destruct (pollfds_dirty _).
  - destruct He as [Hn [next Hpc]]. eexists. split; [cbn [exec worker_exec]; by rewrite Hpc|].
    eapply stop_clock; [done|split; [exact Hn|by exists next]|]. cbn [exec worker_exec]. by rewrite Hpc.
  - destruct He as (a & rest & rtime & next & now & Hpc). pose proof (sp_pc _ Hi) as Hn. by rewrite Hpc in Hn.
  - by apply stop_drain.
  - destruct He as (u & next & Hpc & Hw). eexists. split; [cbn [exec worker_exec]; by rewrite Hpc|].
    apply stop_wake; [done|by exists u, next|]. cbn [exec worker_exec]. by rewrite Hpc.
Qed.

Lemma stop_run ls s s' : worker_run ls s s' → stopping s → stopping s' ∧ (length ls + stop_work s' ≤ stop_work s)%nat.
Proof.
  induction 1 as [s|l ls s s1 s' Hb He E _ IH]; intros Hi; [done|].
  destruct (stop_step l s Hi Hb He) as (s2 & E2 & Hi2 & Hw). rewrite E in E2. injection E2 as <-.
  destruct (IH Hi2) as [Hi' Hw']. split; [done|]. cbn [length]. lia.
Qed.

(** Until it has stopped, the worker can go on. *)
Lemma stop_can_go s : stopping s → pc s ≠ WExit → ∃ l, by_worker l = true ∧ enabled l s.
Proof.
  intros Hi Hx. pose proof (sp_pc _ Hi) as Hpc. pose proof (sp_coming _ Hi) as Hc. unfold under_way in Hc.
  destruct (pc s) as [next|cmd rest seen next|next|next| |i next now| |until next|] eqn:E; try done.
  - exists LDetach. split; [done|]. by exists next.
  - exists (LCmd true). split; [done|]. by exists cmd, rest, seen, next.
  - exists (LRefresh true true). split; [done|]. by exists next.
  - exists (LClock 1 None). split; [done|]. split; [by unfold CLOCK_MAX|]. by exists next.
  - exists LDrain. split; [done|]. left. by exists i, next, now.
  - exists LWake. split; [done|]. exists until, next. split; [done|]. intros _ Hnil. by rewrite Hnil in Hc.
Qed.

Lemma free_harmless ow (w : world) l : Forall harmless l → free_command_list ow w l = Done w.
Proof.
  induction 1 as [|c l [_ Hc] _ IH]; [done|]. cbn [free_command_list].
  assert (free_command ow w (cmd_type c) = Done w) as ->.
  { unfold is_stop in Hc. destruct Hc as [Hc|[a ->]]; [|done]. by destruct (cmd_type c). }
  exact IH.
Qed.

(** What the deallocation leaves. *)
Record released (w : world) : Prop := {
  re_chans : chans w = ∅;
  re_items : items w = ∅;
  re_table : channels (srv w) = [];
  re_cmds : cmds (srv w) = [];
  re_poll : pollfds (srv w) = [] ∧ pollfds_index (srv w) = [];
  re_running : worker_running (srv w) = false;
}.

Lemma dealloc_end_ok s : stopping s → pc s = WExit → ∃ w, PyRtpServer_dealloc_end (wld s) = Done w ∧ released w.
Proof.
  intros Hi Hpc. pose proof (sp_cmds _ Hi) as Hh. unfold under_way in Hh. rewrite Hpc in Hh. cbn in Hh.
  unfold PyRtpServer_dealloc_end, rtp_server_stop_worker_end. cbn [detach_commands].
  cbn [cmds set_life]. rewrite free_harmless by done. cbn. eexists. split; [done|].
  pose proof (sp_cleared _ Hi) as Hc. rewrite Hpc in Hc. destruct Hi. constructor; try done. by apply Hc.
Qed.

(** The stop is sent. *)
Lemma stop_begin s :
  sys_inv s → chans (wld s) = ∅ → pend s = None →
  ∃ w, rtp_server_stop_worker_begin (wld s) true = Done (true, w) ∧ stopping (with_world s w).
Proof.
  intros Hi Hc Hp. destruct (si_life _ Hi) as (Hrun & Hin & Ht). pose proof (si_mem _ Hi) as Hm.
  unfold rtp_server_stop_worker_begin. rewrite Hrun. cbn [d_assert mbind outcome_bind negb].
  eexists. split; [done|]. match goal with |- stopping (with_world s ?x) => set (w := x) end.
  assert (all_refs s = []) as Hrefs.
  { destruct (all_refs s) as [|a l] eqn:E; [done|]. pose proof (mo_chans _ _ _ _ Hm a) as Ha.
    rewrite Hc, lookup_empty in Ha. destruct Ha. by left. }
  assert (live (srv (wld s)) = []) as Hlive.
  { unfold all_refs in Hrefs. apply app_eq_nil in Hrefs as [_ Hr]. apply app_eq_nil in Hr as [_ Hr].
    by apply app_eq_nil in Hr as [Hr _]. }
  assert (items (wld s) = ∅) as Hit.
  { pose proof (io_items _ _ _ (mo_items _ _ _ _ Hm)) as Hi'. unfold queued in Hi'. rewrite Hc in Hi'. cbn in Hi'.
    apply map_size_empty_inv. rewrite <- allocated_size. by rewrite Hi'. }
  assert (under_way (with_world s w) =
    under_way s ++ [{| cmd_type := CMD_STOP_WORKER; cmd_waits := false |}]) as Hl
    by (unfold under_way, w; cbn; by rewrite app_assoc).
  constructor; rewrite ?Hl; cbn [with_world with_pc wld pc]; try done.
  - destruct (si_table _ Hi) as [_ Ha _]. split; [done|]. cbn. rewrite Ha, Hlive. done.
  - intros Hd. destruct (si_poll _ Hi Hd) as [E1 E2]. rewrite Hlive in E1, E2. cbn. split; [|done].
    by apply Forall2_nil_inv_r in E2.
  - apply Forall_app. split; [|apply Forall_singleton; split; [done|by left]].
    pose proof (si_waits _ Hi) as Hw. rewrite Hp in Hw. cbn in Hw.
    pose proof (si_cmds _ Hi) as Hok. apply Forall_forall. intros c Hc'. rewrite Forall_forall in Hok.
    destruct (Hok c Hc') as (_ & _ & Hrem). assert (cmd_waits c = false) as Ew.
    { destruct (cmd_waits c) eqn:E; [|done]. by destruct (cmd_not_in_waited _ c Hw E). }
    split; [done|right; by apply Hrem].
  - rewrite existsb_app. cbn. by rewrite !orb_true_r.
  - pose proof (si_pc _ Hi) as Hpc. destruct (pc s); cbn in *; try done. by destruct Hpc as [-> _].
  - pose proof (si_pc _ Hi) as Hpc. destruct (pc s) as [| | | |a rest rtime next now| |i a ht next now| |];
      cbn [pc_ok idle_pc] in *; try done; try lia.
    + destruct Hpc as [Hn Hd]. split; [lia|exact Hd].
    + destruct Hpc as [Hpc _]. rewrite Hlive in Hpc. specialize (Hpc a ltac:(by left)). by apply elem_of_nil in Hpc.
    + destruct Hpc as [Ha _]. rewrite Hlive in Ha. by apply elem_of_nil in Ha.
Qed.
End Stop.
