(* ===== verification/ServerSpec.v ===== *)
(** What the RTP server of [Server] guarantees in every run: its operations
    succeed, the books of its memory are right, the worker does what the commands
    say and answers every caller, and sends what it was given. *)
From stdpp Require Import prelude list gmap strings.
From Stdlib Require Import ZArith Lia.
From S2P Require Import Prelude Py RcHeap Sync SPMC SendQueue ServerArgs Server ServerMem ServerInv.
From S2P Require Import ServerCalls ServerCreate ServerRun ServerLive ServerDrain ServerStop.
Local Open Scope Z_scope.

(** * Runs to evaluate *)

Section Runs.
Context {Q : Type} `{SendQueue Q}.

Definition at_poll (p : srv_pc) : bool := match p with WPoll _ _ _ _ _ => true | _ => false end.
Definition is_none {A} (o : option A) : bool := match o with None => true | Some _ => false end.

(** [enabled], as a test. *)
Definition enabledb (l : label) (s : sys Q) : bool :=
  let w := wld s in
  match l with
  | LDetach => match pc s with WTop _ => true | _ => false end
  | LCmd _ => match pc s with WCmds _ _ _ _ => true | _ => false end
  | LRefresh _ _ => match pc s with WRefresh _ => true | _ => false end
  | LClock now _ => (0 <? now) && (now <? CLOCK_MAX) && match pc s with WTick _ => true | _ => false end
  | LRecv _ _ => at_poll (pc s)
  | LDrain => match pc s with WDrain _ _ _ | WDrainCh _ _ _ _ _ => true | _ => false end
  | LWake => match pc s with
             | WWait None _ => match cmds (srv w) with [] => false | _ => true end
             | WWait (Some _) _ => true
             | _ => false
             end
  | LCreate args env =>
      (0 <=? ca_queue_size args) && (ca_queue_size args <=? U64_MAX) &&
      match ce_object env with Some a => is_none (chans w !! a) | None => true end
  | LClose on_worker a _ => bool_decide (a ∈ held s) && (negb on_worker || at_poll (pc s))
  | LSetTarget a _ _ _ _ => bool_decide (a ∈ held s)
  | LSend a arg item =>
      bool_decide (a ∈ held s) &&
      match item with Some i => is_none (items w !! i) | None => true end &&
      match arg with
      | ArgBytes p => bool_decide (p ∈ heldb s)
      | ArgObject (Some (p, _)) => is_none (objs w !! p)
      | ArgObject None => true
      end &&
      match chans w !! a with Some c => sq_pushes (out_q (state (val c))) + 1 <? SEND_BUDGET | None => true end
  | LShutdown _ => accepting_commands (srv w)
  | LEnd => negb (is_none (pend s)) && wt_done (cmd_waiter (srv w))
  | LTake a | LDrop a => bool_decide (a ∈ held s)
  | LNewObj p _ => is_none (objs w !! p)
  | LTakeObj p | LDropObj p => bool_decide (p ∈ heldb s)
  end.

Lemma is_none_true {A} (o : option A) : is_none o = true → o = None.
Proof. by destruct o. Qed.

Lemma at_poll_true p : at_poll p = true → ∃ a rest rtime next now, p = WPoll a rest rtime next now.
Proof. destruct p; try done. intros _. by do 5 eexists. Qed.

Lemma enabledb_ok l s : enabledb l s = true → enabled l s.
Proof.
  destruct l as [| | | | | | |args env|ow a m|a gai h p m|a arg item| | |a|a|p b|p|p]; cbn [enabledb enabled];
    rewrite ?andb_true_iff, ?bool_decide_eq_true; try done.
  - destruct (pc s); try done. by eexists.
  - destruct (pc s); try done. by do 4 eexists.
  - destruct (pc s); try done. by eexists.
  - intros [[H1 H2] H3]. zbool. split; [done|]. destruct (pc s); try done. by eexists.
  - apply at_poll_true.
  - destruct (pc s); try done; intros _; [left; by do 3 eexists|right; by do 5 eexists].
  - destruct (pc s) as [| | | | | | |until next|]; try done. intros Hw. exists until, next. split; [done|].
    intros ->. by destruct (cmds _).
  - intros [[H1 H2] H3]. zbool. split; [done|]. intros a Ha. rewrite Ha in H3. by apply is_none_true.
  - intros [Ha Hp]. split; [done|]. destruct ow; [|done]. by apply at_poll_true.
  - intros [[[Ha Hi] Harg] Hc]. split; [done|]. split; [|split].
    + intros i ->. by apply is_none_true.
    + destruct arg as [p|[[p d]|]]; [by apply bool_decide_eq_true in Harg|by apply is_none_true|done].
    + intros c E. rewrite E in Hc. by apply Z.ltb_lt.
  - intros [Hp Hd]. by destruct (pend s).
  - apply is_none_true.
Qed.

Fixpoint srun (ls : list label) (s : sys Q) : option (sys Q) :=
  match ls with
  | [] => Some s
  | l :: ls =>
      if enabledb l s then match exec l s with Done s' => srun ls s' | _ => None end else None
  end.

Lemma srun_reach ls s s' : sreach s → srun ls s = Some s' → sreach s'.
Proof.
  revert s. induction ls as [|l ls IH]; intros s Hs; cbn [srun]; [by intros [= <-]|].
  destruct (enabledb l s) eqn:E; [|done]. destruct (exec l s) as [s1| | |] eqn:E1; try done.
  apply IH. eapply sreach_step; [done|by apply enabledb_ok|done].
Qed.

(** Steps of anybody. *)
Definition any_step (s s' : sys Q) : Prop := ∃ l, enabled l s ∧ exec l s = Done s'.

Lemma any_steps_reach s s' : sreach s → rtc any_step s s' → sreach s'.
Proof. intros Hs Hr. induction Hr as [s|s s1 s' (l & He & E) _ IH]; [done|]. apply IH. by eapply sreach_step. Qed.

Lemma call_end_leaked s s' p : call_end s p = Done s' → leaked s' = leaked s.
Proof.
  destruct p; cbn [call_end]; rewrite bind_done; intros ([r w] & _ & E); by injection E as <-.
Qed.

Lemma leaked_grows l s s' a : exec l s = Done s' → a ∈ leaked s → a ∈ leaked s'.
Proof.
  destruct l; cbn [exec worker_exec python_exec]; repeat case_match;
    rewrite ?bind_done; try (by intros [= <-]);
    try (intros (? & _ & E); repeat case_match; try rewrite bind_done in E;
      try (destruct E as (? & _ & E)); repeat case_match; by injection E as <-).
  - intros ([stop w] & _ & [= <-]) Ha. cbn. apply elem_of_app. by right.
  - by intros ->%call_end_leaked.
Qed.
End Runs.

(** * Guarantees *)

Section Guarantees.
Context {Q : Type} `{SendQueueLaws Q}.




(** C37: In every run the table holds distinct living channels, as many as it
    counts, in a block of an admissible size; the poll cache, unless marked for
    renewal, holds the descriptors of exactly these channels, and it is not marked
    when the worker polls; the waiter is taken exactly while a call waits. *)
Theorem server_well_formed (s : sys Q) (Hs : sreach s) :
  table_ok (srv (wld s))
  ∧ (∀ a, a ∈ live (srv (wld s)) → is_Some (chans (wld s) !! a))
  ∧ (pollfds_dirty (srv (wld s)) = false →
       pollfds_index (srv (wld s)) = live (srv (wld s)) ∧
       Forall2 (polls (chans (wld s))) (pollfds (srv (wld s))) (live (srv (wld s))))
  ∧ (∀ next, pc s = WTick next → pollfds_dirty (srv (wld s)) = false)
  ∧ cmd_waiter_busy (srv (wld s)) = bool_decide (is_Some (pend s)).
Proof.
  pose proof (reach_inv s Hs) as Hi. split; [apply (si_table _ Hi)|].
  split; [intros a Ha; destruct (live_alive s a Hi Ha) as [c Hc]; by exists c|].
  split; [apply (si_poll _ Hi)|]. split; [|apply (si_busy _ Hi)].
  intros next Hpc. pose proof (si_pc _ Hi) as Hn. rewrite Hpc in Hn. apply Hn.
Qed.

(** C12: Each command changes the set of channels as the specification says, tells
    the caller that waits the status the specification gives, and a new target is
    in place; an addition fails only when the table is full and cannot grow. *)
Theorem server_commands (mem : bool) (s : sys Q) (cmd : RtpServerCmd) (rest : list RtpServerCmd)
    (seen : bool) (next : Z) (Hs : sreach s) (Hpc : pc s = WCmds cmd rest seen next) :
  ∃ s' full, exec (LCmd mem) s = Done s'
  ∧ (full = true → table_full mem (srv (wld s)))
  ∧ table (srv (wld s')) = (table_step (cmd_type cmd) full (table (srv (wld s)))).1
  ∧ (cmd_waits cmd = true → cmd_waiter (srv (wld s')) =
       {| wt_done := true; wt_status := (table_step (cmd_type cmd) full (table (srv (wld s)))).2 |})
  ∧ (cmd_waits cmd = false → cmd_waiter (srv (wld s')) = cmd_waiter (srv (wld s)))
  ∧ (∀ a addr, cmd_type cmd = CMD_SET_TARGET a addr → a ∈ live (srv (wld s)) →
       ∃ c, chans (wld s') !! a = Some c ∧ st_has_target (state (val c)) = true ∧
         target_addr (state (val c)) = addr)
  ∧ under_way s = cmd :: under_way s'.
Proof.
  pose proof (reach_inv s Hs) as Hi. pose proof (si_pc _ Hi) as Hn. rewrite Hpc in Hn. destruct Hn as [-> _].
  destruct (turn_any s cmd rest next Hi Hpc mem) as (w' & E & Hd).
  exists (turn s rest next w' (lost_by (srv (wld s)) cmd)).
  destruct (cd_spec _ _ _ _ Hd) as (full & Hfull & Ht & Hst). exists full.
  split; [cbn [exec worker_exec]; by rewrite Hpc, E|]. do 2 (split; [done|]).
  pose proof (cd_waiter _ _ _ _ Hd) as Hw. split; [|split; [|split; [apply (cd_target _ _ _ _ Hd)|apply (cd_way _ _ _ _ Hd)]]].
  - intros Ew. rewrite Ew in Hw. specialize (Hst Ew). destruct (cmd_waiter _) as [d st]. cbn in *. congruence.
  - intros Ew. by rewrite Ew in Hw.
Qed.


(** C24: Draining sends every queued item of every channel in the table once, in
    the order of the table and of the queues, with its bytes and to the channel's
    target, drops those of channels without one, and leaves the queues of the
    table's channels empty and all other channels as they were. *)
Theorem drain_sends_all (s : sys Q) (Hs : sreach s) :
  ∃ w', drain_outputs (wld s) = Done w'
  ∧ w_log w' = w_log (wld s) ++ (live (srv (wld s)) ≫= sent_by (wld s))
  ∧ (∀ a, a ∈ live (srv (wld s)) → ∃ c', chans w' !! a = Some c' ∧ waiting c' = [])
  ∧ (∀ a, a ∉ live (srv (wld s)) → chans w' !! a = chans (wld s) !! a)
  ∧ allocated w' ≡ₚ queued w'.
Proof.
  pose proof (reach_inv s Hs) as Hi.
  destruct (drain_list_ok (channels (srv (wld s))) (wld s) _ _ (si_mem _ Hi)) as
    (w' & E & Hm & _ & Hlog & Hin & Hout & _); [apply (to_nodup _ (si_table _ Hi))| |].
  { intros a Ha. destruct (live_alive s a Hi Ha) as [c Hc]. by exists c. }
  exists w'. split; [done|]. do 3 (split; [done|]). apply (io_items _ _ _ (mo_items _ _ _ _ Hm)).
Qed.

(** C36: [send_pkt] queues the bytes given, behind what is queued already, exactly
    when the channel is open and has a target, the server takes commands, there is
    memory and room, and the argument gives bytes; otherwise it raises an
    exception that goes with what is missing and queues nothing. *)
Theorem send_pkt_outcomes (s : sys Q) (a : Z) (arg : bytes_arg) (item : option Z)
    (Hs : sreach s) (He : enabled (LSend a arg item) s) :
  ∃ r w' c c', PyRtpChannel_send_pkt (wld s) a arg item = Done (r, w')
  ∧ chans (wld s) !! a = Some c ∧ chans w' !! a = Some c'
  ∧ match r with
    | Ret _ => ∃ i d, item = Some i ∧ closed (val c) = false ∧ has_target (val c) = true ∧
        accepting_commands (srv (wld s)) = true ∧
        arg_bytes (objs (wld s)) arg d ∧ item_data w' i d ∧ waiting c' = waiting c ++ [i]
    | Raise e => waiting c' = waiting c ∧ allocated w' ≡ₚ queued w' ∧
        (e = RuntimeError ∧ (closed (val c) = true ∨ has_target (val c) = false ∨
           accepting_commands (srv (wld s)) = false) ∨
         e = RtpQueueFullError ∧ zlen (waiting c) = sq_cap (out_q (state (val c))) ∨
         e = MemoryError ∧ item = None ∨
         e = TypeError ∧ arg = ArgObject None)
    end.
Proof.
  pose proof (reach_inv s Hs) as Hi. destruct He as (Ha & Hitem & Harg & Hbud).
  destruct (send_pkt_ok (wld s) a arg item _ _ (si_mem _ Hi)) as
    (r & w' & c & c' & E & Hm & _ & _ & Hc & Hc' & Hr); [by apply held_ref|apply (si_life _ Hi)|done..|].
  exists r, w', c, c'. do 3 (split; [done|]). destruct r as [|e]; [done|].
  destruct Hr as [Hw Hr]. split; [done|]. split; [apply (io_items _ _ _ (mo_items _ _ _ _ Hm))|done].
Qed.


(** The worker's next tick is the first after now in the grid of the ticks
    before, so that late rounds are skipped and never made up for; the loop that
    looks for it ends. *)
Theorem server_tick_schedule (s : sys Q) (i : nat) (next now : Z)
    (Hs : sreach s) (Hpc : pc s = WDrain i next now) (Hend : channels (srv (wld s)) !! i = None) :
  ∃ k, 1 ≤ k ∧ exec LDrain s = Done (with_pc s (wld s) (WTop (next + k * tick_ns (srv (wld s)))))
  ∧ now < next + k * tick_ns (srv (wld s)) ≤ now + tick_ns (srv (wld s)).
Proof.
  pose proof (reach_inv s Hs) as Hi. pose proof (si_pc _ Hi) as Hn. rewrite Hpc in Hn. destruct Hn as [Hn Hc].
  destruct (si_life _ Hi) as (_ & _ & Ht). set (tick := tick_ns (srv (wld s))) in *.
  assert (0 ≤ (now - next) / tick) by (apply Z.div_pos; lia).
  destruct (tick_advance_ok (S (Z.to_nat ((now - next) / tick))) next now tick) as (k & Hk & E & Hk');
    [lia|lia|unfold U64_MAX, CLOCK_MAX in *; lia|lia|].
  exists k. split; [done|]. split; [|done]. cbn [exec worker_exec]. rewrite Hpc, Hend. fold tick. by rewrite E.
Qed.

(** A channel whose table reference is lost - one a packet callback closed -
    is never freed again, whatever program and worker go on to do. *)
Theorem callback_close_leaks (s s' : sys Q) (a : Z)
    (Hs : sreach s) (Hr : rtc any_step s s') (Ha : a ∈ leaked s) :
  ∃ c, chans (wld s') !! a = Some c.
Proof.
  pose proof (reach_inv s' (any_steps_reach s s' Hs Hr)) as Hi. apply (ref_alive s' a Hi).
  assert (a ∈ leaked s') as Ha'.
  { clear Hs Hi. induction Hr as [s|s s1 s' (l & _ & E) _ IH]; [done|]. apply IH. by apply (leaked_grows l s). }
  unfold all_refs. rewrite !elem_of_app. auto 10.
Qed.


(** A second [shutdown] fails its assertion. *)
Lemma second_shutdown_aborts (w : world Q) mem :
  worker_running (srv w) = true → accepting_commands (srv w) = false →
  PyRtpServer_shutdown_begin w mem = Aborted.
Proof. intros Hr Ha. unfold PyRtpServer_shutdown_begin. by rewrite Hr, Ha. Qed.
End Guarantees.

(** * A server at work *)

#[local] Instance demo_queue : SendQueue SPMCQueue := spmc_send_queue sample_heap (λ _, O).
#[local] Instance demo_laws : SendQueueLaws SPMCQueue := spmc_send_queue_laws _ _ sample_heap_sized.

Definition demo_addr (port : Z) : sockaddr :=
  {| sa_family := AF_INET; sa_addr := [127; 0; 0; 1]; sa_port := port; sa_len := 16 |}.
Definition demo_gai (port : Z) (r : gai_request) : option (list addrinfo) :=
  Some [{| ai_family := AF_INET; ai_addr := demo_addr port |}].
Definition demo_args : create_args :=
  {| ca_callable := true; ca_pkt_in := 77; ca_host := None; ca_port := 0; ca_queue_size := 4;
     ca_family := FamNone |}.
Definition demo_env (bind : Z) : create_env :=
  {| ce_getaddrinfo := demo_gai 0; ce_socket := 5; ce_nonblock := 0; ce_bind := bind;
     ce_sockname := Some (demo_addr 5000); ce_object := Some 100; ce_cmd := true |}.

Definition demo_start : sys SPMCQueue :=
  fresh_sys (set_life PyRtpServer_new true true false true (tick_of_hz 200) CLOCK_MONOTONIC).
Definition demo_sys (ls : list label) : sys SPMCQueue := default demo_start (srun ls demo_start).

Lemma demo_reach ls : sreach (demo_sys ls).
Proof.
  assert (sreach demo_start) as Hs by by apply (sreach_start 200 CLOCK_MONOTONIC).
  unfold demo_sys. destruct (srun ls demo_start) as [s|] eqn:E; [|done]. by apply (srun_reach ls demo_start).
Qed.

(** A channel is made, gets a target, and a datagram to send. *)
Definition demo_make : list label := [LCreate demo_args (demo_env 0); LDetach; LCmd true; LEnd].
Definition demo_round (now : Z) : list label := [LRefresh true true; LClock now None].
Definition demo_drain : list label := [LDrain; LDrain; LDrain; LDrain; LDrain; LDrain].
Definition demo_target : list label :=
  demo_make ++ [LSetTarget 100 (demo_gai 6000) "localhost" 6000 true] ++ demo_round 1000 ++ demo_drain ++
  [LDetach].
Definition demo_send : list label :=
  demo_target ++ [LCmd true; LEnd; LNewObj 200 [1; 2; 3]; LSend 100 (ArgBytes 200) (Some 300)].
(** A callback closes the channel. *)
Definition demo_poll : list label :=
  demo_send ++ [LRefresh true true; LClock 10000000 (Some (1, [true])); LRecv (Some ([7], demo_addr 9)) true].
Definition demo_leak : list label :=
  demo_poll ++ [LClose true 100 true; LRecv None true] ++ demo_drain ++ [LDrain; LDetach; LCmd true].

Definition demo_item : list label := demo_target ++ [LCmd true; LEnd; LNewObj 200 [1; 2; 3]].
Definition demo_put : label := LSend 100 (ArgBytes 200) (Some 300).



Lemma server_well_formed_witness :
  pollfds (srv (wld (demo_sys (demo_send ++ [LRefresh true true])))) = [5] ∧
  table_ok (srv (wld (demo_sys (demo_send ++ [LRefresh true true])))).
Proof.
  split; [by vm_compute|].
  exact (proj1 (server_well_formed (demo_sys (demo_send ++ [LRefresh true true])) (demo_reach _))).
Defined.

Lemma server_commands_witness :
  ∃ s' c, exec (LCmd true) (demo_sys demo_target) = Done s' ∧ chans (wld s') !! 100 = Some c ∧
    target_addr (state (val c)) = demo_addr 6000.
Proof.
  assert (pc (demo_sys demo_target) = WCmds (cmd_of (PSetTarget 100 (demo_addr 6000))) [] false 5001000) as Hpc
    by by vm_compute.
  pose proof (server_commands true (demo_sys demo_target) _ _ _ _ (demo_reach _) Hpc)
    as (s' & full & E & _ & _ & _ & _ & Ht & _).
  assert (100 ∈ live (srv (wld (demo_sys demo_target)))) as Hl by (vm_compute; by left).
  destruct (Ht 100 (demo_addr 6000) eq_refl Hl) as (c & Hc & _ & Ha).
  exact (ex_intro _ s' (ex_intro _ c (conj E (conj Hc Ha)))).
Defined.


Lemma drain_sends_all_witness :
  ∃ w', drain_outputs (wld (demo_sys demo_send)) = Done w' ∧ w_log w' = [SendTo 5 [1; 2; 3] (demo_addr 6000)].
Proof.
  destruct (drain_sends_all (demo_sys demo_send) (demo_reach _)) as (w' & E & Hl & _).
  exists w'. split; [exact E|]. rewrite Hl. by vm_compute.
Defined.

Lemma send_pkt_outcomes_witness :
  enabledb demo_put (demo_sys demo_item) = true ∧
  ∃ r w' c c', PyRtpChannel_send_pkt (wld (demo_sys demo_item)) 100 (ArgBytes 200) (Some 300) = Done (r, w')
    ∧ chans (wld (demo_sys demo_item)) !! 100 = Some c ∧ chans w' !! 100 = Some c'.
Proof.
  split; [by vm_compute|].
  destruct (send_pkt_outcomes (demo_sys demo_item) 100 (ArgBytes 200) (Some 300) (demo_reach _))
    as (r & w' & c & c' & E & Hc & Hc' & _); [apply (enabledb_ok demo_put); by vm_compute|].
  exists r, w', c, c'. split; [exact E|]. split; [exact Hc|exact Hc'].
Defined.


Lemma server_tick_schedule_witness :
  ∃ k, 1 ≤ k ∧ 10000000 < 5001000 + k * 5000000 ≤ 10000000 + 5000000.
Proof.
  destruct (server_tick_schedule (demo_sys (demo_poll ++ [LRecv None true] ++ demo_drain)) 4 5001000 10000000
    (demo_reach _)) as (k & Hk & _ & H); [by vm_compute..|]. by exists k.
Defined.

Lemma callback_close_leaks_witness :
  leaked (demo_sys demo_leak) = [100] ∧ ∃ c, chans (wld (demo_sys demo_leak)) !! 100 = Some c.
Proof.
  split; [by vm_compute|].
  refine (callback_close_leaks (demo_sys demo_leak) (demo_sys demo_leak) 100 (demo_reach _) (rtc_refl _ _) _).
  vm_compute. by left.
Defined.

